(** * sohappy: terminal-sharing relay, producer controller and crypto envelope

    A shallow embedding of the TypeScript sources of the repository:
    - [TmuxCapture], the capture loop:
        src/packages/cli/src/tmux/capture.ts, lines 24-215;
    - the crypto helpers ([encrypt], [decrypt], [decryptToString],
      [parsePairingCode], [encodePairingCode], ...):
        src/packages/cli/src/tmux/capture.ts, lines 216-357
        (the viewer's copy: src/packages/web-client/src/crypto.ts, lines 1-71);
    - [EncryptedWSClient], the producer's encrypted client:
        src/unnamed/part_000, lines 743-974;
    - the relay server (the socket.io handlers, the reaping timer and the
      daemon command endpoint):
        src/packages/web-client/src/crypto.ts, lines 1176-1853.

    Conventions.  A JavaScript [number] that holds a sequence number or a
    millisecond clock is a [Z]; a [string] is a [string]; [null] and
    [undefined] are [None].  A handler is a function from the state before
    the call to the state after it and the messages emitted, in order.
    What a handler reads from its environment during the call -- [Date.now()],
    [capturePane()], [nacl.randomBytes], [Math.random()] -- is an argument.
    A call that may throw returns an [Exc].

    Part I holds the definitions, Part II the theorems. *)

From Stdlib Require Import ZArith List String Ascii Lia.
From stdpp Require Import base option list gmap strings pretty.

Local Open Scope Z_scope.
Local Set Warnings "-register-all".

(* ================================================================== *)
(** * Part I: the embedding                                             *)
(* ================================================================== *)

(** ** JavaScript values *)

Module JS.

(** The values [JSON.parse] can return.  Numbers are the integer-valued
    ones (sequence numbers and millisecond clocks); an object is the list
    of its own properties. *)
Inductive value : Type :=
| Null
| Bool (b : bool)
| Num (n : Z)
| Str (s : string)
| Arr (items : list value)
| Obj (fields : list (string * value)).

(** [undefined] is the absence of a value. *)
Definition undefined : option value := None.

(** ToBoolean. *)
Definition truthy (v : option value) : bool :=
  match v with
  | None => false
  | Some Null => false
  | Some (Bool b) => b
  | Some (Num n) => negb (n =? 0)
  | Some (Str s) => negb (bool_decide (s = ""%string))
  | Some (Arr _) => true
  | Some (Obj _) => true
  end.

(** ToBoolean of a [string | null | undefined]. *)
Definition truthy_str (s : option string) : bool :=
  match s with
  | None => false
  | Some s => negb (bool_decide (s = ""%string))
  end.

Fixpoint lookup_field (k : string) (fields : list (string * value)) : option value :=
  match fields with
  | [] => None
  | (k', v) :: rest => if bool_decide (k' = k) then Some v else lookup_field k rest
  end.

(** [v.k] for a property name [k] that no prototype defines.  Reading a
    property of [null] throws a TypeError: the outer [None]. *)
Definition get (v : value) (k : string) : option (option value) :=
  match v with
  | Null => None
  | Obj fields => Some (lookup_field k fields)
  | _ => Some undefined
  end.

(** A [Map<string, V>] where the iteration order is observed: the entries
    in insertion order. *)
Definition Map (V : Type) : Type := list (string * V).

Fixpoint map_get {V} (k : string) (m : Map V) : option V :=
  match m with
  | [] => None
  | (k', v) :: rest => if bool_decide (k' = k) then Some v else map_get k rest
  end.

(** [m.set(k, v)]: an existing key keeps its place. *)
Fixpoint map_set {V} (k : string) (v : V) (m : Map V) : Map V :=
  match m with
  | [] => [(k, v)]
  | (k', v') :: rest =>
      if bool_decide (k' = k) then (k', v) :: rest else (k', v') :: map_set k v rest
  end.

Definition map_delete {V} (k : string) (m : Map V) : Map V :=
  filter (fun e => negb (bool_decide (fst e = k))) m.

(** [m.values().next().value] *)
Definition map_first {V} (m : Map V) : option (string * V) := head m.

End JS.

(** ** Messages on the wire *)

Definition bytes : Type := list Byte.byte.

(** [OutputEvent]; its [type] field is the constant ['output']. *)
Record OutputEvent : Type := mkOutputEvent {
  seq : Z;
  content : string;
  timestamp : Z;
}.

Record EncryptedMessage : Type := mkEncryptedMessage {
  nonce : string;       (* base64 *)
  ciphertext : string;  (* base64 *)
}.

Definition OutputEvent_to_JS (e : OutputEvent) : JS.value :=
  JS.Obj [("type"%string, JS.Str "output"); ("seq"%string, JS.Num (seq e));
          ("content"%string, JS.Str (content e)); ("timestamp"%string, JS.Num (timestamp e))].

(** ** [TmuxCapture] *)

Module TmuxCapture.

Record t : Type := mk {
  running : bool;
  seq : Z;
  lastContent : string;
  callback : bool;   (* whether a callback is registered *)
}.

(** The field initialisers of the class. *)
Definition new : t :=
  {| running := false; seq := 0; lastContent := ""; callback := false |}.

(** [start(callback)].  [pane] is what [capturePane()] returns during the
    call and [now] what [Date.now()] returns; the result lists the events
    handed to the callback. *)
Definition start (pane : string) (now : Z) (c : t) : t * list OutputEvent :=
  if running c then (c, [])
  else
    let c1 := {| running := true; seq := seq c; lastContent := pane; callback := true |} in
    if negb (bool_decide (lastContent c1 = ""%string)) then
      let c2 := {| running := true; seq := seq c1 + 1; lastContent := pane; callback := true |} in
      (c2, [mkOutputEvent (seq c2) (lastContent c2) now])
    else (c1, []).

(** [poll()] *)
Definition poll (pane : string) (now : Z) (c : t) : t * list OutputEvent :=
  if negb (running c) || negb (callback c) then (c, [])
  else
    let currentContent := pane in
    if negb (bool_decide (currentContent = lastContent c)) then
      let c1 := {| running := running c; seq := seq c + 1;
                   lastContent := lastContent c; callback := callback c |} in
      ({| running := running c1; seq := seq c1;
          lastContent := currentContent; callback := callback c1 |},
       [mkOutputEvent (seq c1) currentContent now])
    else (c, []).

(** [stop()] *)
Definition stop (c : t) : t :=
  {| running := false; seq := seq c; lastContent := lastContent c; callback := false |}.

(** The timer of [start]: one [poll] per tick, each with the pane content
    and the clock it reads.  The result keeps the events of each tick
    apart. *)
Fixpoint polls (ticks : list (string * Z)) (c : t) : t * list (list OutputEvent) :=
  match ticks with
  | [] => (c, [])
  | (pane, now) :: rest =>
      let '(c1, out) := poll pane now c in
      let '(c2, outs) := polls rest c1 in
      (c2, out :: outs)
  end.

(** A capture from a new object: [start], then the ticks of its timer.
    The result is what [start] emitted and what each tick emitted. *)
Definition session (pane0 : string) (now0 : Z) (ticks : list (string * Z))
  : list OutputEvent * list (list OutputEvent) :=
  let '(c, out0) := start pane0 now0 new in
  let '(_, outs) := polls ticks c in
  (out0, outs).

End TmuxCapture.

(** ** Exceptions *)

(** The outcome of a call that may throw. *)
Inductive Exc (A : Type) : Type :=
| Return (a : A)
| Throw.
Arguments Return {A} a.
Arguments Throw {A}.

#[global] Instance exc_ret : MRet Exc := fun _ a => Return a.
#[global] Instance exc_bind : MBind Exc := fun _ _ f x =>
  match x with
  | Return a => f a
  | Throw => Throw
  end.

(** [try { ... } catch { return null }] *)
Definition catch_null {A} (x : Exc (option A)) : option A :=
  match x with
  | Return r => r
  | Throw => None
  end.

(** ** The host: tweetnacl, tweetnacl-util and the JSON built-ins *)

(** The library calls the crypto helpers make.  A call that throws on some
    arguments (a malformed base64 text, a key or nonce of the wrong size, a
    byte string that is no UTF-8, a text that is no JSON) returns [Throw]
    there. *)
Class Host : Type := {
  util_encodeBase64 : bytes -> string;
  util_decodeBase64 : string -> Exc bytes;
  util_decodeUTF8 : string -> bytes;          (* string to its UTF-8 bytes *)
  util_encodeUTF8 : bytes -> Exc string;      (* UTF-8 bytes to string *)
  (** [nacl.secretbox(msg, nonce, key)] *)
  nacl_secretbox : bytes -> bytes -> bytes -> Exc bytes;
  (** [nacl.secretbox.open(box, nonce, key)]: [null] when authentication fails *)
  nacl_secretbox_open : bytes -> bytes -> bytes -> Exc (option bytes);
  (** [nacl.box.before(theirPublicKey, mySecretKey)] *)
  nacl_box_before : bytes -> bytes -> Exc bytes;
  JSON_parse : string -> Exc JS.value;
  JSON_stringify : JS.value -> string;
}.

(** [nacl.secretbox.nonceLength] and [nacl.secretbox.keyLength] *)
Definition nacl_secretbox_nonceLength : nat := 24.
Definition nacl_secretbox_keyLength : nat := 32.

(** What the helpers rely on: the encodings invert each other and a box
    opens under the nonce and key that sealed it. *)
Class HostLaws (H : Host) : Prop := {
  decodeBase64_encodeBase64 :
    forall b, util_decodeBase64 (util_encodeBase64 b) = Return b;
  encodeUTF8_decodeUTF8 :
    forall s, util_encodeUTF8 (util_decodeUTF8 s) = Return s;
  secretbox_returns :
    forall m n k,
      length n = nacl_secretbox_nonceLength -> length k = nacl_secretbox_keyLength ->
      exists c, nacl_secretbox m n k = Return c;
  secretbox_open_secretbox :
    forall m n k c,
      nacl_secretbox m n k = Return c ->
      nacl_secretbox_open c n k = Return (Some m);
}.

(** ** The crypto helpers *)

Module Crypto.

Record KeyPair : Type := mkKeyPair {
  publicKey : bytes;
  secretKey : bytes;
}.

Record PairingCode : Type := mkPairingCode {
  pc_sessionId : string;
  pc_publicKey : string;   (* base64 *)
  pc_timestamp : Z;
}.

Definition PairingCode_to_JS (c : PairingCode) : JS.value :=
  JS.Obj [("sessionId"%string, JS.Str (pc_sessionId c));
          ("publicKey"%string, JS.Str (pc_publicKey c));
          ("timestamp"%string, JS.Num (pc_timestamp c))].

(** [string | Uint8Array] *)
Inductive Message : Type :=
| MString (s : string)
| MBytes (b : bytes).

Section WithHost.
Context {H : Host}.

Definition computeSharedSecret (ourSecretKey theirPublicKey : bytes) : Exc bytes :=
  nacl_box_before theirPublicKey ourSecretKey.

(** [typeof message === 'string' ? decodeUTF8(message) : message] *)
Definition messageBytes (message : Message) : bytes :=
  match message with
  | MString s => util_decodeUTF8 s
  | MBytes b => b
  end.

(** [encrypt(message, sharedSecret)]; [rnd] is what
    [nacl.randomBytes(nacl.secretbox.nonceLength)] returns during the call. *)
Definition encrypt (message : Message) (sharedSecret : bytes) (rnd : bytes)
  : Exc EncryptedMessage :=
  let nonce := rnd in
  ciphertext ← nacl_secretbox (messageBytes message) nonce sharedSecret;
  Return {| nonce := util_encodeBase64 nonce;
            ciphertext := util_encodeBase64 ciphertext |}.

Definition decrypt (encrypted : EncryptedMessage) (sharedSecret : bytes)
  : Exc (option bytes) :=
  nonce ← util_decodeBase64 (nonce encrypted);
  ciphertext ← util_decodeBase64 (ciphertext encrypted);
  decrypted ← nacl_secretbox_open ciphertext nonce sharedSecret;
  Return decrypted.

Definition decryptToString (encrypted : EncryptedMessage) (sharedSecret : bytes)
  : Exc (option string) :=
  decrypted ← decrypt encrypted sharedSecret;
  match decrypted with
  | None => Return None
  | Some d => s ← util_encodeUTF8 d; Return (Some s)
  end.

(** [now] is what [Date.now()] returns. *)
Definition generatePairingCode (sessionId : string) (publicKey : bytes) (now : Z)
  : PairingCode :=
  {| pc_sessionId := sessionId;
     pc_publicKey := util_encodeBase64 publicKey;
     pc_timestamp := now |}.

(** [parsePairingCode(code)]: the parsed value itself is returned. *)
Definition parsePairingCode (code : string) : option JS.value :=
  catch_null (
    parsed ← JSON_parse code;
    match JS.get parsed "sessionId" with
    | None => Throw
    | Some sessionId =>
        if negb (JS.truthy sessionId) then Return None
        else match JS.get parsed "publicKey" with
             | None => Throw
             | Some publicKey =>
                 if negb (JS.truthy publicKey) then Return None
                 else match JS.get parsed "timestamp" with
                      | None => Throw
                      | Some timestamp =>
                          if negb (JS.truthy timestamp) then Return None
                          else Return (Some parsed)
                      end
             end
    end).

Definition encodePairingCode (code : PairingCode) : string :=
  JSON_stringify (PairingCode_to_JS code).

Definition publicKeyFromBase64 (base64 : string) : Exc bytes :=
  util_decodeBase64 base64.

Definition publicKeyToBase64 (key : bytes) : string :=
  util_encodeBase64 key.

End WithHost.
End Crypto.

(** ** [EncryptedWSClient]: the producer's encrypted client *)

(** The payload of ['encrypted-output'] as the producer sends it. *)
Record EncryptedOutputEvent : Type := mkEncryptedOutputEvent {
  eo_viewerId : string;
  eo_encrypted : EncryptedMessage;
  eo_seq : Z;
  eo_timestamp : Z;
}.

(** The payload of ['output-history']. *)
Record OutputHistoryEvent : Type := mkOutputHistoryEvent {
  oh_encrypted : EncryptedMessage;
  oh_seq : Z;
  oh_timestamp : Z;
}.

Module EncryptedWSClient.

(** What the client emits on its socket. *)
Inductive Emit : Type :=
| encrypted_output (data : EncryptedOutputEvent)
| output_history (data : OutputHistoryEvent)
| decrypted_input (input : JS.value).

Record t : Type := mk {
  (** [this.socket]: [None] is [null], [Some b] a socket whose [connected]
      flag is [b]. *)
  socket : option bool;
  keyPair : Crypto.KeyPair;
  sharedSecrets : JS.Map bytes;     (* viewerId -> sharedSecret *)
  lastOutputEvent : option OutputEvent;
}.

Definition set_lastOutputEvent (e : option OutputEvent) (c : t) : t :=
  {| socket := socket c; keyPair := keyPair c;
     sharedSecrets := sharedSecrets c; lastOutputEvent := e |}.

Definition set_sharedSecrets (m : JS.Map bytes) (c : t) : t :=
  {| socket := socket c; keyPair := keyPair c;
     sharedSecrets := m; lastOutputEvent := lastOutputEvent c |}.

(** [this.socket?.connected], as a condition *)
Definition socket_connected (c : t) : bool :=
  match socket c with
  | Some b => b
  | None => false
  end.

Section WithHost.
Context {H : Host}.

(** The [for (const [viewerId, sharedSecret] of this.sharedSecrets)] loop of
    [sendEncryptedOutput]: the [i]-th encryption draws the nonce [rnd i];
    an exception ends the loop, what was emitted before it stays emitted. *)
Fixpoint send_to_each (event : OutputEvent) (rnd : nat -> bytes) (i : nat)
    (entries : list (string * bytes)) : list Emit * Exc unit :=
  match entries with
  | [] => ([], Return tt)
  | (viewerId, sharedSecret) :: rest =>
      match Crypto.encrypt (Crypto.MString (JSON_stringify (OutputEvent_to_JS event)))
                           sharedSecret (rnd i) with
      | Throw => ([], Throw)
      | Return encrypted =>
          let '(out, r) := send_to_each event rnd (S i) rest in
          (encrypted_output {| eo_viewerId := viewerId; eo_encrypted := encrypted;
                               eo_seq := seq event; eo_timestamp := timestamp event |}
             :: out, r)
      end
  end.

(** [sendEncryptedOutput(event)] *)
Definition sendEncryptedOutput (event : OutputEvent) (rnd : nat -> bytes) (c : t)
  : t * list Emit * Exc unit :=
  let c := set_lastOutputEvent (Some event) c in
  if negb (socket_connected c) then (c, [], Return tt)
  else
    match send_to_each event rnd 0 (sharedSecrets c) with
    | (out, Throw) => (c, out, Throw)
    | (out, Return _) =>
        if (0 <? length (sharedSecrets c))%nat then
          match JS.map_first (sharedSecrets c) with
          | Some (firstViewerId, firstSecret) =>
              match Crypto.encrypt
                      (Crypto.MString (JSON_stringify (OutputEvent_to_JS event)))
                      firstSecret (rnd (length (sharedSecrets c))) with
              | Throw => (c, out, Throw)
              | Return encrypted =>
                  (c, out ++ [output_history {| oh_encrypted := encrypted;
                                                oh_seq := seq event;
                                                oh_timestamp := timestamp event |}],
                   Return tt)
              end
          | None => (c, out, Return tt)
          end
        else (c, out, Return tt)
    end.

(** The ['viewer-joined'] handler. *)
Definition on_viewer_joined (viewerId publicKey : string) (rnd : bytes) (c : t)
  : t * list Emit * Exc unit :=
  match Crypto.publicKeyFromBase64 publicKey with
  | Throw => (c, [], Throw)
  | Return viewerPublicKey =>
      match Crypto.computeSharedSecret (Crypto.secretKey (keyPair c)) viewerPublicKey with
      | Throw => (c, [], Throw)
      | Return sharedSecret =>
          let c := set_sharedSecrets (JS.map_set viewerId sharedSecret (sharedSecrets c)) c in
          match lastOutputEvent c with
          | Some last =>
              match Crypto.encrypt
                      (Crypto.MString (JSON_stringify (OutputEvent_to_JS last)))
                      sharedSecret rnd with
              | Throw => (c, [], Throw)
              | Return encrypted =>
                  (c,
                   match socket c with
                   | Some _ =>
                       [encrypted_output {| eo_viewerId := viewerId;
                                            eo_encrypted := encrypted;
                                            eo_seq := seq last;
                                            eo_timestamp := timestamp last |}]
                   | None => []
                   end,
                   Return tt)
              end
          | None => (c, [], Return tt)
          end
      end
  end.

(** The ['viewer-left'] handler. *)
Definition on_viewer_left (viewerId : string) (c : t) : t :=
  set_sharedSecrets (JS.map_delete viewerId (sharedSecrets c)) c.

End WithHost.
End EncryptedWSClient.

(** ** The relay server *)

Module Relay.

(** Control lock timeout (ms): auto-release if no input for this duration. *)
Definition CONTROL_LOCK_TIMEOUT : Z := 30000.

Record Viewer : Type := mkViewer {
  socketId : string;
  publicKey : string;
  nickname : option string;
}.

Record ControlLock : Type := mkControlLock {
  holderId : string;
  holderNickname : option string;
  acquiredAt : Z;
  lastInputAt : Z;
}.

Record Session : Type := mkSession {
  id : string;
  userId : option string;
  cliSocketId : option string;
  cliPublicKey : option string;
  daemonSocketId : option string;
  viewers : gmap string Viewer;
  lastOutput : option OutputEvent;
  outputHistory : list OutputEvent;
  encryptedHistory : list EncryptedOutputEvent;
  encrypted : bool;
  controlLock : option ControlLock;
  createdAt : Z;
}.

Definition set_cliSocketId (x : option string) (r : Session) : Session :=
  {| id := id r; userId := userId r; cliSocketId := x;
     cliPublicKey := cliPublicKey r; daemonSocketId := daemonSocketId r;
     viewers := viewers r; lastOutput := lastOutput r;
     outputHistory := outputHistory r; encryptedHistory := encryptedHistory r;
     encrypted := encrypted r; controlLock := controlLock r;
     createdAt := createdAt r |}.

Definition set_cliPublicKey (x : option string) (r : Session) : Session :=
  {| id := id r; userId := userId r; cliSocketId := cliSocketId r; cliPublicKey := x;
     daemonSocketId := daemonSocketId r; viewers := viewers r;
     lastOutput := lastOutput r; outputHistory := outputHistory r;
     encryptedHistory := encryptedHistory r; encrypted := encrypted r;
     controlLock := controlLock r; createdAt := createdAt r |}.

Definition set_daemonSocketId (x : option string) (r : Session) : Session :=
  {| id := id r; userId := userId r; cliSocketId := cliSocketId r;
     cliPublicKey := cliPublicKey r; daemonSocketId := x; viewers := viewers r;
     lastOutput := lastOutput r; outputHistory := outputHistory r;
     encryptedHistory := encryptedHistory r; encrypted := encrypted r;
     controlLock := controlLock r; createdAt := createdAt r |}.

Definition set_viewers (x : gmap string Viewer) (r : Session) : Session :=
  {| id := id r; userId := userId r; cliSocketId := cliSocketId r;
     cliPublicKey := cliPublicKey r; daemonSocketId := daemonSocketId r;
     viewers := x; lastOutput := lastOutput r; outputHistory := outputHistory r;
     encryptedHistory := encryptedHistory r; encrypted := encrypted r;
     controlLock := controlLock r; createdAt := createdAt r |}.

Definition set_lastOutput (x : option OutputEvent) (r : Session) : Session :=
  {| id := id r; userId := userId r; cliSocketId := cliSocketId r;
     cliPublicKey := cliPublicKey r; daemonSocketId := daemonSocketId r;
     viewers := viewers r; lastOutput := x; outputHistory := outputHistory r;
     encryptedHistory := encryptedHistory r; encrypted := encrypted r;
     controlLock := controlLock r; createdAt := createdAt r |}.

Definition set_outputHistory (x : list OutputEvent) (r : Session) : Session :=
  {| id := id r; userId := userId r; cliSocketId := cliSocketId r;
     cliPublicKey := cliPublicKey r; daemonSocketId := daemonSocketId r;
     viewers := viewers r; lastOutput := lastOutput r; outputHistory := x;
     encryptedHistory := encryptedHistory r; encrypted := encrypted r;
     controlLock := controlLock r; createdAt := createdAt r |}.

Definition set_encryptedHistory (x : list EncryptedOutputEvent) (r : Session) : Session :=
  {| id := id r; userId := userId r; cliSocketId := cliSocketId r;
     cliPublicKey := cliPublicKey r; daemonSocketId := daemonSocketId r;
     viewers := viewers r; lastOutput := lastOutput r;
     outputHistory := outputHistory r; encryptedHistory := x;
     encrypted := encrypted r; controlLock := controlLock r;
     createdAt := createdAt r |}.

Definition set_encrypted (x : bool) (r : Session) : Session :=
  {| id := id r; userId := userId r; cliSocketId := cliSocketId r;
     cliPublicKey := cliPublicKey r; daemonSocketId := daemonSocketId r;
     viewers := viewers r; lastOutput := lastOutput r;
     outputHistory := outputHistory r; encryptedHistory := encryptedHistory r;
     encrypted := x; controlLock := controlLock r; createdAt := createdAt r |}.

Definition set_controlLock (x : option ControlLock) (r : Session) : Session :=
  {| id := id r; userId := userId r; cliSocketId := cliSocketId r;
     cliPublicKey := cliPublicKey r; daemonSocketId := daemonSocketId r;
     viewers := viewers r; lastOutput := lastOutput r;
     outputHistory := outputHistory r; encryptedHistory := encryptedHistory r;
     encrypted := encrypted r; controlLock := x; createdAt := createdAt r |}.

(** [query.clientType]; every value other than ['cli'] and ['cli-daemon']
    is handled as a viewer. *)
Inductive ClientType : Type := cli | cli_daemon | viewer.

#[global] Instance ClientType_eq_dec : EqDecision ClientType.
Proof. solve_decision. Defined.

(** [socket.handshake.query] *)
Record Handshake : Type := mkHandshake {
  q_sessionId : option string;
  q_clientType : ClientType;
  q_publicKey : option string;
  q_nickname : option string;
  q_userSecret : option string;
}.

(** What the handlers of a producer or viewer connection close over:
    [session] is the reference of the session object. *)
Record Socket : Type := mkSocket {
  socket_id : string;
  clientType : ClientType;
  sessionId : string;
  session : nat;
}.

(** The payload of ['cli-response']. *)
Record CommandResponse : Type := mkCommandResponse {
  cr_commandId : string;
  cr_success : bool;
  cr_data : option JS.value;
  cr_error : option string;
}.

(** The messages the relay emits, named by their event. *)
Inductive Msg : Type :=
| control_status (locked : bool) (holder : option string)
                 (holderNick : option string) (acquired : option Z)
| control_denied (reason : string) (holder : string) (holderNick : option string)
| input_rejected (reason : string)
| error (message : string)
| input (data : JS.value)
| encrypted_input (viewerId : string) (data : EncryptedMessage)
| output (event : OutputEvent)
| encrypted_output (data : EncryptedMessage) (seq timestamp : Z)
| history (events : list OutputEvent)
| encrypted_history (events : list EncryptedOutputEvent)
| cli_status (connected : bool) (key : option string) (enc : bool)
| viewer_joined (viewerId key : string)
| viewer_left (viewerId : string)
| cli_command (commandId command : string) (params : option JS.value)
| cli_response (response : CommandResponse).

(** Where a message goes. *)
Inductive Target : Type :=
| ToSocket (socket : string)              (* socket.emit *)
| ToRoom (room : string)                  (* io.to(room).emit *)
| ToRoomExcept (room sender : string)     (* socket.to(room).emit *)
| ToAll.                                  (* io.emit *)

(** The body of the reply to [POST /api/daemon/command]. *)
Inductive HttpBody : Type :=
| http_error (message : string)
| http_success (data : option JS.value).

Inductive Output : Type :=
| Emit (to : Target) (m : Msg)
| HttpReply (request : nat) (body : HttpBody).

Definition room_of (sessionId : string) : string := "session:" +:+ sessionId.

Definition broadcastControlStatus (sessionId : string) (s : Session) : list Output :=
  let status :=
    match controlLock s with
    | Some l => control_status true (Some (holderId l)) (holderNickname l)
                               (Some (acquiredAt l))
    | None => control_status false None None None
    end in
  [Emit (ToRoom (room_of sessionId)) status].

(** [session.controlLock?.holderId === socket.id] *)
Definition holds_lock (socket : Socket) (s : Session) : bool :=
  match controlLock s with
  | Some l => bool_decide (holderId l = socket_id socket)
  | None => false
  end.

(** *** The handlers of a producer or viewer connection

    Each takes the closure's [socket], the clock [now] where the handler
    reads it, and the session object, and returns the session object after
    the call with what was emitted, in order. *)

Definition on_request_control (socket : Socket) (now : Z) (s : Session)
  : Session * list Output :=
  if bool_decide (clientType socket = cli) then (s, [])
  else
    match viewers s !! socket_id socket with
    | None => (s, [])
    | Some v =>
        let denied :=
          match controlLock s with
          | Some l =>
              let timeSinceLastInput := now - lastInputAt l in
              if (timeSinceLastInput <? CONTROL_LOCK_TIMEOUT)
                 && negb (bool_decide (holderId l = socket_id socket))
              then Some [Emit (ToSocket (socket_id socket))
                              (control_denied "locked" (holderId l) (holderNickname l))]
              else None
          | None => None
          end in
        match denied with
        | Some out => (s, out)
        | None =>
            let s := set_controlLock
                       (Some {| holderId := socket_id socket;
                                holderNickname := nickname v;
                                acquiredAt := now;
                                lastInputAt := now |}) s in
            (s, broadcastControlStatus (sessionId socket) s)
        end
    end.

Definition on_release_control (socket : Socket) (s : Session) : Session * list Output :=
  if bool_decide (clientType socket = cli) then (s, [])
  else if holds_lock socket s then
    let s := set_controlLock None s in
    (s, broadcastControlStatus (sessionId socket) s)
  else (s, []).

(** [history.push(x); if (history.length > 100) history.shift();] *)
Definition push_capped {A} (x : A) (history : list A) : list A :=
  let history := history ++ [x] in
  if (100 <? length history)%nat then tail history else history.

Definition on_output (socket : Socket) (event : OutputEvent) (s : Session)
  : Session * list Output :=
  if negb (bool_decide (clientType socket = cli)) then (s, [])
  else
    let s := set_lastOutput (Some event) s in
    let s := set_outputHistory (push_capped event (outputHistory s)) s in
    (s, [Emit (ToRoomExcept (room_of (sessionId socket)) (socket_id socket))
              (output event)]).

Definition on_encrypted_output (socket : Socket) (data : EncryptedOutputEvent)
    (s : Session) : Session * list Output :=
  if negb (bool_decide (clientType socket = cli)) then (s, [])
  else
    (s, [Emit (ToRoom (eo_viewerId data))
              (encrypted_output (eo_encrypted data) (eo_seq data) (eo_timestamp data))]).

Definition on_output_history (socket : Socket) (data : OutputHistoryEvent)
    (s : Session) : Session * list Output :=
  if negb (bool_decide (clientType socket = cli)) then (s, [])
  else
    let entry := {| eo_viewerId := ""; eo_encrypted := oh_encrypted data;
                    eo_seq := oh_seq data; eo_timestamp := oh_timestamp data |} in
    (set_encryptedHistory (push_capped entry (encryptedHistory s)) s, []).

(** The control-lock gate the two input handlers share: [None] when the
    input is rejected, otherwise the session after the gate with what the
    gate emitted. *)
Definition input_gate (socket : Socket) (now : Z) (s : Session)
  : option (Session * list Output) :=
  let checked :=
    match controlLock s with
    | Some l =>
        if negb (bool_decide (holderId l = socket_id socket)) then
          let timeSinceLastInput := now - lastInputAt l in
          if timeSinceLastInput <? CONTROL_LOCK_TIMEOUT then None
          else
            (* Lock expired, clear it *)
            let s := set_controlLock None s in
            Some (s, broadcastControlStatus (sessionId socket) s)
        else Some (s, [])
    | None => Some (s, [])
    end in
  match checked with
  | None => None
  | Some (s, out) =>
      (* Update last input time if this viewer has control *)
      let s :=
        match controlLock s with
        | Some l =>
            if bool_decide (holderId l = socket_id socket) then
              set_controlLock (Some {| holderId := holderId l;
                                       holderNickname := holderNickname l;
                                       acquiredAt := acquiredAt l;
                                       lastInputAt := now |}) s
            else s
        | None => s
        end in
      Some (s, out)
  end.

(** The two input handlers differ in the message forwarded. *)
Definition forward_input (socket : Socket) (now : Z) (forwarded : Msg) (s : Session)
  : Session * list Output :=
  if bool_decide (clientType socket = cli) then (s, [])
  else
    match input_gate socket now s with
    | None => (s, [Emit (ToSocket (socket_id socket)) (input_rejected "not-controller")])
    | Some (s, out) =>
        match cliSocketId s with
        | Some producer =>
            if JS.truthy_str (Some producer)
            then (s, out ++ [Emit (ToRoom producer) forwarded])
            else (s, out ++ [Emit (ToSocket (socket_id socket))
                                  (error "CLI not connected")])
        | None => (s, out ++ [Emit (ToSocket (socket_id socket))
                                   (error "CLI not connected")])
        end
    end.

Definition on_input (socket : Socket) (now : Z) (data : JS.value) (s : Session)
  : Session * list Output :=
  forward_input socket now (input data) s.

Definition on_encrypted_input (socket : Socket) (now : Z) (data : EncryptedMessage)
    (s : Session) : Session * list Output :=
  forward_input socket now (encrypted_input (socket_id socket) data) s.

Definition on_get_history (socket : Socket) (s : Session) : Session * list Output :=
  if encrypted s
  then (s, [Emit (ToSocket (socket_id socket)) (encrypted_history (encryptedHistory s))])
  else (s, [Emit (ToSocket (socket_id socket)) (history (outputHistory s))]).

(** The part of the ['disconnect'] handler that runs on the session object,
    before the reaping timer is set. *)
Definition on_disconnect (socket : Socket) (s : Session) : Session * list Output :=
  if bool_decide (clientType socket = cli)
     && bool_decide (cliSocketId s = Some (socket_id socket))
  then
    let s := set_cliSocketId None s in
    let s := set_cliPublicKey None s in
    (s, [Emit (ToRoom (room_of (sessionId socket)))
              (cli_status false None (encrypted s))])
  else
    (* Release control if this viewer held it *)
    let '(s, out1) :=
      if holds_lock socket s then
        let s := set_controlLock None s in
        (s, broadcastControlStatus (sessionId socket) s)
      else (s, []) in
    let out2 :=
      match cliSocketId s with
      | Some producer =>
          if JS.truthy_str (Some producer)
          then [Emit (ToRoom producer) (viewer_left (socket_id socket))]
          else []
      | None => []
      end in
    (set_viewers (delete (socket_id socket) (viewers s)) s, out1 ++ out2).

(** *** The relay's module-level state *)

Record CLIDaemon : Type := mkCLIDaemon {
  d_socketId : string;
  d_userId : option string;
  activeSessions : list string;    (* a Set, in insertion order *)
  connectedAt : Z;
}.

(** An entry of [pendingCommands]: the HTTP request whose promise its
    [resolve] and [reject] settle, and its timeout. *)
Record Pending : Type := mkPending {
  p_request : nat;
  p_timeout : nat;
}.

(** What a [setTimeout] callback does when it runs. *)
Inductive TimerAction : Type :=
| ReapSession (sessionId : string)
| CommandTimeout (commandId : string) (request : nat).

Record Timer : Type := mkTimer {
  due : Z;
  action : TimerAction;
}.

(** A live connection with the handlers registered on it. *)
Inductive Conn : Type :=
| SessionSocket (socket : Socket)
| DaemonSocket (userId : option string).

Record State : Type := mkState {
  (** the session objects, by reference *)
  heap : gmap nat Session;
  nextRef : nat;
  (** [sessions]: session id to session object *)
  sessions : gmap string nat;
  (** [cliDaemons]: socket id to daemon, in insertion order *)
  cliDaemons : JS.Map CLIDaemon;
  userSessions : gmap string (gset string);
  pendingCommands : gmap string Pending;
  (** the [setTimeout] callbacks not yet run or cleared *)
  timers : gmap nat Timer;
  nextTimer : nat;
  (** [io.sockets.sockets] *)
  sockets : gmap string Conn;
}.

Definition set_heap (x : gmap nat Session) (r : State) : State :=
  {| heap := x; nextRef := nextRef r; sessions := sessions r;
     cliDaemons := cliDaemons r; userSessions := userSessions r;
     pendingCommands := pendingCommands r; timers := timers r;
     nextTimer := nextTimer r; sockets := sockets r |}.

Definition set_nextRef (x : nat) (r : State) : State :=
  {| heap := heap r; nextRef := x; sessions := sessions r;
     cliDaemons := cliDaemons r; userSessions := userSessions r;
     pendingCommands := pendingCommands r; timers := timers r;
     nextTimer := nextTimer r; sockets := sockets r |}.

Definition set_sessions (x : gmap string nat) (r : State) : State :=
  {| heap := heap r; nextRef := nextRef r; sessions := x; cliDaemons := cliDaemons r;
     userSessions := userSessions r; pendingCommands := pendingCommands r;
     timers := timers r; nextTimer := nextTimer r; sockets := sockets r |}.

Definition set_cliDaemons (x : JS.Map CLIDaemon) (r : State) : State :=
  {| heap := heap r; nextRef := nextRef r; sessions := sessions r; cliDaemons := x;
     userSessions := userSessions r; pendingCommands := pendingCommands r;
     timers := timers r; nextTimer := nextTimer r; sockets := sockets r |}.

Definition set_userSessions (x : gmap string (gset string)) (r : State) : State :=
  {| heap := heap r; nextRef := nextRef r; sessions := sessions r;
     cliDaemons := cliDaemons r; userSessions := x;
     pendingCommands := pendingCommands r; timers := timers r;
     nextTimer := nextTimer r; sockets := sockets r |}.

Definition set_pendingCommands (x : gmap string Pending) (r : State) : State :=
  {| heap := heap r; nextRef := nextRef r; sessions := sessions r;
     cliDaemons := cliDaemons r; userSessions := userSessions r;
     pendingCommands := x; timers := timers r; nextTimer := nextTimer r;
     sockets := sockets r |}.

Definition set_timers (x : gmap nat Timer) (r : State) : State :=
  {| heap := heap r; nextRef := nextRef r; sessions := sessions r;
     cliDaemons := cliDaemons r; userSessions := userSessions r;
     pendingCommands := pendingCommands r; timers := x; nextTimer := nextTimer r;
     sockets := sockets r |}.

Definition set_nextTimer (x : nat) (r : State) : State :=
  {| heap := heap r; nextRef := nextRef r; sessions := sessions r;
     cliDaemons := cliDaemons r; userSessions := userSessions r;
     pendingCommands := pendingCommands r; timers := timers r; nextTimer := x;
     sockets := sockets r |}.

Definition set_sockets (x : gmap string Conn) (r : State) : State :=
  {| heap := heap r; nextRef := nextRef r; sessions := sessions r;
     cliDaemons := cliDaemons r; userSessions := userSessions r;
     pendingCommands := pendingCommands r; timers := timers r;
     nextTimer := nextTimer r; sockets := x |}.

Definition init : State :=
  {| heap := ∅; nextRef := 0; sessions := ∅; cliDaemons := []; userSessions := ∅;
     pendingCommands := ∅; timers := ∅; nextTimer := 0; sockets := ∅ |}.

(** [setTimeout(callback, delay)] at time [now]: the timer's handle and the
    state holding it. *)
Definition setTimeout (a : TimerAction) (delay now : Z) (st : State) : nat * State :=
  let handle := nextTimer st in
  (handle,
   set_nextTimer (S handle)
     (set_timers (<[handle := {| due := now + delay; action := a |}]> (timers st)) st)).

Definition clearTimeout (handle : nat) (st : State) : State :=
  set_timers (delete handle (timers st)) st.

(** Running a handler of a connection on the session object it closes
    over. *)
Definition with_session (socket : Socket) (f : Session -> Session * list Output)
    (st : State) : State * list Output :=
  match heap st !! session socket with
  | Some s =>
      let '(s, out) := f s in
      (set_heap (<[session socket := s]> (heap st)) st, out)
  | None => (st, [])
  end.

(** [set.add(x)] *)
Definition set_add (x : string) (l : list string) : list string :=
  if bool_decide (x ∈ l) then l else l ++ [x].

(** [set.delete(x)] *)
Definition set_remove (x : string) (l : list string) : list string :=
  filter (fun y => negb (bool_decide (y = x))) l.

(** [userSessions.get(userId)!.add(sessionId)], creating the set when the
    user has none *)
Definition add_user_session (userId sessionId : string) (st : State) : State :=
  set_userSessions
    (<[userId := {[sessionId]} ∪ default ∅ (userSessions st !! userId)]>
       (userSessions st)) st.

Definition update_daemon (socketId : string) (f : CLIDaemon -> CLIDaemon) (st : State)
  : State :=
  match JS.map_get socketId (cliDaemons st) with
  | Some d => set_cliDaemons (JS.map_set socketId (f d) (cliDaemons st)) st
  | None => st
  end.

Definition set_activeSessions (l : list string) (d : CLIDaemon) : CLIDaemon :=
  {| d_socketId := d_socketId d; d_userId := d_userId d;
     activeSessions := l; connectedAt := connectedAt d |}.

(** *** Rooms

    socket.io puts every socket in the room named by its own id; the
    connection handler adds producers and viewers to the room of their
    session ([socket.join]). *)
Definition in_room (room id : string) (c : Conn) : bool :=
  bool_decide (id = room)
  || match c with
     | SessionSocket socket => bool_decide (room_of (sessionId socket) = room)
     | DaemonSocket _ => false
     end.

(** The connections a message for [to] is delivered to. *)
Definition recipients (st : State) (to : Target) : gset string :=
  match to with
  | ToSocket id => {[id]} ∩ dom (sockets st)
  | ToRoom room => dom (filter (fun kv => in_room room (fst kv) (snd kv) = true) (sockets st))
  | ToRoomExcept room sender =>
      dom (filter (fun kv => in_room room (fst kv) (snd kv) = true) (sockets st))
      ∖ {[sender]}
  | ToAll => dom (sockets st)
  end.

Section WithHash.
(** [createHash('sha256').update(s).digest('hex')] *)
Variable sha256_hex : string -> string.

Definition deriveUserId (userSecret : string) : string := sha256_hex userSecret.

(** [userSecret ? deriveUserId(userSecret) : null] *)
Definition userId_of (userSecret : option string) : option string :=
  match userSecret with
  | Some secret => if JS.truthy_str (Some secret) then Some (deriveUserId secret) else None
  | None => None
  end.

(** *** [io.on('connection')] *)

(** The branch for a producer or a viewer, once the session object [ref]
    is at hand. *)
Definition bind_socket (id : string) (q : Handshake) (sessionId : string) (s : Session)
  : Session * list Output :=
  if bool_decide (q_clientType q = cli) then
    let s := set_cliSocketId (Some id) s in
    let s := set_cliPublicKey (q_publicKey q) s in
    let s := set_encrypted (JS.truthy_str (q_publicKey q)) s in
    (s, [Emit (ToRoom (room_of sessionId))
              (cli_status true (cliPublicKey s) (encrypted s))])
  else
    let v := {| socketId := id;
                publicKey := default ""%string (q_publicKey q);
                nickname := q_nickname q |} in
    let s := set_viewers (<[id := v]> (viewers s)) s in
    let out1 :=
      match cliSocketId s, q_publicKey q with
      | Some producer, Some key =>
          if encrypted s && JS.truthy_str (Some producer) && JS.truthy_str (Some key)
          then [Emit (ToRoom producer) (viewer_joined id key)]
          else []
      | _, _ => []
      end in
    let out2 :=
      match lastOutput s with
      | Some last => if negb (encrypted s) then [Emit (ToSocket id) (output last)] else []
      | None => []
      end in
    let out3 :=
      [Emit (ToSocket id)
            (cli_status (JS.truthy_str (cliSocketId s)) (cliPublicKey s) (encrypted s))] in
    (s, out1 ++ out2 ++ out3 ++ broadcastControlStatus sessionId s).

(** The session object of a producer or viewer connection: the one
    [sessions] holds for [sessionId], or a new one. *)
Definition session_for (now : Z) (q : Handshake) (sessionId : string) (st : State)
  : nat * State :=
  let userId := userId_of (q_userSecret q) in
  match sessions st !! sessionId with
  | Some ref => (ref, st)
  | None =>
      let ref := nextRef st in
      let s := {| id := sessionId;
                  userId := if bool_decide (q_clientType q = cli)
                            then userId else None;   (* Only CLI can own sessions *)
                  cliSocketId := None; cliPublicKey := None;
                  daemonSocketId := None; viewers := ∅;
                  lastOutput := None; outputHistory := [];
                  encryptedHistory := []; encrypted := false;
                  controlLock := None; createdAt := now |} in
      let st := set_nextRef (S ref) (set_heap (<[ref := s]> (heap st)) st) in
      let st := set_sessions (<[sessionId := ref]> (sessions st)) st in
      (* Add to user's session list *)
      let st :=
        match userId with
        | Some u =>
            if bool_decide (q_clientType q = cli) && JS.truthy_str (Some u)
            then add_user_session u sessionId st else st
        | None => st
        end in
      (ref, st)
  end.

Definition on_connection (now : Z) (id : string) (q : Handshake) (st : State)
  : State * list Output :=
  if bool_decide (q_clientType q = cli_daemon) then
    let userId := userId_of (q_userSecret q) in
    let daemon := {| d_socketId := id; d_userId := userId;
                     activeSessions := []; connectedAt := now |} in
    let st := set_cliDaemons (JS.map_set id daemon (cliDaemons st)) st in
    (set_sockets (<[id := DaemonSocket userId]> (sockets st)) st, [])
  else
    match q_sessionId q with
    | None => (st, [])                  (* rejected: socket.disconnect(true) *)
    | Some sessionId =>
        if negb (JS.truthy_str (Some sessionId)) then (st, [])
        else
          let '(ref, st) := session_for now q sessionId st in
          let socket := {| socket_id := id; clientType := q_clientType q;
                           sessionId := sessionId; session := ref |} in
          let st := set_sockets (<[id := SessionSocket socket]> (sockets st)) st in
          with_session socket (bind_socket id q sessionId) st
    end.

(** *** The handlers of a daemon connection *)

(** The "create or update the session" step of ['session-attached']. *)
Definition attach_session (now : Z) (id : string) (userId : option string)
    (sessionId key : string) (enc : bool) (st : State) : State :=
  match sessions st !! sessionId with
  | None =>
      let ref := nextRef st in
      let s := {| id := sessionId; userId := userId;
                  cliSocketId := None; cliPublicKey := Some key;
                  daemonSocketId := Some id; viewers := ∅;
                  lastOutput := None; outputHistory := [];
                  encryptedHistory := []; encrypted := enc;
                  controlLock := None; createdAt := now |} in
      let st := set_nextRef (S ref) (set_heap (<[ref := s]> (heap st)) st) in
      set_sessions (<[sessionId := ref]> (sessions st)) st
  | Some ref =>
      set_heap (alter (fun s => set_encrypted enc
                                  (set_cliPublicKey (Some key)
                                     (set_daemonSocketId (Some id) s)))
                      ref (heap st)) st
  end.

Definition on_session_attached (now : Z) (id : string) (userId : option string)
    (sessionId key : string) (enc : bool) (st : State) : State * list Output :=
  let st := update_daemon id (fun d => set_activeSessions
                                         (set_add sessionId (activeSessions d)) d) st in
  let st := attach_session now id userId sessionId key enc st in
  let st :=
    match userId with
    | Some u => if JS.truthy_str (Some u) then add_user_session u sessionId st else st
    | None => st
    end in
  (st, [Emit (ToRoom (room_of sessionId)) (cli_status true (Some key) enc)]).

(** What a daemon's detaching does to one session: the body shared by
    ['session-detached'] and the loop of the daemon's ['disconnect']. *)
Definition detach_session (id sessionId : string) (st : State) : State * list Output :=
  match sessions st !! sessionId with
  | Some ref =>
      match heap st !! ref with
      | Some s =>
          if bool_decide (daemonSocketId s = Some id) then
            let s := set_cliPublicKey None (set_daemonSocketId None s) in
            (set_heap (<[ref := s]> (heap st)) st,
             [Emit (ToRoom (room_of sessionId)) (cli_status false None (encrypted s))])
          else (st, [])
      | None => (st, [])
      end
  | None => (st, [])
  end.

Definition on_session_detached (id sessionId : string) (st : State)
  : State * list Output :=
  let st := update_daemon id (fun d => set_activeSessions
                                         (set_remove sessionId (activeSessions d)) d) st in
  detach_session id sessionId st.

Fixpoint detach_all (id : string) (sessionIds : list string) (st : State)
  : State * list Output :=
  match sessionIds with
  | [] => (st, [])
  | sessionId :: rest =>
      let '(st, out1) := detach_session id sessionId st in
      let '(st, out2) := detach_all id rest st in
      (st, out1 ++ out2)
  end.

Definition on_daemon_disconnect (id : string) (st : State) : State * list Output :=
  let '(st, out) :=
    match JS.map_get id (cliDaemons st) with
    | Some daemon => detach_all id (activeSessions daemon) st
    | None => (st, [])
    end in
  let st := set_cliDaemons (JS.map_delete id (cliDaemons st)) st in
  (set_sockets (delete id (sockets st)) st, out).

Definition on_cli_response (response : CommandResponse) (st : State)
  : State * list Output :=
  let '(st, out) :=
    match pendingCommands st !! cr_commandId response with
    | Some pending =>
        let st := clearTimeout (p_timeout pending) st in
        let st := set_pendingCommands
                    (delete (cr_commandId response) (pendingCommands st)) st in
        if cr_success response
        then (st, [HttpReply (p_request pending) (http_success (cr_data response))])
        else (st, [HttpReply (p_request pending)
                             (http_error (default "Command failed"%string
                                                  (cr_error response)))])
    | None => (st, [])
    end in
  (st, out ++ [Emit ToAll (cli_response response)]).

(** *** [POST /api/daemon/command]

    [request] names the HTTP request; [random] is what
    [Math.random().toString(36).substring(2, 8)] yields. *)

Definition new_commandId (now : Z) (random : string) : string :=
  "cmd_" +:+ pretty now +:+ "_" +:+ random.

Definition post_daemon_command (now : Z) (request : nat) (command : option string)
    (params : option JS.value) (random : string) (st : State) : State * list Output :=
  match command with
  | None => (st, [HttpReply request (http_error "command is required")])
  | Some command =>
      if negb (JS.truthy_str (Some command))
      then (st, [HttpReply request (http_error "command is required")])
      else
        match JS.map_first (cliDaemons st) with
        | None => (st, [HttpReply request (http_error "No CLI daemon connected")])
        | Some (_, daemon) =>
            let commandId := new_commandId now random in
            match sockets st !! d_socketId daemon with
            | None => (st, [HttpReply request (http_error "Daemon socket not found")])
            | Some _ =>
                let '(timeout, st) :=
                  setTimeout (CommandTimeout commandId request) 10000 now st in
                let st := set_pendingCommands
                            (<[commandId := {| p_request := request;
                                               p_timeout := timeout |}]>
                               (pendingCommands st)) st in
                (st, [Emit (ToSocket (d_socketId daemon))
                           (cli_command commandId command params)])
            end
        end
  end.

(** *** Timers *)

Definition run_timer (a : TimerAction) (st : State) : State * list Output :=
  match a with
  | ReapSession sessionId =>
      match sessions st !! sessionId with
      | Some ref =>
          match heap st !! ref with
          | Some s =>
              if negb (JS.truthy_str (cliSocketId s)) && bool_decide (size (viewers s) = 0%nat)
              then (set_sessions (delete sessionId (sessions st)) st, [])
              else (st, [])
          | None => (st, [])
          end
      | None => (st, [])
      end
  | CommandTimeout commandId request =>
      (set_pendingCommands (delete commandId (pendingCommands st)) st,
       [HttpReply request (http_error "Command timeout")])
  end.

(** A timer runs once, and not before it is due. *)
Definition fire_timer (now : Z) (handle : nat) (st : State) : State * list Output :=
  match timers st !! handle with
  | Some t =>
      if due t <=? now
      then run_timer (action t) (clearTimeout handle st)
      else (st, [])
  | None => (st, [])
  end.

(** *** The events the relay reacts to *)

(** A message received on a connection. *)
Inductive ClientMsg : Type :=
| request_control
| release_control
| send_output (event : OutputEvent)
| send_encrypted_output (data : EncryptedOutputEvent)
| send_output_history (data : OutputHistoryEvent)
| send_input (data : JS.value)
| send_encrypted_input (data : EncryptedMessage)
| get_history
| send_cli_command (commandId command : string) (params : option JS.value)
| send_cli_response (response : CommandResponse)
| session_attached (sessionId key : string) (enc : bool)
| session_detached (sessionId : string)
| active_sessions
| disconnect.

Inductive Event : Type :=
| Connection (id : string) (q : Handshake)
| Received (id : string) (m : ClientMsg)
| TimerFires (handle : nat)
| PostDaemonCommand (request : nat) (command : option string)
                    (params : option JS.value) (random : string).

Definition on_session_socket (now : Z) (socket : Socket) (m : ClientMsg) (st : State)
  : State * list Output :=
  match m with
  | request_control => with_session socket (on_request_control socket now) st
  | release_control => with_session socket (on_release_control socket) st
  | send_output event => with_session socket (on_output socket event) st
  | send_encrypted_output data => with_session socket (on_encrypted_output socket data) st
  | send_output_history data => with_session socket (on_output_history socket data) st
  | send_input data => with_session socket (on_input socket now data) st
  | send_encrypted_input data =>
      with_session socket (on_encrypted_input socket now data) st
  | get_history => with_session socket (on_get_history socket) st
  | disconnect =>
      let '(st, out) := with_session socket (on_disconnect socket) st in
      let '(_, st) := setTimeout (ReapSession (sessionId socket)) 60000 now st in
      (set_sockets (delete (socket_id socket) (sockets st)) st, out)
  | _ => (st, [])
  end.

Definition on_daemon_socket (now : Z) (id : string) (userId : option string)
    (m : ClientMsg) (st : State) : State * list Output :=
  match m with
  | send_cli_command commandId command params =>
      (st, [Emit (ToSocket id) (cli_command commandId command params)])
  | send_cli_response response => on_cli_response response st
  | session_attached sessionId key enc =>
      on_session_attached now id userId sessionId key enc st
  | session_detached sessionId => on_session_detached id sessionId st
  | send_encrypted_output data =>
      (st, [Emit (ToRoom (eo_viewerId data))
                 (encrypted_output (eo_encrypted data) (eo_seq data)
                                   (eo_timestamp data))])
  | active_sessions => (st, [])
  | disconnect => on_daemon_disconnect id st
  | _ => (st, [])
  end.

(** One event, handled at time [now]. *)
Definition step (now : Z) (e : Event) (st : State) : State * list Output :=
  match e with
  | Connection id q =>
      match sockets st !! id with
      | Some _ => (st, [])        (* socket ids are unique *)
      | None => on_connection now id q st
      end
  | Received id m =>
      match sockets st !! id with
      | Some (SessionSocket socket) => on_session_socket now socket m st
      | Some (DaemonSocket userId) => on_daemon_socket now id userId m st
      | None => (st, [])
      end
  | TimerFires handle => fire_timer now handle st
  | PostDaemonCommand request command params random =>
      post_daemon_command now request command params random st
  end.

(** A run: the events in order, each with the time it is handled at. *)
Fixpoint run (events : list (Z * Event)) (st : State) : State * list Output :=
  match events with
  | [] => (st, [])
  | (now, e) :: rest =>
      let '(st, out1) := step now e st in
      let '(st, out2) := run rest st in
      (st, out1 ++ out2)
  end.

End WithHash.
End Relay.

(** ** A reference host

    A small executable host: byte strings are their own encodings, a sealed
    box is the key and the nonce followed by the message, and JSON texts are
    read and written by a direct recursive-descent codec.  It shows that
    [HostLaws] can be met and lets the helpers run on concrete inputs. *)

Module RefHost.

Definition dquote : ascii := ascii_of_nat 34.
Definition backslash : ascii := ascii_of_nat 92.

Definition is_ascii (c d : ascii) : bool := bool_decide (c = d).

Fixpoint escape (s : string) : string :=
  match s with
  | EmptyString => EmptyString
  | String c rest =>
      if is_ascii c dquote || is_ascii c backslash
      then String backslash (String c (escape rest))
      else String c (escape rest)
  end.

Definition quote (s : string) : string :=
  String dquote (escape s +:+ String dquote EmptyString).

Definition join (sep : string) (l : list string) : string :=
  match l with
  | [] => ""
  | x :: rest => fold_left (fun acc y => acc +:+ sep +:+ y) rest x
  end.

Fixpoint stringify (v : JS.value) : string :=
  match v with
  | JS.Null => "null"
  | JS.Bool true => "true"
  | JS.Bool false => "false"
  | JS.Num n => pretty n
  | JS.Str s => quote s
  | JS.Arr items => "[" +:+ join "," (map stringify items) +:+ "]"
  | JS.Obj fields =>
      "{" +:+ join "," (map (fun kv => quote (fst kv) +:+ ":" +:+ stringify (snd kv)) fields)
          +:+ "}"
  end.

Fixpoint skip_ws (s : string) : string :=
  match s with
  | String c rest =>
      if is_ascii c " " || is_ascii c (ascii_of_nat 10) || is_ascii c (ascii_of_nat 13)
         || is_ascii c (ascii_of_nat 9)
      then skip_ws rest else s
  | EmptyString => s
  end.

(** The text after the opening quote: the string read and what follows the
    closing quote. *)
Fixpoint read_string (s : string) : option (string * string) :=
  match s with
  | EmptyString => None
  | String c rest =>
      if is_ascii c dquote then Some (EmptyString, rest)
      else if is_ascii c backslash then
        match rest with
        | String d rest' =>
            match read_string rest' with
            | Some (t, r) => Some (String d t, r)
            | None => None
            end
        | EmptyString => None
        end
      else
        match read_string rest with
        | Some (t, r) => Some (String c t, r)
        | None => None
        end
  end.

Definition digit_of (c : ascii) : option Z :=
  let n := Z.of_nat (nat_of_ascii c) in
  if (48 <=? n) && (n <=? 57) then Some (n - 48) else None.

Fixpoint read_digits (acc : Z) (s : string) : Z * string :=
  match s with
  | String c rest =>
      match digit_of c with
      | Some d => read_digits (10 * acc + d) rest
      | None => (acc, s)
      end
  | EmptyString => (acc, s)
  end.

Definition read_number (s : string) : option (Z * string) :=
  match s with
  | String c rest =>
      if is_ascii c "-" then
        match rest with
        | String d _ =>
            match digit_of d with
            | Some _ => let '(n, r) := read_digits 0 rest in Some (- n, r)
            | None => None
            end
        | EmptyString => None
        end
      else
        match digit_of c with
        | Some _ => Some (read_digits 0 s)
        | None => None
        end
  | EmptyString => None
  end.

Definition read_literal (lit : string) (v : JS.value) (s : string)
  : option (JS.value * string) :=
  if String.prefix lit s
  then Some (v, String.substring (String.length lit)
                                 (String.length s - String.length lit) s)
  else None.

Fixpoint read_value (fuel : nat) (s : string) : option (JS.value * string) :=
  match fuel with
  | O => None
  | S fuel =>
      match skip_ws s with
      | EmptyString => None
      | String c rest =>
          if is_ascii c dquote then
            match read_string rest with
            | Some (t, r) => Some (JS.Str t, r)
            | None => None
            end
          else if is_ascii c "[" then
            match skip_ws rest with
            | String d r =>
                if is_ascii d "]" then Some (JS.Arr [], r)
                else match read_items fuel rest with
                     | Some (items, r) => Some (JS.Arr items, r)
                     | None => None
                     end
            | EmptyString => None
            end
          else if is_ascii c "{" then
            match skip_ws rest with
            | String d r =>
                if is_ascii d "}" then Some (JS.Obj [], r)
                else match read_members fuel rest with
                     | Some (fields, r) => Some (JS.Obj fields, r)
                     | None => None
                     end
            | EmptyString => None
            end
          else if is_ascii c "n" then read_literal "null" JS.Null (String c rest)
          else if is_ascii c "t" then read_literal "true" (JS.Bool true) (String c rest)
          else if is_ascii c "f" then read_literal "false" (JS.Bool false) (String c rest)
          else
            match read_number (String c rest) with
            | Some (n, r) => Some (JS.Num n, r)
            | None => None
            end
      end
  end
with read_items (fuel : nat) (s : string) : option (list JS.value * string) :=
  match fuel with
  | O => None
  | S fuel =>
      match read_value fuel s with
      | Some (v, r) =>
          match skip_ws r with
          | String c r' =>
              if is_ascii c "," then
                match read_items fuel r' with
                | Some (vs, r'') => Some (v :: vs, r'')
                | None => None
                end
              else if is_ascii c "]" then Some ([v], r')
              else None
          | EmptyString => None
          end
      | None => None
      end
  end
with read_members (fuel : nat) (s : string)
  : option (list (string * JS.value) * string) :=
  match fuel with
  | O => None
  | S fuel =>
      match skip_ws s with
      | String q r0 =>
          if is_ascii q dquote then
            match read_string r0 with
            | Some (k, r1) =>
                match skip_ws r1 with
                | String c r2 =>
                    if is_ascii c ":" then
                      match read_value fuel r2 with
                      | Some (v, r3) =>
                          match skip_ws r3 with
                          | String d r4 =>
                              if is_ascii d "," then
                                match read_members fuel r4 with
                                | Some (kvs, r5) => Some ((k, v) :: kvs, r5)
                                | None => None
                                end
                              else if is_ascii d "}" then Some ([(k, v)], r4)
                              else None
                          | EmptyString => None
                          end
                      | None => None
                      end
                    else None
                | EmptyString => None
                end
            | None => None
            end
          else None
      | EmptyString => None
      end
  end.

Definition parse (s : string) : Exc JS.value :=
  match read_value (2 * String.length s + 2) s with
  | Some (v, rest) =>
      match skip_ws rest with
      | EmptyString => Return v
      | String _ _ => Throw
      end
  | None => Throw
  end.

(** [strip p l]: [l] without its prefix [p]. *)
Fixpoint strip (p l : bytes) : option bytes :=
  match p, l with
  | [], _ => Some l
  | x :: p', y :: l' => if Byte.eqb x y then strip p' l' else None
  | _ :: _, [] => None
  end.

Definition sizes_ok (n k : bytes) : bool :=
  bool_decide (length n = nacl_secretbox_nonceLength)
  && bool_decide (length k = nacl_secretbox_keyLength).

Definition host : Host := {|
  util_encodeBase64 := string_of_list_byte;
  util_decodeBase64 := fun s => Return (list_byte_of_string s);
  util_decodeUTF8 := list_byte_of_string;
  util_encodeUTF8 := fun b => Return (string_of_list_byte b);
  nacl_secretbox := fun m n k =>
    if sizes_ok n k then Return (k ++ n ++ m) else Throw;
  nacl_secretbox_open := fun c n k =>
    if sizes_ok n k then Return (strip (k ++ n) c) else Throw;
  nacl_box_before := fun theirs mine =>
    if bool_decide (length theirs = 32%nat) && bool_decide (length mine = 32%nat)
    then Return theirs else Throw;
  JSON_parse := parse;
  JSON_stringify := stringify;
|}.

End RefHost.

(** ** The vocabulary of the statements *)

Import Relay.

(** [v.k] is read without an exception and is truthy. *)
Definition truthy_field (v : JS.value) (k : string) : Prop :=
  exists x, JS.get v k = Some x /\ JS.truthy x = true.

(** What one tick may emit, given the pane content captured before it. *)
Definition tick_emits (prev : string) (tick : string * Z) (out : list OutputEvent)
  : Prop :=
  (fst tick <> prev ->
   exists k, out = [mkOutputEvent k (fst tick) (snd tick)]) /\
  (fst tick = prev -> out = []).

(** Where an input that passed the gate goes: to the producer connection
    when one is bound, otherwise an error back to the sender. *)
Definition delivered (socket : Socket) (m : Msg) (s : Session) : list Output :=
  match cliSocketId s with
  | Some producer =>
      if bool_decide (producer = ""%string)
      then [Emit (ToSocket (socket_id socket)) (error "CLI not connected")]
      else [Emit (ToRoom producer) m]
  | None => [Emit (ToSocket (socket_id socket)) (error "CLI not connected")]
  end.

Definition touch (now : Z) (l : ControlLock) : ControlLock :=
  {| holderId := holderId l; holderNickname := holderNickname l;
     acquiredAt := acquiredAt l; lastInputAt := now |}.

(** The lock a grant installs. *)
Definition granted_lock (socket : Socket) (v : Viewer) (now : Z) : ControlLock :=
  {| holderId := socket_id socket; holderNickname := nickname v;
     acquiredAt := now; lastInputAt := now |}.

(** The lock is free for the requester: there is none, or its last input is
    at least 30 s old, or the requester holds it. *)
Definition lock_available (socket : Socket) (now : Z) (s : Session) : Prop :=
  match controlLock s with
  | None => True
  | Some l => 30000 <= now - lastInputAt l \/ holderId l = socket_id socket
  end.

Definition is_cli_status (o : Output) : bool :=
  match o with
  | Emit _ (cli_status _ _ _) => true
  | _ => false
  end.

Definition is_viewer_left (o : Output) : bool :=
  match o with
  | Emit _ (viewer_left _) => true
  | _ => false
  end.

(** Both histories of a session object hold at most 100 entries. *)
Definition histories_bounded (s : Session) : Prop :=
  (length (outputHistory s) <= 100)%nat /\ (length (encryptedHistory s) <= 100)%nat.

(** A handler of a connection keeps the histories within the bound. *)
Definition keeps_histories (f : Session -> Session * list Output) : Prop :=
  forall s, histories_bounded s -> histories_bounded (fst (f s)).

(** What every reachable state of the relay satisfies. *)
Record Inv (st : State) : Prop := mkInv {
  inv_heap : map_Forall (fun _ s => histories_bounded s) (heap st);
  (** a connection's handlers close over its own id and a live session
      object *)
  inv_sockets : forall id socket,
    sockets st !! id = Some (SessionSocket socket) ->
    socket_id socket = id /\ is_Some (heap st !! session socket);
  inv_sessions : forall sid r, sessions st !! sid = Some r -> is_Some (heap st !! r);
  (** a registered daemon is a connected daemon socket *)
  inv_daemons : forall k d,
    (k, d) ∈ cliDaemons st ->
    d_socketId d = k /\ exists u, sockets st !! k = Some (DaemonSocket u);
  inv_timers : forall t tm, timers st !! t = Some tm -> (t < nextTimer st)%nat;
  inv_pending : forall c p,
    pendingCommands st !! c = Some p -> (p_timeout p < nextTimer st)%nat;
}.

(** A session that neither a producer connection nor a viewer is attached
    to. *)
Definition deserted (s : Session) : Prop :=
  JS.truthy_str (cliSocketId s) = false /\ viewers s = ∅.

(** The pending commands and the timers are the same in both states. *)
Definition same_commands (st st' : State) : Prop :=
  pendingCommands st' = pendingCommands st /\
  timers st' = timers st /\
  nextTimer st' = nextTimer st.

(** The command [cid] of HTTP request [request] awaits its answer: it is
    pending, its timeout [tid] is set for [deadline], and no other entry or
    timer is confused with them. *)
Record Waiting (cid : string) (request tid : nat) (deadline : Z) (st : State)
  : Prop := mkWaiting {
  w_pending : pendingCommands st !! cid = Some (mkPending request tid);
  w_timer : timers st !! tid = Some (mkTimer deadline (CommandTimeout cid request));
  w_handle : (tid < nextTimer st)%nat;
  w_own_timeout : forall c p,
    pendingCommands st !! c = Some p -> p_timeout p = tid -> c = cid;
  w_own_timer : forall t tm r,
    timers st !! t = Some tm -> action tm = CommandTimeout cid r -> t = tid;
}.

(** An event that neither answers the command [cid] nor issues a command
    of the same id. *)
Definition no_answer (cid : string) (te : Z * Event) : Prop :=
  match snd te with
  | Received _ (send_cli_response response) => cr_commandId response <> cid
  | PostDaemonCommand _ _ _ random => new_commandId (fst te) random <> cid
  | _ => True
  end.

(** The reply the HTTP caller gets from an answer of the daemon. *)
Definition reply_of (response : CommandResponse) : HttpBody :=
  if cr_success response then http_success (cr_data response)
  else http_error (default "Command failed"%string (cr_error response)).

(** The payloads of the ['encrypted-output'] messages among what the
    producer emitted, in order. *)
Definition encrypted_outputs (out : list EncryptedWSClient.Emit)
  : list EncryptedOutputEvent :=
  omap (fun e => match e with
                 | EncryptedWSClient.encrypted_output d => Some d
                 | _ => None
                 end) out.

(** The message [d] is addressed to the viewer of the entry and carries the
    event's [seq] and [timestamp] and an envelope that opens, under the
    entry's shared secret, to the JSON text of the event. *)
Definition sealed_for {H : Host} (event : OutputEvent) (entry : string * bytes)
    (d : EncryptedOutputEvent) : Prop :=
  eo_viewerId d = fst entry /\
  eo_seq d = seq event /\
  eo_timestamp d = timestamp event /\
  Crypto.decryptToString (eo_encrypted d) (snd entry)
  = Return (Some (JSON_stringify (OutputEvent_to_JS event))).

(** ** Sample data *)

(** A 32-byte key and a 24-byte nonce. *)
Definition sample_key : bytes := repeat Byte.x2a 32.

Definition sample_nonce : bytes := repeat Byte.x07 24.

(** A pairing code as [generatePairingCode] makes them. *)
Definition sample_pairing : Crypto.PairingCode :=
  Crypto.mkPairingCode "demo" "cGFpcg==" 1700000000000.

(** A pairing code in which all three fields are present, with an empty
    [sessionId]. *)
Definition empty_id_pairing : Crypto.PairingCode :=
  Crypto.mkPairingCode "" "cGFpcg==" 1700000000000.

(** A session [demo] with two viewers [A] and [B]; [B] holds the control
    lock and last typed at time 0. *)
Definition viewerA : Socket :=
  {| socket_id := "A"; clientType := viewer; sessionId := "demo"; session := 0 |}.

Definition lockB : ControlLock :=
  {| holderId := "B"; holderNickname := Some "bob"%string;
     acquiredAt := 0; lastInputAt := 0 |}.

Definition demo_session (producer : option string) : Session :=
  {| id := "demo"; userId := None; cliSocketId := producer;
     cliPublicKey := None; daemonSocketId := None;
     viewers := <["A" := mkViewer "A" "" (Some "alice"%string)]>
                  (<["B" := mkViewer "B" "" (Some "bob"%string)]> ∅);
     lastOutput := None; outputHistory := []; encryptedHistory := [];
     encrypted := false; controlLock := Some lockB; createdAt := 0 |}.

(** Producer [P1] of session [demo], superseded by [P2]. *)
Definition producerP1 : Socket :=
  {| socket_id := "P1"; clientType := cli; sessionId := "demo"; session := 0 |}.

(** A stand-in for SHA-256 in the examples. *)
Definition plain_hash (secret : string) : string := secret.

(** Daemon [D] attaches the session [work]; viewer [V] joins it and
    leaves at time 3000. *)
Definition daemon_session_events : list (Z * Event) :=
  [(0, Connection "D" (mkHandshake None cli_daemon None None None));
   (1000, Received "D" (session_attached "work" "a2V5" true));
   (2000, Connection "V" (mkHandshake (Some "work"%string) viewer
                                      (Some "dmlldw=="%string) None None));
   (3000, Received "V" disconnect)].

(** Daemon [D] attaches the session [work] and disconnects. *)
Definition daemon_leaves_events : list (Z * Event) :=
  [(0, Connection "D" (mkHandshake None cli_daemon None None None));
   (1000, Received "D" (session_attached "work" "a2V5" true));
   (2000, Received "D" disconnect)].

(** Producer [P1] registers the session [demo], viewer [V] joins, and a
    second producer connection [P2] takes the session over. *)
Definition takeover_events : list (Z * Event) :=
  [(0, Connection "P1" (mkHandshake (Some "demo"%string) cli
                                    (Some "a2V5MQ=="%string) None None));
   (1000, Connection "V" (mkHandshake (Some "demo"%string) viewer
                                      (Some "dmlldw=="%string) None None));
   (2000, Connection "P2" (mkHandshake (Some "demo"%string) cli
                                       (Some "a2V5Mg=="%string) None None))].

(** One daemon, [D], is connected. *)
Definition one_daemon : list (Z * Event) :=
  [(0, Connection "D" (mkHandshake None cli_daemon None None None))].

(** A connected producer paired with two viewers. *)
Definition sample_client : EncryptedWSClient.t :=
  {| EncryptedWSClient.socket := Some true;
     EncryptedWSClient.keyPair := Crypto.mkKeyPair sample_key sample_key;
     EncryptedWSClient.sharedSecrets :=
       [("V1"%string, repeat Byte.x11 32); ("V2"%string, repeat Byte.x22 32)];
     EncryptedWSClient.lastOutputEvent := None |}.

(** The first frame of a capture. *)
Definition sample_event : OutputEvent := mkOutputEvent 1 "hello" 1000.

(** ** More vocabulary: who a session object refers to *)

(** The control lock of a session, when there is one, names one of the
    session's viewers. *)
Definition lock_held_by_viewer (s : Session) : Prop :=
  forall l, controlLock s = Some l -> is_Some (viewers s !! holderId l).

(** The connection [id] is live, was opened with a client type for which
    [is_producer] says whether it is ['cli'], and its handlers close over
    the session object [r]. *)
Definition connected_to (st : State) (r : nat) (is_producer : bool) (id : string)
  : Prop :=
  exists socket,
    sockets st !! id = Some (SessionSocket socket) /\
    session socket = r /\
    bool_decide (clientType socket = cli) = is_producer.

(** What the session objects of a reachable state refer to: the holder of
    a control lock is a viewer of the session, every viewer is a live
    viewer connection of that session object, and the producer binding is
    a live producer connection of it. *)
Record Attached (st : State) : Prop := mkAttached {
  att_holder : forall r s, heap st !! r = Some s -> lock_held_by_viewer s;
  att_viewer : forall r s v x,
    heap st !! r = Some s -> viewers s !! v = Some x -> connected_to st r false v;
  att_producer : forall r s p,
    heap st !! r = Some s -> cliSocketId s = Some p -> connected_to st r true p;
}.

(** A handler that leaves the viewers and the producer binding of the
    session alone and keeps the lock with a viewer. *)
Definition keeps_attachments (f : Session -> Session * list Output) : Prop :=
  forall s,
    viewers (fst (f s)) = viewers s /\
    cliSocketId (fst (f s)) = cliSocketId s /\
    (lock_held_by_viewer s -> lock_held_by_viewer (fst (f s))).
(** The messages meant for the producer of a session: what a viewer
    types, and the viewers' coming and going. *)
Definition for_producer (o : Output) : bool :=
  match o with
  | Emit _ (input _) | Emit _ (encrypted_input _ _)
  | Emit _ (viewer_joined _ _) | Emit _ (viewer_left _) => true
  | _ => false
  end.

(** A message meant for the producer is addressed to the connection the
    session has bound as its producer. *)
Definition to_bound_producer (s : Session) (o : Output) : Prop :=
  for_producer o = true ->
  exists p m, o = Emit (ToRoom p) m /\ cliSocketId s = Some p.

(** Producer [P] registers the session [demo], viewer [V] joins and takes
    the control lock. *)
Definition controlled_events : list (Z * Event) :=
  [(0, Connection "P" (mkHandshake (Some "demo"%string) cli None None None));
   (1000, Connection "V" (mkHandshake (Some "demo"%string) viewer None
                                      (Some "vera"%string) None));
   (2000, Received "V" request_control)].
(** What the live connections of a reachable state can rely on: a live
    viewer connection is in the [viewers] of the session object it closes
    over, and that object is the one the directory lists under the
    connection's session id; so is the object that has a live producer
    connection as its bound producer.  References are below [nextRef]. *)
Record Listed (st : State) : Prop := mkListed {
  lst_socket_ref : forall id socket,
    sockets st !! id = Some (SessionSocket socket) -> (session socket < nextRef st)%nat;
  lst_dir_ref : forall sid r, sessions st !! sid = Some r -> (r < nextRef st)%nat;
  lst_viewer : forall id socket,
    sockets st !! id = Some (SessionSocket socket) ->
    clientType socket <> cli ->
    sessions st !! sessionId socket = Some (session socket) /\
    exists s, heap st !! session socket = Some s /\ is_Some (viewers s !! id);
  lst_producer : forall id socket s,
    sockets st !! id = Some (SessionSocket socket) ->
    heap st !! session socket = Some s ->
    cliSocketId s = Some id ->
    id <> ""%string ->
    sessions st !! sessionId socket = Some (session socket);
}.

(** The session after the producer connection [socket] has sent the
    ['output'] events [events], in order. *)
Definition outputs_received (socket : Socket) (events : list OutputEvent) (s : Session)
  : Session :=
  foldl (fun s event => fst (on_output socket event s)) s events.

(** The last [n] entries of a list. *)
Definition last_n {A} (n : nat) (l : list A) : list A := drop (length l - n) l.
(** ** More vocabulary: the replies to [POST /api/daemon/command] *)

Definition is_reply_to (request : nat) (o : Output) : bool :=
  match o with
  | HttpReply r _ => bool_decide (r = request)
  | Emit _ _ => false
  end.

(** How many replies the HTTP request [request] is given in [out]. *)
Definition replies_to (request : nat) (out : list Output) : nat :=
  length (filter (fun o => is_reply_to request o = true) out).

(** The HTTP requests among the events of a run, in order. *)
Definition posted_requests (events : list (Z * Event)) : list nat :=
  omap (fun te => match snd te with
                  | PostDaemonCommand request _ _ _ => Some request
                  | _ => None
                  end) events.

(** Nothing in the state can answer the HTTP request [request]: no pending
    command and no timeout is its own. *)
Definition unanswerable (request : nat) (st : State) : Prop :=
  (forall c p, pendingCommands st !! c = Some p -> p_request p <> request) /\
  (forall t tm c, timers st !! t = Some tm -> action tm <> CommandTimeout c request).

(** The HTTP request [request] is open: its timeout [tid] is set, for the
    command id [cid]; it is the only timeout of the request, a pending
    command of the request is the entry of [cid] and holds [tid], and no
    other request's entry holds [tid]. *)
Record Open (request : nat) (cid : string) (tid : nat) (st : State) : Prop := mkOpen {
  open_timer : exists deadline,
    timers st !! tid = Some (mkTimer deadline (CommandTimeout cid request));
  open_only_timer : forall t tm c,
    timers st !! t = Some tm -> action tm = CommandTimeout c request -> t = tid;
  open_entry : forall c p,
    pendingCommands st !! c = Some p -> p_request p = request ->
    c = cid /\ p_timeout p = tid;
  open_timeout : forall c p,
    pendingCommands st !! c = Some p -> p_timeout p = tid -> p_request p = request;
}.

(** The step from [st] to [st'] leaves the pending commands alone and at
    most adds reaping timers. *)
Definition calm (st st' : State) : Prop :=
  pendingCommands st' = pendingCommands st /\
  (forall t tm, timers st !! t = Some tm -> timers st' !! t = Some tm) /\
  (forall t tm, timers st' !! t = Some tm ->
                timers st !! t = Some tm \/ exists sid, action tm = ReapSession sid).

Definition is_emit (o : Output) : bool :=
  match o with
  | Emit _ _ => true
  | HttpReply _ _ => false
  end.
(** Daemon [D] connects; request 7 asks it for the sessions; the daemon
    answers, then answers again, and the 10 s of the request pass. *)
Definition answered_twice_events : list (Z * Event) :=
  [(0, Connection "D" (mkHandshake None cli_daemon None None None));
   (1000, PostDaemonCommand 7 (Some "list-sessions"%string) None "abc123");
   (2000, Received "D" (send_cli_response
                          (mkCommandResponse (new_commandId 1000 "abc123") true None None)));
   (3000, Received "D" (send_cli_response
                          (mkCommandResponse (new_commandId 1000 "abc123") true None None)));
   (11000, TimerFires 0)].

(** ** More vocabulary: the life of a capture *)

(** What happens to a [TmuxCapture]: [start(callback)], a tick of its
    timer, or [stop()]; the first two with what [capturePane()] and
    [Date.now()] return during the call. *)
Inductive CaptureCall : Type :=
| CallStart (pane : string) (now : Z)
| CallPoll (pane : string) (now : Z)
| CallStop.

Definition capture_call (call : CaptureCall) (c : TmuxCapture.t)
  : TmuxCapture.t * list OutputEvent :=
  match call with
  | CallStart pane now => TmuxCapture.start pane now c
  | CallPoll pane now => TmuxCapture.poll pane now c
  | CallStop => (TmuxCapture.stop c, [])
  end.

(** The calls in order, with the events handed to the callbacks. *)
Fixpoint capture_calls (calls : list CaptureCall) (c : TmuxCapture.t)
  : TmuxCapture.t * list OutputEvent :=
  match calls with
  | [] => (c, [])
  | call :: rest =>
      let '(c, out1) := capture_call call c in
      let '(c, out2) := capture_calls rest c in
      (c, out1 ++ out2)
  end.

(** The event, if any, is a frame of what the call captured, stamped with
    the call's clock. *)
Definition frame_of (call : CaptureCall) (out : list OutputEvent) : Prop :=
  match call with
  | CallStart pane now | CallPoll pane now =>
      out = [] \/ exists k, out = [mkOutputEvent k pane now]
  | CallStop => out = []
  end.
(** ** [EncryptedWSClient]: the handler of ['encrypted-input'] and the rest
    of the class *)

Module EncryptedWSClientInput.
Import EncryptedWSClient.

Section WithHost.
Context {H : Host}.

(** The ['encrypted-input'] handler: what it emits on the socket, and
    whether it returns.  A text that is no JSON is caught; an exception of
    the decryption is not. *)
Definition on_encrypted_input (viewerId : string) (encrypted : EncryptedMessage) (c : t)
  : list Emit * Exc unit :=
  match JS.map_get viewerId (sharedSecrets c) with
  | None => ([], Return tt)
  | Some sharedSecret =>
      match Crypto.decryptToString encrypted sharedSecret with
      | Throw => ([], Throw)
      | Return None => ([], Return tt)
      | Return (Some decrypted) =>
          if negb (JS.truthy_str (Some decrypted)) then ([], Return tt)
          else
            match JSON_parse decrypted with
            | Throw => ([], Return tt)
            | Return parsed =>
                (match socket c with
                 | Some _ => [decrypted_input parsed]
                 | None => []
                 end, Return tt)
            end
      end
  end.

End WithHost.

(** [disconnect()] *)
Definition disconnect (c : t) : t :=
  {| socket := None; keyPair := keyPair c; sharedSecrets := [];
     lastOutputEvent := lastOutputEvent c |}.

Definition hasPairedViewers (c : t) : bool := (0 <? length (sharedSecrets c))%nat.

Definition getPairedViewerCount (c : t) : nat := length (sharedSecrets c).

(** [isConnected()] *)
Definition isConnected (c : t) : bool := socket_connected c.

End EncryptedWSClientInput.

(** ** The viewer's page *)

Module WebClient.

(** What the page does to its terminal.  The fixed notices are named; the
    status labels of the page, which nothing reads back, are left out. *)
Inductive Screen : Type :=
| clear                              (* terminal.clear() *)
| write (content : string)           (* terminal.write(content) *)
| notice_encryption_enabled
| notice_cli_connected
| notice_cli_disconnected
| notice_decryption_failed.

(** What the page emits on its socket. *)
Inductive Sent : Type :=
| input (keys type : string)
| encrypted_input (encrypted : EncryptedMessage).

(** The module-level state of the page; [connected] is
    [socket?.connected]. *)
Record t : Type := mk {
  connected : bool;
  currentSeq : Z;
  mySocketId : option string;
  keyPair : option Crypto.KeyPair;
  sharedSecret : option bytes;
  isEncrypted : bool;
  hasControl : bool;
  controlLocked : bool;
}.

Definition set_currentSeq (x : Z) (c : t) : t :=
  {| connected := connected c; currentSeq := x; mySocketId := mySocketId c;
     keyPair := keyPair c; sharedSecret := sharedSecret c;
     isEncrypted := isEncrypted c; hasControl := hasControl c;
     controlLocked := controlLocked c |}.

Definition set_sharedSecret (x : option bytes) (c : t) : t :=
  {| connected := connected c; currentSeq := currentSeq c; mySocketId := mySocketId c;
     keyPair := keyPair c; sharedSecret := x;
     isEncrypted := isEncrypted c; hasControl := hasControl c;
     controlLocked := controlLocked c |}.

Definition set_isEncrypted (x : bool) (c : t) : t :=
  {| connected := connected c; currentSeq := currentSeq c; mySocketId := mySocketId c;
     keyPair := keyPair c; sharedSecret := sharedSecret c;
     isEncrypted := x; hasControl := hasControl c;
     controlLocked := controlLocked c |}.

(** [handleOutput(event, isHistory)] *)
Definition handleOutput (event : OutputEvent) (isHistory : bool) (c : t)
  : t * list Screen :=
  if (seq event <=? currentSeq c) && negb isHistory then (c, [])
  else (set_currentSeq (seq event) c, [clear; write (content event)]).

(** The ['output'] handler. *)
Definition on_output (event : OutputEvent) (c : t) : t * list Screen :=
  handleOutput event false c.

(** The ['history'] handler: [events.forEach(e => handleOutput(e, true))]. *)
Fixpoint on_history (events : list OutputEvent) (c : t) : t * list Screen :=
  match events with
  | [] => (c, [])
  | event :: rest =>
      let '(c, out1) := handleOutput event true c in
      let '(c, out2) := on_history rest c in
      (c, out1 ++ out2)
  end.

(** A JSON value read as an [OutputEvent]: an object whose [seq] and
    [timestamp] are numbers and whose [content] is a string. *)
Definition as_OutputEvent (v : JS.value) : option OutputEvent :=
  match JS.get v "seq", JS.get v "content", JS.get v "timestamp" with
  | Some (Some (JS.Num n)), Some (Some (JS.Str s)), Some (Some (JS.Num t)) =>
      Some (mkOutputEvent n s t)
  | _, _, _ => None
  end.

(** The ['disconnect'] handler. *)
Definition on_disconnect (c : t) : t :=
  {| connected := false; currentSeq := currentSeq c; mySocketId := None;
     keyPair := keyPair c; sharedSecret := None; isEncrypted := false;
     hasControl := false; controlLocked := controlLocked c |}.

Section WithHost.
Context {H : Host}.

(** The ['encrypted-output'] handler.  [Return None] stands for a payload
    that decrypts to a JSON value other than [null] that is no
    [OutputEvent]; what the page does with it is not modelled. *)
Definition on_encrypted_output (encrypted : EncryptedMessage) (c : t)
  : Exc (option (t * list Screen)) :=
  match sharedSecret c with
  | None => Return (Some (c, []))
  | Some secret =>
      decrypted ← Crypto.decryptToString encrypted secret;
      match decrypted with
      | None => Return (Some (c, [notice_decryption_failed]))
      | Some text =>
          if negb (JS.truthy_str (Some text))
          then Return (Some (c, [notice_decryption_failed]))
          else
            match JSON_parse text with
            | Throw => Return (Some (c, []))
            | Return JS.Null => Return (Some (c, []))   (* TypeError, caught *)
            | Return v =>
                match as_OutputEvent v with
                | Some event => Return (Some (handleOutput event false c))
                | None => Return None
                end
            end
      end
  end.

(** The ['cli-status'] handler. *)
Definition on_cli_status (status_connected : bool) (publicKey : option string) (c : t)
  : Exc (t * list Screen) :=
  match publicKey, keyPair c with
  | Some key, Some kp =>
      if status_connected && JS.truthy_str (Some key) then
        cliPublicKey ← Crypto.publicKeyFromBase64 key;
        secret ← Crypto.computeSharedSecret (Crypto.secretKey kp) cliPublicKey;
        Return (set_isEncrypted true (set_sharedSecret (Some secret) c),
                [notice_encryption_enabled])
      else if status_connected then Return (c, [notice_cli_connected])
      else Return (set_sharedSecret None c, [notice_cli_disconnected])
  | _, _ =>
      if status_connected then Return (c, [notice_cli_connected])
      else Return (set_sharedSecret None c, [notice_cli_disconnected])
  end.

(** [{ keys, type }] *)
Definition inputData (keys type : string) : JS.value :=
  JS.Obj [("keys"%string, JS.Str keys); ("type"%string, JS.Str type)].

(** [sendInput(keys, type)]; [rnd] is the nonce [encrypt] draws. *)
Definition sendInput (keys type : string) (rnd : bytes) (c : t) : list Sent * Exc unit :=
  if negb (connected c) then ([], Return tt)
  else
    match sharedSecret c with
    | Some secret =>
        if isEncrypted c then
          match Crypto.encrypt (Crypto.MString (JSON_stringify (inputData keys type)))
                               secret rnd with
          | Throw => ([], Throw)
          | Return encrypted => ([encrypted_input encrypted], Return tt)
          end
        else ([input keys type], Return tt)
    | None => ([input keys type], Return tt)
    end.

End WithHost.
End WebClient.
(** ** More vocabulary: the viewer's page *)

(** The ['output'] events in order, with what each one draws. *)
Fixpoint on_outputs (events : list OutputEvent) (c : WebClient.t)
  : WebClient.t * list (list WebClient.Screen) :=
  match events with
  | [] => (c, [])
  | event :: rest =>
      let '(c, out) := WebClient.on_output event c in
      let '(c, outs) := on_outputs rest c in
      (c, out :: outs)
  end.

(** Drawing a frame: the terminal is cleared and the content written. *)
Definition draws (event : OutputEvent) : list WebClient.Screen :=
  [WebClient.clear; WebClient.write (content event)].

(** The frame is newer than the page's sequence number and than every
    frame of [earlier]. *)
Definition newer_than (c : WebClient.t) (earlier : list OutputEvent)
    (event : OutputEvent) : bool :=
  (WebClient.currentSeq c <? seq event)
  && forallb (fun e => seq e <? seq event) earlier.

(** A page in an encrypted session: connected, with the shared secret
    [sample_key]. *)
Definition sample_page : WebClient.t :=
  {| WebClient.connected := true; WebClient.currentSeq := 0;
     WebClient.mySocketId := Some "V1"%string;
     WebClient.keyPair := Some (Crypto.mkKeyPair sample_key sample_key);
     WebClient.sharedSecret := Some (repeat Byte.x11 32);
     WebClient.isEncrypted := true; WebClient.hasControl := false;
     WebClient.controlLocked := false |}.

(** ** [DaemonManager]: the daemon that serves several tmux sessions *)

Module DaemonManager.

Record SessionCapture : Type := mkSessionCapture {
  sessionName : string;
  capture : TmuxCapture.t;
  keyPair : Crypto.KeyPair;
  pairingCode : Crypto.PairingCode;
  sharedSecrets : JS.Map bytes;     (* viewerId -> sharedSecret *)
  lastOutput : option OutputEvent;
}.

Definition set_capture (x : TmuxCapture.t) (r : SessionCapture) : SessionCapture :=
  {| sessionName := sessionName r; capture := x; keyPair := keyPair r;
     pairingCode := pairingCode r; sharedSecrets := sharedSecrets r;
     lastOutput := lastOutput r |}.

Definition set_sharedSecrets (x : JS.Map bytes) (r : SessionCapture) : SessionCapture :=
  {| sessionName := sessionName r; capture := capture r; keyPair := keyPair r;
     pairingCode := pairingCode r; sharedSecrets := x; lastOutput := lastOutput r |}.

Definition set_lastOutput (x : option OutputEvent) (r : SessionCapture) : SessionCapture :=
  {| sessionName := sessionName r; capture := capture r; keyPair := keyPair r;
     pairingCode := pairingCode r; sharedSecrets := sharedSecrets r; lastOutput := x |}.

(** [this.socket] is [None] for [null], otherwise its [connected] flag. *)
Record t : Type := mk {
  socket : option bool;
  activeSessions : JS.Map SessionCapture;
}.

Definition set_activeSessions (x : JS.Map SessionCapture) (d : t) : t :=
  {| socket := socket d; activeSessions := x |}.

(** [CommandMessage]; [cm_name] is [msg.params?.name]. *)
Record CommandMessage : Type := mkCommandMessage {
  cm_commandId : string;
  cm_command : string;
  cm_name : option string;
}.

(** What the static methods of [TmuxCapture] answer during a command:
    [tmux_createSession name] is the message of the error that
    [createSession(name)] throws, if it throws. *)
Record Tmux : Type := mkTmux {
  tmux_listSessions : list string;
  tmux_sessionExists : string -> bool;
  tmux_createSession : string -> option string;
}.

(** What the daemon emits on its socket, and what it does to tmux. *)
Inductive Emit : Type :=
| cli_response (response : Relay.CommandResponse)
| session_attached (sessionId publicKey : string) (encrypted : bool)
| session_detached (sessionId : string)
| encrypted_output (sessionId : string) (data : EncryptedOutputEvent)
| active_sessions (sessions : list (string * string * nat))
| created_session (name : string)                         (* tmux new-session *)
| sendKeys (sessionName : string) (keys : option JS.value)       (* tmux send-keys *)
| sendSpecialKey (sessionName : string) (keys : option JS.value).

(** [this.socket?.emit(...)] *)
Definition emit (d : t) (m : Emit) : list Emit :=
  match socket d with
  | Some _ => [m]
  | None => []
  end.

Definition socket_connected (d : t) : bool :=
  match socket d with
  | Some b => b
  | None => false
  end.

Definition failure (commandId message : string) : Relay.CommandResponse :=
  {| Relay.cr_commandId := commandId; Relay.cr_success := false;
     Relay.cr_data := None; Relay.cr_error := Some message |}.

Definition success (commandId : string) (data : JS.value) : Relay.CommandResponse :=
  {| Relay.cr_commandId := commandId; Relay.cr_success := true;
     Relay.cr_data := Some data; Relay.cr_error := None |}.

(** [`Session "${name}" ${what}`] *)
Definition about_session (name what : string) : string :=
  "Session " +:+ String (ascii_of_nat 34) name +:+ String (ascii_of_nat 34) " " +:+ what.

Definition named (name : string) : JS.value := JS.Obj [("name"%string, JS.Str name)].

Definition keys_of {V} (m : JS.Map V) : list string := map fst m.

Definition viewerCount (d : t) (name : string) : nat :=
  match JS.map_get name (activeSessions d) with
  | Some session => length (sharedSecrets session)
  | None => 0
  end.

Definition cmdListSessions (tmux : Tmux) (commandId : string) (d : t)
  : Relay.CommandResponse :=
  let allSessions := tmux_listSessions tmux in
  let active := keys_of (activeSessions d) in
  success commandId
    (JS.Obj [("all"%string, JS.Arr (map JS.Str allSessions));
             ("active"%string, JS.Arr (map JS.Str active));
             ("sessions"%string,
              JS.Arr (map (fun name =>
                             JS.Obj [("name"%string, JS.Str name);
                                     ("attached"%string,
                                      JS.Bool (bool_decide (name ∈ active)));
                                     ("viewerCount"%string,
                                      JS.Num (Z.of_nat (viewerCount d name)))])
                          allSessions))]).

(** The result of a command: the daemon after it, what was emitted or
    done, and the response, or the message of the error thrown. *)
Definition cmdCreateSession (tmux : Tmux) (commandId : string) (name : option string)
    (d : t) : t * list Emit * (Relay.CommandResponse + string) :=
  match name with
  | Some name =>
      if negb (JS.truthy_str (Some name))
      then (d, [], inl (failure commandId "Session name is required"))
      else if tmux_sessionExists tmux name
      then (d, [], inl (failure commandId (about_session name "already exists")))
      else
        match tmux_createSession tmux name with
        | Some message => (d, [], inr message)
        | None => (d, [created_session name], inl (success commandId (named name)))
        end
  | None => (d, [], inl (failure commandId "Session name is required"))
  end.

Section WithHost.
Context {H : Host}.

(** [broadcastOutput(sessionName, event)]'s loop; the [i]-th encryption
    draws the nonce [rnd i]. *)
Fixpoint send_to_each (sessionName : string) (event : OutputEvent) (rnd : nat -> bytes)
    (i : nat) (entries : list (string * bytes)) : list Emit * Exc unit :=
  match entries with
  | [] => ([], Return tt)
  | (viewerId, sharedSecret) :: rest =>
      match Crypto.encrypt (Crypto.MString (JSON_stringify (OutputEvent_to_JS event)))
                           sharedSecret (rnd i) with
      | Throw => ([], Throw)
      | Return encrypted =>
          let '(out, r) := send_to_each sessionName event rnd (S i) rest in
          (encrypted_output sessionName
             {| eo_viewerId := viewerId; eo_encrypted := encrypted;
                eo_seq := seq event; eo_timestamp := timestamp event |} :: out, r)
      end
  end.

Definition broadcastOutput (sessionName : string) (event : OutputEvent)
    (rnd : nat -> bytes) (d : t) : list Emit * Exc unit :=
  match JS.map_get sessionName (activeSessions d) with
  | Some session =>
      if negb (socket_connected d) then ([], Return tt)
      else send_to_each sessionName event rnd 0 (sharedSecrets session)
  | None => ([], Return tt)
  end.

(** The callback [cmdAttachSession] gives to [capture.start], run on the
    events the capture hands out: [sessionCapture.lastOutput = event;
    this.broadcastOutput(name, event)].  An exception ends it. *)
Fixpoint on_capture_events (name : string) (events : list OutputEvent)
    (rnd : nat -> bytes) (d : t) : t * list Emit * Exc unit :=
  match events with
  | [] => (d, [], Return tt)
  | event :: rest =>
      let d :=
        match JS.map_get name (activeSessions d) with
        | Some session =>
            set_activeSessions
              (JS.map_set name (set_lastOutput (Some event) session) (activeSessions d)) d
        | None => d
        end in
      match broadcastOutput name event rnd d with
      | (out, Throw) => (d, out, Throw)
      | (out1, Return _) =>
          let '(d, out2, r) := on_capture_events name rest rnd d in
          (d, out1 ++ out2, r)
      end
  end.

(** [cmdAttachSession(commandId, name)]: [pair] is what [generateKeyPair()]
    returns, [now] what [Date.now()] returns in [generatePairingCode],
    [pane] and [started] what [capturePane()] and [Date.now()] return in
    [capture.start]. *)
Definition cmdAttachSession (tmux : Tmux) (pair : Crypto.KeyPair) (now : Z)
    (pane : string) (started : Z) (rnd : nat -> bytes)
    (commandId : string) (name : option string) (d : t)
  : t * list Emit * (Relay.CommandResponse + string) :=
  match name with
  | Some name =>
      if negb (JS.truthy_str (Some name))
      then (d, [], inl (failure commandId "Session name is required"))
      else if negb (tmux_sessionExists tmux name)
      then (d, [], inl (failure commandId (about_session name "does not exist")))
      else
        match JS.map_get name (activeSessions d) with
        | Some _ => (d, [], inl (failure commandId (about_session name "is already attached")))
        | None =>
            let pairing := Crypto.generatePairingCode name (Crypto.publicKey pair) now in
            let sessionCapture :=
              {| sessionName := name; capture := TmuxCapture.new; keyPair := pair;
                 pairingCode := pairing; sharedSecrets := []; lastOutput := None |} in
            let d := set_activeSessions
                       (JS.map_set name sessionCapture (activeSessions d)) d in
            let out1 := emit d (session_attached
                                  name (Crypto.publicKeyToBase64 (Crypto.publicKey pair))
                                  true) in
            let '(begun, events) := TmuxCapture.start pane started TmuxCapture.new in
            let d := set_activeSessions
                       (JS.map_set name (set_capture begun sessionCapture)
                                   (activeSessions d)) d in
            match on_capture_events name events rnd d with
            | (d, out2, Throw) =>
                (* not reached: the new session has no shared secret to
                   encrypt for *)
                (d, out1 ++ out2, inr ""%string)
            | (d, out2, Return _) =>
                (d, out1 ++ out2,
                 inl (success commandId
                        (JS.Obj [("name"%string, JS.Str name);
                                 ("publicKey"%string,
                                  JS.Str (Crypto.publicKeyToBase64 (Crypto.publicKey pair)));
                                 ("pairingCode"%string,
                                  JS.Str (Crypto.encodePairingCode pairing))])))
            end
        end
  | None => (d, [], inl (failure commandId "Session name is required"))
  end.

End WithHost.

Definition cmdDetachSession (commandId : string) (name : option string) (d : t)
  : t * list Emit * (Relay.CommandResponse + string) :=
  match name with
  | Some name =>
      if negb (JS.truthy_str (Some name))
      then (d, [], inl (failure commandId "Session name is required"))
      else
        match JS.map_get name (activeSessions d) with
        | None => (d, [], inl (failure commandId (about_session name "is not attached")))
        | Some session =>
            (* session.capture.stop() acts on an object that is dropped *)
            let d := set_activeSessions (JS.map_delete name (activeSessions d)) d in
            (d, emit d (session_detached name), inl (success commandId (named name)))
        end
  | None => (d, [], inl (failure commandId "Session name is required"))
  end.

Section WithHost.
Context {H : Host}.

(** [handleCommand(msg)] *)
Definition handleCommand (tmux : Tmux) (pair : Crypto.KeyPair) (now : Z)
    (pane : string) (started : Z) (rnd : nat -> bytes) (msg : CommandMessage) (d : t)
  : t * list Emit :=
  let '(d, out, result) :=
    if bool_decide (cm_command msg = "list-sessions"%string)
    then (d, [], inl (cmdListSessions tmux (cm_commandId msg) d))
    else if bool_decide (cm_command msg = "create-session"%string)
    then cmdCreateSession tmux (cm_commandId msg) (cm_name msg) d
    else if bool_decide (cm_command msg = "attach-session"%string)
    then cmdAttachSession tmux pair now pane started rnd (cm_commandId msg) (cm_name msg) d
    else if bool_decide (cm_command msg = "detach-session"%string)
    then cmdDetachSession (cm_commandId msg) (cm_name msg) d
    else (d, [], inl (failure (cm_commandId msg)
                              ("Unknown command: " +:+ cm_command msg))) in
  let response :=
    match result with
    | inl response => response
    | inr message => failure (cm_commandId msg) message
    end in
  (d, out ++ emit d (cli_response response)).

(** [handleViewerJoined(data)]; an exception is caught and logged. *)
Definition handleViewerJoined (sessionId viewerId publicKey : string) (rnd : bytes)
    (d : t) : t * list Emit :=
  match JS.map_get sessionId (activeSessions d) with
  | None => (d, [])
  | Some session =>
      match Crypto.publicKeyFromBase64 publicKey with
      | Throw => (d, [])
      | Return viewerPublicKey =>
          match Crypto.computeSharedSecret (Crypto.secretKey (keyPair session))
                                           viewerPublicKey with
          | Throw => (d, [])
          | Return sharedSecret =>
              let session :=
                set_sharedSecrets (JS.map_set viewerId sharedSecret (sharedSecrets session))
                                  session in
              let d := set_activeSessions
                         (JS.map_set sessionId session (activeSessions d)) d in
              match lastOutput session with
              | Some last =>
                  match Crypto.encrypt
                          (Crypto.MString (JSON_stringify (OutputEvent_to_JS last)))
                          sharedSecret rnd with
                  | Throw => (d, [])
                  | Return encrypted =>
                      (d, emit d (encrypted_output sessionId
                                    {| eo_viewerId := viewerId; eo_encrypted := encrypted;
                                       eo_seq := seq last;
                                       eo_timestamp := timestamp last |}))
                  end
              | None => (d, [])
              end
          end
      end
  end.

(** [handleViewerLeft(data)] *)
Definition handleViewerLeft (sessionId viewerId : string) (d : t) : t :=
  match JS.map_get sessionId (activeSessions d) with
  | Some session =>
      set_activeSessions
        (JS.map_set sessionId
           (set_sharedSecrets (JS.map_delete viewerId (sharedSecrets session)) session)
           (activeSessions d)) d
  | None => d
  end.

(** [handleEncryptedInput(data)]: what it does to tmux, and whether it
    returns.  The keys go to the pane of [session.capture], which
    [cmdAttachSession] has made for the name it stores as
    [session.sessionName]. *)
Definition handleEncryptedInput (sessionId viewerId : string)
    (encrypted : EncryptedMessage) (d : t) : list Emit * Exc unit :=
  match JS.map_get sessionId (activeSessions d) with
  | None => ([], Return tt)
  | Some session =>
      match JS.map_get viewerId (sharedSecrets session) with
      | None => ([], Return tt)
      | Some sharedSecret =>
          match Crypto.decryptToString encrypted sharedSecret with
          | Throw => ([], Throw)
          | Return None => ([], Return tt)
          | Return (Some decrypted) =>
              if negb (JS.truthy_str (Some decrypted)) then ([], Return tt)
              else
                match JSON_parse decrypted with
                | Throw => ([], Return tt)
                | Return parsed =>
                    match JS.get parsed "type", JS.get parsed "keys" with
                    | Some type, Some keys =>
                        if match type with
                           | Some (JS.Str t) => bool_decide (t = "special"%string)
                           | _ => false
                           end
                        then ([sendSpecialKey (sessionName session) keys], Return tt)
                        else ([sendKeys (sessionName session) keys], Return tt)
                    | _, _ => ([], Return tt)      (* TypeError, caught *)
                    end
                end
          end
      end
  end.

(** [session.capture = capture] for the session [name], if attached. *)
Definition store_capture (name : string) (capture : TmuxCapture.t) (d : t) : t :=
  match JS.map_get name (activeSessions d) with
  | Some session =>
      set_activeSessions
        (JS.map_set name (set_capture capture session) (activeSessions d)) d
  | None => d
  end.

(** A tick of the timer of the capture of [name]: [poll()], with the
    callback of [cmdAttachSession].  [poll] assigns [lastContent] after the
    callback has returned: when the callback throws, the capture keeps the
    old [lastContent] with the new [seq]. *)
Definition tick (name pane : string) (now : Z) (rnd : nat -> bytes) (d : t)
  : t * list Emit * Exc unit :=
  match JS.map_get name (activeSessions d) with
  | None => (d, [], Return tt)
  | Some session =>
      let '(polled, events) := TmuxCapture.poll pane now (capture session) in
      match on_capture_events name events rnd d with
      | (d, out, Return _) => (store_capture name polled d, out, Return tt)
      | (d, out, Throw) =>
          (store_capture name
             {| TmuxCapture.running := TmuxCapture.running polled;
                TmuxCapture.seq := TmuxCapture.seq polled;
                TmuxCapture.lastContent := TmuxCapture.lastContent (capture session);
                TmuxCapture.callback := TmuxCapture.callback polled |} d,
           out, Throw)
      end
  end.

End WithHost.

(** [broadcastActiveSessionsList()] *)
Definition broadcastActiveSessionsList {H : Host} (d : t) : list Emit :=
  emit d (active_sessions
            (map (fun entry =>
                    (fst entry,
                     Crypto.publicKeyToBase64 (Crypto.publicKey (keyPair (snd entry))),
                     length (sharedSecrets (snd entry))))
                 (activeSessions d))).

(** [disconnect()] *)
Definition disconnect (d : t) : t := {| socket := None; activeSessions := [] |}.

Definition isConnected (d : t) : bool := socket_connected d.

Definition getActiveSessionCount (d : t) : nat := length (activeSessions d).

End DaemonManager.
(** ** More vocabulary: the daemon *)

Definition is_cli_response (m : DaemonManager.Emit) : bool :=
  match m with
  | DaemonManager.cli_response _ => true
  | _ => false
  end.

(** The session as [cmdAttachSession] registers it. *)
Definition attached_session {H : Host} (name : string) (pair : Crypto.KeyPair) (now : Z)
    (pane : string) (started : Z) : DaemonManager.SessionCapture :=
  {| DaemonManager.sessionName := name;
     DaemonManager.capture := fst (TmuxCapture.start pane started TmuxCapture.new);
     DaemonManager.keyPair := pair;
     DaemonManager.pairingCode :=
       Crypto.generatePairingCode name (Crypto.publicKey pair) now;
     DaemonManager.sharedSecrets := [];
     DaemonManager.lastOutput := last (snd (TmuxCapture.start pane started TmuxCapture.new)) |}.

(** The data of the answer to a successful ['attach-session']. *)
Definition attached_data {H : Host} (name : string) (pair : Crypto.KeyPair) (now : Z)
  : JS.value :=
  JS.Obj [("name"%string, JS.Str name);
          ("publicKey"%string, JS.Str (Crypto.publicKeyToBase64 (Crypto.publicKey pair)));
          ("pairingCode"%string,
           JS.Str (Crypto.encodePairingCode
                     (Crypto.generatePairingCode name (Crypto.publicKey pair) now)))].

(** A tmux in which the session [work] exists and nothing fails. *)
Definition sample_tmux : DaemonManager.Tmux :=
  {| DaemonManager.tmux_listSessions := ["work"%string];
     DaemonManager.tmux_sessionExists := fun name => bool_decide (name = "work"%string);
     DaemonManager.tmux_createSession := fun _ => None |}.

(** A connected daemon with no session attached. *)
Definition sample_daemon : DaemonManager.t :=
  {| DaemonManager.socket := Some true; DaemonManager.activeSessions := [] |}.
(** What happens to a daemon: a call of one of its handlers with what the
    call reads from its environment, [connect()], the ['connect'] and
    ['disconnect'] events of its socket, or [disconnect()].  A tick is a
    tick of the timer of the capture of an attached session.  The events
    are those of the socket that [this.socket] holds: the handlers that an
    earlier [connect()] has left on a replaced socket are not modelled. *)
Inductive DaemonCall : Type :=
| CallCommand (tmux : DaemonManager.Tmux) (pair : Crypto.KeyPair) (now : Z)
              (pane : string) (started : Z) (rnd : nat -> bytes)
              (msg : DaemonManager.CommandMessage)
| CallViewerJoined (sessionId viewerId publicKey : string) (rnd : bytes)
| CallViewerLeft (sessionId viewerId : string)
| CallEncryptedInput (sessionId viewerId : string) (encrypted : EncryptedMessage)
| CallTick (name pane : string) (now : Z) (rnd : nat -> bytes)
| CallConnect
| SocketConnected
| SocketDisconnected
| CallDisconnect.

Definition daemon_call {H : Host} (call : DaemonCall) (d : DaemonManager.t)
  : DaemonManager.t * list DaemonManager.Emit :=
  match call with
  | CallCommand tmux keys now pane started rnd msg =>
      DaemonManager.handleCommand tmux keys now pane started rnd msg d
  | CallViewerJoined sessionId viewerId publicKey rnd =>
      DaemonManager.handleViewerJoined sessionId viewerId publicKey rnd d
  | CallViewerLeft sessionId viewerId =>
      (DaemonManager.handleViewerLeft sessionId viewerId d, [])
  | CallEncryptedInput sessionId viewerId encrypted =>
      (d, fst (DaemonManager.handleEncryptedInput sessionId viewerId encrypted d))
  | CallTick name pane now rnd =>
      (fst (fst (DaemonManager.tick name pane now rnd d)),
       snd (fst (DaemonManager.tick name pane now rnd d)))
  | CallConnect =>
      ({| DaemonManager.socket := Some false;
          DaemonManager.activeSessions := DaemonManager.activeSessions d |}, [])
  | SocketConnected =>
      match DaemonManager.socket d with
      | Some _ =>
          let d := {| DaemonManager.socket := Some true;
                      DaemonManager.activeSessions := DaemonManager.activeSessions d |} in
          (d, DaemonManager.broadcastActiveSessionsList d)
      | None => (d, [])
      end
  | SocketDisconnected =>
      match DaemonManager.socket d with
      | Some _ =>
          ({| DaemonManager.socket := Some false;
              DaemonManager.activeSessions := DaemonManager.activeSessions d |}, [])
      | None => (d, [])
      end
  | CallDisconnect => (DaemonManager.disconnect d, [])
  end.

Fixpoint daemon_calls {H : Host} (calls : list DaemonCall) (d : DaemonManager.t)
  : DaemonManager.t * list DaemonManager.Emit :=
  match calls with
  | [] => (d, [])
  | call :: rest =>
      let '(d, out1) := daemon_call call d in
      let '(d, out2) := daemon_calls rest d in
      (d, out1 ++ out2)
  end.

(** [new DaemonManager(options)] *)
Definition new_daemon : DaemonManager.t :=
  {| DaemonManager.socket := None; DaemonManager.activeSessions := [] |}.

(** Every attached session is registered under its own name, with a
    pairing code for that name and for the public key of its key pair, and
    its capture is running. *)
Definition sessions_well_formed {H : Host} (d : DaemonManager.t) : Prop :=
  forall name session,
    JS.map_get name (DaemonManager.activeSessions d) = Some session ->
    DaemonManager.sessionName session = name /\
    Crypto.pc_sessionId (DaemonManager.pairingCode session) = name /\
    Crypto.pc_publicKey (DaemonManager.pairingCode session)
    = Crypto.publicKeyToBase64 (Crypto.publicKey (DaemonManager.keyPair session)) /\
    TmuxCapture.running (DaemonManager.capture session) = true.

(** No attached session has a paired viewer. *)
Definition no_viewer_paired (d : DaemonManager.t) : Prop :=
  forall name session,
    JS.map_get name (DaemonManager.activeSessions d) = Some session ->
    DaemonManager.sharedSecrets session = [].

Definition is_viewer_joined (call : DaemonCall) : bool :=
  match call with
  | CallViewerJoined _ _ _ _ => true
  | _ => false
  end.

Definition is_daemon_frame (m : DaemonManager.Emit) : bool :=
  match m with
  | DaemonManager.encrypted_output _ _ => true
  | _ => false
  end.
(** The session [s'] is [s] but for its capture's progress and its last
    output. *)
Definition same_pairing (s s' : DaemonManager.SessionCapture) : Prop :=
  DaemonManager.sessionName s' = DaemonManager.sessionName s /\
  DaemonManager.keyPair s' = DaemonManager.keyPair s /\
  DaemonManager.pairingCode s' = DaemonManager.pairingCode s /\
  DaemonManager.sharedSecrets s' = DaemonManager.sharedSecrets s /\
  TmuxCapture.running (DaemonManager.capture s')
  = TmuxCapture.running (DaemonManager.capture s).

(** The daemon [d'] has the sessions of [d], each but for its capture's
    progress and its last output. *)
Definition same_sessions (d d' : DaemonManager.t) : Prop :=
  DaemonManager.socket d' = DaemonManager.socket d /\
  forall name,
    match JS.map_get name (DaemonManager.activeSessions d),
          JS.map_get name (DaemonManager.activeSessions d') with
    | Some s, Some s' => same_pairing s s'
    | None, None => True
    | _, _ => False
    end.
(** The message acts on one session: a frame of it, or keys for it. *)
Definition touches_session (m : DaemonManager.Emit) : bool :=
  match m with
  | DaemonManager.encrypted_output _ _
  | DaemonManager.sendKeys _ _ | DaemonManager.sendSpecialKey _ _ => true
  | _ => false
  end.

(** The viewer is paired with the attached session [sessionId]. *)
Definition paired_in (d : DaemonManager.t) (sessionId viewerId : string) : Prop :=
  exists session,
    JS.map_get sessionId (DaemonManager.activeSessions d) = Some session /\
    is_Some (JS.map_get viewerId (DaemonManager.sharedSecrets session)).

(** A daemon with the sessions [work] and [play] attached; viewer [V1] is
    paired with [work]. *)
Definition two_sessions_calls : list DaemonCall :=
  [CallConnect; SocketConnected;
   CallCommand sample_tmux (Crypto.mkKeyPair sample_key sample_key) 5 "$ " 6
               (fun _ => sample_nonce)
               (DaemonManager.mkCommandMessage "c1" "attach-session" (Some "work"%string));
   CallCommand {| DaemonManager.tmux_listSessions := ["play"%string];
                  DaemonManager.tmux_sessionExists := fun _ => true;
                  DaemonManager.tmux_createSession := fun _ => None |}
               (Crypto.mkKeyPair sample_key sample_key) 7 "" 8
               (fun _ => sample_nonce)
               (DaemonManager.mkCommandMessage "c2" "attach-session" (Some "play"%string));
   CallViewerJoined "work" "V1" (string_of_list_byte sample_key) sample_nonce].

(** ** The viewer's page: the control lock *)

Module WebControl.

(** [{ key, domEvent }] of [terminal.onKey], as far as the handler reads
    it. *)
Record KeyEvent : Type := mkKeyEvent {
  key : string;
  dom_key : string;       (* domEvent.key *)
  dom_ctrlKey : bool;     (* domEvent.ctrlKey *)
}.

(** What a handler of typed input does. *)
Inductive Typing : Type :=
| nothing        (* returns without a trace *)
| refused        (* writes [You do not have control. Request control first.] *)
| typed (sent : list WebClient.Sent) (r : Exc unit).   (* has called sendInput *)

Definition set_control (locked has : bool) (c : WebClient.t) : WebClient.t :=
  {| WebClient.connected := WebClient.connected c;
     WebClient.currentSeq := WebClient.currentSeq c;
     WebClient.mySocketId := WebClient.mySocketId c;
     WebClient.keyPair := WebClient.keyPair c;
     WebClient.sharedSecret := WebClient.sharedSecret c;
     WebClient.isEncrypted := WebClient.isEncrypted c;
     WebClient.hasControl := has;
     WebClient.controlLocked := locked |}.

(** [updateControlStatus(data)], as far as it writes the state:
    [holderId] is [data.holderId], [None] for [undefined]. *)
Definition updateControlStatus (locked : bool) (holderId : option string)
    (c : WebClient.t) : WebClient.t :=
  if negb locked then set_control locked false c
  else if match holderId, WebClient.mySocketId c with
          | Some holder, Some me => bool_decide (holder = me)
          | _, _ => false
          end
  then set_control locked true c
  else set_control locked false c.

(** The ['control-status'] handler, on the message of the relay. *)
Definition on_control_status (m : Relay.Msg) (c : WebClient.t) : WebClient.t :=
  match m with
  | Relay.control_status locked holder _ _ => updateControlStatus locked holder c
  | _ => c
  end.

(** The ['connect'] handler, as far as it writes the state:
    [mySocketId = socket.id ?? null]. *)
Definition on_connect (id : option string) (c : WebClient.t) : WebClient.t :=
  {| WebClient.connected := true;
     WebClient.currentSeq := WebClient.currentSeq c;
     WebClient.mySocketId := id;
     WebClient.keyPair := WebClient.keyPair c;
     WebClient.sharedSecret := WebClient.sharedSecret c;
     WebClient.isEncrypted := WebClient.isEncrypted c;
     WebClient.hasControl := WebClient.hasControl c;
     WebClient.controlLocked := WebClient.controlLocked c |}.

(** [!hasControl && controlLocked] *)
Definition locked_out (c : WebClient.t) : bool :=
  negb (WebClient.hasControl c) && WebClient.controlLocked c.

Section WithHost.
Context {H : Host}.
(** [s.length], in UTF-16 code units, and [s.toLowerCase()] *)
Variable js_length : string -> nat.
Variable toLowerCase : string -> string.

(** The keys and the type that [terminal.onKey] sends for a key event. *)
Definition key_input (e : KeyEvent) : option (string * string) :=
  if dom_ctrlKey e && bool_decide (js_length (dom_key e) = 1%nat)
  then Some ("C-" +:+ toLowerCase (dom_key e), "special")
  else if bool_decide (dom_key e = "Enter") then Some ("Enter", "special")
  else if bool_decide (dom_key e = "Tab") then Some ("Tab", "special")
  else if bool_decide (dom_key e = "Escape") then Some ("Escape", "special")
  else if bool_decide (dom_key e = "Backspace") then Some ("BSpace", "special")
  else if bool_decide (dom_key e = "ArrowUp") then Some ("Up", "special")
  else if bool_decide (dom_key e = "ArrowDown") then Some ("Down", "special")
  else if bool_decide (dom_key e = "ArrowLeft") then Some ("Left", "special")
  else if bool_decide (dom_key e = "ArrowRight") then Some ("Right", "special")
  else if bool_decide (js_length (key e) = 1%nat) then Some (key e, "text")
  else None.

(** The handler of [terminal.onKey]; [rnd] is the nonce [encrypt] draws. *)
Definition onKey (e : KeyEvent) (rnd : bytes) (c : WebClient.t) : Typing :=
  if negb (WebClient.connected c) then nothing
  else if locked_out c then refused
  else
    match key_input e with
    | Some (keys, type) =>
        let '(sent, r) := WebClient.sendInput keys type rnd c in typed sent r
    | None => nothing
    end.

End WithHost.

Section WithHost.
Context {H : Host}.

(** The [keypress] handler of the input field, for the key [Enter];
    [text] is [inputField.value]. *)
Definition on_enter (text : string) (rnd1 rnd2 : bytes) (c : WebClient.t) : Typing :=
  if negb (JS.truthy_str (Some text)) then nothing
  else if locked_out c then refused
  else
    match WebClient.sendInput text "text" rnd1 c with
    | (sent1, Throw) => typed sent1 Throw
    | (sent1, Return _) =>
        let '(sent2, r) := WebClient.sendInput "Enter" "special" rnd2 c in
        typed (sent1 ++ sent2) r
    end.

(** The [click] handler of a special-key button; [data_key] is
    [btn.dataset.key]. *)
Definition on_key_button (data_key : option string) (rnd : bytes) (c : WebClient.t)
  : Typing :=
  match data_key with
  | Some keys =>
      if negb (JS.truthy_str (Some keys)) then nothing
      else if locked_out c then refused
      else let '(sent, r) := WebClient.sendInput keys "special" rnd c in typed sent r
  | None => nothing
  end.

End WithHost.

End WebControl.

(** ** More vocabulary: the control lock, seen from both sides *)

(** The status that [broadcastControlStatus] sends for the session. *)
Definition control_status_of (s : Session) : Msg :=
  match controlLock s with
  | Some l => control_status true (Some (holderId l)) (holderNickname l)
                             (Some (acquiredAt l))
  | None => control_status false None None None
  end.

(** The relay's handler for what the page has sent, called for the
    connection [socket]. *)
Definition relay_receives (socket : Socket) (now : Z) (m : WebClient.Sent) (s : Session)
  : Session * list Output :=
  match m with
  | WebClient.input keys type => on_input socket now (WebClient.inputData keys type) s
  | WebClient.encrypted_input e => on_encrypted_input socket now e s
  end.

Definition is_input_rejected (o : Output) : bool :=
  match o with
  | Emit _ (input_rejected _) => true
  | _ => false
  end.

(** What one of the page's three handlers of typed input does. *)
Inductive TypingCall : Type :=
| KeyPressed (js_length : string -> nat) (toLowerCase : string -> string)
             (e : WebControl.KeyEvent) (rnd : bytes)
| EnterPressed (text : string) (rnd1 rnd2 : bytes)
| ButtonClicked (data_key : option string) (rnd : bytes).

Definition typing_call {H : Host} (call : TypingCall) (c : WebClient.t)
  : WebControl.Typing :=
  match call with
  | KeyPressed js_length toLowerCase e rnd =>
      WebControl.onKey js_length toLowerCase e rnd c
  | EnterPressed text rnd1 rnd2 => WebControl.on_enter text rnd1 rnd2 c
  | ButtonClicked data_key rnd => WebControl.on_key_button data_key rnd c
  end.

(** The page of the viewer [A], connected, before it has heard of the
    control lock. *)
Definition page_of_A : WebClient.t :=
  {| WebClient.connected := true; WebClient.currentSeq := 0;
     WebClient.mySocketId := Some "A"%string; WebClient.keyPair := None;
     WebClient.sharedSecret := None; WebClient.isEncrypted := false;
     WebClient.hasControl := false; WebClient.controlLocked := false |}.
Definition is_control_status (o : Output) : bool :=
  match o with
  | Emit _ (control_status _ _ _ _) => true
  | _ => false
  end.

(** The directory lists a session object under the id the object
    carries. *)
Definition Named (st : State) : Prop :=
  forall sid r s, sessions st !! sid = Some r -> heap st !! r = Some s -> id s = sid.

(** The session objects of [st] are still there in [st'], each with the
    control lock it had. *)
Definition same_locks (st st' : State) : Prop :=
  (nextRef st <= nextRef st')%nat /\
  forall r s, (r < nextRef st)%nat -> heap st !! r = Some s ->
              exists s', heap st' !! r = Some s' /\ controlLock s' = controlLock s.

(** A handler of the connection [socket] that tells the room of its
    session of every change of the control status it makes: what it sends
    as ['control-status'] is the status it leaves, sent to that room, and
    it sends it or leaves the status as it was. *)
Definition announces (socket : Socket) (f : Session -> Session * list Output) : Prop :=
  forall s,
    id (fst (f s)) = id s /\
    (forall o, o ∈ snd (f s) -> is_control_status o = true ->
               o = Emit (ToRoom (room_of (sessionId socket)))
                        (control_status_of (fst (f s))) /\
               (clientType socket <> cli \/ holds_lock socket s = true)) /\
    (Emit (ToRoom (room_of (sessionId socket))) (control_status_of (fst (f s)))
       ∈ snd (f s) \/
     control_status_of (fst (f s)) = control_status_of s).

(** What a connected viewer is told of the control status of its session
    by a step from [st] that emits [out] and leaves the viewer's session
    object as [s']: every ['control-status'] goes to the room of a session,
    and one that goes to the room of the viewer's session carries the
    status of [s']; and one is sent to that room, unless the viewer was
    connected before and the status is what it was. *)
Definition status_told (st : State) (out : list Output) (id : string)
    (viewerSocket : Socket) (s' : Session) : Prop :=
  (forall o, o ∈ out -> is_control_status o = true ->
             exists sid m,
               o = Emit (ToRoom (room_of sid)) m /\
               (sid = sessionId viewerSocket -> m = control_status_of s')) /\
  (Emit (ToRoom (room_of (sessionId viewerSocket))) (control_status_of s') ∈ out \/
   (sockets st !! id = Some (SessionSocket viewerSocket) /\
    exists s, heap st !! session viewerSocket = Some s /\
              control_status_of s = control_status_of s')).

(** ** The viewer's page: the encrypted history *)

Module WebHistory.
Section WithHost.
Context {H : Host}.

(** One turn of the loop of the ['encrypted-history'] handler: the page
    after it, what it drew, and how it ended.  [Return false] says that the
    entry decrypts to a JSON value other than [null] that is no
    [OutputEvent]; what the page does with it, and after it, is not
    modelled.  [Throw] is an exception of [decryptToString], which leaves
    the handler. *)
Definition on_entry (encrypted : EncryptedMessage) (secret : bytes) (c : WebClient.t)
  : WebClient.t * list WebClient.Screen * Exc bool :=
  match Crypto.decryptToString encrypted secret with
  | Throw => (c, [], Throw)
  | Return None => (c, [], Return true)
  | Return (Some text) =>
      if negb (JS.truthy_str (Some text)) then (c, [], Return true)
      else
        match JSON_parse text with
        | Throw => (c, [], Return true)             (* ignored *)
        | Return JS.Null => (c, [], Return true)    (* TypeError, ignored *)
        | Return v =>
            match WebClient.as_OutputEvent v with
            | Some event =>
                let '(c, out) := WebClient.handleOutput event true c in
                (c, out, Return true)
            | None => (c, [], Return false)
            end
        end
  end.

(** [events.forEach(...)] *)
Fixpoint on_entries (events : list EncryptedOutputEvent) (secret : bytes)
    (c : WebClient.t) : WebClient.t * list WebClient.Screen * Exc bool :=
  match events with
  | [] => (c, [], Return true)
  | data :: rest =>
      match on_entry (eo_encrypted data) secret c with
      | (c, out1, Return true) =>
          let '(c, out2, r) := on_entries rest secret c in
          (c, out1 ++ out2, r)
      | stopped => stopped
      end
  end.

(** The ['encrypted-history'] handler. *)
Definition on_encrypted_history (events : list EncryptedOutputEvent) (c : WebClient.t)
  : WebClient.t * list WebClient.Screen * Exc bool :=
  match WebClient.sharedSecret c with
  | None => (c, [], Return true)
  | Some secret => on_entries events secret c
  end.

End WithHost.
End WebHistory.

(** ** More vocabulary: the encrypted history *)

(** Under [secret], the entry opens to the JSON text of the event, which
    reads back as the event; or, for [None], it does not open. *)
Definition opens_to {H : Host} (secret : bytes) (entry : EncryptedOutputEvent)
    (opened : option OutputEvent) : Prop :=
  match opened with
  | Some event =>
      Crypto.decryptToString (eo_encrypted entry) secret
      = Return (Some (JSON_stringify (OutputEvent_to_JS event))) /\
      JSON_stringify (OutputEvent_to_JS event) <> ""%string /\
      JSON_parse (JSON_stringify (OutputEvent_to_JS event))
      = Return (OutputEvent_to_JS event)
  | None => Crypto.decryptToString (eo_encrypted entry) secret = Return None
  end.

(** The page of the viewer [V2] of [sample_client]. *)
Definition sample_page_V2 : WebClient.t :=
  {| WebClient.connected := true; WebClient.currentSeq := 0;
     WebClient.mySocketId := Some "V2"%string;
     WebClient.keyPair := Some (Crypto.mkKeyPair sample_key sample_key);
     WebClient.sharedSecret := Some (repeat Byte.x22 32);
     WebClient.isEncrypted := true; WebClient.hasControl := false;
     WebClient.controlLocked := false |}.

(** An encrypted session [demo] without history, produced by [P1]. *)
Definition encrypted_demo_session : Session :=
  {| id := "demo"; userId := None; cliSocketId := Some "P1"%string;
     cliPublicKey := Some "a2V5"%string; daemonSocketId := None;
     viewers := ∅; lastOutput := None; outputHistory := []; encryptedHistory := [];
     encrypted := true; controlLock := None; createdAt := 0 |}.

(** ** The relay's session reports *)

(** An entry of the [sessions] list of [GET /api/sessions]. *)
Record SessionSummary : Type := mkSessionSummary {
  ss_id : string;
  ss_hasCliConnected : bool;
  ss_viewerCount : nat;
  ss_lastOutputSeq : Z;
  ss_encrypted : bool;
  ss_controlLocked : bool;
  ss_controlHolder : option string;
  ss_isDaemonManaged : bool;
}.

(** The callback that [GET /api/sessions] maps over [sessions.entries()].
    The order of the list, that of the insertions into [sessions], is not
    modelled. *)
Definition session_summary (sessionId : string) (s : Session) : SessionSummary :=
  {| ss_id := sessionId;
     ss_hasCliConnected := JS.truthy_str (cliSocketId s) || JS.truthy_str (daemonSocketId s);
     ss_viewerCount := size (viewers s);
     ss_lastOutputSeq := match lastOutput s with Some last => seq last | None => 0 end;
     ss_encrypted := encrypted s;
     ss_controlLocked := bool_decide (is_Some (controlLock s));
     ss_controlHolder := match controlLock s with
                         | Some l => holderNickname l
                         | None => None
                         end;
     ss_isDaemonManaged := JS.truthy_str (daemonSocketId s) |}.

(** The answer of [GET /api/sessions/:sessionId] for a session that is
    found. *)
Record SessionDetail : Type := mkSessionDetail {
  sd_id : string;
  sd_hasCliConnected : bool;
  sd_cliPublicKey : option string;
  sd_encrypted : bool;
  sd_controlLock : option (string * option string * Z);
}.

(** [GET /api/sessions/:sessionId]; [None] is [{ error: 'Session not
    found' }]. *)
Definition get_session (sessionId : string) (st : State) : option SessionDetail :=
  match sessions st !! sessionId with
  | Some ref =>
      match heap st !! ref with
      | Some s =>
          Some {| sd_id := id s;
                  sd_hasCliConnected := JS.truthy_str (cliSocketId s);
                  sd_cliPublicKey := cliPublicKey s;
                  sd_encrypted := encrypted s;
                  sd_controlLock :=
                    match controlLock s with
                    | Some l => Some (holderId l, holderNickname l, acquiredAt l)
                    | None => None
                    end |}
      | None => None
      end
  | None => None
  end.

(** The connection is a viewer's, opened for the session id. *)
Definition viewer_of (sessionId : string) (c : Conn) : bool :=
  match c with
  | SessionSocket socket =>
      negb (bool_decide (clientType socket = cli))
      && bool_decide (Relay.sessionId socket = sessionId)
  | DaemonSocket _ => false
  end.

(** ** The viewer's page: the pairing code *)

Module WebPairing.

(** What the page makes of the [pairing] parameter of its URL. *)
Inductive Loaded : Type :=
| no_pairing                       (* no such parameter: [pairingCode] stays [null] *)
| pairing_invalid                  (* shows [Pairing: invalid] *)
| pairing_loaded (code : JS.value).  (* [pairingCode = parsed] *)

(** The label [verifyPairing] shows, without the fingerprint. *)
Inductive Verdict : Type :=
| verified
| mismatch.

Section WithHost.
Context {H : Host}.

(** The start of the page: [pairingParam] is [urlParams.get('pairing')]. *)
Definition load_pairing (pairingParam : option string) : Loaded :=
  match pairingParam with
  | None => no_pairing
  | Some param =>
      if negb (JS.truthy_str (Some param)) then no_pairing
      else
        match JSON_parse param with
        | Throw => pairing_invalid
        | Return parsed =>
            match JS.get parsed "sessionId", JS.get parsed "publicKey",
                  JS.get parsed "timestamp" with
            | Some sessionId, Some publicKey, Some timestamp =>
                if JS.truthy sessionId && JS.truthy publicKey && JS.truthy timestamp
                then pairing_loaded parsed
                else pairing_invalid
            | _, _, _ => pairing_invalid     (* TypeError, caught *)
            end
        end
  end.

End WithHost.

(** [verifyPairing(cliPublicKey)]: [Return None] when there is no pairing
    code; [Throw] stands for a rejected promise. *)
Definition verifyPairing (pairingCode : option JS.value) (cliPublicKey : string)
  : Exc (option Verdict) :=
  match pairingCode with
  | None => Return None
  | Some code =>
      match JS.get code "publicKey" with
      | None => Throw
      | Some publicKey =>
          if match publicKey with
             | Some (JS.Str key) => bool_decide (key = cliPublicKey)
             | _ => false
             end
          then Return (Some verified)
          else Return (Some mismatch)
      end
  end.

End WebPairing.

(** The handshakes of the producer [sample_client] and of the viewer whose
    page is [sample_page], for the session [demo]. *)
Definition sample_producer_handshake : Handshake :=
  mkHandshake (Some "demo"%string) cli (Some (string_of_list_byte sample_key)) None None.

Definition sample_viewer_handshake : Handshake :=
  mkHandshake (Some "demo"%string) viewer (Some (string_of_list_byte sample_key))
              (Some "vera"%string) None.

(** ** More vocabulary: the daemon bindings *)

(** The daemon connection [d] is registered and counts the session among
    its active sessions. *)
Definition managed_by (st : State) (sessionId d : string) : Prop :=
  exists daemon,
    JS.map_get d (cliDaemons st) = Some daemon /\ sessionId ∈ activeSessions daemon.

(** Every daemon binding of a session in the directory satisfies [P]. *)
Definition Bound (P : string -> string -> Prop) (st : State) : Prop :=
  forall sid r s d,
    sessions st !! sid = Some r -> heap st !! r = Some s ->
    daemonSocketId s = Some d -> P sid d.

(** What the daemon bindings of a reachable state can rely on: a connected
    daemon is registered, and the daemon a session in the directory is
    bound to is registered and counts the session as active. *)
Record Managed (st : State) : Prop := mkManaged {
  mg_registered : forall id' u,
    sockets st !! id' = Some (DaemonSocket u) -> is_Some (JS.map_get id' (cliDaemons st));
  mg_binding : Bound (managed_by st) st;
}.

(** Daemon [D] is connected; requests 1 and 2 arrive in the same
    millisecond and draw the same random suffix, so that both commands
    bear the same id; the daemon answers each of them with success, 100 ms
    and 200 ms later; the timeout of request 1 runs when its 10 s have
    passed. *)
Definition colliding_commands : list (Z * Event) :=
  [(0, Connection "D" (mkHandshake None cli_daemon None None None));
   (5000, PostDaemonCommand 1 (Some "list-sessions"%string) None "k3x9ab");
   (5000, PostDaemonCommand 2 (Some "list-sessions"%string) None "k3x9ab");
   (5100, Received "D" (send_cli_response
                          (mkCommandResponse (new_commandId 5000 "k3x9ab") true
                                             (Some (JS.Arr [])) None)));
   (5200, Received "D" (send_cli_response
                          (mkCommandResponse (new_commandId 5000 "k3x9ab") true
                                             (Some (JS.Arr [])) None)));
   (15000, TimerFires 0)].

(** The envelope of [d] opens, under the entry's shared secret, to the
    JSON text of an object of type ['output'] that has the event's [seq],
    [content] and [timestamp]; the page reads that object as the event. *)
Definition carries_event {H : Host} (event : OutputEvent) (entry : string * bytes)
    (d : EncryptedOutputEvent) : Prop :=
  exists v : JS.value,
    Crypto.decryptToString (eo_encrypted d) (snd entry)
    = Return (Some (JSON_stringify v)) /\
    JS.get v "type" = Some (Some (JS.Str "output")) /\
    JS.get v "seq" = Some (Some (JS.Num (seq event))) /\
    JS.get v "content" = Some (Some (JS.Str (content event))) /\
    JS.get v "timestamp" = Some (Some (JS.Num (timestamp event))) /\
    WebClient.as_OutputEvent v = Some event.

(** A later frame of the same pane. *)
Definition later_event : OutputEvent := mkOutputEvent 2 "hello$ " 2000.

(** The encrypted session [demo] after [sample_client] has sent
    [sample_event]: its history holds the frame as sealed for [V1]. *)
Definition encrypted_demo_session_1 : Session :=
  set_encryptedHistory
    [mkEncryptedOutputEvent ""
       (mkEncryptedMessage (string_of_list_byte sample_nonce)
          (string_of_list_byte
             (repeat Byte.x11 32 ++ sample_nonce
              ++ list_byte_of_string
                   (RefHost.stringify (OutputEvent_to_JS sample_event))))) 1 1000]
    encrypted_demo_session.

(* ================================================================== *)
(** * Part II: the theorems                                             *)
(* ================================================================== *)

(** ** The reference host meets the laws *)

Lemma strip_app (p l : bytes) : RefHost.strip p (p ++ l) = Some l.
Proof.
  induction p as [|x p IH]; simpl; [reflexivity|].
  rewrite (Byte.byte_dec_lb (x:=x) (y:=x) eq_refl). exact IH.
Qed.

Lemma RefHost_laws : HostLaws RefHost.host.
Proof.
  split; simpl.
  - intros b. f_equal. apply list_byte_of_string_of_list_byte.
  - intros s. f_equal. apply string_of_list_byte_of_string.
  - intros m n k Hn Hk. unfold RefHost.sizes_ok.
    rewrite !bool_decide_eq_true_2 by assumption. simpl. eauto.
  - intros m n k c. destruct (RefHost.sizes_ok n k); [|discriminate].
    intros [= <-]. f_equal. rewrite app_assoc. apply strip_app.
Qed.

(** ** The crypto envelope *)

Section CryptoTheorems.
Context {H : Host} {HL : HostLaws H}.

Lemma encrypt_returns (m : Crypto.Message) (s rnd : bytes) :
  length s = nacl_secretbox_keyLength ->
  length rnd = nacl_secretbox_nonceLength ->
  exists c, nacl_secretbox (Crypto.messageBytes m) rnd s = Return c /\
            Crypto.encrypt m s rnd =
              Return {| nonce := util_encodeBase64 rnd;
                        ciphertext := util_encodeBase64 c |}.
Proof.
  intros Hs Hn.
  destruct (secretbox_returns (Crypto.messageBytes m) rnd s Hn Hs) as [c Hc].
  exists c. split; [exact Hc|]. unfold Crypto.encrypt. rewrite Hc. reflexivity.
Qed.

Lemma decrypt_sealed (m rnd s c : bytes) :
  nacl_secretbox m rnd s = Return c ->
  Crypto.decrypt {| nonce := util_encodeBase64 rnd;
                    ciphertext := util_encodeBase64 c |} s = Return (Some m).
Proof.
  intros Hc. unfold Crypto.decrypt. simpl.
  rewrite !decodeBase64_encodeBase64. simpl.
  rewrite (secretbox_open_secretbox _ _ _ _ Hc). reflexivity.
Qed.

Lemma decryptToString_sealed (str : string) (rnd s c : bytes) :
  nacl_secretbox (util_decodeUTF8 str) rnd s = Return c ->
  Crypto.decryptToString {| nonce := util_encodeBase64 rnd;
                            ciphertext := util_encodeBase64 c |} s
  = Return (Some str).
Proof.
  intros Hc. unfold Crypto.decryptToString.
  rewrite (decrypt_sealed _ _ _ _ Hc). simpl.
  rewrite encodeUTF8_decodeUTF8. reflexivity.
Qed.

(** C3.  For every 32-byte shared secret [s] and every 24-byte nonce [rnd]
    drawn during the encryption: for every byte string [b],
    [encrypt(b, s)] returns an envelope [e] and [decrypt(e, s)] returns
    [b] itself, not null; for every string [str], [encrypt(str, s)]
    returns an envelope [e], [decrypt(e, s)] returns the UTF-8 bytes of
    [str], not null, and [decryptToString(e, s)] returns [str]. *)
Theorem decrypt_encrypt_roundtrip (s rnd : bytes) :
  length s = nacl_secretbox_keyLength ->
  length rnd = nacl_secretbox_nonceLength ->
  (forall b : bytes,
      exists e,
        Crypto.encrypt (Crypto.MBytes b) s rnd = Return e /\
        Crypto.decrypt e s = Return (Some b)) /\
  (forall str : string,
      exists e,
        Crypto.encrypt (Crypto.MString str) s rnd = Return e /\
        Crypto.decrypt e s = Return (Some (util_decodeUTF8 str)) /\
        Crypto.decryptToString e s = Return (Some str)).
Proof.
  intros Hs Hn. split.
  - intros b.
    destruct (encrypt_returns (Crypto.MBytes b) s rnd Hs Hn) as (c & Hc & He).
    eexists. split; [exact He|]. apply decrypt_sealed. exact Hc.
  - intros str.
    destruct (encrypt_returns (Crypto.MString str) s rnd Hs Hn) as (c & Hc & He).
    eexists. split; [exact He|]. split.
    + apply decrypt_sealed. exact Hc.
    + apply decryptToString_sealed. exact Hc.
Qed.

End CryptoTheorems.

Lemma decrypt_encrypt_roundtrip_witness :
  (exists e,
      @Crypto.encrypt RefHost.host (Crypto.MBytes [Byte.x00; Byte.xff; Byte.x22])
        sample_key sample_nonce = Return e /\
      @Crypto.decrypt RefHost.host e sample_key
      = Return (Some [Byte.x00; Byte.xff; Byte.x22])) /\
  (exists e,
      @Crypto.encrypt RefHost.host (Crypto.MString "ls -la") sample_key sample_nonce
      = Return e /\
      @Crypto.decrypt RefHost.host e sample_key
      = Return (Some (@util_decodeUTF8 RefHost.host "ls -la")) /\
      @Crypto.decryptToString RefHost.host e sample_key = Return (Some "ls -la"%string)).
Proof.
  pose proof (@decrypt_encrypt_roundtrip RefHost.host RefHost_laws
                sample_key sample_nonce eq_refl eq_refl) as [Hbytes Hstring].
  split; [apply Hbytes | apply Hstring].
Defined.

(** ** Pairing codes *)

Section PairingTheorems.
Context {H : Host}.

Lemma parsePairingCode_Some (code : string) (v : JS.value) :
  Crypto.parsePairingCode code = Some v <->
  JSON_parse code = Return v /\
  truthy_field v "sessionId" /\ truthy_field v "publicKey" /\ truthy_field v "timestamp".
Proof.
  unfold Crypto.parsePairingCode, truthy_field. split.
  - destruct (JSON_parse code) as [parsed|]; simpl; [|discriminate].
    destruct (JS.get parsed "sessionId") as [a|] eqn:Ha; simpl; [|discriminate].
    destruct (JS.truthy a) eqn:Hta; simpl; [|discriminate].
    destruct (JS.get parsed "publicKey") as [b|] eqn:Hb; simpl; [|discriminate].
    destruct (JS.truthy b) eqn:Htb; simpl; [|discriminate].
    destruct (JS.get parsed "timestamp") as [c|] eqn:Hc; simpl; [|discriminate].
    destruct (JS.truthy c) eqn:Htc; simpl; [|discriminate].
    intros [= <-]. split; [reflexivity|]. eauto 10.
  - intros (Hp & (a & Ha & Hta) & (b & Hb & Htb) & (c & Hc & Htc)).
    rewrite Hp. simpl. rewrite Ha, Hta. simpl. rewrite Hb, Htb. simpl.
    rewrite Hc, Htc. reflexivity.
Qed.

(** C9, as amended.  [parsePairingCode(code)] returns the parsed value
    exactly when [code] is valid JSON whose [sessionId], [publicKey] and
    [timestamp] are all truthy (a field that is present but empty, zero,
    false or null does not count), and null otherwise; and
    [parsePairingCode(encodePairingCode(c)) = c] for every pairing code [c]
    with a non-empty [sessionId], a non-empty [publicKey] and a non-zero
    integer [timestamp], provided that [JSON.parse] reads the text that
    [JSON.stringify] wrote for [c] back as [c].  ([JSON.parse] and
    [JSON.stringify] belong to the host; a [timestamp] that is [NaN] or
    infinite, which [JSON.stringify] writes as [null], is no integer and
    is not read back.) *)
Theorem parsePairingCode_spec :
  (forall code v,
      Crypto.parsePairingCode code = Some v <->
      JSON_parse code = Return v /\
      truthy_field v "sessionId" /\ truthy_field v "publicKey" /\
      truthy_field v "timestamp") /\
  (forall code,
      Crypto.parsePairingCode code = None <->
      ~ exists v, JSON_parse code = Return v /\
                  truthy_field v "sessionId" /\ truthy_field v "publicKey" /\
                  truthy_field v "timestamp") /\
  (forall c,
      Crypto.pc_sessionId c <> ""%string ->
      Crypto.pc_publicKey c <> ""%string ->
      Crypto.pc_timestamp c <> 0 ->
      JSON_parse (JSON_stringify (Crypto.PairingCode_to_JS c))
        = Return (Crypto.PairingCode_to_JS c) ->
      exists v,
        Crypto.parsePairingCode (Crypto.encodePairingCode c) = Some v /\
        v = Crypto.PairingCode_to_JS c /\
        JS.get v "sessionId" = Some (Some (JS.Str (Crypto.pc_sessionId c))) /\
        JS.get v "publicKey" = Some (Some (JS.Str (Crypto.pc_publicKey c))) /\
        JS.get v "timestamp" = Some (Some (JS.Num (Crypto.pc_timestamp c)))).
Proof.
  split; [exact parsePairingCode_Some|]. split.
  - intros code. split.
    + intros Hnone (v & Hv). apply parsePairingCode_Some in Hv. congruence.
    + intros Hno. destruct (Crypto.parsePairingCode code) as [v|] eqn:Hp; [|reflexivity].
      exfalso. apply Hno. exists v. apply parsePairingCode_Some, Hp.
  - intros c Hs Hk Ht Hrt. exists (Crypto.PairingCode_to_JS c).
    split; [|repeat split].
    apply parsePairingCode_Some.
    split; [exact Hrt|]. unfold truthy_field. simpl.
    repeat split; eexists; (split; [reflexivity|]); simpl.
    + rewrite bool_decide_eq_false_2 by assumption. reflexivity.
    + rewrite bool_decide_eq_false_2 by assumption. reflexivity.
    + apply negb_true_iff, Z.eqb_neq, Ht.
Qed.

End PairingTheorems.

Lemma parsePairingCode_spec_witness :
  exists v,
    @Crypto.parsePairingCode RefHost.host
      (@Crypto.encodePairingCode RefHost.host sample_pairing) = Some v /\
    v = Crypto.PairingCode_to_JS sample_pairing /\
    JS.get v "sessionId" = Some (Some (JS.Str (Crypto.pc_sessionId sample_pairing))) /\
    JS.get v "publicKey" = Some (Some (JS.Str (Crypto.pc_publicKey sample_pairing))) /\
    JS.get v "timestamp" = Some (Some (JS.Num (Crypto.pc_timestamp sample_pairing))).
Proof.
  apply (proj2 (proj2 (@parsePairingCode_spec RefHost.host)) sample_pairing);
    [discriminate | discriminate | discriminate | vm_compute; reflexivity].
Defined.

(** In [empty_id_pairing] all three fields are present; its JSON text is
    valid and reads back as the same object; [parsePairingCode] returns
    null on it. *)
Lemma parsePairingCode_empty_sessionId :
  JS.get (Crypto.PairingCode_to_JS empty_id_pairing) "sessionId"
    = Some (Some (JS.Str "")) /\
  JS.get (Crypto.PairingCode_to_JS empty_id_pairing) "publicKey"
    = Some (Some (JS.Str "cGFpcg==")) /\
  JS.get (Crypto.PairingCode_to_JS empty_id_pairing) "timestamp"
    = Some (Some (JS.Num 1700000000000)) /\
  @JSON_parse RefHost.host (@Crypto.encodePairingCode RefHost.host empty_id_pairing)
    = Return (Crypto.PairingCode_to_JS empty_id_pairing) /\
  @Crypto.parsePairingCode RefHost.host
    (@Crypto.encodePairingCode RefHost.host empty_id_pairing) = None.
Proof. vm_compute. repeat split; reflexivity. Qed.

(** ** The capture loop *)

Lemma poll_running (pane : string) (now : Z) (c : TmuxCapture.t) :
  TmuxCapture.running c = true -> TmuxCapture.callback c = true ->
  let '(c', out) := TmuxCapture.poll pane now c in
  TmuxCapture.running c' = true /\ TmuxCapture.callback c' = true /\
  TmuxCapture.lastContent c' = pane /\
  tick_emits (TmuxCapture.lastContent c) (pane, now) out /\
  map seq out = seqZ (TmuxCapture.seq c + 1) (Z.of_nat (length out)) /\
  TmuxCapture.seq c' = TmuxCapture.seq c + Z.of_nat (length out).
Proof.
  intros Hr Hc. unfold TmuxCapture.poll, tick_emits. rewrite Hr, Hc. simpl.
  case_bool_decide as Hp; simpl.
  - repeat split; auto; try lia. intros; contradiction.
  - repeat split; auto; try lia; [eauto | intros; contradiction].
Qed.

Lemma polls_running (ticks : list (string * Z)) :
  forall c,
    TmuxCapture.running c = true -> TmuxCapture.callback c = true ->
    let '(c', outs) := TmuxCapture.polls ticks c in
    Forall2 (fun pt out => tick_emits (fst pt) (snd pt) out)
            (zip (TmuxCapture.lastContent c :: map fst ticks) ticks) outs /\
    map seq (concat outs)
      = seqZ (TmuxCapture.seq c + 1) (Z.of_nat (length (concat outs))).
Proof.
  induction ticks as [|[pane now] rest IH]; intros c Hr Hc; simpl.
  - split; [constructor | reflexivity].
  - pose proof (poll_running pane now c Hr Hc) as Hp.
    destruct (TmuxCapture.poll pane now c) as [c1 out].
    destruct Hp as (Hr1 & Hc1 & Hl1 & He & Hs & Hq).
    specialize (IH c1 Hr1 Hc1).
    destruct (TmuxCapture.polls rest c1) as [c2 outs].
    destruct IH as [IH1 IH2]. rewrite Hl1 in IH1. split.
    + constructor; [exact He | exact IH1].
    + simpl. rewrite map_app, length_app, Nat2Z.inj_add, Hs, IH2, Hq.
      rewrite seqZ_app by lia. do 2 f_equal. lia.
Qed.

(** C5.  In a capture started on a new [TmuxCapture], a poll emits an event
    exactly when the pane content it captures differs from the content
    captured just before (by [start] or by the previous poll), and then
    emits that one event, carrying the new content; [start] emits the
    initial content when it is not empty; the sequence numbers of the
    events emitted, in order, are 1, 2, 3, ...: the first is 1 and each
    is one more than the one before; so two identical consecutive captures
    never give two frames. *)
Theorem capture_frames (pane0 : string) (now0 : Z) (ticks : list (string * Z)) :
  let '(out0, outs) := TmuxCapture.session pane0 now0 ticks in
  out0 = (if bool_decide (pane0 = ""%string) then []
          else [mkOutputEvent 1 pane0 now0]) /\
  Forall2 (fun pt out => tick_emits (fst pt) (snd pt) out)
          (zip (pane0 :: map fst ticks) ticks) outs /\
  map seq (out0 ++ concat outs)
    = seqZ 1 (Z.of_nat (length (out0 ++ concat outs))).
Proof.
  unfold TmuxCapture.session, TmuxCapture.start. simpl.
  case_bool_decide as Hp; simpl.
  - pose proof (polls_running ticks
                  (TmuxCapture.mk true 0 pane0 true) eq_refl eq_refl) as Hq.
    destruct (TmuxCapture.polls ticks _) as [c outs]. simpl in Hq.
    destruct Hq as [H1 H2]. auto.
  - pose proof (polls_running ticks
                  (TmuxCapture.mk true (0 + 1) pane0 true) eq_refl eq_refl) as Hq.
    destruct (TmuxCapture.polls ticks _) as [c outs]. simpl in Hq.
    destruct Hq as [H1 H2]. split; [reflexivity|]. split; [exact H1|].
    simpl. rewrite H2. rewrite (seqZ_cons 1) by lia. do 2 f_equal. lia.
Qed.

Example capture_example :
  TmuxCapture.session "$ " 10 [("$ ", 110); ("$ ls", 210); ("$ ls", 310); ("$ ", 410)]
  = ([mkOutputEvent 1 "$ " 10],
     [[]; [mkOutputEvent 2 "$ ls" 210]; []; [mkOutputEvent 3 "$ " 410]]).
Proof. reflexivity. Qed.

(** ** The relay: the control lock *)


Lemma forward_input_locked (socket : Socket) (now : Z) (m : Msg) (s : Session)
    (l : ControlLock) :
  clientType socket <> cli ->
  controlLock s = Some l ->
  (holderId l <> socket_id socket /\ now - lastInputAt l < CONTROL_LOCK_TIMEOUT ->
   forward_input socket now m s
   = (s, [Emit (ToSocket (socket_id socket)) (input_rejected "not-controller")])) /\
  (holderId l <> socket_id socket /\ CONTROL_LOCK_TIMEOUT <= now - lastInputAt l ->
   forward_input socket now m s
   = (set_controlLock None s,
      Emit (ToRoom (room_of (sessionId socket))) (control_status false None None None)
        :: delivered socket m s)) /\
  (holderId l = socket_id socket ->
   forward_input socket now m s
   = (set_controlLock (Some (touch now l)) s, delivered socket m s)).
Proof.
  intros Hc Hl. unfold forward_input, input_gate, delivered.
  rewrite bool_decide_eq_false_2 by exact Hc. rewrite Hl.
  split; [|split].
  - intros [Hh Ht]. rewrite bool_decide_eq_false_2 by exact Hh. simpl.
    apply Z.ltb_lt in Ht. rewrite Ht. reflexivity.
  - intros [Hh Ht]. rewrite bool_decide_eq_false_2 by exact Hh. simpl.
    apply Z.ltb_ge in Ht. rewrite Ht. simpl.
    destruct (cliSocketId s) as [p|]; simpl; [|reflexivity].
    case_bool_decide; reflexivity.
  - intros Hh. rewrite bool_decide_eq_true_2 by exact Hh. simpl. rewrite Hl.
    rewrite bool_decide_eq_true_2 by exact Hh. simpl.
    destruct (cliSocketId s) as [p|]; simpl; [|reflexivity].
    case_bool_decide; reflexivity.
Qed.

(** C1, as amended.  For every viewer input message (plain [input] or
    [encrypted-input]) arriving while the session's control lock is held:
    if the holder is a different viewer and [now - lastInputAt < 30 s], the
    relay replies [input-rejected{reason:"not-controller"}] to the sender
    only, forwards nothing and leaves the session as it is; if the holder is
    a different viewer and [lastInputAt] is 30 s or more in the past, the
    relay clears the lock, broadcasts the new control status, and then
    delivers the input; an input from the holder sets [lastInputAt] to [now]
    and is delivered.  Delivering forwards the input to the producer
    connection when one is bound, and otherwise replies
    [error{message:"CLI not connected"}] to the sender. *)
Theorem input_control_lock (socket : Socket) (now : Z) (s : Session) (l : ControlLock)
    (data : JS.value) (edata : EncryptedMessage) :
  clientType socket <> cli ->
  controlLock s = Some l ->
  (holderId l <> socket_id socket /\ now - lastInputAt l < 30000 ->
   on_input socket now data s
   = (s, [Emit (ToSocket (socket_id socket)) (input_rejected "not-controller")]) /\
   on_encrypted_input socket now edata s
   = (s, [Emit (ToSocket (socket_id socket)) (input_rejected "not-controller")])) /\
  (holderId l <> socket_id socket /\ 30000 <= now - lastInputAt l ->
   on_input socket now data s
   = (set_controlLock None s,
      Emit (ToRoom (room_of (sessionId socket))) (control_status false None None None)
        :: delivered socket (input data) s) /\
   on_encrypted_input socket now edata s
   = (set_controlLock None s,
      Emit (ToRoom (room_of (sessionId socket))) (control_status false None None None)
        :: delivered socket (encrypted_input (socket_id socket) edata) s)) /\
  (holderId l = socket_id socket ->
   on_input socket now data s
   = (set_controlLock (Some (touch now l)) s, delivered socket (input data) s) /\
   on_encrypted_input socket now edata s
   = (set_controlLock (Some (touch now l)) s,
      delivered socket (encrypted_input (socket_id socket) edata) s)).
Proof.
  intros Hc Hl. unfold on_input, on_encrypted_input.
  pose proof (forward_input_locked socket now (input data) s l Hc Hl) as (A1 & A2 & A3).
  pose proof (forward_input_locked socket now
                (encrypted_input (socket_id socket) edata) s l Hc Hl) as (B1 & B2 & B3).
  repeat split; auto.
Qed.

Lemma input_control_lock_witness :
  (holderId lockB <> socket_id viewerA /\ 12000 - lastInputAt lockB < 30000 ->
   on_input viewerA 12000 (JS.Str "x") (demo_session (Some "P"%string))
   = (demo_session (Some "P"%string),
      [Emit (ToSocket (socket_id viewerA)) (input_rejected "not-controller")]) /\
   on_encrypted_input viewerA 12000 (mkEncryptedMessage "n" "c")
                      (demo_session (Some "P"%string))
   = (demo_session (Some "P"%string),
      [Emit (ToSocket (socket_id viewerA)) (input_rejected "not-controller")])) /\
  (holderId lockB <> socket_id viewerA /\ 30000 <= 12000 - lastInputAt lockB ->
   on_input viewerA 12000 (JS.Str "x") (demo_session (Some "P"%string))
   = (set_controlLock None (demo_session (Some "P"%string)),
      Emit (ToRoom (room_of (sessionId viewerA))) (control_status false None None None)
        :: delivered viewerA (input (JS.Str "x")) (demo_session (Some "P"%string))) /\
   on_encrypted_input viewerA 12000 (mkEncryptedMessage "n" "c")
                      (demo_session (Some "P"%string))
   = (set_controlLock None (demo_session (Some "P"%string)),
      Emit (ToRoom (room_of (sessionId viewerA))) (control_status false None None None)
        :: delivered viewerA
             (encrypted_input (socket_id viewerA) (mkEncryptedMessage "n" "c"))
             (demo_session (Some "P"%string)))) /\
  (holderId lockB = socket_id viewerA ->
   on_input viewerA 12000 (JS.Str "x") (demo_session (Some "P"%string))
   = (set_controlLock (Some (touch 12000 lockB)) (demo_session (Some "P"%string)),
      delivered viewerA (input (JS.Str "x")) (demo_session (Some "P"%string))) /\
   on_encrypted_input viewerA 12000 (mkEncryptedMessage "n" "c")
                      (demo_session (Some "P"%string))
   = (set_controlLock (Some (touch 12000 lockB)) (demo_session (Some "P"%string)),
      delivered viewerA
        (encrypted_input (socket_id viewerA) (mkEncryptedMessage "n" "c"))
        (demo_session (Some "P"%string)))).
Proof.
  apply (input_control_lock viewerA 12000 (demo_session (Some "P"%string)) lockB
           (JS.Str "x") (mkEncryptedMessage "n" "c")); [discriminate | reflexivity].
Defined.

(** The lock of [B] is 30 s old and no producer is bound: the input of [A]
    clears the lock and broadcasts the new status, but nothing is forwarded;
    [A] gets [error{message:"CLI not connected"}]. *)
Lemma input_expired_lock_without_producer :
  on_input viewerA 30000 (JS.Str "x") (demo_session None)
  = (set_controlLock None (demo_session None),
     [Emit (ToRoom "session:demo") (control_status false None None None);
      Emit (ToSocket "A") (error "CLI not connected")]) /\
  on_encrypted_input viewerA 30000 (mkEncryptedMessage "n" "c") (demo_session None)
  = (set_controlLock None (demo_session None),
     [Emit (ToRoom "session:demo") (control_status false None None None);
      Emit (ToSocket "A") (error "CLI not connected")]).
Proof. split; reflexivity. Qed.

(** C4, as amended.  A [request-control] of a viewer of the session is
    granted -- the relay sets [controlLock] to [{holderId: requester,
    holderNickname, acquiredAt: now, lastInputAt: now}] and broadcasts
    [control-status{locked:true, holderId, holderNickname, acquiredAt}] to
    the session's room -- if and only if there is no lock, or the lock's
    [lastInputAt] is 30 s or more in the past ([now - lastInputAt >= 30000]),
    or the requester already holds it; otherwise the lock is left unchanged
    and the relay sends [control-denied{reason:"locked", holderId,
    holderNickname}] to the requester only. *)
Theorem request_control_grant (socket : Socket) (now : Z) (s : Session) (v : Viewer) :
  clientType socket <> cli ->
  viewers s !! socket_id socket = Some v ->
  (lock_available socket now s ->
   on_request_control socket now s
   = (set_controlLock (Some (granted_lock socket v now)) s,
      [Emit (ToRoom (room_of (sessionId socket)))
            (control_status true (Some (socket_id socket)) (nickname v) (Some now))])) /\
  (~ lock_available socket now s ->
   exists l, controlLock s = Some l /\
     on_request_control socket now s
     = (s, [Emit (ToSocket (socket_id socket))
                 (control_denied "locked" (holderId l) (holderNickname l))])) /\
  (lock_available socket now s <->
   controlLock (fst (on_request_control socket now s))
   = Some (granted_lock socket v now)).
Proof.
  intros Hc Hv.
  assert (Hgrant : lock_available socket now s ->
    on_request_control socket now s
    = (set_controlLock (Some (granted_lock socket v now)) s,
       [Emit (ToRoom (room_of (sessionId socket)))
             (control_status true (Some (socket_id socket)) (nickname v) (Some now))])).
  { unfold lock_available, on_request_control.
    rewrite bool_decide_eq_false_2 by exact Hc. rewrite Hv.
    destruct (controlLock s) as [l|] eqn:Hl; [|reflexivity].
    intros [Ht | Hh].
    - apply Z.ltb_ge in Ht. unfold CONTROL_LOCK_TIMEOUT. rewrite Ht. reflexivity.
    - rewrite (bool_decide_eq_true_2 _ Hh), andb_false_r. reflexivity. }
  assert (Hdeny : ~ lock_available socket now s ->
    exists l, controlLock s = Some l /\
      on_request_control socket now s
      = (s, [Emit (ToSocket (socket_id socket))
                  (control_denied "locked" (holderId l) (holderNickname l))])).
  { unfold lock_available, on_request_control.
    rewrite bool_decide_eq_false_2 by exact Hc. rewrite Hv.
    destruct (controlLock s) as [l|] eqn:Hl; [|tauto].
    intros Hn. exists l. split; [reflexivity|].
    assert (Ht : now - lastInputAt l < 30000) by lia.
    assert (Hh : holderId l <> socket_id socket) by tauto.
    apply Z.ltb_lt in Ht. unfold CONTROL_LOCK_TIMEOUT. rewrite Ht.
    rewrite (bool_decide_eq_false_2 _ Hh). reflexivity. }
  split; [exact Hgrant|]. split; [exact Hdeny|]. split.
  - intros Ha. rewrite (Hgrant Ha). reflexivity.
  - intros Hg. destruct (controlLock s) as [l|] eqn:Hl;
      [|unfold lock_available; rewrite Hl; exact I].
    destruct (decide (30000 <= now - lastInputAt l)) as [Ht|Ht];
      [unfold lock_available; rewrite Hl; auto|].
    destruct (decide (holderId l = socket_id socket)) as [Hh|Hh];
      [unfold lock_available; rewrite Hl; auto|].
    exfalso. destruct Hdeny as (l' & Hl' & Hd).
    { unfold lock_available. rewrite Hl. tauto. }
    rewrite Hd in Hg. simpl in Hg. rewrite Hl in Hg.
    injection Hg as Hg. apply Hh. rewrite Hg. reflexivity.
Qed.

Lemma request_control_grant_witness :
  (lock_available viewerA 12000 (demo_session (Some "P"%string)) ->
   on_request_control viewerA 12000 (demo_session (Some "P"%string))
   = (set_controlLock
        (Some (granted_lock viewerA (mkViewer "A" "" (Some "alice"%string)) 12000))
        (demo_session (Some "P"%string)),
      [Emit (ToRoom (room_of (sessionId viewerA)))
            (control_status true (Some (socket_id viewerA))
               (nickname (mkViewer "A" "" (Some "alice"%string))) (Some 12000))])) /\
  (~ lock_available viewerA 12000 (demo_session (Some "P"%string)) ->
   exists l, controlLock (demo_session (Some "P"%string)) = Some l /\
     on_request_control viewerA 12000 (demo_session (Some "P"%string))
     = (demo_session (Some "P"%string),
        [Emit (ToSocket (socket_id viewerA))
              (control_denied "locked" (holderId l) (holderNickname l))])) /\
  (lock_available viewerA 12000 (demo_session (Some "P"%string)) <->
   controlLock (fst (on_request_control viewerA 12000 (demo_session (Some "P"%string))))
   = Some (granted_lock viewerA (mkViewer "A" "" (Some "alice"%string)) 12000)).
Proof.
  apply (request_control_grant viewerA 12000 (demo_session (Some "P"%string))
           (mkViewer "A" "" (Some "alice"%string))); [discriminate | reflexivity].
Defined.

(** The lock of [B] had its last input at time 0; at time 30000 it is 30 s
    old, not older, and the request of [A] is granted. *)
Lemma request_control_at_30s :
  (30000 - lastInputAt lockB >? 30000) = false /\
  holderId lockB <> socket_id viewerA /\
  on_request_control viewerA 30000 (demo_session (Some "P"%string))
  = (set_controlLock
       (Some {| holderId := "A"; holderNickname := Some "alice"%string;
                acquiredAt := 30000; lastInputAt := 30000 |})
       (demo_session (Some "P"%string)),
     [Emit (ToRoom "session:demo")
           (control_status true (Some "A"%string) (Some "alice"%string) (Some 30000))]).
Proof. split; [reflexivity|]. split; [discriminate|]. reflexivity. Qed.

(** ** The relay: a superseded producer connection disconnects *)

(** C10.  When a ['cli'] connection that is not (or no longer) the
    session's bound producer disconnects, the handler takes the viewer
    branch: the producer fields stay as they are, no [cli-status] is
    emitted, the connection's id is removed from the viewers map, and
    [viewer-left{viewerId: <its id>}] goes to the bound producer when there
    is one and nowhere otherwise. *)
Theorem superseded_producer_disconnect (socket : Socket) (s : Session) :
  clientType socket = cli ->
  cliSocketId s <> Some (socket_id socket) ->
  let '(s', out) := on_disconnect socket s in
  cliSocketId s' = cliSocketId s /\
  cliPublicKey s' = cliPublicKey s /\
  viewers s' = delete (socket_id socket) (viewers s) /\
  viewers s' !! socket_id socket = None /\
  filter is_cli_status out = [] /\
  filter is_viewer_left out
  = match cliSocketId s with
    | Some producer =>
        if bool_decide (producer = ""%string) then []
        else [Emit (ToRoom producer) (viewer_left (socket_id socket))]
    | None => []
    end.
Proof.
  intros Hc Hne. unfold on_disconnect.
  rewrite (bool_decide_eq_false_2 _ Hne), andb_false_r.
  unfold broadcastControlStatus.
  destruct (holds_lock socket s); simpl;
    (repeat split; [apply lookup_delete_eq | | ]);
    destruct (cliSocketId s) as [p|]; simpl; try reflexivity;
    case_bool_decide; reflexivity.
Qed.

Lemma superseded_producer_disconnect_witness :
  let '(s', out) := on_disconnect producerP1 (demo_session (Some "P2"%string)) in
  cliSocketId s' = cliSocketId (demo_session (Some "P2"%string)) /\
  cliPublicKey s' = cliPublicKey (demo_session (Some "P2"%string)) /\
  viewers s' = delete (socket_id producerP1) (viewers (demo_session (Some "P2"%string))) /\
  viewers s' !! socket_id producerP1 = None /\
  filter is_cli_status out = [] /\
  filter is_viewer_left out
  = match cliSocketId (demo_session (Some "P2"%string)) with
    | Some producer =>
        if bool_decide (producer = ""%string) then []
        else [Emit (ToRoom producer) (viewer_left (socket_id producerP1))]
    | None => []
    end.
Proof.
  apply (superseded_producer_disconnect producerP1 (demo_session (Some "P2"%string)));
    [reflexivity | discriminate].
Defined.

Example superseded_producer_example :
  let st := fst (run plain_hash takeover_events init) in
  cliSocketId <$> heap st !! 0%nat = Some (Some "P2"%string) /\
  snd (step plain_hash 3000 (Received "P1" disconnect) st)
  = [Emit (ToRoom "P2") (viewer_left "P1")] /\
  cliSocketId <$> heap (fst (step plain_hash 3000 (Received "P1" disconnect) st)) !! 0%nat
  = Some (Some "P2"%string).
Proof. vm_compute. repeat split; reflexivity. Qed.

(** ** The relay: invariants of the reachable states *)

Lemma map_get_elem {V} (k : string) (m : JS.Map V) (v : V) :
  JS.map_get k m = Some v -> (k, v) ∈ m.
Proof.
  induction m as [|[k' v'] m IH]; simpl; [discriminate|].
  case_bool_decide as Hk.
  - intros [= ->]. subst. left.
  - intros Hg. right. auto.
Qed.

Lemma map_set_elem {V} (k : string) (v : V) (m : JS.Map V) (e : string * V) :
  e ∈ JS.map_set k v m -> e = (k, v) \/ e ∈ m.
Proof.
  induction m as [|[k' v'] m IH]; simpl.
  - intros He. apply list_elem_of_singleton in He. auto.
  - case_bool_decide as Hk.
    + subst. intros He. apply elem_of_cons in He as [->|He]; [auto|].
      right. right. exact He.
    + intros He. apply elem_of_cons in He as [->|He]; [right; left|].
      destruct (IH He) as [->|Hm]; [auto|]. right. right. exact Hm.
Qed.

Lemma map_delete_elem {V} (k : string) (m : JS.Map V) (e : string * V) :
  e ∈ JS.map_delete k m -> e ∈ m /\ fst e <> k.
Proof.
  unfold JS.map_delete. intros He. apply list_elem_of_filter in He as [Hk He].
  split; [exact He|]. apply negb_prop_elim in Hk. intros Heq. apply Hk.
  apply bool_decide_pack, Heq.
Qed.

Lemma map_first_elem {V} (m : JS.Map V) (e : string * V) :
  JS.map_first m = Some e -> e ∈ m.
Proof. destruct m; simpl; [discriminate|]. intros [= ->]. left. Qed.

Lemma push_capped_length {A} (x : A) (h : list A) :
  (length h <= 100)%nat -> (length (push_capped x h) <= 100)%nat.
Proof.
  intros Hh. unfold push_capped.
  destruct (100 <? length (h ++ [x]))%nat eqn:Hc.
  - rewrite length_tl, length_app. simpl. lia.
  - apply Nat.ltb_ge in Hc. exact Hc.
Qed.

Lemma keeps_request_control socket now : keeps_histories (on_request_control socket now).
Proof.
  intros s Hs. unfold on_request_control.
  repeat case_match; simpl; exact Hs.
Qed.

Lemma keeps_release_control socket : keeps_histories (on_release_control socket).
Proof. intros s Hs. unfold on_release_control. repeat case_match; simpl; exact Hs. Qed.

Lemma keeps_output socket event : keeps_histories (on_output socket event).
Proof.
  intros s [Ho He]. unfold on_output. case_match; simpl; [split; assumption|].
  split; [apply push_capped_length, Ho | exact He].
Qed.

Lemma keeps_encrypted_output socket data :
  keeps_histories (on_encrypted_output socket data).
Proof. intros s Hs. unfold on_encrypted_output. case_match; exact Hs. Qed.

Lemma keeps_output_history socket data : keeps_histories (on_output_history socket data).
Proof.
  intros s [Ho He]. unfold on_output_history. case_match; simpl; [split; assumption|].
  split; [exact Ho | apply push_capped_length, He].
Qed.

Lemma keeps_forward_input socket now m : keeps_histories (forward_input socket now m).
Proof.
  intros s Hs. unfold forward_input, input_gate.
  repeat case_match; simplify_eq; simpl; exact Hs.
Qed.

Lemma keeps_get_history socket : keeps_histories (on_get_history socket).
Proof. intros s Hs. unfold on_get_history. case_match; exact Hs. Qed.

Lemma keeps_disconnect socket : keeps_histories (on_disconnect socket).
Proof.
  intros s Hs. unfold on_disconnect. repeat case_match; simplify_eq; simpl; exact Hs.
Qed.

Lemma keeps_bind_socket id q sessionId : keeps_histories (bind_socket id q sessionId).
Proof. intros s Hs. unfold bind_socket. case_match; simpl; exact Hs. Qed.

Lemma Inv_init : Inv init.
Proof.
  constructor; simpl; try (intros; simplify_map_eq; fail).
  - apply map_Forall_empty.
  - intros k d Hin. apply elem_of_nil in Hin. contradiction.
Qed.

Lemma Inv_heap_insert st r s :
  Inv st -> histories_bounded s -> Inv (set_heap (<[r := s]> (heap st)) st).
Proof.
  intros [Hh Hso Hse Hd Ht Hp] Hs. constructor; simpl; auto.
  - apply map_Forall_insert_2; assumption.
  - intros id socket Hl. destruct (Hso id socket Hl) as [? Hi]. split; [assumption|].
    rewrite lookup_insert_is_Some. destruct (decide (r = session socket)); auto.
  - intros sid r' Hl. specialize (Hse sid r' Hl).
    rewrite lookup_insert_is_Some. destruct (decide (r = r')); auto.
Qed.

Lemma Inv_heap_alter st r f :
  Inv st -> (forall s, histories_bounded s -> histories_bounded (f s)) ->
  Inv (set_heap (alter f r (heap st)) st).
Proof.
  intros HI Hf. destruct (heap st !! r) as [s|] eqn:Hr.
  - assert (alter f r (heap st) = <[r := f s]> (heap st)) as ->.
    { apply map_eq. intros i. destruct (decide (r = i)) as [->|Hne].
      - rewrite lookup_alter_eq, lookup_insert_eq, Hr. reflexivity.
      - rewrite lookup_alter_ne, lookup_insert_ne by assumption. reflexivity. }
    apply Inv_heap_insert; [assumption|]. apply Hf.
    exact (inv_heap st HI r s Hr).
  - assert (alter f r (heap st) = heap st) as ->.
    { apply map_eq. intros i. destruct (decide (r = i)) as [->|Hne].
      - rewrite lookup_alter_eq, Hr. reflexivity.
      - rewrite lookup_alter_ne by assumption. reflexivity. }
    destruct HI. constructor; simpl; auto.
Qed.

Lemma Inv_with_session st socket f :
  Inv st -> keeps_histories f -> Inv (fst (with_session socket f st)).
Proof.
  intros HI Hf. unfold with_session.
  destruct (heap st !! session socket) as [s|] eqn:Hs; [|exact HI].
  pose proof (Hf s (inv_heap st HI _ s Hs)) as Hb.
  destruct (f s) as [s' out]. simpl in *. apply Inv_heap_insert; assumption.
Qed.

Lemma Inv_sessions_insert st sid r :
  Inv st -> is_Some (heap st !! r) -> Inv (set_sessions (<[sid := r]> (sessions st)) st).
Proof.
  intros [Hh Hso Hse Hd Ht Hp] Hr. constructor; simpl; auto.
  intros sid' r' Hl. apply lookup_insert_Some in Hl as [[_ <-]|[_ Hl]]; eauto.
Qed.

Lemma Inv_sessions_delete st sid :
  Inv st -> Inv (set_sessions (delete sid (sessions st)) st).
Proof.
  intros [Hh Hso Hse Hd Ht Hp]. constructor; simpl; auto.
  intros sid' r' Hl. apply lookup_delete_Some in Hl as [_ Hl]. eauto.
Qed.

Lemma Inv_userSessions st m : Inv st -> Inv (set_userSessions m st).
Proof. intros []. constructor; simpl; auto. Qed.

Lemma Inv_add_user_session st u sid : Inv st -> Inv (add_user_session u sid st).
Proof. apply Inv_userSessions. Qed.

Lemma Inv_nextRef st n : Inv st -> Inv (set_nextRef n st).
Proof. intros []. constructor; simpl; auto. Qed.

Lemma Inv_setTimeout st a delay now : Inv st -> Inv (snd (setTimeout a delay now st)).
Proof.
  intros [Hh Hso Hse Hd Ht Hp]. constructor; simpl; auto.
  - intros t tm Hl. apply lookup_insert_Some in Hl as [[<- _]|[_ Hl]]; [lia|].
    specialize (Ht t tm Hl). lia.
  - intros c p Hl. specialize (Hp c p Hl). lia.
Qed.

Lemma Inv_clearTimeout st handle : Inv st -> Inv (clearTimeout handle st).
Proof.
  intros [Hh Hso Hse Hd Ht Hp]. constructor; simpl; auto.
  intros t tm Hl. apply lookup_delete_Some in Hl as [_ Hl]. eauto.
Qed.

Lemma Inv_pending_delete st c :
  Inv st -> Inv (set_pendingCommands (delete c (pendingCommands st)) st).
Proof.
  intros [Hh Hso Hse Hd Ht Hp]. constructor; simpl; auto.
  intros c' p Hl. apply lookup_delete_Some in Hl as [_ Hl]. eauto.
Qed.

Lemma Inv_pending_insert st c p :
  Inv st -> (p_timeout p < nextTimer st)%nat ->
  Inv (set_pendingCommands (<[c := p]> (pendingCommands st)) st).
Proof.
  intros [Hh Hso Hse Hd Ht Hp] Hlt. constructor; simpl; auto.
  intros c' p' Hl. apply lookup_insert_Some in Hl as [[_ <-]|[_ Hl]]; eauto.
Qed.

Lemma Inv_update_daemon st id f :
  Inv st -> (forall d, d_socketId (f d) = d_socketId d) -> Inv (update_daemon id f st).
Proof.
  intros HI Hf. unfold update_daemon.
  destruct (JS.map_get id (cliDaemons st)) as [d|] eqn:Hg; [|exact HI].
  apply map_get_elem in Hg. destruct HI as [Hh Hso Hse Hd Ht Hp].
  constructor; simpl; auto.
  intros k d' Hin. apply map_set_elem in Hin as [[= -> ->]|Hin]; [|auto].
  rewrite Hf. exact (Hd _ _ Hg).
Qed.

Lemma Inv_session_socket_closed st id socket :
  Inv st -> sockets st !! id = Some (SessionSocket socket) ->
  Inv (set_sockets (delete (socket_id socket) (sockets st)) st).
Proof.
  intros [Hh Hso Hse Hd Ht Hp] Hs. destruct (Hso id socket Hs) as [-> _].
  constructor; simpl; auto.
  - intros id' socket' Hl. apply lookup_delete_Some in Hl as [_ Hl]. eauto.
  - intros k d Hin. destruct (Hd k d Hin) as [Hk [u Hu]]. split; [assumption|].
    exists u. rewrite lookup_delete_ne; [assumption|]. intros <-. congruence.
Qed.

Section RelayInvariants.
Variable sha256_hex : string -> string.

Lemma Inv_session_for st now q sid :
  Inv st ->
  Inv (snd (session_for sha256_hex now q sid st)) /\
  is_Some (heap (snd (session_for sha256_hex now q sid st))
             !! fst (session_for sha256_hex now q sid st)) /\
  sockets (snd (session_for sha256_hex now q sid st)) = sockets st /\
  cliDaemons (snd (session_for sha256_hex now q sid st)) = cliDaemons st.
Proof.
  intros HI. unfold session_for.
  destruct (sessions st !! sid) as [r|] eqn:Hr; simpl.
  - split; [exact HI|]. split; [exact (inv_sessions st HI _ _ Hr) | auto].
  - set (new := mkSession _ _ _ _ _ _ _ _ _ _ _ _).
    assert (Hnewb : histories_bounded new) by (split; simpl; lia).
    assert (HI1 : Inv (set_sessions (<[sid := nextRef st]> (sessions st))
                         (set_nextRef (S (nextRef st))
                            (set_heap (<[nextRef st := new]> (heap st)) st)))).
    { apply (Inv_sessions_insert
               (set_nextRef _ (set_heap (<[nextRef st := new]> (heap st)) st))).
      - apply Inv_nextRef, Inv_heap_insert; assumption.
      - simpl. rewrite lookup_insert_eq. eauto. }
    clearbody new.
    destruct (userId_of sha256_hex (q_userSecret q)) as [u|].
    + destruct (bool_decide (q_clientType q = cli) && _).
      * split; [apply Inv_add_user_session, HI1|]. simpl.
        rewrite lookup_insert_eq. eauto.
      * split; [exact HI1|]. simpl. rewrite lookup_insert_eq. eauto.
    + split; [exact HI1|]. simpl. rewrite lookup_insert_eq. eauto.
Qed.

Lemma Inv_on_connection st now id q :
  Inv st -> sockets st !! id = None -> Inv (fst (on_connection sha256_hex now id q st)).
Proof.
  intros HI Hnew. unfold on_connection. case_bool_decide as Hd.
  - (* a daemon *)
    destruct HI as [Hh Hso Hse Hdm Ht Hp]. constructor; simpl; auto.
    + intros id' socket Hl. apply lookup_insert_Some in Hl as [[_ [=]]|[_ Hl]]. eauto.
    + intros k d Hin. apply map_set_elem in Hin as [[= -> ->]|Hin]; simpl.
      * split; [reflexivity|]. rewrite lookup_insert_eq. eauto.
      * destruct (Hdm k d Hin) as [Hk [u Hu]]. split; [assumption|].
        destruct (decide (id = k)) as [->|Hne]; [congruence|].
        rewrite lookup_insert_ne by assumption. eauto.
  - destruct (q_sessionId q) as [sid|]; [|exact HI].
    destruct (negb (JS.truthy_str (Some sid))); [exact HI|].
    pose proof (Inv_session_for st now q sid HI) as Hx.
    destruct (session_for sha256_hex now q sid st) as [ref st1].
    simpl in Hx. destruct Hx as (HI1 & Href & Hsock & _).
    apply Inv_with_session; [|apply keeps_bind_socket].
    destruct HI1 as [Hh Hso Hse Hdm Ht Hp]. constructor; simpl; auto.
    + intros id' socket Hl. apply lookup_insert_Some in Hl as [[<- [= <-]]|[_ Hl]];
        simpl; eauto.
    + intros k d Hin. destruct (Hdm k d Hin) as [Hk [u Hu]]. split; [assumption|].
      exists u. rewrite lookup_insert_ne; [assumption|]. intros <-. congruence.
Qed.

Lemma Inv_on_session_socket st now id socket m :
  Inv st -> sockets st !! id = Some (SessionSocket socket) ->
  Inv (fst (on_session_socket now socket m st)).
Proof.
  intros HI Hs. destruct m; simpl; try exact HI;
    try (apply Inv_with_session; [exact HI|];
         auto using keeps_request_control, keeps_release_control, keeps_output,
           keeps_encrypted_output, keeps_output_history, keeps_forward_input,
           keeps_get_history; fail).
  - apply Inv_with_session; [exact HI|]. apply keeps_forward_input.
  - apply Inv_with_session; [exact HI|]. apply keeps_forward_input.
  - (* disconnect *)
    pose proof (Inv_with_session st socket (on_disconnect socket) HI
                  (keeps_disconnect socket)) as HI1.
    assert (Hs1 : sockets (fst (with_session socket (on_disconnect socket) st))
                  = sockets st).
    { unfold with_session. destruct (heap st !! session socket); [|reflexivity].
      destruct (on_disconnect socket s). reflexivity. }
    destruct (with_session socket (on_disconnect socket) st) as [st1 out]. simpl in *.
    apply (Inv_session_socket_closed
             (snd (setTimeout (ReapSession (sessionId socket)) 60000 now st1)) id).
    + apply Inv_setTimeout, HI1.
    + simpl. rewrite Hs1. exact Hs.
Qed.

Lemma Inv_detach_session st id sid :
  Inv st -> Inv (fst (detach_session id sid st)).
Proof.
  intros HI. unfold detach_session.
  destruct (sessions st !! sid) as [r|]; [|exact HI].
  destruct (heap st !! r) as [s|] eqn:Hr; [|exact HI].
  case_bool_decide; [|exact HI]. simpl.
  apply Inv_heap_insert; [exact HI|]. exact (inv_heap st HI r s Hr).
Qed.

Lemma sockets_detach_session st id sid :
  sockets (fst (detach_session id sid st)) = sockets st /\
  cliDaemons (fst (detach_session id sid st)) = cliDaemons st.
Proof.
  unfold detach_session. repeat case_match; simpl; auto.
Qed.

Lemma Inv_detach_all id sids :
  forall st, Inv st ->
    Inv (fst (detach_all id sids st)) /\
    sockets (fst (detach_all id sids st)) = sockets st /\
    cliDaemons (fst (detach_all id sids st)) = cliDaemons st.
Proof.
  induction sids as [|sid rest IH]; intros st HI; simpl; [auto|].
  pose proof (Inv_detach_session st id sid HI) as H1.
  pose proof (sockets_detach_session st id sid) as [H2 H3].
  destruct (detach_session id sid st) as [st1 out1]. simpl in *.
  specialize (IH st1 H1). destruct (detach_all id rest st1) as [st2 out2]. simpl in *.
  destruct IH as (? & -> & ->). auto.
Qed.

Lemma Inv_on_daemon_socket st now id u m :
  Inv st -> sockets st !! id = Some (DaemonSocket u) ->
  Inv (fst (on_daemon_socket now id u m st)).
Proof.
  intros HI Hs.
  destruct m as [| |ev|dat|dat|dat|dat| |cid cmd ps|response|sid key enc|sid| |];
    try exact HI; unfold on_daemon_socket.
  - (* cli-response *)
    unfold on_cli_response.
    destruct (pendingCommands st !! cr_commandId response) as [p|]; [|exact HI].
    assert (Inv (set_pendingCommands
                   (delete (cr_commandId response)
                           (pendingCommands (clearTimeout (p_timeout p) st)))
                   (clearTimeout (p_timeout p) st))) as HI1
      by (apply Inv_pending_delete, Inv_clearTimeout, HI).
    destruct (cr_success response); exact HI1.
  - (* session-attached *)
    unfold on_session_attached.
    set (st1 := update_daemon id _ st).
    assert (HI1 : Inv st1) by (apply Inv_update_daemon; [exact HI | reflexivity]).
    clearbody st1.
    assert (HI2 : Inv (attach_session now id u sid key enc st1)).
    { unfold attach_session. destruct (sessions st1 !! sid) as [r|] eqn:Hr.
      - apply Inv_heap_alter; [exact HI1|]. intros s Hb. exact Hb.
      - apply (Inv_sessions_insert (set_nextRef _ (set_heap _ st1))).
        + apply Inv_nextRef, Inv_heap_insert; [exact HI1|]. split; simpl; lia.
        + simpl. rewrite lookup_insert_eq. eauto. }
    destruct u as [user|]; [|exact HI2].
    destruct (JS.truthy_str (Some user)); [|exact HI2].
    apply Inv_add_user_session, HI2.
  - (* session-detached *)
    unfold on_session_detached. apply Inv_detach_session.
    apply Inv_update_daemon; [exact HI | reflexivity].
  - (* disconnect *)
    unfold on_daemon_disconnect.
    match goal with
    | |- context [let '(st0, out) := ?X in _] =>
        assert (Hx : Inv (fst X) /\ sockets (fst X) = sockets st
                     /\ cliDaemons (fst X) = cliDaemons st)
    end.
    { destruct (JS.map_get id (cliDaemons st)); [|auto].
      apply Inv_detach_all, HI. }
    match goal with
    | |- context [let '(st0, out) := ?X in _] => destruct X as [st1 out]
    end.
    simpl in *. destruct Hx as ([Hh Hso Hse Hdm Ht Hp] & Hsk & Hcd).
    constructor; simpl; auto.
    + intros id' socket Hl. apply lookup_delete_Some in Hl as [_ Hl]. eauto.
    + intros k d Hin. apply map_delete_elem in Hin as [Hin Hne]. simpl in Hne.
      destruct (Hdm k d Hin) as [Hk [u' Hu]]. split; [assumption|].
      exists u'. rewrite lookup_delete_ne by congruence. exact Hu.
Qed.

Lemma Inv_fire_timer st now handle : Inv st -> Inv (fst (fire_timer now handle st)).
Proof.
  intros HI. unfold fire_timer.
  destruct (timers st !! handle) as [t|]; [|exact HI].
  destruct (due t <=? now); [|exact HI].
  pose proof (Inv_clearTimeout st handle HI) as HI1.
  destruct (action t) as [sid|c r]; simpl.
  - destruct (sessions st !! sid) as [ref|]; [|exact HI1].
    destruct (heap st !! ref) as [s|]; [|exact HI1].
    destruct (_ && _); [|exact HI1].
    apply (Inv_sessions_delete (clearTimeout handle st)), HI1.
  - apply (Inv_pending_delete (clearTimeout handle st)), HI1.
Qed.

Lemma Inv_post_daemon_command st now request command params random :
  Inv st -> Inv (fst (post_daemon_command now request command params random st)).
Proof.
  intros HI. unfold post_daemon_command.
  destruct command as [command|]; [|exact HI].
  destruct (negb _); [exact HI|].
  destruct (JS.map_first (cliDaemons st)) as [[k d]|]; [|exact HI].
  destruct (sockets st !! d_socketId d); [|exact HI]. simpl.
  apply (Inv_pending_insert
           (snd (setTimeout (CommandTimeout (new_commandId now random) request)
                            10000 now st))).
  - apply Inv_setTimeout, HI.
  - simpl. lia.
Qed.

Lemma Inv_step st now e : Inv st -> Inv (fst (step sha256_hex now e st)).
Proof.
  intros HI. destruct e as [id q|id m|handle|request command params random]; simpl.
  - destruct (sockets st !! id) eqn:Hs; [exact HI|]. apply Inv_on_connection; assumption.
  - destruct (sockets st !! id) as [[socket|u]|] eqn:Hs; [| |exact HI].
    + eapply Inv_on_session_socket; eassumption.
    + apply Inv_on_daemon_socket; assumption.
  - apply Inv_fire_timer, HI.
  - apply Inv_post_daemon_command, HI.
Qed.

Lemma Inv_run events : forall st, Inv st -> Inv (fst (run sha256_hex events st)).
Proof.
  induction events as [|[now e] rest IH]; intros st HI; simpl; [exact HI|].
  pose proof (Inv_step st now e HI) as H1.
  destruct (step sha256_hex now e st) as [st1 out1]. simpl in H1.
  specialize (IH st1 H1). destruct (run sha256_hex rest st1) as [st2 out2]. exact IH.
Qed.

End RelayInvariants.

(** ** The relay: history rings *)

(** C6.  After any sequence of relay events, every session object -- the
    ones the session directory holds included -- has at most 100 entries in
    [outputHistory] and at most 100 in [encryptedHistory]; the ['output']
    handler appends to [outputHistory] and drops the oldest entry when the
    length exceeds 100, and the ['output-history'] handler does the same
    for [encryptedHistory]. *)
Theorem history_rings_bounded (sha256_hex : string -> string)
    (events : list (Z * Event)) :
  (forall ref s,
      heap (fst (run sha256_hex events init)) !! ref = Some s ->
      (length (outputHistory s) <= 100)%nat /\
      (length (encryptedHistory s) <= 100)%nat) /\
  (forall sid ref,
      sessions (fst (run sha256_hex events init)) !! sid = Some ref ->
      exists s, heap (fst (run sha256_hex events init)) !! ref = Some s /\
                (length (outputHistory s) <= 100)%nat /\
                (length (encryptedHistory s) <= 100)%nat) /\
  (forall socket event s,
      clientType socket = cli ->
      outputHistory (fst (on_output socket event s))
      = if (100 <? length (outputHistory s ++ [event]))%nat
        then tail (outputHistory s ++ [event])
        else outputHistory s ++ [event]) /\
  (forall socket data s,
      clientType socket = cli ->
      encryptedHistory (fst (on_output_history socket data s))
      = let entry := mkEncryptedOutputEvent "" (oh_encrypted data) (oh_seq data)
                                            (oh_timestamp data) in
        if (100 <? length (encryptedHistory s ++ [entry]))%nat
        then tail (encryptedHistory s ++ [entry])
        else encryptedHistory s ++ [entry]).
Proof.
  pose proof (Inv_run sha256_hex events init Inv_init) as HI.
  split; [|split; [|split]].
  - intros ref s Hs. exact (inv_heap _ HI ref s Hs).
  - intros sid ref Hs. destruct (inv_sessions _ HI sid ref Hs) as [s Hr].
    exists s. split; [exact Hr|]. exact (inv_heap _ HI ref s Hr).
  - intros socket event s Hc. unfold on_output.
    rewrite (bool_decide_eq_true_2 _ Hc). reflexivity.
  - intros socket data s Hc. unfold on_output_history.
    rewrite (bool_decide_eq_true_2 _ Hc). reflexivity.
Qed.

(** ** The relay: reaping *)

(** C7, at the inputs where the code departs from it.  After
    [daemon_session_events] the session [work] is in the session directory,
    bound to the daemon [D], which is connected and lists it as active, and
    the reaping timer of the disconnect of [V] is due 60 s after it; when
    that timer runs, the session is deleted from the directory although a
    daemon-managed producer binding exists.  And after
    [daemon_leaves_events], where the disconnect of the daemon leaves the
    session with no producer and no viewers, no timer is set: nothing will
    delete the session 60 s later. *)
Theorem reaping_ignores_daemon_binding (sha256_hex : string -> string) :
  let st := fst (run sha256_hex daemon_session_events init) in
  let st' := fst (run sha256_hex daemon_leaves_events init) in
  (sessions st !! "work"%string = Some 0%nat /\
   daemonSocketId <$> heap st !! 0%nat = Some (Some "D"%string) /\
   JS.map_get "D" (cliDaemons st) = Some (mkCLIDaemon "D" None ["work"%string] 0) /\
   timers st !! 0%nat = Some {| due := 63000; action := ReapSession "work" |} /\
   sessions (fst (step sha256_hex 63000 (TimerFires 0) st)) !! "work"%string = None) /\
  (sessions st' !! "work"%string = Some 0%nat /\
   daemonSocketId <$> heap st' !! 0%nat = Some None /\
   cliSocketId <$> heap st' !! 0%nat = Some None /\
   viewers <$> heap st' !! 0%nat = Some ∅ /\
   timers st' = ∅).
Proof. vm_compute. repeat split; reflexivity. Qed.

(** ** The relay: daemon commands *)

Lemma same_commands_refl st : same_commands st st.
Proof. repeat split. Qed.

Lemma same_commands_trans st1 st2 st3 :
  same_commands st1 st2 -> same_commands st2 st3 -> same_commands st1 st3.
Proof. unfold same_commands. intros (-> & -> & ->) (-> & -> & ->). auto. Qed.

Lemma same_commands_with_session st socket f :
  same_commands st (fst (with_session socket f st)).
Proof.
  unfold with_session. destruct (heap st !! session socket); [|apply same_commands_refl].
  destruct (f s). repeat split.
Qed.

Lemma same_commands_update_daemon st id f : same_commands st (update_daemon id f st).
Proof. unfold update_daemon. destruct (JS.map_get _ _); repeat split. Qed.

Lemma same_commands_detach_session st id sid :
  same_commands st (fst (detach_session id sid st)).
Proof. unfold detach_session. repeat case_match; repeat split. Qed.

Lemma same_commands_detach_all id sids :
  forall st, same_commands st (fst (detach_all id sids st)).
Proof.
  induction sids as [|sid rest IH]; intros st; simpl; [apply same_commands_refl|].
  pose proof (same_commands_detach_session st id sid) as H1.
  destruct (detach_session id sid st) as [st1 out1]. simpl in H1.
  specialize (IH st1). destruct (detach_all id rest st1) as [st2 out2]. simpl in *.
  eapply same_commands_trans; eassumption.
Qed.

Section DaemonCommands.
Variable sha256_hex : string -> string.

Lemma same_commands_on_connection st now id q :
  same_commands st (fst (on_connection sha256_hex now id q st)).
Proof.
  unfold on_connection. case_bool_decide; [repeat split|].
  destruct (q_sessionId q) as [sid|]; [|apply same_commands_refl].
  destruct (negb _); [apply same_commands_refl|].
  assert (H1 : same_commands st (snd (session_for sha256_hex now q sid st))).
  { unfold session_for. repeat case_match; repeat split. }
  destruct (session_for sha256_hex now q sid st) as [ref st1]. simpl in H1.
  eapply same_commands_trans; [exact H1|].
  eapply same_commands_trans; [|apply same_commands_with_session]. repeat split.
Qed.

Lemma same_commands_on_session_attached st now id u sid key enc :
  same_commands st (fst (on_session_attached now id u sid key enc st)).
Proof.
  unfold on_session_attached.
  pose proof (same_commands_update_daemon st id
                (fun d => set_activeSessions (set_add sid (activeSessions d)) d)) as H0.
  set (st1 := update_daemon id _ st) in *. clearbody st1.
  assert (H1 : same_commands st1 (attach_session now id u sid key enc st1)).
  { unfold attach_session. case_match; repeat split. }
  set (st2 := attach_session now id u sid key enc st1) in *. clearbody st2.
  eapply same_commands_trans; [exact H0|].
  eapply same_commands_trans; [exact H1|]. simpl.
  repeat case_match; repeat split.
Qed.

Lemma same_commands_on_daemon_disconnect st id :
  same_commands st (fst (on_daemon_disconnect id st)).
Proof.
  unfold on_daemon_disconnect.
  match goal with
  | |- context [let '(st0, out) := ?X in _] =>
      assert (Hx : same_commands st (fst X))
  end.
  { destruct (JS.map_get id (cliDaemons st));
      [apply same_commands_detach_all | apply same_commands_refl]. }
  match goal with
  | |- context [let '(st0, out) := ?X in _] => destruct X as [st1 out]
  end.
  simpl in *. destruct Hx as (? & ? & ?). repeat split; assumption.
Qed.

Lemma Waiting_same_commands cid request tid deadline st st' :
  same_commands st st' -> Waiting cid request tid deadline st ->
  Waiting cid request tid deadline st'.
Proof.
  intros (Hp & Ht & Hn) [W1 W2 W3 W4 W5].
  constructor; rewrite ?Hp, ?Ht, ?Hn; assumption.
Qed.

Lemma Waiting_setTimeout_reap cid request tid deadline st sid delay now :
  Waiting cid request tid deadline st ->
  Waiting cid request tid deadline (snd (setTimeout (ReapSession sid) delay now st)).
Proof.
  intros [W1 W2 W3 W4 W5]. constructor; simpl; auto.
  - rewrite lookup_insert_ne by lia. exact W2.
  - intros t tm r Hl Ha. apply lookup_insert_Some in Hl as [[_ <-]|[_ Hl]];
      [discriminate|eauto].
Qed.

Lemma Waiting_step cid request tid deadline st now e :
  Waiting cid request tid deadline st ->
  no_answer cid (now, e) ->
  now < deadline \/ e <> TimerFires tid ->
  Waiting cid request tid deadline (fst (step sha256_hex now e st)).
Proof.
  intros HW Hq Hearly.
  destruct e as [id q|id m|handle|req command params random]; simpl.
  - (* a connection *)
    destruct (sockets st !! id); [exact HW|].
    eapply Waiting_same_commands; [apply same_commands_on_connection | exact HW].
  - destruct (sockets st !! id) as [[socket|u]|]; [| |exact HW].
    + (* a message of a producer or viewer *)
      destruct m; simpl; try exact HW;
        try (eapply Waiting_same_commands;
             [apply same_commands_with_session | exact HW]).
      pose proof (same_commands_with_session st socket (on_disconnect socket)) as Hs.
      destruct (with_session socket (on_disconnect socket) st) as [st1 out].
      simpl in Hs.
      pose proof (Waiting_setTimeout_reap cid request tid deadline st1
                    (sessionId socket) 60000 now
                    (Waiting_same_commands _ _ _ _ _ _ Hs HW)) as [W1 W2 W3 W4 W5].
      constructor; simpl; assumption.
    + (* a message of a daemon *)
      destruct m as [| |ev|dat|dat|dat|dat| |c cmd ps|response|sid key enc|sid| |];
        try exact HW; unfold on_daemon_socket.
      * (* cli-response for another command *)
        unfold no_answer in Hq. simpl in Hq. unfold on_cli_response.
        destruct (pendingCommands st !! cr_commandId response) as [p|] eqn:Hp;
          [|exact HW].
        destruct HW as [W1 W2 W3 W4 W5].
        assert (Hne : p_timeout p <> tid) by (intros Heq; apply Hq; eauto).
        assert (Waiting cid request tid deadline
                  (set_pendingCommands
                     (delete (cr_commandId response)
                             (pendingCommands (clearTimeout (p_timeout p) st)))
                     (clearTimeout (p_timeout p) st))) as HW1.
        { constructor; simpl.
          - rewrite lookup_delete_ne by assumption. exact W1.
          - rewrite lookup_delete_ne by assumption. exact W2.
          - exact W3.
          - intros c' p' Hl. apply lookup_delete_Some in Hl as [_ Hl]. eauto.
          - intros t tm r Hl. apply lookup_delete_Some in Hl as [_ Hl]. eauto. }
        destruct (cr_success response); exact HW1.
      * eapply Waiting_same_commands;
          [apply same_commands_on_session_attached | exact HW].
      * unfold on_session_detached.
        eapply Waiting_same_commands; [|exact HW].
        eapply same_commands_trans;
          [apply same_commands_update_daemon | apply same_commands_detach_session].
      * eapply Waiting_same_commands;
          [apply same_commands_on_daemon_disconnect | exact HW].
  - (* a timer *)
    unfold fire_timer. destruct (timers st !! handle) as [t|] eqn:Ht; [|exact HW].
    destruct (due t <=? now) eqn:Hdue; [|exact HW].
    destruct HW as [W1 W2 W3 W4 W5].
    assert (Hne : handle <> tid).
    { intros ->. rewrite W2 in Ht. injection Ht as <-. simpl in Hdue.
      apply Z.leb_le in Hdue. destruct Hearly as [Hlt|Hneq]; [lia|].
      apply Hneq. reflexivity. }
    destruct (action t) as [sid|c r] eqn:Ha; simpl.
    + assert (Waiting cid request tid deadline (clearTimeout handle st)) as HW1.
      { constructor; simpl; auto.
        - rewrite lookup_delete_ne by assumption. exact W2.
        - intros t' tm r Hl. apply lookup_delete_Some in Hl as [_ Hl]. eauto. }
      destruct (sessions st !! sid) as [ref|]; [|exact HW1].
      destruct (heap st !! ref) as [s|]; [|exact HW1].
      destruct (_ && _); [|exact HW1].
      destruct HW1. constructor; simpl; assumption.
    + assert (Hc : c <> cid).
      { intros ->. apply Hne. eapply W5; eassumption. }
      constructor; simpl; auto.
      * rewrite lookup_delete_ne by assumption. exact W1.
      * rewrite lookup_delete_ne by assumption. exact W2.
      * intros c' p' Hl. apply lookup_delete_Some in Hl as [_ Hl]. eauto.
      * intros t' tm r' Hl. apply lookup_delete_Some in Hl as [_ Hl]. eauto.
  - (* another command *)
    unfold no_answer in Hq. simpl in Hq. unfold post_daemon_command.
    destruct command as [command|]; [|exact HW].
    destruct (negb _); [exact HW|].
    destruct (JS.map_first (cliDaemons st)) as [[k d]|]; [|exact HW].
    destruct (sockets st !! d_socketId d); [|exact HW]. simpl.
    destruct HW as [W1 W2 W3 W4 W5]. constructor; simpl.
    + rewrite lookup_insert_ne by assumption. exact W1.
    + rewrite lookup_insert_ne by lia. exact W2.
    + lia.
    + intros c' p' Hl Hp'. apply lookup_insert_Some in Hl as [[_ <-]|[_ Hl]];
        [simpl in Hp'; lia | eauto].
    + intros t tm r Hl Ha. apply lookup_insert_Some in Hl as [[_ <-]|[_ Hl]];
        [simpl in Ha; congruence | eauto].
Qed.

Lemma Waiting_run cid request tid deadline events :
  forall st,
    Waiting cid request tid deadline st ->
    Forall (no_answer cid) events ->
    Forall (fun te => fst te < deadline \/ snd te <> TimerFires tid) events ->
    Waiting cid request tid deadline (fst (run sha256_hex events st)).
Proof.
  induction events as [|[now e] rest IH]; intros st HW Hq Hearly; simpl; [exact HW|].
  apply Forall_cons in Hq as [Hq1 Hq2]. apply Forall_cons in Hearly as [He1 He2].
  pose proof (Waiting_step cid request tid deadline st now e HW Hq1 He1) as H1.
  destruct (step sha256_hex now e st) as [st1 out1]. simpl in H1.
  specialize (IH st1 H1 Hq2 He2). destruct (run sha256_hex rest st1) as [st2 out2].
  exact IH.
Qed.

End DaemonCommands.

(** ** The relay: the reaping timer *)

(** X1.  What the reaping timer does.  The ['disconnect'] handler of a
    producer or viewer connection sets a timer for 60 s later on the
    session's id;
    the timer does nothing before it is due; when it runs, it deletes the
    session from the directory if no producer connection is bound
    ([cliSocketId] null) and the viewers map is empty, and leaves the
    directory alone if a producer connection is bound or a viewer is
    present.  [daemonSocketId] is not consulted. *)
Theorem reaping_timer (st : State) (now : Z) (handle : nat) (deadline : Z)
    (sid : string) (ref : nat) (s : Session) :
  timers st !! handle = Some (mkTimer deadline (ReapSession sid)) ->
  sessions st !! sid = Some ref ->
  heap st !! ref = Some s ->
  (forall socket t,
      timers (fst (on_session_socket t socket disconnect st)) !! nextTimer st
      = Some (mkTimer (t + 60000) (ReapSession (sessionId socket)))) /\
  (now < deadline -> fire_timer now handle st = (st, [])) /\
  (deadline <= now -> deserted s ->
   sessions (fst (fire_timer now handle st)) = delete sid (sessions st)) /\
  (deadline <= now -> ~ deserted s ->
   sessions (fst (fire_timer now handle st)) = sessions st).
Proof.
  intros Ht Hs Hr. split; [|split; [|split]].
  - intros socket t. simpl.
    destruct (with_session socket (on_disconnect socket) st) as [st1 out] eqn:Hw.
    pose proof (same_commands_with_session st socket (on_disconnect socket))
      as (_ & _ & Hn).
    rewrite Hw in Hn. simpl in *. rewrite Hn. apply lookup_insert_eq.
  - intros Hlt. unfold fire_timer. rewrite Ht. simpl.
    apply Z.leb_gt in Hlt. rewrite Hlt. reflexivity.
  - intros Hle [Hc Hv]. unfold fire_timer. rewrite Ht. simpl.
    apply Z.leb_le in Hle. rewrite Hle. simpl. rewrite Hs, Hr, Hc, Hv. reflexivity.
  - intros Hle Hnot. unfold fire_timer. rewrite Ht. simpl.
    apply Z.leb_le in Hle. rewrite Hle. simpl. rewrite Hs, Hr.
    destruct (JS.truthy_str (cliSocketId s)) eqn:Hc; simpl; [reflexivity|].
    case_bool_decide as Hv; [|reflexivity].
    exfalso. apply Hnot. split; [exact Hc|]. apply map_size_empty_iff, Hv.
Qed.

Lemma reaping_timer_witness :
  (forall socket t,
      timers (fst (on_session_socket t socket disconnect
                     (fst (run plain_hash daemon_session_events init))))
        !! nextTimer (fst (run plain_hash daemon_session_events init))
      = Some (mkTimer (t + 60000) (ReapSession (sessionId socket)))) /\
  (63000 < 63000 ->
   fire_timer 63000 0 (fst (run plain_hash daemon_session_events init))
   = (fst (run plain_hash daemon_session_events init), [])) /\
  (63000 <= 63000 ->
   deserted (mkSession "work" None None (Some "a2V5"%string) (Some "D"%string)
                       ∅ None [] [] true None 1000) ->
   sessions (fst (fire_timer 63000 0 (fst (run plain_hash daemon_session_events init))))
   = delete "work"%string (sessions (fst (run plain_hash daemon_session_events init)))) /\
  (63000 <= 63000 ->
   ~ deserted (mkSession "work" None None (Some "a2V5"%string) (Some "D"%string)
                         ∅ None [] [] true None 1000) ->
   sessions (fst (fire_timer 63000 0 (fst (run plain_hash daemon_session_events init))))
   = sessions (fst (run plain_hash daemon_session_events init))).
Proof.
  apply (reaping_timer (fst (run plain_hash daemon_session_events init)) 63000 0 63000
           "work" 0
           (mkSession "work" None None (Some "a2V5"%string) (Some "D"%string)
                      ∅ None [] [] true None 1000)); vm_compute; reflexivity.
Defined.

(** C8, as amended.  In any reachable state of the relay, a
    [POST /api/daemon/command] whose body carries a non-empty [command],
    and whose command id is not that of an earlier command whose timeout
    is still set:
    - with no daemon connected, returns [{error:"No CLI daemon connected"}];
    - otherwise sends [cli-command{commandId, command, params}] to the first
      connected daemon and leaves the request open.  Then, as long as the
      relay has handled neither a ['cli-response'] bearing that command id
      nor another request that was given the same command id: a
      ['cli-response'] for it from a connected daemon, handled within 10 s
      of the request, answers the request with [{success:true, data}] if it
      reports success and with [{error: <the daemon's error message, or
      "Command failed" when it gives none>}] otherwise (and cancels the
      timeout); and the timeout, when it runs, 10 s after the request or
      later, answers it with [{error:"Command timeout"}] (and forgets the
      command).
    A request without a command is answered [{error:"command is required"}]
    before any daemon is looked for. *)
Theorem daemon_command (sha256_hex : string -> string) (history : list (Z * Event))
    (now : Z) (request : nat) (command : string) (params : option JS.value)
    (random : string) :
  command <> ""%string ->
  (forall t tm r,
      timers (fst (run sha256_hex history init)) !! t = Some tm ->
      action tm <> CommandTimeout (new_commandId now random) r) ->
  match cliDaemons (fst (run sha256_hex history init)) with
  | [] =>
      post_daemon_command now request (Some command) params random
                          (fst (run sha256_hex history init))
      = (fst (run sha256_hex history init),
         [HttpReply request (http_error "No CLI daemon connected")])
  | (d, _) :: _ =>
      exists st1 tid,
        post_daemon_command now request (Some command) params random
                            (fst (run sha256_hex history init))
        = (st1, [Emit (ToSocket d)
                      (cli_command (new_commandId now random) command params)]) /\
        forall later,
          Forall (no_answer (new_commandId now random)) later ->
          (Forall (fun te => fst te < now + 10000) later ->
           forall t dsock u response,
             sockets (fst (run sha256_hex later st1)) !! dsock
               = Some (DaemonSocket u) ->
             cr_commandId response = new_commandId now random ->
             snd (step sha256_hex t (Received dsock (send_cli_response response))
                       (fst (run sha256_hex later st1)))
             = [HttpReply request (reply_of response);
                Emit ToAll (cli_response response)] /\
             timers (fst (step sha256_hex t
                               (Received dsock (send_cli_response response))
                               (fst (run sha256_hex later st1)))) !! tid = None) /\
          (Forall (fun te => snd te <> TimerFires tid) later ->
           forall t,
             now + 10000 <= t ->
             snd (step sha256_hex t (TimerFires tid) (fst (run sha256_hex later st1)))
             = [HttpReply request (http_error "Command timeout")] /\
             pendingCommands
               (fst (step sha256_hex t (TimerFires tid)
                          (fst (run sha256_hex later st1))))
               !! new_commandId now random = None)
  end /\
  (forall st, post_daemon_command now request None params random st
              = (st, [HttpReply request (http_error "command is required")])) /\
  (forall st, post_daemon_command now request (Some ""%string) params random st
              = (st, [HttpReply request (http_error "command is required")])).
Proof.
  intros Hcmd Hfresh.
  pose proof (Inv_run sha256_hex history init Inv_init) as HI.
  set (st := fst (run sha256_hex history init)) in *. clearbody st.
  set (cid := new_commandId now random) in *.
  split; [|split; reflexivity].
  unfold post_daemon_command. simpl.
  rewrite (bool_decide_eq_false_2 _ Hcmd). simpl.
  destruct (cliDaemons st) as [|[d dm] rest] eqn:Hd; simpl; [reflexivity|].
  destruct (inv_daemons st HI d dm) as [Hk [u0 Hu0]]; [rewrite Hd; left|].
  rewrite Hk, Hu0. fold cid.
  eexists _, (nextTimer st). split; [reflexivity|].
  set (st1 := set_pendingCommands _ _).
  assert (HW : Waiting cid request (nextTimer st) (now + 10000) st1).
  { constructor; simpl.
    - apply lookup_insert_eq.
    - apply lookup_insert_eq.
    - lia.
    - intros c p Hl Hp. apply lookup_insert_Some in Hl as [[<- _]|[_ Hl]];
        [reflexivity|]. pose proof (inv_pending st HI c p Hl). lia.
    - intros t tm r Hl Ha. apply lookup_insert_Some in Hl as [[<- _]|[_ Hl]];
        [reflexivity|]. exfalso. exact (Hfresh t tm r Hl Ha). }
  clearbody st1. intros later Hq. split.
  - intros Hearly t dsock u response Hs Hc.
    assert (HW2 : Waiting cid request (nextTimer st) (now + 10000)
                    (fst (run sha256_hex later st1))).
    { apply Waiting_run; [exact HW | exact Hq |].
      eapply Forall_impl; [exact Hearly|]. intros te Hte. left. exact Hte. }
    destruct HW2 as [W1 W2 W3 W4 W5]. simpl. rewrite Hs.
    unfold on_daemon_socket, on_cli_response. rewrite Hc, W1. unfold reply_of.
    destruct (cr_success response); simpl; (split; [reflexivity|]);
      apply lookup_delete_eq.
  - intros Hnot t Ht.
    assert (HW2 : Waiting cid request (nextTimer st) (now + 10000)
                    (fst (run sha256_hex later st1))).
    { apply Waiting_run; [exact HW | exact Hq |].
      eapply Forall_impl; [exact Hnot|]. intros te Hte. right. exact Hte. }
    destruct HW2 as [W1 W2 W3 W4 W5]. simpl. unfold fire_timer. rewrite W2. simpl.
    apply Z.leb_le in Ht. rewrite Ht. simpl. split; [reflexivity|].
    apply lookup_delete_eq.
Qed.

Lemma daemon_command_witness :
  match cliDaemons (fst (run plain_hash one_daemon init)) with
  | [] =>
      post_daemon_command 5000 1 (Some "list-sessions"%string) None "k3x9ab"
                          (fst (run plain_hash one_daemon init))
      = (fst (run plain_hash one_daemon init),
         [HttpReply 1%nat (http_error "No CLI daemon connected")])
  | (d, _) :: _ =>
      exists st1 tid,
        post_daemon_command 5000 1 (Some "list-sessions"%string) None "k3x9ab"
                            (fst (run plain_hash one_daemon init))
        = (st1, [Emit (ToSocket d)
                      (cli_command (new_commandId 5000 "k3x9ab") "list-sessions" None)]) /\
        forall later,
          Forall (no_answer (new_commandId 5000 "k3x9ab")) later ->
          (Forall (fun te => fst te < 5000 + 10000) later ->
           forall t dsock u response,
             sockets (fst (run plain_hash later st1)) !! dsock
               = Some (DaemonSocket u) ->
             cr_commandId response = new_commandId 5000 "k3x9ab" ->
             snd (step plain_hash t (Received dsock (send_cli_response response))
                       (fst (run plain_hash later st1)))
             = [HttpReply 1%nat (reply_of response);
                Emit ToAll (cli_response response)] /\
             timers (fst (step plain_hash t
                               (Received dsock (send_cli_response response))
                               (fst (run plain_hash later st1)))) !! tid = None) /\
          (Forall (fun te => snd te <> TimerFires tid) later ->
           forall t,
             5000 + 10000 <= t ->
             snd (step plain_hash t (TimerFires tid) (fst (run plain_hash later st1)))
             = [HttpReply 1%nat (http_error "Command timeout")] /\
             pendingCommands
               (fst (step plain_hash t (TimerFires tid)
                          (fst (run plain_hash later st1))))
               !! new_commandId 5000 "k3x9ab" = None)
  end /\
  (forall st, post_daemon_command 5000 1 None None "k3x9ab" st
              = (st, [HttpReply 1%nat (http_error "command is required")])) /\
  (forall st, post_daemon_command 5000 1 (Some ""%string) None "k3x9ab" st
              = (st, [HttpReply 1%nat (http_error "command is required")])).
Proof.
  apply (daemon_command plain_hash one_daemon 5000 1 "list-sessions"
                        None "k3x9ab").
  - discriminate.
  - intros t tm r Hl. vm_compute in Hl. discriminate.
Defined.

(** No daemon is connected and the body carries an empty [command]: the
    reply is [{error:"command is required"}]. *)
Lemma daemon_command_without_command :
  cliDaemons init = [] /\
  post_daemon_command 5000 1 (Some ""%string) None "k3x9ab" init
  = (init, [HttpReply 1 (http_error "command is required")]).
Proof. split; reflexivity. Qed.

(** Two requests with a command for the connected daemon [D] are given the
    same command id.  Both commands are forwarded to [D], and [D] answers
    that id with success twice, 100 ms and 200 ms after the requests.
    Request 2 is answered [{success:true, data}]; request 1 gets no answer
    until its timeout runs, and then [{error:"Command timeout"}]. *)
Lemma daemon_command_colliding_id :
  cliDaemons (fst (run plain_hash (take 1 colliding_commands) init))
  = [("D"%string, mkCLIDaemon "D" None [] 0)] /\
  snd (run plain_hash colliding_commands init)
  = [Emit (ToSocket "D")
          (cli_command (new_commandId 5000 "k3x9ab") "list-sessions" None);
     Emit (ToSocket "D")
          (cli_command (new_commandId 5000 "k3x9ab") "list-sessions" None);
     HttpReply 2 (http_success (Some (JS.Arr [])));
     Emit ToAll (cli_response
                   (mkCommandResponse (new_commandId 5000 "k3x9ab") true
                                      (Some (JS.Arr [])) None));
     Emit ToAll (cli_response
                   (mkCommandResponse (new_commandId 5000 "k3x9ab") true
                                      (Some (JS.Arr [])) None));
     HttpReply 1 (http_error "Command timeout")].
Proof. split; vm_compute; reflexivity. Qed.

(** X2.  In every reachable state the socket of the first registered
    daemon is a connected one: the endpoint's
    [{error:"Daemon socket not found"}] branch is never taken. *)
Theorem first_daemon_socket_found (sha256_hex : string -> string)
    (history : list (Z * Event)) :
  match JS.map_first (cliDaemons (fst (run sha256_hex history init))) with
  | Some (_, daemon) =>
      is_Some (sockets (fst (run sha256_hex history init)) !! d_socketId daemon)
  | None => True
  end.
Proof.
  pose proof (Inv_run sha256_hex history init Inv_init) as HI.
  destruct (JS.map_first _) as [[k d]|] eqn:Hf; [|exact I].
  apply map_first_elem in Hf. destruct (inv_daemons _ HI k d Hf) as [-> [u Hu]].
  rewrite Hu. eauto.
Qed.

(** ** Encrypted fan-out *)

(** A message for the room named by the id of a connected socket reaches
    that socket alone, provided no session room bears that name. *)
Lemma recipients_own_room (st : State) (viewerId : string) (conn : Conn) :
  sockets st !! viewerId = Some conn ->
  (forall id socket, sockets st !! id = Some (SessionSocket socket) ->
                     room_of (sessionId socket) <> viewerId) ->
  recipients st (ToRoom viewerId) = {[viewerId]}.
Proof.
  intros Hv Hrooms. apply set_eq. intros x.
  rewrite elem_of_singleton. simpl. rewrite elem_of_dom. split.
  - intros [c Hc]. apply map_lookup_filter_Some in Hc as [Hx Hin]. simpl in Hin.
    unfold in_room in Hin. apply orb_true_iff in Hin as [Hid|Hroom].
    + apply bool_decide_eq_true in Hid. exact Hid.
    + destruct c as [socket|u]; [|discriminate].
      apply bool_decide_eq_true in Hroom. exfalso. exact (Hrooms x socket Hx Hroom).
  - intros ->. exists conn. apply map_lookup_filter_Some. split; [exact Hv|].
    simpl. unfold in_room. rewrite bool_decide_eq_true_2 by reflexivity. reflexivity.
Qed.

Section FanOut.
Context {H : Host} {HL : HostLaws H}.

Lemma send_to_each_sealed (event : OutputEvent) (rnd : nat -> bytes)
    (entries : list (string * bytes)) :
  Forall (fun entry => length (snd entry) = nacl_secretbox_keyLength) entries ->
  (forall i, length (rnd i) = nacl_secretbox_nonceLength) ->
  forall i, exists ds,
    EncryptedWSClient.send_to_each event rnd i entries
    = (map EncryptedWSClient.encrypted_output ds, Return tt) /\
    Forall2 (sealed_for event) entries ds.
Proof.
  intros Hk Hn. induction entries as [|[viewerId secret] rest IH]; intros i; simpl.
  - exists []. split; [reflexivity | constructor].
  - apply Forall_cons in Hk as [Hk1 Hk2]. simpl in Hk1.
    destruct (encrypt_returns
                (Crypto.MString (JSON_stringify (OutputEvent_to_JS event)))
                secret (rnd i) Hk1 (Hn i)) as (c & Hc & He).
    rewrite He. destruct (IH Hk2 (S i)) as (ds & Hds & Hall). rewrite Hds.
    eexists (_ :: ds). split; [reflexivity|].
    constructor; [|exact Hall].
    repeat split. simpl. apply decryptToString_sealed, Hc.
Qed.

Lemma encrypted_outputs_app (ds : list EncryptedOutputEvent)
    (rest : list EncryptedWSClient.Emit) :
  encrypted_outputs (map EncryptedWSClient.encrypted_output ds ++ rest)
  = ds ++ encrypted_outputs rest.
Proof.
  unfold encrypted_outputs. induction ds as [|d ds IH]; simpl; [reflexivity|].
  f_equal. exact IH.
Qed.

(** C2.  For every [OutputEvent] the producer sends while connected (its
    shared secrets being 32-byte keys, the nonces drawn 24 bytes long), the
    call returns and emits exactly one [encrypted-output{viewerId,
    envelope, seq, timestamp}] per entry of its [sharedSecrets] map, in the
    map's order, each with the event's [seq] and [timestamp] and an
    envelope that decrypts under that viewer's shared secret to the JSON
    text of the event: the text of an object of type ['output'] with the
    event's [seq], [content] and [timestamp], which a viewer's page reads
    as that very event; and the relay, receiving any such message from a
    producer connection, emits the envelope with its [seq] and [timestamp]
    to the room named by [viewerId] -- the room of that one socket -- and
    to nobody else, without opening it and without changing the session
    or any other state. *)
Theorem encrypted_fanout (event : OutputEvent) (rnd : nat -> bytes)
    (c : EncryptedWSClient.t) :
  EncryptedWSClient.socket_connected c = true ->
  Forall (fun entry => length (snd entry) = nacl_secretbox_keyLength)
         (EncryptedWSClient.sharedSecrets c) ->
  (forall i, length (rnd i) = nacl_secretbox_nonceLength) ->
  exists out,
    EncryptedWSClient.sendEncryptedOutput event rnd c
    = (EncryptedWSClient.set_lastOutputEvent (Some event) c, out, Return tt) /\
    Forall2 (sealed_for event) (EncryptedWSClient.sharedSecrets c)
            (encrypted_outputs out) /\
    Forall2 (carries_event event) (EncryptedWSClient.sharedSecrets c)
            (encrypted_outputs out) /\
    (forall d socket s,
        clientType socket = cli ->
        on_encrypted_output socket d s
        = (s, [Emit (ToRoom (eo_viewerId d))
                    (encrypted_output (eo_encrypted d) (eo_seq d) (eo_timestamp d))])) /\
    (forall sha256_hex history now id socket d,
        sockets (fst (run sha256_hex history init)) !! id = Some (SessionSocket socket) ->
        clientType socket = cli ->
        step sha256_hex now (Received id (send_encrypted_output d))
             (fst (run sha256_hex history init))
        = (fst (run sha256_hex history init),
           [Emit (ToRoom (eo_viewerId d))
                 (encrypted_output (eo_encrypted d) (eo_seq d) (eo_timestamp d))])) /\
    (forall st viewerId conn,
        sockets st !! viewerId = Some conn ->
        (forall id socket, sockets st !! id = Some (SessionSocket socket) ->
                           room_of (sessionId socket) <> viewerId) ->
        recipients st (ToRoom viewerId) = {[viewerId]}).
Proof.
  intros Hconn Hk Hn. unfold EncryptedWSClient.sendEncryptedOutput.
  assert (Hc' : EncryptedWSClient.socket_connected
                  (EncryptedWSClient.set_lastOutputEvent (Some event) c) = true)
    by exact Hconn.
  rewrite Hc'. simpl.
  destruct (send_to_each_sealed event rnd (EncryptedWSClient.sharedSecrets c) Hk Hn 0)
    as (ds & Hds & Hall).
  rewrite Hds.
  assert (Hcarries : forall entry d,
             sealed_for event entry d -> carries_event event entry d).
  { intros entry d (_ & _ & _ & Hopen). exists (OutputEvent_to_JS event).
    split; [exact Hopen|]. destruct event. repeat split; reflexivity. }
  pose proof (Forall2_impl _ _ _ _ Hall Hcarries) as Hall2.
  assert (Hrelay : forall d socket s,
             clientType socket = cli ->
             on_encrypted_output socket d s
             = (s, [Emit (ToRoom (eo_viewerId d))
                         (encrypted_output (eo_encrypted d) (eo_seq d)
                                           (eo_timestamp d))])).
  { intros d socket s Hcli. unfold on_encrypted_output.
    rewrite (bool_decide_eq_true_2 _ Hcli). reflexivity. }
  assert (Hstep : forall sha256_hex history now id socket d,
             sockets (fst (run sha256_hex history init)) !! id
               = Some (SessionSocket socket) ->
             clientType socket = cli ->
             step sha256_hex now (Received id (send_encrypted_output d))
                  (fst (run sha256_hex history init))
             = (fst (run sha256_hex history init),
                [Emit (ToRoom (eo_viewerId d))
                      (encrypted_output (eo_encrypted d) (eo_seq d)
                                        (eo_timestamp d))])).
  { intros sha history now id socket d Hs Hcli.
    pose proof (Inv_run sha history init Inv_init) as HI.
    set (st := fst (run sha history init)) in *. clearbody st.
    simpl. rewrite Hs. simpl. unfold with_session.
    destruct (inv_sockets st HI id socket Hs) as [_ [s Hsess]].
    rewrite Hsess, (Hrelay d socket s Hcli). f_equal.
    rewrite insert_id by exact Hsess. destruct st; reflexivity. }
  destruct (EncryptedWSClient.sharedSecrets c) as [|[v0 k0] rest] eqn:Hss.
  - simpl. exists []. apply Forall2_nil_inv_l in Hall. subst ds.
    repeat split; [constructor | constructor | exact Hrelay | exact Hstep
                   | exact recipients_own_room].
  - simpl. apply Forall_cons in Hk as [Hk0 _]. simpl in Hk0.
    destruct (encrypt_returns
                (Crypto.MString (JSON_stringify (OutputEvent_to_JS event)))
                k0 (rnd (S (length rest))) Hk0 (Hn _)) as (c0 & Hc0 & He0).
    rewrite He0. eexists. split; [reflexivity|].
    rewrite encrypted_outputs_app. simpl. rewrite app_nil_r.
    repeat split; [exact Hall | exact Hall2 | exact Hrelay | exact Hstep
                   | exact recipients_own_room].
Qed.

End FanOut.

Lemma encrypted_fanout_witness :
  exists out,
    @EncryptedWSClient.sendEncryptedOutput RefHost.host sample_event
      (fun _ => sample_nonce) sample_client
    = (EncryptedWSClient.set_lastOutputEvent (Some sample_event) sample_client,
       out, Return tt) /\
    Forall2 (@sealed_for RefHost.host sample_event)
            (EncryptedWSClient.sharedSecrets sample_client)
            (encrypted_outputs out) /\
    Forall2 (@carries_event RefHost.host sample_event)
            (EncryptedWSClient.sharedSecrets sample_client)
            (encrypted_outputs out) /\
    (forall d socket s,
        clientType socket = cli ->
        on_encrypted_output socket d s
        = (s, [Emit (ToRoom (eo_viewerId d))
                    (encrypted_output (eo_encrypted d) (eo_seq d) (eo_timestamp d))])) /\
    (forall sha256_hex history now id socket d,
        sockets (fst (run sha256_hex history init)) !! id = Some (SessionSocket socket) ->
        clientType socket = cli ->
        step sha256_hex now (Received id (send_encrypted_output d))
             (fst (run sha256_hex history init))
        = (fst (run sha256_hex history init),
           [Emit (ToRoom (eo_viewerId d))
                 (encrypted_output (eo_encrypted d) (eo_seq d) (eo_timestamp d))])) /\
    (forall st viewerId conn,
        sockets st !! viewerId = Some conn ->
        (forall id socket, sockets st !! id = Some (SessionSocket socket) ->
                           room_of (sessionId socket) <> viewerId) ->
        recipients st (ToRoom viewerId) = {[viewerId]}).
Proof.
  apply (@encrypted_fanout RefHost.host RefHost_laws sample_event
           (fun _ => sample_nonce) sample_client).
  - reflexivity.
  - repeat constructor.
  - intros i. reflexivity.
Defined.

Example encrypted_fanout_example :
  encrypted_outputs
    (snd (fst (@EncryptedWSClient.sendEncryptedOutput RefHost.host sample_event
                 (fun _ => sample_nonce) sample_client)))
  = [ {| eo_viewerId := "V1";
         eo_encrypted :=
           {| nonce := string_of_list_byte sample_nonce;
              ciphertext :=
                string_of_list_byte
                  (repeat Byte.x11 32 ++ sample_nonce
                   ++ list_byte_of_string
                        (RefHost.stringify (OutputEvent_to_JS sample_event))) |};
         eo_seq := 1; eo_timestamp := 1000 |};
      {| eo_viewerId := "V2";
         eo_encrypted :=
           {| nonce := string_of_list_byte sample_nonce;
              ciphertext :=
                string_of_list_byte
                  (repeat Byte.x22 32 ++ sample_nonce
                   ++ list_byte_of_string
                        (RefHost.stringify (OutputEvent_to_JS sample_event))) |};
         eo_seq := 1; eo_timestamp := 1000 |} ].
Proof. vm_compute. reflexivity. Qed.

(** ** The relay: what the session objects refer to *)

Lemma Attached_init : Attached init.
Proof. constructor; simpl; intros; simplify_map_eq. Qed.

Lemma Attached_ext st st' :
  heap st' = heap st -> sockets st' = sockets st -> Attached st -> Attached st'.
Proof.
  intros Hh Hs [H1 H2 H3]. unfold connected_to in *.
  constructor; unfold connected_to; rewrite ?Hh, ?Hs; auto.
Qed.

Lemma Attached_heap_insert st r s' :
  Attached st ->
  lock_held_by_viewer s' ->
  (forall v x, viewers s' !! v = Some x -> connected_to st r false v) ->
  (forall p, cliSocketId s' = Some p -> connected_to st r true p) ->
  Attached (set_heap (<[r := s']> (heap st)) st).
Proof.
  intros [H1 H2 H3] Hl Hv Hp. constructor; simpl.
  - intros r' s Hs. apply lookup_insert_Some in Hs as [[<- <-]|[_ Hs]]; eauto.
  - intros r' s v x Hs. apply lookup_insert_Some in Hs as [[<- <-]|[_ Hs]]; eauto.
  - intros r' s p Hs. apply lookup_insert_Some in Hs as [[<- <-]|[_ Hs]]; eauto.
Qed.

Lemma Attached_with_session st socket f :
  Attached st -> keeps_attachments f -> Attached (fst (with_session socket f st)).
Proof.
  intros HA Hf. unfold with_session.
  destruct (heap st !! session socket) as [s|] eqn:Hs; [|exact HA].
  destruct (Hf s) as (Hv & Hp & Hl). destruct (f s) as [s' out]. simpl in *.
  apply Attached_heap_insert; [exact HA| | |].
  - apply Hl. exact (att_holder st HA _ _ Hs).
  - intros v x. rewrite Hv. apply (att_viewer st HA _ _ _ _ Hs).
  - intros p. rewrite Hp. apply (att_producer st HA _ _ _ Hs).
Qed.

Lemma Attached_sockets_insert st id c :
  Attached st -> sockets st !! id = None ->
  Attached (set_sockets (<[id := c]> (sockets st)) st).
Proof.
  intros [H1 H2 H3] Hn.
  assert (Hmono : forall r b v, connected_to st r b v ->
            connected_to (set_sockets (<[id := c]> (sockets st)) st) r b v).
  { intros r b v (socket & Hs & Hr & Hc). exists socket. simpl.
    rewrite lookup_insert_ne by congruence. auto. }
  constructor; simpl; eauto.
Qed.

(** Closing a connection that no session object refers to. *)
Lemma Attached_sockets_delete st id :
  Attached st ->
  (forall r s, heap st !! r = Some s ->
               viewers s !! id = None /\ cliSocketId s <> Some id) ->
  Attached (set_sockets (delete id (sockets st)) st).
Proof.
  intros [H1 H2 H3] Hn. constructor; simpl; [exact H1| |].
  - intros r s v x Hs Hv. destruct (H2 r s v x Hs Hv) as (socket & Hk & Hr & Hc).
    exists socket. simpl. rewrite lookup_delete_ne; [auto|].
    intros <-. destruct (Hn r s Hs) as [Hx _]. congruence.
  - intros r s p Hs Hp. destruct (H3 r s p Hs Hp) as (socket & Hk & Hr & Hc).
    exists socket. simpl. rewrite lookup_delete_ne; [auto|].
    intros <-. destruct (Hn r s Hs) as [_ Hx]. congruence.
Qed.

Lemma keeps_attachments_request_control socket now :
  keeps_attachments (on_request_control socket now).
Proof.
  intros s. unfold on_request_control.
  repeat case_match; simplify_eq; simpl; repeat split; auto.
  all: intros _ l [= <-]; simpl; eauto.
Qed.

Lemma keeps_attachments_release_control socket :
  keeps_attachments (on_release_control socket).
Proof.
  intros s. unfold on_release_control.
  repeat case_match; simpl; repeat split; auto. intros _ l [=].
Qed.

Lemma keeps_attachments_output socket event : keeps_attachments (on_output socket event).
Proof. intros s. unfold on_output. case_match; simpl; repeat split; auto. Qed.

Lemma keeps_attachments_encrypted_output socket data :
  keeps_attachments (on_encrypted_output socket data).
Proof. intros s. unfold on_encrypted_output. case_match; simpl; repeat split; auto. Qed.

Lemma keeps_attachments_output_history socket data :
  keeps_attachments (on_output_history socket data).
Proof. intros s. unfold on_output_history. case_match; simpl; repeat split; auto. Qed.

Lemma keeps_attachments_forward_input socket now m :
  keeps_attachments (forward_input socket now m).
Proof.
  intros s. unfold forward_input, input_gate.
  repeat case_match; simplify_eq; simpl; repeat split; auto;
    intros Hl l' [= <-]; simpl; eauto.
Qed.

Lemma keeps_attachments_get_history socket : keeps_attachments (on_get_history socket).
Proof. intros s. unfold on_get_history. case_match; simpl; repeat split; auto. Qed.
Lemma with_session_sockets st socket f :
  sockets (fst (with_session socket f st)) = sockets st.
Proof.
  unfold with_session. destruct (heap st !! session socket); [|reflexivity].
  destruct (f s). reflexivity.
Qed.

Section RelayAttachments.
Variable sha256_hex : string -> string.

Lemma Attached_session_for st now q sid :
  Attached st -> Attached (snd (session_for sha256_hex now q sid st)).
Proof.
  intros HA. unfold session_for.
  destruct (sessions st !! sid) as [r|]; [exact HA|]. simpl.
  set (new := mkSession _ _ _ _ _ _ _ _ _ _ _ _).
  assert (HA1 : Attached (set_heap (<[nextRef st := new]> (heap st)) st)).
  { apply Attached_heap_insert; [exact HA| | |]; subst new; simpl.
    - intros l [=].
    - intros v x Hv. rewrite lookup_empty in Hv. discriminate.
    - intros p [=]. }
  clearbody new.
  assert (Hx : forall st', heap st' = <[nextRef st := new]> (heap st) ->
                           sockets st' = sockets st -> Attached st').
  { intros st' Hh Hs.
    apply (Attached_ext (set_heap (<[nextRef st := new]> (heap st)) st) st' Hh Hs HA1). }
  repeat case_match; apply Hx; reflexivity.
Qed.

Lemma Attached_on_connection st now id q :
  Inv st -> Attached st -> sockets st !! id = None ->
  Attached (fst (on_connection sha256_hex now id q st)).
Proof.
  intros HI HA Hnew. unfold on_connection. case_bool_decide as Hd.
  - (* a daemon *)
    apply (Attached_sockets_insert (set_cliDaemons _ st)); [|exact Hnew].
    apply (Attached_ext st); [reflexivity|reflexivity|exact HA].
  - destruct (q_sessionId q) as [sid|]; [|exact HA].
    destruct (negb (JS.truthy_str (Some sid))); [exact HA|].
    pose proof (Attached_session_for st now q sid HA) as HA1.
    pose proof (Inv_session_for sha256_hex st now q sid HI) as (_ & [s Hs] & Hsock & _).
    destruct (session_for sha256_hex now q sid st) as [ref st1]. simpl in *.
    set (socket := mkSocket id (q_clientType q) sid ref).
    assert (HA2 : Attached (set_sockets (<[id := SessionSocket socket]> (sockets st1))
                                         st1)).
    { apply Attached_sockets_insert; [exact HA1|]. rewrite Hsock. exact Hnew. }
    unfold with_session. simpl. rewrite Hs.
    destruct (bind_socket id q sid s) as [s' out] eqn:Hb. simpl.
    assert (Hme : forall b, bool_decide (q_clientType q = cli) = b ->
              connected_to (set_sockets (<[id := SessionSocket socket]> (sockets st1))
                                        st1) ref b id).
    { intros b Hb'. exists socket. simpl. rewrite lookup_insert_eq. auto. }
    apply (Attached_heap_insert
             (set_sockets (<[id := SessionSocket socket]> (sockets st1)) st1));
      [exact HA2| | |].
    + pose proof (att_holder _ HA2 ref s Hs) as Hl.
      unfold bind_socket in Hb. case_bool_decide; simplify_eq; simpl.
      * exact Hl.
      * intros l Hc. simpl in *. destruct (Hl l Hc) as [v Hv].
        destruct (decide (id = holderId l)) as [->|Hne].
        -- rewrite lookup_insert_eq. eauto.
        -- rewrite lookup_insert_ne by assumption. eauto.
    + intros v x Hv. unfold bind_socket in Hb. case_bool_decide as Hc; simplify_eq.
      * simpl in Hv. exact (att_viewer _ HA2 ref s v x Hs Hv).
      * simpl in Hv. apply lookup_insert_Some in Hv as [[<- _]|[_ Hv]].
        -- apply Hme. reflexivity.
        -- exact (att_viewer _ HA2 ref s v x Hs Hv).
    + intros p Hp. unfold bind_socket in Hb. case_bool_decide as Hc; simplify_eq.
      * simpl in Hp. injection Hp as <-. apply Hme. reflexivity.
      * simpl in Hp. exact (att_producer _ HA2 ref s p Hs Hp).
Qed.

Lemma Attached_on_session_socket st now id socket m :
  Inv st -> Attached st -> sockets st !! id = Some (SessionSocket socket) ->
  Attached (fst (on_session_socket now socket m st)).
Proof.
  intros HI HA Hs. destruct (inv_sockets st HI id socket Hs) as [Hid [s Hr]].
  destruct m; simpl; try exact HA;
    try (apply Attached_with_session; [exact HA|];
         auto using keeps_attachments_request_control, keeps_attachments_release_control,
           keeps_attachments_output, keeps_attachments_encrypted_output,
           keeps_attachments_output_history, keeps_attachments_get_history; fail).
  - apply Attached_with_session; [exact HA|]. apply keeps_attachments_forward_input.
  - apply Attached_with_session; [exact HA|]. apply keeps_attachments_forward_input.
  - (* disconnect *)
    unfold with_session. rewrite Hr.
    destruct (on_disconnect socket s) as [s' out] eqn:Hd. simpl.
    pose proof (att_holder st HA _ s Hr) as Hl.
    assert (Hsub : forall v x, viewers s' !! v = Some x ->
                               viewers s !! v = Some x /\ v <> id).
    { intros v x Hv. unfold on_disconnect in Hd.
      destruct (bool_decide (clientType socket = cli)) eqn:Hc; simpl in Hd.
      - case_bool_decide as Hb; simplify_eq; simpl in Hv.
        + split; [exact Hv|]. intros ->.
          destruct (att_viewer st HA _ s _ x Hr Hv) as (k & Hk & _ & Hx).
          rewrite Hs in Hk. injection Hk as <-. congruence.
        + destruct (holds_lock socket s); simplify_eq; simpl in Hv;
            apply lookup_delete_Some in Hv as [Hne Hv]; auto.
      - destruct (holds_lock socket s); simplify_eq; simpl in Hv;
          apply lookup_delete_Some in Hv as [Hne Hv]; auto. }
    assert (Hprod : forall p, cliSocketId s' = Some p ->
                              cliSocketId s = Some p /\ p <> id).
    { intros p Hp. unfold on_disconnect in Hd.
      destruct (bool_decide (clientType socket = cli)) eqn:Hc; simpl in Hd.
      - case_bool_decide as Hb; simplify_eq; simpl in Hp; try discriminate.
        destruct (holds_lock socket s); simplify_eq; simpl in Hp;
          (split; [exact Hp|]; intros ->; congruence).
      - destruct (holds_lock socket s); simplify_eq; simpl in Hp;
          (split; [exact Hp|]; intros ->;
           destruct (att_producer st HA _ s _ Hr Hp) as (k & Hk & _ & Hx);
           rewrite Hs in Hk; injection Hk as <-; congruence). }
    assert (Hlock : lock_held_by_viewer s').
    { unfold on_disconnect, holds_lock in Hd.
      destruct (controlLock s) as [l|] eqn:Hcl;
        repeat case_bool_decide; simpl in Hd; simplify_eq; intros l' Hl'; simpl in *.
      all: try (apply Hl; congruence); try congruence.
      all: rewrite Hcl in Hl'; injection Hl' as <-;
           rewrite lookup_delete_ne by congruence; apply Hl; exact Hcl. }
    apply (Attached_ext (set_sockets (delete id (sockets st))
                           (set_heap (<[session socket := s']> (heap st)) st)));
      [reflexivity | simpl; rewrite Hid; reflexivity |].
    apply (Attached_sockets_delete (set_heap (<[session socket := s']> (heap st)) st)).
    + apply Attached_heap_insert; [exact HA|exact Hlock| |].
      * intros v x Hv. destruct (Hsub v x Hv) as [Hv' _].
        exact (att_viewer st HA _ s v x Hr Hv').
      * intros p Hp. destruct (Hprod p Hp) as [Hp' _].
        exact (att_producer st HA _ s p Hr Hp').
    + simpl. intros r s0 Hs0. apply lookup_insert_Some in Hs0 as [[<- <-]|[Hne Hs0]].
      * split.
        -- destruct (viewers s' !! id) as [x|] eqn:Hv; [|reflexivity].
           destruct (Hsub id x Hv) as [_ Hx]. congruence.
        -- intros Hp. destruct (Hprod id Hp) as [_ Hx]. congruence.
      * split.
        -- destruct (viewers s0 !! id) as [x|] eqn:Hv; [|reflexivity].
           destruct (att_viewer st HA _ s0 _ x Hs0 Hv) as (k & Hk & Hx & _).
           rewrite Hs in Hk. injection Hk as <-. congruence.
        -- intros Hp. destruct (att_producer st HA _ s0 _ Hs0 Hp) as (k & Hk & Hx & _).
           rewrite Hs in Hk. injection Hk as <-. congruence.
Qed.

End RelayAttachments.
Section RelayAttachments2.
Variable sha256_hex : string -> string.

Lemma Attached_heap_alter st r f :
  Attached st ->
  (forall s, viewers (f s) = viewers s /\ cliSocketId (f s) = cliSocketId s /\
             controlLock (f s) = controlLock s) ->
  Attached (set_heap (alter f r (heap st)) st).
Proof.
  intros HA Hf. destruct (heap st !! r) as [s|] eqn:Hr.
  - assert (alter f r (heap st) = <[r := f s]> (heap st)) as ->.
    { apply map_eq. intros i. destruct (decide (r = i)) as [->|Hne].
      - rewrite lookup_alter_eq, lookup_insert_eq, Hr. reflexivity.
      - rewrite lookup_alter_ne, lookup_insert_ne by assumption. reflexivity. }
    destruct (Hf s) as (Hv & Hp & Hl).
    apply Attached_heap_insert; [exact HA| | |].
    + intros l. rewrite Hl, Hv. apply (att_holder st HA r s Hr).
    + intros v x. rewrite Hv. apply (att_viewer st HA r s v x Hr).
    + intros p. rewrite Hp. apply (att_producer st HA r s p Hr).
  - assert (alter f r (heap st) = heap st) as ->.
    { apply map_eq. intros i. destruct (decide (r = i)) as [->|Hne].
      - rewrite lookup_alter_eq, Hr. reflexivity.
      - rewrite lookup_alter_ne by assumption. reflexivity. }
    apply (Attached_ext st); [reflexivity|reflexivity|exact HA].
Qed.

Lemma Attached_update_daemon st id f : Attached st -> Attached (update_daemon id f st).
Proof.
  intros HA. unfold update_daemon. destruct (JS.map_get id (cliDaemons st)); [|exact HA].
  apply (Attached_ext st); [reflexivity|reflexivity|exact HA].
Qed.

Lemma Attached_attach_session st now id u sid key enc :
  Attached st -> Attached (attach_session now id u sid key enc st).
Proof.
  intros HA. unfold attach_session. destruct (sessions st !! sid) as [r|].
  - apply Attached_heap_alter; [exact HA|]. intros s. auto.
  - set (new := mkSession _ _ _ _ _ _ _ _ _ _ _ _).
    apply (Attached_ext (set_heap (<[nextRef st := new]> (heap st)) st));
      [reflexivity|reflexivity|].
    apply Attached_heap_insert; [exact HA| | |]; subst new; simpl.
    + intros l [=].
    + intros v x Hv. rewrite lookup_empty in Hv. discriminate.
    + intros p [=].
Qed.

Lemma Attached_detach_session st id sid :
  Attached st -> Attached (fst (detach_session id sid st)).
Proof.
  intros HA. unfold detach_session.
  destruct (sessions st !! sid) as [r|]; [|exact HA].
  destruct (heap st !! r) as [s|] eqn:Hr; [|exact HA].
  case_bool_decide; [|exact HA]. simpl.
  apply Attached_heap_insert; [exact HA| | |]; simpl.
  - exact (att_holder st HA r s Hr).
  - intros v x. apply (att_viewer st HA r s v x Hr).
  - intros p. apply (att_producer st HA r s p Hr).
Qed.

Lemma Attached_detach_all id sids :
  forall st, Attached st -> Attached (fst (detach_all id sids st)).
Proof.
  induction sids as [|sid rest IH]; intros st HA; simpl; [exact HA|].
  pose proof (Attached_detach_session st id sid HA) as H1.
  destruct (detach_session id sid st) as [st1 out1]. simpl in *.
  specialize (IH st1 H1). destruct (detach_all id rest st1) as [st2 out2]. exact IH.
Qed.

Lemma Attached_on_daemon_socket st now id u m :
  Inv st -> Attached st -> sockets st !! id = Some (DaemonSocket u) ->
  Attached (fst (on_daemon_socket now id u m st)).
Proof.
  intros HI HA Hs.
  destruct m as [| |ev|dat|dat|dat|dat| |cid cmd ps|response|sid key enc|sid| |];
    try exact HA; unfold on_daemon_socket.
  - (* cli-response *)
    unfold on_cli_response.
    destruct (pendingCommands st !! cr_commandId response) as [p|]; [|exact HA].
    destruct (cr_success response);
      (apply (Attached_ext st); [reflexivity|reflexivity|exact HA]).
  - (* session-attached *)
    unfold on_session_attached.
    set (st1 := update_daemon id _ st).
    assert (HA1 : Attached st1) by (apply Attached_update_daemon, HA).
    clearbody st1.
    pose proof (Attached_attach_session st1 now id u sid key enc HA1) as HA2.
    destruct u as [user|]; [|exact HA2].
    destruct (JS.truthy_str (Some user)); [|exact HA2].
    apply (Attached_ext (attach_session now id (Some user) sid key enc st1));
      [reflexivity|reflexivity|exact HA2].
  - (* session-detached *)
    unfold on_session_detached. apply Attached_detach_session, Attached_update_daemon, HA.
  - (* disconnect *)
    unfold on_daemon_disconnect.
    match goal with
    | |- context [let '(st0, out) := ?X in _] =>
        assert (Hx : Attached (fst X) /\ sockets (fst X) = sockets st)
    end.
    { destruct (JS.map_get id (cliDaemons st)) as [d|]; [|auto]. split.
      - apply Attached_detach_all, HA.
      - apply (Inv_detach_all id (activeSessions d) st HI). }
    match goal with
    | |- context [let '(st0, out) := ?X in _] => destruct X as [st1 out]
    end.
    simpl in *. destruct Hx as [HA1 Hsk].
    apply (Attached_ext (set_sockets (delete id (sockets st1)) st1));
      [reflexivity|reflexivity|].
    apply Attached_sockets_delete; [exact HA1|].
    intros r s Hr. split.
    + destruct (viewers s !! id) as [x|] eqn:Hv; [|reflexivity].
      destruct (att_viewer st1 HA1 r s id x Hr Hv) as (k & Hk & _).
      rewrite Hsk, Hs in Hk. discriminate.
    + intros Hp. destruct (att_producer st1 HA1 r s id Hr Hp) as (k & Hk & _).
      rewrite Hsk, Hs in Hk. discriminate.
Qed.

Lemma Attached_fire_timer st now handle :
  Attached st -> Attached (fst (fire_timer now handle st)).
Proof.
  intros HA. unfold fire_timer.
  destruct (timers st !! handle) as [t|]; [|exact HA].
  destruct (due t <=? now); [|exact HA].
  destruct (action t) as [sid|c r]; simpl.
  - repeat case_match; (apply (Attached_ext st); [reflexivity|reflexivity|exact HA]).
  - apply (Attached_ext st); [reflexivity|reflexivity|exact HA].
Qed.

Lemma Attached_post_daemon_command st now request command params random :
  Attached st -> Attached (fst (post_daemon_command now request command params random st)).
Proof.
  intros HA. unfold post_daemon_command.
  destruct command as [command|]; [|exact HA].
  destruct (negb _); [exact HA|].
  destruct (JS.map_first (cliDaemons st)) as [[k d]|]; [|exact HA].
  destruct (sockets st !! d_socketId d); [|exact HA]. simpl.
  apply (Attached_ext st); [reflexivity|reflexivity|exact HA].
Qed.

Lemma Attached_step st now e :
  Inv st -> Attached st -> Attached (fst (step sha256_hex now e st)).
Proof.
  intros HI HA. destruct e as [id q|id m|handle|request command params random]; simpl.
  - destruct (sockets st !! id) eqn:Hs; [exact HA|]. apply Attached_on_connection; assumption.
  - destruct (sockets st !! id) as [[socket|u]|] eqn:Hs; [| |exact HA].
    + eapply Attached_on_session_socket; eassumption.
    + apply Attached_on_daemon_socket; assumption.
  - apply Attached_fire_timer, HA.
  - apply Attached_post_daemon_command, HA.
Qed.

Lemma Attached_run events :
  forall st, Inv st -> Attached st -> Attached (fst (run sha256_hex events st)).
Proof.
  induction events as [|[now e] rest IH]; intros st HI HA; simpl; [exact HA|].
  pose proof (Attached_step st now e HI HA) as H1.
  pose proof (Inv_step sha256_hex st now e HI) as H2.
  destruct (step sha256_hex now e st) as [st1 out1]. simpl in *.
  specialize (IH st1 H2 H1). destruct (run sha256_hex rest st1) as [st2 out2]. exact IH.
Qed.

End RelayAttachments2.
(** X3.  In every reachable state of the relay, the holder of a session's
    control lock is one of the session's viewers and a live connection: a
    viewer connection, not a producer's, whose handlers close over that
    very session object.  A lock never outlives the connection of its
    holder. *)
Theorem lock_holder_is_connected_viewer (sha256_hex : string -> string)
    (events : list (Z * Event)) (r : nat) (s : Session) (l : ControlLock) :
  heap (fst (run sha256_hex events init)) !! r = Some s ->
  controlLock s = Some l ->
  exists v socket,
    viewers s !! holderId l = Some v /\
    sockets (fst (run sha256_hex events init)) !! holderId l
    = Some (SessionSocket socket) /\
    socket_id socket = holderId l /\
    session socket = r /\
    clientType socket <> cli.
Proof.
  intros Hs Hl.
  pose proof (Inv_run sha256_hex events init Inv_init) as HI.
  pose proof (Attached_run sha256_hex events init Inv_init Attached_init) as HA.
  destruct (att_holder _ HA r s Hs l Hl) as [v Hv].
  destruct (att_viewer _ HA r s _ v Hs Hv) as (socket & Hk & Hr & Hc).
  exists v, socket. repeat split; try assumption.
  - exact (proj1 (inv_sockets _ HI _ _ Hk)).
  - intros Hcli. rewrite bool_decide_eq_true_2 in Hc by assumption. discriminate.
Qed.

Lemma lock_holder_is_connected_viewer_witness :
  exists s l v socket,
    heap (fst (run plain_hash controlled_events init)) !! 0%nat = Some s /\
    controlLock s = Some l /\
    holderId l = "V"%string /\
    viewers s !! holderId l = Some v /\
    sockets (fst (run plain_hash controlled_events init)) !! holderId l
    = Some (SessionSocket socket) /\
    socket_id socket = holderId l /\
    session socket = 0%nat /\
    clientType socket <> cli.
Proof.
  eexists _, (mkControlLock "V" (Some "vera"%string) 2000 2000).
  assert (H1 : heap (fst (run plain_hash controlled_events init)) !! 0%nat
               = Some (mkSession "demo" None (Some "P"%string) None None
                         (<["V"%string := mkViewer "V" "" (Some "vera"%string)]> ∅)
                         None [] [] false
                         (Some (mkControlLock "V" (Some "vera"%string) 2000 2000)) 0))
    by (vm_compute; reflexivity).
  destruct (lock_holder_is_connected_viewer plain_hash controlled_events 0 _ _
              H1 eq_refl) as (v & socket & H).
  exists v, socket. split; [exact H1|]. split; [reflexivity|]. split; [reflexivity|].
  exact H.
Defined.
(** X4.  In every reachable state of the relay, what a session object
    records about its connections is live: every entry of [viewers] is
    the id of a connected viewer connection, and [cliSocketId], when set,
    is the id of a connected producer connection; the handlers of each of
    them close over that very session object.  No entry is left behind by a
    connection that has gone. *)
Theorem session_bindings_are_live (sha256_hex : string -> string)
    (events : list (Z * Event)) (r : nat) (s : Session) :
  heap (fst (run sha256_hex events init)) !! r = Some s ->
  (forall v x,
      viewers s !! v = Some x ->
      exists socket,
        sockets (fst (run sha256_hex events init)) !! v = Some (SessionSocket socket) /\
        socket_id socket = v /\ session socket = r /\ clientType socket <> cli) /\
  (forall p,
      cliSocketId s = Some p ->
      exists socket,
        sockets (fst (run sha256_hex events init)) !! p = Some (SessionSocket socket) /\
        socket_id socket = p /\ session socket = r /\ clientType socket = cli).
Proof.
  intros Hs.
  pose proof (Inv_run sha256_hex events init Inv_init) as HI.
  pose proof (Attached_run sha256_hex events init Inv_init Attached_init) as HA.
  split.
  - intros v x Hv. destruct (att_viewer _ HA r s _ x Hs Hv) as (socket & Hk & Hr & Hc).
    exists socket. repeat split; try assumption.
    + exact (proj1 (inv_sockets _ HI _ _ Hk)).
    + intros Hcli. rewrite bool_decide_eq_true_2 in Hc by assumption. discriminate.
  - intros p Hp. destruct (att_producer _ HA r s _ Hs Hp) as (socket & Hk & Hr & Hc).
    exists socket. repeat split; try assumption.
    + exact (proj1 (inv_sockets _ HI _ _ Hk)).
    + apply bool_decide_eq_true in Hc. exact Hc.
Qed.

Lemma session_bindings_are_live_witness :
  exists s,
    heap (fst (run plain_hash takeover_events init)) !! 0%nat = Some s /\
    viewers s !! "V"%string
    = Some (mkViewer "V" "dmlldw==" None) /\
    cliSocketId s = Some "P2"%string /\
    (forall v x,
        viewers s !! v = Some x ->
        exists socket,
          sockets (fst (run plain_hash takeover_events init)) !! v
          = Some (SessionSocket socket) /\
          socket_id socket = v /\ session socket = 0%nat /\ clientType socket <> cli) /\
    (forall p,
        cliSocketId s = Some p ->
        exists socket,
          sockets (fst (run plain_hash takeover_events init)) !! p
          = Some (SessionSocket socket) /\
          socket_id socket = p /\ session socket = 0%nat /\ clientType socket = cli).
Proof.
  eexists. split; [vm_compute; reflexivity|].
  split; [vm_compute; reflexivity|]. split; [reflexivity|].
  apply (session_bindings_are_live plain_hash takeover_events 0).
  vm_compute. reflexivity.
Defined.

Lemma to_producer_request_control socket now s :
  Forall (to_bound_producer s) (snd (on_request_control socket now s)).
Proof.
  unfold on_request_control.
  repeat case_match; simplify_eq; simpl; repeat constructor; intros [=].
Qed.

Lemma to_producer_release_control socket s :
  Forall (to_bound_producer s) (snd (on_release_control socket s)).
Proof.
  unfold on_release_control.
  repeat case_match; simplify_eq; simpl; repeat constructor; intros [=].
Qed.

Lemma to_producer_output socket event s :
  Forall (to_bound_producer s) (snd (on_output socket event s)).
Proof. unfold on_output. case_match; simpl; repeat constructor; intros [=]. Qed.

Lemma to_producer_encrypted_output socket data s :
  Forall (to_bound_producer s) (snd (on_encrypted_output socket data s)).
Proof. unfold on_encrypted_output. case_match; simpl; repeat constructor; intros [=]. Qed.

Lemma to_producer_output_history socket data s :
  Forall (to_bound_producer s) (snd (on_output_history socket data s)).
Proof. unfold on_output_history. case_match; simpl; repeat constructor. Qed.

Lemma to_producer_get_history socket s :
  Forall (to_bound_producer s) (snd (on_get_history socket s)).
Proof. unfold on_get_history. case_match; simpl; repeat constructor; intros [=]. Qed.

Lemma to_producer_forward_input socket now m s :
  Forall (to_bound_producer s) (snd (forward_input socket now m s)).
Proof.
  unfold forward_input, input_gate, broadcastControlStatus.
  repeat case_match; simplify_eq; simpl; repeat constructor;
    try (intros [=]; fail); intros _; eauto.
Qed.

Lemma to_producer_disconnect socket s :
  Forall (to_bound_producer s) (snd (on_disconnect socket s)).
Proof.
  unfold on_disconnect, holds_lock, broadcastControlStatus.
  repeat case_match; simplify_eq; simpl; repeat constructor;
    try (intros [=]; fail); intros _; eauto.
Qed.

Lemma to_producer_bind_socket id q sid s :
  Forall (to_bound_producer s) (snd (bind_socket id q sid s)).
Proof.
  unfold bind_socket, broadcastControlStatus.
  repeat case_match; simplify_eq; simpl in *; repeat constructor;
    try (intros [=]; fail); intros _; eauto.
Qed.
Lemma with_session_out st socket f o :
  o ∈ snd (with_session socket f st) ->
  exists s, heap st !! session socket = Some s /\ o ∈ snd (f s).
Proof.
  unfold with_session. destruct (heap st !! session socket) as [s|]; simpl.
  - destruct (f s) as [s' out] eqn:Hf. simpl. intros Ho. exists s. rewrite Hf. auto.
  - intros Ho. apply elem_of_nil in Ho. contradiction.
Qed.

Lemma detach_all_not_for_producer id sids :
  forall st, Forall (fun o => for_producer o = false) (snd (detach_all id sids st)).
Proof.
  induction sids as [|sid rest IH]; intros st; simpl; [constructor|].
  assert (H1 : Forall (fun o => for_producer o = false) (snd (detach_session id sid st))).
  { unfold detach_session. repeat case_match; simpl; repeat constructor. }
  destruct (detach_session id sid st) as [st1 out1]. simpl in *.
  specialize (IH st1). destruct (detach_all id rest st1) as [st2 out2]. simpl in *.
  apply Forall_app. auto.
Qed.

Lemma on_daemon_socket_not_for_producer now id u m st :
  Forall (fun o => for_producer o = false) (snd (on_daemon_socket now id u m st)).
Proof.
  destruct m as [| |ev|dat|dat|dat|dat| |cid cmd ps|response|sid key enc|sid| |];
    unfold on_daemon_socket; simpl; repeat constructor.
  - unfold on_cli_response. repeat case_match; simplify_eq; simpl; repeat constructor.
  - unfold on_session_detached, detach_session.
    repeat case_match; simpl; repeat constructor.
  - unfold on_daemon_disconnect.
    pose proof (detach_all_not_for_producer id) as Hd.
    destruct (JS.map_get id (cliDaemons st)) as [d|].
    + specialize (Hd (activeSessions d) st).
      destruct (detach_all id (activeSessions d) st) as [st1 out]. exact Hd.
    + constructor.
Qed.

(** From a reachable state, a message meant for a producer goes to the
    producer connection bound in a session object, which is live and
    closes over that object. *)
Lemma producer_messages_bound (sha256_hex : string -> string)
    (events : list (Z * Event)) (now : Z) (e : Event) (o : Output) :
  o ∈ snd (step sha256_hex now e (fst (run sha256_hex events init))) ->
  for_producer o = true ->
  exists p m r s prod,
    o = Emit (ToRoom p) m /\
    heap (fst (run sha256_hex events init)) !! r = Some s /\
    cliSocketId s = Some p /\
    sockets (fst (run sha256_hex events init)) !! p = Some (SessionSocket prod) /\
    clientType prod = cli /\
    session prod = r /\
    (forall id cm sender,
        e = Received id cm ->
        sockets (fst (run sha256_hex events init)) !! id = Some (SessionSocket sender) ->
        session sender = r).
Proof.
  pose proof (Inv_run sha256_hex events init Inv_init) as HI.
  pose proof (Attached_run sha256_hex events init Inv_init Attached_init) as HA.
  set (st := fst (run sha256_hex events init)) in *. clearbody st.
  assert (Hfin : forall r s, heap st !! r = Some s -> to_bound_producer s o ->
                   for_producer o = true ->
                   (forall id cm sender, e = Received id cm ->
                      sockets st !! id = Some (SessionSocket sender) ->
                      session sender = r) ->
                   exists p m r s prod,
                     o = Emit (ToRoom p) m /\ heap st !! r = Some s /\
                     cliSocketId s = Some p /\
                     sockets st !! p = Some (SessionSocket prod) /\
                     clientType prod = cli /\ session prod = r /\
                     (forall id cm sender, e = Received id cm ->
                        sockets st !! id = Some (SessionSocket sender) ->
                        session sender = r)).
  { intros r s Hs Hto Hfor Hsender. destruct (Hto Hfor) as (p & m & -> & Hp).
    destruct (att_producer st HA r s p Hs Hp) as (prod & Hk & Hr & Hc).
    apply bool_decide_eq_true in Hc. exists p, m, r, s, prod. auto 10. }
  assert (Hnot : forall out, Forall (fun o => for_producer o = false) out ->
                             o ∈ out -> for_producer o = true -> False).
  { intros out Hall Ho Hfor. rewrite Forall_forall in Hall.
    rewrite (Hall o Ho) in Hfor. discriminate. }
  destruct e as [id q|id m|handle|request command params random]; simpl.
  - (* a connection *)
    destruct (sockets st !! id) eqn:Hs.
    { intros Ho. apply elem_of_nil in Ho. contradiction. }
    unfold on_connection. case_bool_decide as Hd.
    { intros Ho. apply elem_of_nil in Ho. contradiction. }
    destruct (q_sessionId q) as [sid|];
      [|intros Ho; apply elem_of_nil in Ho; contradiction].
    destruct (negb (JS.truthy_str (Some sid)));
      [intros Ho; apply elem_of_nil in Ho; contradiction|].
    unfold session_for. destruct (sessions st !! sid) as [ref|] eqn:Hdir.
    + intros Ho Hfor. apply with_session_out in Ho as (s & Hr & Ho). simpl in *.
      apply (Hfin ref s Hr); [|exact Hfor|discriminate].
      pose proof (to_producer_bind_socket id q sid s) as Hall.
      rewrite Forall_forall in Hall. exact (Hall o Ho).
    + set (new := mkSession _ _ _ _ _ _ _ _ _ _ _ _).
      intros Ho Hfor. exfalso.
      assert (Hx : exists st', o ∈ snd (with_session (mkSocket id (q_clientType q) sid
                                                                (nextRef st))
                                          (bind_socket id q sid) st') /\
                               heap st' = <[nextRef st := new]> (heap st)).
      { revert Ho. repeat case_match; intros Ho; eexists; (split; [exact Ho|reflexivity]). }
      destruct Hx as (st' & Ho' & Hh).
      apply with_session_out in Ho' as (s & Hr & Ho'). simpl in Hr.
      rewrite Hh, lookup_insert_eq in Hr. injection Hr as <-.
      pose proof (to_producer_bind_socket id q sid new) as Hall.
      rewrite Forall_forall in Hall. destruct (Hall o Ho' Hfor) as (p & m & _ & Hp).
      discriminate.
  - (* a message *)
    destruct (sockets st !! id) as [[socket|u]|] eqn:Hs.
    + intros Ho Hfor.
      assert (Hx : exists f, o ∈ snd (with_session socket f st) /\
                             forall s, Forall (to_bound_producer s) (snd (f s))).
      { destruct m; simpl in Ho;
          try (apply elem_of_nil in Ho; contradiction);
          try (eexists; split; [exact Ho|];
               auto using to_producer_request_control, to_producer_release_control,
                 to_producer_output, to_producer_encrypted_output,
                 to_producer_output_history, to_producer_get_history; fail).
        - eexists. split; [exact Ho|]. intros s. apply to_producer_forward_input.
        - eexists. split; [exact Ho|]. intros s. apply to_producer_forward_input.
        - exists (on_disconnect socket). split; [|apply to_producer_disconnect].
          destruct (with_session socket (on_disconnect socket) st) as [st1 out].
          exact Ho. }
      destruct Hx as (f & Ho' & Hall).
      apply with_session_out in Ho' as (s & Hr & Ho').
      apply (Hfin (session socket) s Hr); [|exact Hfor|].
      * specialize (Hall s). rewrite Forall_forall in Hall. exact (Hall o Ho').
      * intros id' cm sender [= <- _] Hk. rewrite Hs in Hk. injection Hk as <-.
        reflexivity.
    + intros Ho Hfor. exfalso.
      exact (Hnot _ (on_daemon_socket_not_for_producer now id u m st) Ho Hfor).
    + intros Ho. apply elem_of_nil in Ho. contradiction.
  - (* a timer *)
    intros Ho Hfor. exfalso. revert Ho. unfold fire_timer, run_timer.
    repeat case_match; simpl; intros Ho;
      repeat (apply elem_of_cons in Ho as [->|Ho]; [discriminate|]);
      apply elem_of_nil in Ho; contradiction.
  - (* a daemon command *)
    intros Ho Hfor. exfalso. revert Ho. unfold post_daemon_command.
    repeat case_match; simpl; intros Ho;
      repeat (apply elem_of_cons in Ho as [->|Ho]; [discriminate|]);
      apply elem_of_nil in Ho; contradiction.
Qed.

Lemma fire_timer_not_for_producer now handle st :
  Forall (fun o => for_producer o = false) (snd (fire_timer now handle st)).
Proof.
  unfold fire_timer, run_timer. repeat case_match; simpl; repeat constructor.
Qed.

Lemma post_daemon_command_not_for_producer now request command params random st :
  Forall (fun o => for_producer o = false)
         (snd (post_daemon_command now request command params random st)).
Proof.
  unfold post_daemon_command. repeat case_match; simplify_eq; simpl; repeat constructor.
Qed.

(** X5.  In every reachable state of the relay, whatever event is handled
    next, a message meant for a producer -- ['input'], ['encrypted-input'],
    ['viewer-joined'] or ['viewer-left'] -- is only ever addressed to the
    connection that a session object has bound as its producer
    ([cliSocketId]), and that connection is a live producer connection
    whose handlers close over that session object; when the message is
    caused by a message from a connection, it is the session object of the
    sender.  The handlers of a daemon connection, the connection of a
    daemon, the timers and [POST /api/daemon/command] emit none of the
    four. *)
Theorem producer_messages_reach_bound_producer (sha256_hex : string -> string)
    (events : list (Z * Event)) (now : Z) (e : Event) :
  (forall o,
      o ∈ snd (step sha256_hex now e (fst (run sha256_hex events init))) ->
      for_producer o = true ->
      exists p m r s prod,
        o = Emit (ToRoom p) m /\
        heap (fst (run sha256_hex events init)) !! r = Some s /\
        cliSocketId s = Some p /\
        sockets (fst (run sha256_hex events init)) !! p = Some (SessionSocket prod) /\
        clientType prod = cli /\
        session prod = r /\
        (forall id cm sender,
            e = Received id cm ->
            sockets (fst (run sha256_hex events init)) !! id
            = Some (SessionSocket sender) ->
            session sender = r)) /\
  (forall id cm u,
      e = Received id cm ->
      sockets (fst (run sha256_hex events init)) !! id = Some (DaemonSocket u) ->
      Forall (fun o => for_producer o = false)
             (snd (step sha256_hex now e (fst (run sha256_hex events init))))) /\
  (forall id q,
      e = Connection id q ->
      q_clientType q = cli_daemon ->
      snd (step sha256_hex now e (fst (run sha256_hex events init))) = []) /\
  (forall handle,
      e = TimerFires handle ->
      Forall (fun o => for_producer o = false)
             (snd (step sha256_hex now e (fst (run sha256_hex events init))))) /\
  (forall request command params random,
      e = PostDaemonCommand request command params random ->
      Forall (fun o => for_producer o = false)
             (snd (step sha256_hex now e (fst (run sha256_hex events init))))).
Proof.
  split; [|split; [|split; [|split]]].
  - intros o. apply producer_messages_bound.
  - intros id cm u -> Hs. simpl. rewrite Hs.
    apply on_daemon_socket_not_for_producer.
  - intros id q -> Hq. simpl.
    destruct (sockets _ !! id); [reflexivity|].
    unfold on_connection. rewrite (bool_decide_eq_true_2 _ Hq). reflexivity.
  - intros handle ->. apply fire_timer_not_for_producer.
  - intros request command params random ->.
    apply post_daemon_command_not_for_producer.
Qed.

Lemma producer_messages_reach_bound_producer_witness :
  (exists p m r s prod,
    Emit (ToRoom "P") (input (JS.Str "ls")) = Emit (ToRoom p) m /\
    heap (fst (run plain_hash controlled_events init)) !! r = Some s /\
    cliSocketId s = Some p /\
    sockets (fst (run plain_hash controlled_events init)) !! p
    = Some (SessionSocket prod) /\
    clientType prod = cli /\
    session prod = r /\
    (forall id cm sender,
        Received "V" (send_input (JS.Str "ls")) = Received id cm ->
        sockets (fst (run plain_hash controlled_events init)) !! id
        = Some (SessionSocket sender) ->
        session sender = r)) /\
  Forall (fun o => for_producer o = false)
         (snd (step plain_hash 2500 (TimerFires 0)
                    (fst (run plain_hash controlled_events init)))).
Proof.
  split.
  - apply (proj1 (producer_messages_reach_bound_producer plain_hash controlled_events
                    2500 (Received "V" (send_input (JS.Str "ls"))))
                 (Emit (ToRoom "P") (input (JS.Str "ls")))).
    + assert (Hout : snd (step plain_hash 2500 (Received "V" (send_input (JS.Str "ls")))
                            (fst (run plain_hash controlled_events init)))
                     = [Emit (ToRoom "P") (input (JS.Str "ls"))])
        by (vm_compute; reflexivity).
      rewrite Hout. apply elem_of_cons. left. reflexivity.
    + reflexivity.
  - apply (proj1 (proj2 (proj2 (proj2
             (producer_messages_reach_bound_producer plain_hash controlled_events
                2500 (TimerFires 0))))) 0%nat).
    reflexivity.
Defined.

(** ** The relay: sessions with live connections stay in the directory *)

Lemma Listed_init : Listed init.
Proof. constructor; simpl; intros; simplify_map_eq. Qed.

Lemma Listed_ext st st' :
  heap st' = heap st -> sockets st' = sockets st -> sessions st' = sessions st ->
  nextRef st' = nextRef st -> Listed st -> Listed st'.
Proof.
  intros Hh Hs Hd Hn [H1 H2 H3 H4].
  constructor; rewrite ?Hh, ?Hs, ?Hd, ?Hn; auto.
Qed.

(** Updating a session object so that the live connections among its
    viewers stay and no live connection becomes its producer. *)
Lemma Listed_heap_insert st r s s' :
  Listed st -> heap st !! r = Some s ->
  (forall v, is_Some (sockets st !! v) -> is_Some (viewers s !! v) ->
             is_Some (viewers s' !! v)) ->
  (forall p, is_Some (sockets st !! p) -> cliSocketId s' = Some p ->
             cliSocketId s = Some p) ->
  Listed (set_heap (<[r := s']> (heap st)) st).
Proof.
  intros [H1 H2 H3 H4] Hr Hv Hp. constructor; simpl; auto.
  - intros id socket Hk Hc. destruct (H3 id socket Hk Hc) as [Hd (s0 & Hs0 & Hin)].
    split; [exact Hd|]. destruct (decide (r = session socket)) as [->|Hne].
    + rewrite lookup_insert_eq. exists s'. split; [reflexivity|].
      rewrite Hr in Hs0. injection Hs0 as <-. apply Hv; [rewrite Hk; eauto|exact Hin].
    + rewrite lookup_insert_ne by assumption. eauto.
  - intros id socket s0 Hk Hs0 Hc Hne.
    apply lookup_insert_Some in Hs0 as [[Heq <-]|[_ Hs0]].
    + rewrite Heq in Hr.
      apply (H4 id socket s Hk Hr); [|exact Hne]. apply Hp; [rewrite Hk; eauto|exact Hc].
    + exact (H4 id socket s0 Hk Hs0 Hc Hne).
Qed.

Lemma Listed_with_session st socket f :
  Listed st -> keeps_attachments f -> Listed (fst (with_session socket f st)).
Proof.
  intros HL Hf. unfold with_session.
  destruct (heap st !! session socket) as [s|] eqn:Hs; [|exact HL].
  destruct (Hf s) as (Hv & Hp & _). destruct (f s) as [s' out]. simpl in *.
  apply (Listed_heap_insert st _ s); [exact HL|exact Hs| |].
  - intros v _. rewrite Hv. auto.
  - intros p _. rewrite Hp. auto.
Qed.

Lemma Listed_sockets_delete st id :
  Listed st -> Listed (set_sockets (delete id (sockets st)) st).
Proof.
  intros [H1 H2 H3 H4]. constructor; simpl; auto.
  - intros id' socket Hk. apply lookup_delete_Some in Hk as [_ Hk]. eauto.
  - intros id' socket Hk. apply lookup_delete_Some in Hk as [_ Hk]. eauto.
  - intros id' socket s Hk. apply lookup_delete_Some in Hk as [_ Hk]. eauto.
Qed.

(** A new session object, listed under an id the directory did not have. *)
Lemma Listed_create st sid new :
  Listed st -> sessions st !! sid = None -> cliSocketId new = None ->
  Listed (set_sessions (<[sid := nextRef st]> (sessions st))
            (set_nextRef (S (nextRef st))
               (set_heap (<[nextRef st := new]> (heap st)) st))).
Proof.
  intros [H1 H2 H3 H4] Hn Hc. constructor; simpl.
  - intros id socket Hk. specialize (H1 id socket Hk). lia.
  - intros sid' r Hd. apply lookup_insert_Some in Hd as [[_ <-]|[_ Hd]]; [lia|].
    specialize (H2 sid' r Hd). lia.
  - intros id socket Hk Hct. destruct (H3 id socket Hk Hct) as [Hd (s0 & Hs0 & Hin)].
    specialize (H1 id socket Hk). split.
    + rewrite lookup_insert_ne; [exact Hd|]. intros Heq. rewrite <- Heq in Hd. congruence.
    + exists s0. rewrite lookup_insert_ne by lia. auto.
  - intros id socket s0 Hk Hs0 Hp Hne. specialize (H1 id socket Hk).
    rewrite lookup_insert_ne in Hs0 by lia.
    pose proof (H4 id socket s0 Hk Hs0 Hp Hne) as Hd.
    rewrite lookup_insert_ne; [exact Hd|]. intros Heq. rewrite <- Heq in Hd. congruence.
Qed.

(** A connection that does not close over a session object. *)
Lemma Listed_daemon_connected st id u :
  Listed st -> Listed (set_sockets (<[id := DaemonSocket u]> (sockets st)) st).
Proof.
  intros [H1 H2 H3 H4]. constructor; simpl; auto.
  - intros id' socket Hk. apply lookup_insert_Some in Hk as [[_ [=]]|[_ Hk]]. eauto.
  - intros id' socket Hk. apply lookup_insert_Some in Hk as [[_ [=]]|[_ Hk]]. eauto.
  - intros id' socket s Hk. apply lookup_insert_Some in Hk as [[_ [=]]|[_ Hk]]. eauto.
Qed.
Lemma Listed_session_connected st id socket :
  Listed st -> sockets st !! id = None ->
  (session socket < nextRef st)%nat ->
  sessions st !! sessionId socket = Some (session socket) ->
  (clientType socket <> cli ->
   exists s, heap st !! session socket = Some s /\ is_Some (viewers s !! id)) ->
  Listed (set_sockets (<[id := SessionSocket socket]> (sockets st)) st).
Proof.
  intros [H1 H2 H3 H4] Hn Hr Hd Hv. constructor; simpl; auto.
  - intros id' socket' Hk. apply lookup_insert_Some in Hk as [[_ [= <-]]|[_ Hk]]; eauto.
  - intros id' socket' Hk.
    apply lookup_insert_Some in Hk as [[<- [= <-]]|[_ Hk]]; eauto.
  - intros id' socket' s Hk.
    apply lookup_insert_Some in Hk as [[<- [= <-]]|[_ Hk]]; eauto.
Qed.

(** The reaping timer finds the session deserted. *)
Lemma Listed_reap st sid ref s :
  Listed st -> sessions st !! sid = Some ref -> heap st !! ref = Some s ->
  JS.truthy_str (cliSocketId s) = false -> size (viewers s) = 0%nat ->
  Listed (set_sessions (delete sid (sessions st)) st).
Proof.
  intros [H1 H2 H3 H4] Hd Hr Hc Hv. apply map_size_empty_iff in Hv.
  constructor; simpl; auto.
  - intros sid' r Hk. apply lookup_delete_Some in Hk as [_ Hk]. eauto.
  - intros id socket Hk Hct. destruct (H3 id socket Hk Hct) as [Hd' (s0 & Hs0 & Hin)].
    split; [|eauto]. rewrite lookup_delete_ne; [exact Hd'|].
    intros Heq. rewrite <- Heq, Hd in Hd'. injection Hd' as ->.
    rewrite Hr in Hs0. injection Hs0 as <-. rewrite Hv, lookup_empty in Hin.
    destruct Hin as [? [=]].
  - intros id socket s0 Hk Hs0 Hp Hne. pose proof (H4 id socket s0 Hk Hs0 Hp Hne) as Hd'.
    rewrite lookup_delete_ne; [exact Hd'|].
    intros Heq. rewrite <- Heq, Hd in Hd'. injection Hd' as ->.
    rewrite Hr in Hs0. injection Hs0 as <-. rewrite Hp in Hc. simpl in Hc.
    rewrite bool_decide_eq_false_2 in Hc by assumption. discriminate.
Qed.

Section RelayListed.
Variable sha256_hex : string -> string.

Lemma Listed_session_for st now q sid :
  Listed st ->
  Listed (snd (session_for sha256_hex now q sid st)) /\
  sessions (snd (session_for sha256_hex now q sid st)) !! sid
  = Some (fst (session_for sha256_hex now q sid st)) /\
  (fst (session_for sha256_hex now q sid st)
   < nextRef (snd (session_for sha256_hex now q sid st)))%nat.
Proof.
  intros HL. unfold session_for.
  destruct (sessions st !! sid) as [r|] eqn:Hr; simpl.
  - split; [exact HL|]. split; [exact Hr|]. exact (lst_dir_ref st HL sid r Hr).
  - set (new := mkSession _ _ _ _ _ _ _ _ _ _ _ _).
    pose proof (Listed_create st sid new HL Hr eq_refl) as HL1. clearbody new.
    assert (Hx : forall st',
               heap st' = <[nextRef st := new]> (heap st) ->
               sockets st' = sockets st ->
               sessions st' = <[sid := nextRef st]> (sessions st) ->
               nextRef st' = S (nextRef st) ->
               Listed st' /\ sessions st' !! sid = Some (nextRef st) /\
               (nextRef st < nextRef st')%nat).
    { intros st' Hh Hs Hd Hn. split; [|split].
      - exact (Listed_ext
                 (set_sessions (<[sid := nextRef st]> (sessions st))
                    (set_nextRef (S (nextRef st))
                       (set_heap (<[nextRef st := new]> (heap st)) st)))
                 st' Hh Hs Hd Hn HL1).
      - rewrite Hd. apply lookup_insert_eq.
      - lia. }
    repeat case_match; apply Hx; reflexivity.
Qed.

Lemma Listed_on_connection st now id q :
  Inv st -> Listed st -> sockets st !! id = None ->
  Listed (fst (on_connection sha256_hex now id q st)).
Proof.
  intros HI HL Hnew. unfold on_connection. case_bool_decide as Hd.
  - apply (Listed_daemon_connected (set_cliDaemons _ st)).
    apply (Listed_ext st); [reflexivity..|exact HL].
  - destruct (q_sessionId q) as [sid|]; [|exact HL].
    destruct (negb (JS.truthy_str (Some sid))); [exact HL|].
    pose proof (Listed_session_for st now q sid HL) as (HL1 & Hdir & Hlt).
    pose proof (Inv_session_for sha256_hex st now q sid HI) as (_ & [s Hs] & Hsock & _).
    destruct (session_for sha256_hex now q sid st) as [ref st1]. simpl in *.
    set (socket := mkSocket id (q_clientType q) sid ref).
    unfold with_session. simpl. rewrite Hs.
    destruct (bind_socket id q sid s) as [s' out] eqn:Hb. simpl.
    assert (Hnew1 : sockets st1 !! id = None) by (rewrite Hsock; exact Hnew).
    apply (Listed_ext (set_sockets (<[id := SessionSocket socket]> (sockets st1))
                         (set_heap (<[ref := s']> (heap st1)) st1)));
      [reflexivity..|].
    apply (Listed_session_connected (set_heap (<[ref := s']> (heap st1)) st1)).
    + apply (Listed_heap_insert st1 ref s); [exact HL1|exact Hs| |].
      * intros v _ Hv. unfold bind_socket in Hb. case_bool_decide; simplify_eq; simpl.
        -- exact Hv.
        -- destruct (decide (id = v)) as [->|Hne].
           ++ rewrite lookup_insert_eq. eauto.
           ++ rewrite lookup_insert_ne by assumption. exact Hv.
      * intros p Hk Hp. unfold bind_socket in Hb.
        case_bool_decide; simplify_eq; simpl in Hp.
        -- injection Hp as <-. rewrite Hnew1 in Hk. destruct Hk as [? [=]].
        -- exact Hp.
    + exact Hnew1.
    + exact Hlt.
    + exact Hdir.
    + simpl. intros Hc. exists s'. rewrite lookup_insert_eq. split; [reflexivity|].
      unfold bind_socket in Hb. rewrite bool_decide_eq_false_2 in Hb by assumption.
      simplify_eq. simpl. rewrite lookup_insert_eq. eauto.
Qed.

Lemma Listed_on_session_socket st now id socket m :
  Inv st -> Listed st -> sockets st !! id = Some (SessionSocket socket) ->
  Listed (fst (on_session_socket now socket m st)).
Proof.
  intros HI HL Hs. destruct (inv_sockets st HI id socket Hs) as [Hid [s Hr]].
  destruct m; simpl; try exact HL;
    try (apply Listed_with_session; [exact HL|];
         auto using keeps_attachments_request_control, keeps_attachments_release_control,
           keeps_attachments_output, keeps_attachments_encrypted_output,
           keeps_attachments_output_history, keeps_attachments_get_history; fail).
  - apply Listed_with_session; [exact HL|]. apply keeps_attachments_forward_input.
  - apply Listed_with_session; [exact HL|]. apply keeps_attachments_forward_input.
  - (* disconnect *)
    unfold with_session. rewrite Hr.
    destruct (on_disconnect socket s) as [s' out] eqn:Hd. simpl.
    apply (Listed_ext (set_heap (<[session socket := s']> (heap st))
                         (set_sockets (delete id (sockets st)) st)));
      [reflexivity | simpl; rewrite Hid; reflexivity | reflexivity | reflexivity |].
    apply (Listed_heap_insert (set_sockets (delete id (sockets st)) st) _ s).
    + apply Listed_sockets_delete, HL.
    + exact Hr.
    + simpl. intros v Hk Hv.
      assert (Hne : v <> socket_id socket).
      { rewrite Hid. intros ->. rewrite lookup_delete_eq in Hk. destruct Hk as [? [=]]. }
      unfold on_disconnect in Hd.
      destruct (bool_decide (clientType socket = cli) && _);
        [simplify_eq; exact Hv|].
      destruct (holds_lock socket s); simplify_eq; simpl;
        rewrite lookup_delete_ne by congruence; exact Hv.
    + intros p _ Hp. unfold on_disconnect in Hd.
      destruct (bool_decide (clientType socket = cli) && _);
        [simplify_eq; discriminate|].
      destruct (holds_lock socket s); simplify_eq; exact Hp.
Qed.

Lemma Listed_attach_session st now id u sid key enc :
  Inv st -> Listed st -> Listed (attach_session now id u sid key enc st).
Proof.
  intros HI HL. unfold attach_session. destruct (sessions st !! sid) as [r|] eqn:Hd.
  - destruct (inv_sessions st HI sid r Hd) as [s Hr].
    assert (alter (fun s => set_encrypted enc
                              (set_cliPublicKey (Some key)
                                 (set_daemonSocketId (Some id) s))) r (heap st)
            = <[r := set_encrypted enc
                       (set_cliPublicKey (Some key)
                          (set_daemonSocketId (Some id) s))]> (heap st)) as ->.
    { apply map_eq. intros i. destruct (decide (r = i)) as [->|Hne].
      - rewrite lookup_alter_eq, lookup_insert_eq, Hr. reflexivity.
      - rewrite lookup_alter_ne, lookup_insert_ne by assumption. reflexivity. }
    apply (Listed_heap_insert st r s); auto.
  - set (new := mkSession _ _ _ _ _ _ _ _ _ _ _ _).
    exact (Listed_create st sid new HL Hd eq_refl).
Qed.

Lemma Listed_detach_session st id sid :
  Listed st -> Listed (fst (detach_session id sid st)).
Proof.
  intros HL. unfold detach_session.
  destruct (sessions st !! sid) as [r|]; [|exact HL].
  destruct (heap st !! r) as [s|] eqn:Hr; [|exact HL].
  case_bool_decide; [|exact HL]. simpl.
  apply (Listed_heap_insert st r s); auto.
Qed.

Lemma Listed_detach_all id sids :
  forall st, Listed st -> Listed (fst (detach_all id sids st)).
Proof.
  induction sids as [|sid rest IH]; intros st HL; simpl; [exact HL|].
  pose proof (Listed_detach_session st id sid HL) as H1.
  destruct (detach_session id sid st) as [st1 out1]. simpl in *.
  specialize (IH st1 H1). destruct (detach_all id rest st1) as [st2 out2]. exact IH.
Qed.

Lemma Listed_update_daemon st id f : Listed st -> Listed (update_daemon id f st).
Proof.
  intros HL. unfold update_daemon. destruct (JS.map_get id (cliDaemons st)); [|exact HL].
  apply (Listed_ext st); [reflexivity..|exact HL].
Qed.

Lemma Listed_on_daemon_socket st now id u m :
  Inv st -> Listed st -> sockets st !! id = Some (DaemonSocket u) ->
  Listed (fst (on_daemon_socket now id u m st)).
Proof.
  intros HI HL Hs.
  destruct m as [| |ev|dat|dat|dat|dat| |cid cmd ps|response|sid key enc|sid| |];
    try exact HL; unfold on_daemon_socket.
  - (* cli-response *)
    unfold on_cli_response.
    destruct (pendingCommands st !! cr_commandId response) as [p|]; [|exact HL].
    destruct (cr_success response);
      (apply (Listed_ext st); [reflexivity..|exact HL]).
  - (* session-attached *)
    unfold on_session_attached.
    set (st1 := update_daemon id _ st).
    assert (HL1 : Listed st1) by (apply Listed_update_daemon, HL).
    assert (HI1 : Inv st1) by (apply Inv_update_daemon; [exact HI | reflexivity]).
    clearbody st1.
    pose proof (Listed_attach_session st1 now id u sid key enc HI1 HL1) as HL2.
    destruct u as [user|]; [|exact HL2].
    destruct (JS.truthy_str (Some user)); [|exact HL2].
    apply (Listed_ext (attach_session now id (Some user) sid key enc st1));
      [reflexivity..|exact HL2].
  - (* session-detached *)
    unfold on_session_detached. apply Listed_detach_session, Listed_update_daemon, HL.
  - (* disconnect *)
    unfold on_daemon_disconnect.
    match goal with
    | |- context [let '(st0, out) := ?X in _] => assert (Hx : Listed (fst X))
    end.
    { destruct (JS.map_get id (cliDaemons st)) as [d|]; [|auto].
      apply Listed_detach_all, HL. }
    match goal with
    | |- context [let '(st0, out) := ?X in _] => destruct X as [st1 out]
    end.
    simpl in *.
    apply (Listed_ext (set_sockets (delete id (sockets st1)) st1)); [reflexivity..|].
    apply Listed_sockets_delete, Hx.
Qed.

Lemma Listed_fire_timer st now handle :
  Listed st -> Listed (fst (fire_timer now handle st)).
Proof.
  intros HL. unfold fire_timer.
  destruct (timers st !! handle) as [t|]; [|exact HL].
  destruct (due t <=? now); [|exact HL].
  assert (HL1 : Listed (clearTimeout handle st))
    by (apply (Listed_ext st); [reflexivity..|exact HL]).
  destruct (action t) as [sid|c r]; simpl.
  - destruct (sessions st !! sid) as [ref|] eqn:Hd; [|exact HL1].
    destruct (heap st !! ref) as [s|] eqn:Hr; [|exact HL1].
    destruct (negb (JS.truthy_str (cliSocketId s))) eqn:Hc; [|exact HL1].
    case_bool_decide as Hv; [|exact HL1]. simpl.
    apply (Listed_reap (clearTimeout handle st) sid ref s); try assumption.
    apply negb_true_iff in Hc. exact Hc.
  - apply (Listed_ext st); [reflexivity..|exact HL].
Qed.

Lemma Listed_post_daemon_command st now request command params random :
  Listed st -> Listed (fst (post_daemon_command now request command params random st)).
Proof.
  intros HL. unfold post_daemon_command.
  destruct command as [command|]; [|exact HL].
  destruct (negb _); [exact HL|].
  destruct (JS.map_first (cliDaemons st)) as [[k d]|]; [|exact HL].
  destruct (sockets st !! d_socketId d); [|exact HL]. simpl.
  apply (Listed_ext st); [reflexivity..|exact HL].
Qed.

Lemma Listed_step st now e :
  Inv st -> Listed st -> Listed (fst (step sha256_hex now e st)).
Proof.
  intros HI HL. destruct e as [id q|id m|handle|request command params random]; simpl.
  - destruct (sockets st !! id) eqn:Hs; [exact HL|]. apply Listed_on_connection; assumption.
  - destruct (sockets st !! id) as [[socket|u]|] eqn:Hs; [| |exact HL].
    + eapply Listed_on_session_socket; eassumption.
    + apply Listed_on_daemon_socket; assumption.
  - apply Listed_fire_timer, HL.
  - apply Listed_post_daemon_command, HL.
Qed.

Lemma Listed_run events :
  forall st, Inv st -> Listed st -> Listed (fst (run sha256_hex events st)).
Proof.
  induction events as [|[now e] rest IH]; intros st HI HL; simpl; [exact HL|].
  pose proof (Listed_step st now e HI HL) as H1.
  pose proof (Inv_step sha256_hex st now e HI) as H2.
  destruct (step sha256_hex now e st) as [st1 out1]. simpl in *.
  specialize (IH st1 H2 H1). destruct (run sha256_hex rest st1) as [st2 out2]. exact IH.
Qed.

End RelayListed.
Lemma fire_timer_sockets st now handle :
  sockets (fst (fire_timer now handle st)) = sockets st.
Proof.
  unfold fire_timer, run_timer. repeat case_match; reflexivity.
Qed.

(** X6.  In every reachable state of the relay, a session with a live
    connection is in the directory.  A connected viewer is an entry of the
    [viewers] of the session object its handlers close over, and the
    directory lists that very object under the viewer's session id; the
    same holds for the object of a connected producer that the object has
    bound as its producer.  So a reaping timer never deletes the session of
    a connected viewer: whichever timer runs next, the directory still
    lists it. *)
Theorem connected_session_is_listed (sha256_hex : string -> string)
    (events : list (Z * Event)) (id : string) (socket : Socket) :
  sockets (fst (run sha256_hex events init)) !! id = Some (SessionSocket socket) ->
  (clientType socket <> cli ->
   sessions (fst (run sha256_hex events init)) !! sessionId socket
   = Some (session socket) /\
   (exists s, heap (fst (run sha256_hex events init)) !! session socket = Some s /\
              is_Some (viewers s !! id)) /\
   (forall now handle,
       sessions (fst (step sha256_hex now (TimerFires handle)
                        (fst (run sha256_hex events init)))) !! sessionId socket
       = Some (session socket))) /\
  (forall s,
      heap (fst (run sha256_hex events init)) !! session socket = Some s ->
      cliSocketId s = Some id -> id <> ""%string ->
      sessions (fst (run sha256_hex events init)) !! sessionId socket
      = Some (session socket)).
Proof.
  intros Hk.
  pose proof (Inv_run sha256_hex events init Inv_init) as HI.
  pose proof (Listed_run sha256_hex events init Inv_init Listed_init) as HL.
  set (st := fst (run sha256_hex events init)) in *. clearbody st.
  split.
  - intros Hc. destruct (lst_viewer st HL id socket Hk Hc) as [Hd Hv].
    split; [exact Hd|]. split; [exact Hv|].
    intros now handle. simpl.
    pose proof (Listed_fire_timer st now handle HL) as HL1.
    apply (lst_viewer _ HL1 id socket); [|exact Hc].
    rewrite fire_timer_sockets. exact Hk.
  - intros s Hs Hp Hne. exact (lst_producer st HL id socket s Hk Hs Hp Hne).
Qed.

Lemma connected_session_is_listed_witness :
  (viewer <> cli ->
   sessions (fst (run plain_hash controlled_events init)) !! "demo"%string
   = Some 0%nat /\
   (exists s, heap (fst (run plain_hash controlled_events init)) !! 0%nat = Some s /\
              is_Some (viewers s !! "V"%string)) /\
   (forall now handle,
       sessions (fst (step plain_hash now (TimerFires handle)
                        (fst (run plain_hash controlled_events init)))) !! "demo"%string
       = Some 0%nat)) /\
  (forall s,
      heap (fst (run plain_hash controlled_events init)) !! 0%nat = Some s ->
      cliSocketId s = Some "V"%string -> "V"%string <> ""%string ->
      sessions (fst (run plain_hash controlled_events init)) !! "demo"%string
      = Some 0%nat).
Proof.
  apply (connected_session_is_listed plain_hash controlled_events "V"
           (mkSocket "V" viewer "demo" 0)).
  vm_compute. reflexivity.
Defined.

(** ** The relay: what the history holds *)

Lemma push_capped_last_n {A} (x : A) (h : list A) :
  (length h <= 100)%nat -> push_capped x h = last_n 100 (h ++ [x]).
Proof.
  intros Hh. unfold push_capped, last_n.
  destruct (100 <? length (h ++ [x]))%nat eqn:Hc.
  - apply Nat.ltb_lt in Hc. rewrite length_app in *. simpl in *.
    replace (length h + 1 - 100)%nat with 1%nat by lia.
    destruct (h ++ [x]); reflexivity.
  - apply Nat.ltb_ge in Hc. replace (length (h ++ [x]) - 100)%nat with 0%nat by lia.
    reflexivity.
Qed.

Lemma last_n_app_last_n {A} (n : nat) (l es : list A) :
  last_n n (last_n n l ++ es) = last_n n (l ++ es).
Proof.
  unfold last_n.
  rewrite <- (drop_app_le l es (length l - n)) by lia.
  rewrite drop_drop. f_equal.
  rewrite length_drop, !length_app. lia.
Qed.

Lemma last_n_length {A} (n : nat) (l : list A) : (length (last_n n l) <= n)%nat.
Proof. unfold last_n. rewrite length_drop. lia. Qed.

Lemma last_n_short {A} (n : nat) (l : list A) : (length l <= n)%nat -> last_n n l = l.
Proof. intros H. unfold last_n. replace (length l - n)%nat with 0%nat by lia. reflexivity. Qed.

Lemma outputs_received_history socket events :
  clientType socket = cli ->
  forall s, (length (outputHistory s) <= 100)%nat ->
    outputHistory (outputs_received socket events s)
    = last_n 100 (outputHistory s ++ events) /\
    lastOutput (outputs_received socket events s)
    = match last events with Some e => Some e | None => lastOutput s end /\
    encrypted (outputs_received socket events s) = encrypted s /\
    encryptedHistory (outputs_received socket events s) = encryptedHistory s /\
    viewers (outputs_received socket events s) = viewers s /\
    controlLock (outputs_received socket events s) = controlLock s /\
    cliSocketId (outputs_received socket events s) = cliSocketId s.
Proof.
  intros Hc. induction events as [|e es IH]; intros s Hs; simpl.
  - rewrite app_nil_r, last_n_short by assumption. auto 10.
  - change (foldl _ (fst (on_output socket e s)) es)
      with (outputs_received socket es (fst (on_output socket e s))).
    assert (Hon : fst (on_output socket e s)
                  = set_outputHistory (push_capped e (outputHistory s))
                      (set_lastOutput (Some e) s)).
    { unfold on_output. rewrite (bool_decide_eq_true_2 _ Hc). reflexivity. }
    rewrite Hon. set (s1 := set_outputHistory _ _).
    assert (H1 : outputHistory s1 = last_n 100 (outputHistory s ++ [e]))
      by (apply push_capped_last_n, Hs).
    destruct (IH s1) as (Ha & Hb & Hrest).
    { rewrite H1. apply last_n_length. }
    rewrite Ha, Hb, H1. split; [|split; [|exact Hrest]].
    + rewrite last_n_app_last_n, <- app_assoc. reflexivity.
    + destruct es as [|e' es']; [reflexivity|].
      simpl. destruct (last (e' :: es')) eqn:Hl; [reflexivity|].
      apply last_None in Hl. discriminate.
Qed.
(** X7.  What the plaintext history of a session replays.  After a
    producer connection has sent any number of ['output'] events to a
    session whose history is within its bound, [outputHistory] is the last
    100 of the old history followed by those events, in the order they
    arrived, and [lastOutput] is the latest of them.  In a session that is
    not encrypted, ['get-history'] answers the asking connection with
    exactly that window, and a viewer that connects is sent the latest
    event at once, before anything else. *)
Theorem history_is_recent_window (socket : Socket) (events : list OutputEvent)
    (s : Session) :
  clientType socket = cli ->
  (length (outputHistory s) <= 100)%nat ->
  outputHistory (outputs_received socket events s)
  = last_n 100 (outputHistory s ++ events) /\
  lastOutput (outputs_received socket events s)
  = match last events with Some e => Some e | None => lastOutput s end /\
  (encrypted s = false ->
   forall asking,
     on_get_history asking (outputs_received socket events s)
     = (outputs_received socket events s,
        [Emit (ToSocket (socket_id asking))
              (history (last_n 100 (outputHistory s ++ events)))])) /\
  (encrypted s = false ->
   forall id q sid e,
     q_clientType q <> cli ->
     last events = Some e ->
     exists rest,
       snd (bind_socket id q sid (outputs_received socket events s))
       = Emit (ToSocket id) (output e) :: rest).
Proof.
  intros Hc Hs.
  destruct (outputs_received_history socket events Hc s Hs)
    as (Hh & Hl & He & _ & _ & _ & Hp).
  split; [exact Hh|]. split; [exact Hl|]. split.
  - intros Henc asking. unfold on_get_history. rewrite He, Henc, Hh. reflexivity.
  - intros Henc id q sid e Hq Hlast. unfold bind_socket.
    rewrite bool_decide_eq_false_2 by exact Hq. simpl.
    rewrite He, Hl, Hlast, Henc. simpl.
    destruct (cliSocketId _) as [p|]; [destruct (q_publicKey q)|]; simpl; eauto.
Qed.

Lemma history_is_recent_window_witness :
  outputHistory (outputs_received producerP1 [sample_event] (demo_session None))
  = last_n 100 ([] ++ [sample_event]) /\
  lastOutput (outputs_received producerP1 [sample_event] (demo_session None))
  = Some sample_event /\
  (false = false ->
   forall asking,
     on_get_history asking (outputs_received producerP1 [sample_event] (demo_session None))
     = (outputs_received producerP1 [sample_event] (demo_session None),
        [Emit (ToSocket (socket_id asking))
              (history (last_n 100 ([] ++ [sample_event])))])) /\
  (false = false ->
   forall id q sid e,
     q_clientType q <> cli ->
     last [sample_event] = Some e ->
     exists rest,
       snd (bind_socket id q sid
              (outputs_received producerP1 [sample_event] (demo_session None)))
       = Emit (ToSocket id) (output e) :: rest).
Proof.
  apply (history_is_recent_window producerP1 [sample_event] (demo_session None)).
  - reflexivity.
  - simpl. lia.
Defined.
(** ** The relay: disconnects and the control lock *)

(** X8.  When the viewer that holds the control lock disconnects, the lock
    is released with the viewer's entry: the session is left with no lock
    and without the viewer, the room is told [control-status{locked:false}]
    and the bound producer, if any, ['viewer-left'].  From then on the lock
    is free whatever the clock says: any other viewer's ['request-control']
    is granted at once, and its input passes the gate unchanged. *)
Theorem holder_disconnect_frees_lock (holder other : Socket) (now : Z) (s : Session)
    (l : ControlLock) (v : Viewer) (m : Msg) :
  clientType holder <> cli ->
  controlLock s = Some l ->
  holderId l = socket_id holder ->
  clientType other <> cli ->
  socket_id other <> socket_id holder ->
  viewers s !! socket_id other = Some v ->
  fst (on_disconnect holder s)
  = set_viewers (delete (socket_id holder) (viewers s)) (set_controlLock None s) /\
  snd (on_disconnect holder s)
  = Emit (ToRoom (room_of (sessionId holder))) (control_status false None None None)
      :: match cliSocketId s with
         | Some p => if bool_decide (p = ""%string) then []
                     else [Emit (ToRoom p) (viewer_left (socket_id holder))]
         | None => []
         end /\
  on_request_control other now (fst (on_disconnect holder s))
  = (set_controlLock (Some (granted_lock other v now)) (fst (on_disconnect holder s)),
     [Emit (ToRoom (room_of (sessionId other)))
           (control_status true (Some (socket_id other)) (nickname v) (Some now))]) /\
  forward_input other now m (fst (on_disconnect holder s))
  = (fst (on_disconnect holder s), delivered other m s).
Proof.
  intros Hh Hl Hid Ho Hne Hv.
  assert (Hd : on_disconnect holder s
               = (set_viewers (delete (socket_id holder) (viewers s))
                              (set_controlLock None s),
                  Emit (ToRoom (room_of (sessionId holder)))
                       (control_status false None None None)
                    :: match cliSocketId s with
                       | Some p => if bool_decide (p = ""%string) then []
                                   else [Emit (ToRoom p) (viewer_left (socket_id holder))]
                       | None => []
                       end)).
  { unfold on_disconnect, holds_lock. rewrite (bool_decide_eq_false_2 _ Hh), Hl. simpl.
    rewrite (bool_decide_eq_true_2 _ Hid). simpl.
    destruct (cliSocketId s) as [p|]; [|reflexivity]. simpl.
    case_bool_decide; reflexivity. }
  rewrite Hd. simpl. split; [reflexivity|]. split; [reflexivity|]. split.
  - unfold on_request_control. rewrite (bool_decide_eq_false_2 _ Ho). simpl.
    rewrite lookup_delete_ne by congruence. rewrite Hv. reflexivity.
  - unfold forward_input, input_gate, delivered.
    rewrite (bool_decide_eq_false_2 _ Ho). simpl.
    destruct (cliSocketId s) as [p|]; [|reflexivity]. simpl.
    case_bool_decide; reflexivity.
Qed.

Lemma holder_disconnect_frees_lock_witness :
  fst (on_disconnect (mkSocket "B" viewer "demo" 0) (demo_session (Some "P"%string)))
  = set_viewers (delete "B"%string (viewers (demo_session (Some "P"%string))))
                (set_controlLock None (demo_session (Some "P"%string))) /\
  snd (on_disconnect (mkSocket "B" viewer "demo" 0) (demo_session (Some "P"%string)))
  = [Emit (ToRoom (room_of "demo")) (control_status false None None None);
     Emit (ToRoom "P") (viewer_left "B")] /\
  on_request_control viewerA 1
    (fst (on_disconnect (mkSocket "B" viewer "demo" 0) (demo_session (Some "P"%string))))
  = (set_controlLock
       (Some (granted_lock viewerA (mkViewer "A" "" (Some "alice"%string)) 1))
       (fst (on_disconnect (mkSocket "B" viewer "demo" 0)
                           (demo_session (Some "P"%string)))),
     [Emit (ToRoom (room_of "demo"))
           (control_status true (Some "A"%string) (Some "alice"%string) (Some 1))]) /\
  forward_input viewerA 1 (input (JS.Str "ls"))
    (fst (on_disconnect (mkSocket "B" viewer "demo" 0) (demo_session (Some "P"%string))))
  = (fst (on_disconnect (mkSocket "B" viewer "demo" 0) (demo_session (Some "P"%string))),
     [Emit (ToRoom "P") (input (JS.Str "ls"))]).
Proof.
  apply (holder_disconnect_frees_lock (mkSocket "B" viewer "demo" 0) viewerA 1
           (demo_session (Some "P"%string)) lockB
           (mkViewer "A" "" (Some "alice"%string)) (input (JS.Str "ls")));
    try discriminate; reflexivity.
Defined.

(** X9.  When the bound producer connection disconnects, the session
    loses its producer binding and its producer key and the room is told
    [cli-status{connected:false}]; the control lock, the viewers and both
    histories stay as they are.  After that no viewer input is forwarded
    to anyone: the sender is answered ['input-rejected'] when another
    viewer's lock is in force and [error{message:"CLI not connected"}]
    otherwise. *)
Theorem producer_disconnect_keeps_lock (producer : Socket) (s : Session) :
  clientType producer = cli ->
  cliSocketId s = Some (socket_id producer) ->
  on_disconnect producer s
  = (set_cliPublicKey None (set_cliSocketId None s),
     [Emit (ToRoom (room_of (sessionId producer))) (cli_status false None (encrypted s))]) /\
  controlLock (fst (on_disconnect producer s)) = controlLock s /\
  viewers (fst (on_disconnect producer s)) = viewers s /\
  outputHistory (fst (on_disconnect producer s)) = outputHistory s /\
  encryptedHistory (fst (on_disconnect producer s)) = encryptedHistory s /\
  (forall sender now m,
      clientType sender <> cli ->
      Forall (fun o => for_producer o = false)
             (snd (forward_input sender now m (fst (on_disconnect producer s)))) /\
      (Emit (ToSocket (socket_id sender)) (input_rejected "not-controller")
         ∈ snd (forward_input sender now m (fst (on_disconnect producer s))) \/
       Emit (ToSocket (socket_id sender)) (error "CLI not connected")
         ∈ snd (forward_input sender now m (fst (on_disconnect producer s))))).
Proof.
  intros Hc Hp.
  assert (Hd : on_disconnect producer s
               = (set_cliPublicKey None (set_cliSocketId None s),
                  [Emit (ToRoom (room_of (sessionId producer)))
                        (cli_status false None (encrypted s))])).
  { unfold on_disconnect. rewrite (bool_decide_eq_true_2 _ Hc).
    rewrite (bool_decide_eq_true_2 _ Hp). reflexivity. }
  rewrite Hd. simpl. repeat (split; [reflexivity|]).
  intros sender now m Hs. unfold forward_input, input_gate, broadcastControlStatus.
  rewrite (bool_decide_eq_false_2 _ Hs). simpl.
  destruct (controlLock s) as [l|]; simpl; repeat case_match; simplify_eq; simpl;
    (split; [repeat constructor|]);
    rewrite !elem_of_cons; auto 10.
Qed.

Lemma producer_disconnect_keeps_lock_witness :
  on_disconnect producerP1 (demo_session (Some "P1"%string))
  = (set_cliPublicKey None (set_cliSocketId None (demo_session (Some "P1"%string))),
     [Emit (ToRoom (room_of "demo")) (cli_status false None false)]) /\
  controlLock (fst (on_disconnect producerP1 (demo_session (Some "P1"%string))))
  = Some lockB /\
  viewers (fst (on_disconnect producerP1 (demo_session (Some "P1"%string))))
  = viewers (demo_session (Some "P1"%string)) /\
  outputHistory (fst (on_disconnect producerP1 (demo_session (Some "P1"%string)))) = [] /\
  encryptedHistory (fst (on_disconnect producerP1 (demo_session (Some "P1"%string))))
  = [] /\
  (forall sender now m,
      clientType sender <> cli ->
      Forall (fun o => for_producer o = false)
             (snd (forward_input sender now m
                     (fst (on_disconnect producerP1 (demo_session (Some "P1"%string)))))) /\
      (Emit (ToSocket (socket_id sender)) (input_rejected "not-controller")
         ∈ snd (forward_input sender now m
                  (fst (on_disconnect producerP1 (demo_session (Some "P1"%string))))) \/
       Emit (ToSocket (socket_id sender)) (error "CLI not connected")
         ∈ snd (forward_input sender now m
                  (fst (on_disconnect producerP1 (demo_session (Some "P1"%string))))))).
Proof.
  apply (producer_disconnect_keeps_lock producerP1 (demo_session (Some "P1"%string)));
    reflexivity.
Defined.
(** ** The relay: a daemon command is answered at most once *)

Lemma replies_to_app request out1 out2 :
  replies_to request (out1 ++ out2)
  = (replies_to request out1 + replies_to request out2)%nat.
Proof. unfold replies_to. rewrite filter_app, length_app. reflexivity. Qed.

Lemma replies_to_emits request out :
  Forall (fun o => is_emit o = true) out -> replies_to request out = 0%nat.
Proof.
  unfold replies_to. induction 1 as [|o out Ho _ IH]; [reflexivity|].
  destruct o; [|discriminate]. rewrite filter_cons_False; [exact IH|].
  simpl. discriminate.
Qed.

Lemma calm_same_commands st st' : same_commands st st' -> calm st st'.
Proof.
  intros (Hp & Ht & _). unfold calm. rewrite Hp, Ht. auto.
Qed.

Lemma calm_trans st1 st2 st3 : calm st1 st2 -> calm st2 st3 -> calm st1 st3.
Proof.
  intros (P1 & A1 & B1) (P2 & A2 & B2). split; [congruence|]. split; [auto|].
  intros t tm Ht. destruct (B2 t tm Ht) as [H|H]; auto.
Qed.

Lemma calm_setTimeout_reap st sid delay now :
  Inv st -> calm st (snd (setTimeout (ReapSession sid) delay now st)).
Proof.
  intros HI. split; [reflexivity|]. split; simpl.
  - intros t tm Ht. rewrite lookup_insert_ne; [exact Ht|].
    pose proof (inv_timers st HI t tm Ht). lia.
  - intros t tm Ht. apply lookup_insert_Some in Ht as [[_ <-]|[_ Ht]]; [|auto].
    right. exists sid. reflexivity.
Qed.

Lemma unanswerable_calm request st st' :
  calm st st' -> unanswerable request st -> unanswerable request st'.
Proof.
  intros (Hp & _ & Hb) [Q1 Q2]. split.
  - rewrite Hp. exact Q1.
  - intros t tm c Ht Ha. destruct (Hb t tm Ht) as [H|[sid H]]; [|congruence].
    exact (Q2 t tm c H Ha).
Qed.

Lemma Open_calm request cid tid st st' :
  calm st st' -> Open request cid tid st -> Open request cid tid st'.
Proof.
  intros (Hp & Ha & Hb) [[d O1] O2 O3 O4]. constructor; rewrite ?Hp; auto.
  - exists d. auto.
  - intros t tm c Ht Hact. destruct (Hb t tm Ht) as [H|[sid H]]; [|congruence].
    exact (O2 t tm c H Hact).
Qed.

Lemma emits_request_control socket now s :
  Forall (fun o => is_emit o = true) (snd (on_request_control socket now s)).
Proof.
  unfold on_request_control. repeat case_match; simplify_eq; simpl; repeat constructor.
Qed.

Lemma emits_release_control socket s :
  Forall (fun o => is_emit o = true) (snd (on_release_control socket s)).
Proof.
  unfold on_release_control. repeat case_match; simplify_eq; simpl; repeat constructor.
Qed.

Lemma emits_output socket event s :
  Forall (fun o => is_emit o = true) (snd (on_output socket event s)).
Proof. unfold on_output. case_match; simpl; repeat constructor. Qed.

Lemma emits_encrypted_output socket data s :
  Forall (fun o => is_emit o = true) (snd (on_encrypted_output socket data s)).
Proof. unfold on_encrypted_output. case_match; simpl; repeat constructor. Qed.

Lemma emits_output_history socket data s :
  Forall (fun o => is_emit o = true) (snd (on_output_history socket data s)).
Proof. unfold on_output_history. case_match; simpl; repeat constructor. Qed.

Lemma emits_get_history socket s :
  Forall (fun o => is_emit o = true) (snd (on_get_history socket s)).
Proof. unfold on_get_history. case_match; simpl; repeat constructor. Qed.

Lemma emits_forward_input socket now m s :
  Forall (fun o => is_emit o = true) (snd (forward_input socket now m s)).
Proof.
  unfold forward_input, input_gate, broadcastControlStatus.
  repeat case_match; simplify_eq; simpl; repeat constructor.
Qed.

Lemma emits_disconnect socket s :
  Forall (fun o => is_emit o = true) (snd (on_disconnect socket s)).
Proof.
  unfold on_disconnect, holds_lock, broadcastControlStatus.
  repeat case_match; simplify_eq; simpl; repeat constructor.
Qed.

Lemma emits_bind_socket id q sid s :
  Forall (fun o => is_emit o = true) (snd (bind_socket id q sid s)).
Proof.
  unfold bind_socket, broadcastControlStatus.
  repeat case_match; simplify_eq; simpl in *; repeat constructor.
Qed.

Lemma emits_with_session st socket f :
  (forall s, Forall (fun o => is_emit o = true) (snd (f s))) ->
  Forall (fun o => is_emit o = true) (snd (with_session socket f st)).
Proof.
  intros Hf. unfold with_session. destruct (heap st !! session socket) as [s|].
  - specialize (Hf s). destruct (f s). exact Hf.
  - constructor.
Qed.

Lemma emits_detach_all id sids :
  forall st, Forall (fun o => is_emit o = true) (snd (detach_all id sids st)).
Proof.
  induction sids as [|sid rest IH]; intros st; simpl; [constructor|].
  assert (H1 : Forall (fun o => is_emit o = true) (snd (detach_session id sid st))).
  { unfold detach_session. repeat case_match; simpl; repeat constructor. }
  destruct (detach_session id sid st) as [st1 out1]. simpl in *.
  specialize (IH st1). destruct (detach_all id rest st1) as [st2 out2]. simpl in *.
  apply Forall_app. auto.
Qed.
Lemma unanswerable_delete request st c t :
  unanswerable request st ->
  unanswerable request
    (set_pendingCommands (delete c (pendingCommands (clearTimeout t st)))
                         (clearTimeout t st)).
Proof.
  intros [Q1 Q2]. split; simpl.
  - intros c' p Hl. apply lookup_delete_Some in Hl as [_ Hl]. eauto.
  - intros t' tm c' Hl. apply lookup_delete_Some in Hl as [_ Hl]. eauto.
Qed.

Lemma Open_delete request cid tid st c t :
  Open request cid tid st -> t <> tid ->
  Open request cid tid
    (set_pendingCommands (delete c (pendingCommands (clearTimeout t st)))
                         (clearTimeout t st)).
Proof.
  intros [[d O1] O2 O3 O4] Hne. constructor; simpl.
  - exists d. rewrite lookup_delete_ne by assumption. exact O1.
  - intros t' tm c' Hl. apply lookup_delete_Some in Hl as [_ Hl]. eauto.
  - intros c' p Hl. apply lookup_delete_Some in Hl as [_ Hl]. eauto.
  - intros c' p Hl. apply lookup_delete_Some in Hl as [_ Hl]. eauto.
Qed.

(** The request is answered: its timeout is gone, and so is the entry of
    its command id. *)
Lemma Open_closed request cid tid st :
  Open request cid tid st ->
  unanswerable request
    (set_pendingCommands (delete cid (pendingCommands (clearTimeout tid st)))
                         (clearTimeout tid st)).
Proof.
  intros [[d O1] O2 O3 O4]. split; simpl.
  - intros c p Hl Hr. apply lookup_delete_Some in Hl as [Hne Hl].
    destruct (O3 c p Hl Hr) as [Hc _]. congruence.
  - intros t tm c Hl Ha. apply lookup_delete_Some in Hl as [Hne Hl].
    apply Hne. symmetry. exact (O2 t tm c Hl Ha).
Qed.

Section AnsweredOnce.
Variable sha256_hex : string -> string.

(** An event other than the request's own [POST]. *)
Lemma step_other_request request st now e :
  Inv st ->
  match e with
  | PostDaemonCommand r _ _ _ => r <> request
  | _ => True
  end ->
  (unanswerable request st ->
   unanswerable request (fst (step sha256_hex now e st)) /\
   replies_to request (snd (step sha256_hex now e st)) = 0%nat) /\
  (forall cid tid,
      Open request cid tid st ->
      (Open request cid tid (fst (step sha256_hex now e st)) /\
       replies_to request (snd (step sha256_hex now e st)) = 0%nat) \/
      (unanswerable request (fst (step sha256_hex now e st)) /\
       replies_to request (snd (step sha256_hex now e st)) = 1%nat)).
Proof.
  intros HI He.
  assert (Hcalm : forall st' out,
             calm st st' -> Forall (fun o => is_emit o = true) out ->
             (unanswerable request st ->
              unanswerable request st' /\ replies_to request out = 0%nat) /\
             (forall cid tid,
                 Open request cid tid st ->
                 (Open request cid tid st' /\ replies_to request out = 0%nat) \/
                 (unanswerable request st' /\ replies_to request out = 1%nat))).
  { intros st' out Hc Ho. pose proof (replies_to_emits request out Ho) as Hz. split.
    - intros HQ. split; [exact (unanswerable_calm request st st' Hc HQ)|exact Hz].
    - intros cid tid HO. left.
      split; [exact (Open_calm request cid tid st st' Hc HO)|exact Hz]. }
  assert (Hrefl : calm st st) by (apply calm_same_commands, same_commands_refl).
  destruct e as [id q|id m|handle|req command params random]; simpl.
  - (* a connection *)
    destruct (sockets st !! id); [apply Hcalm; [exact Hrefl|constructor]|].
    apply Hcalm; [apply calm_same_commands, same_commands_on_connection|].
    unfold on_connection. case_bool_decide; [constructor|].
    destruct (q_sessionId q) as [sid|]; [|constructor].
    destruct (negb _); [constructor|].
    destruct (session_for sha256_hex now q sid st) as [ref st1].
    apply emits_with_session. intros s. apply emits_bind_socket.
  - destruct (sockets st !! id) as [[socket|u]|]; [| |apply Hcalm; [exact Hrefl|constructor]].
    + (* a message of a producer or viewer *)
      destruct m; simpl;
        try (apply Hcalm; [exact Hrefl|constructor]);
        try (apply Hcalm;
             [apply calm_same_commands, same_commands_with_session
             |apply emits_with_session; intros s;
              auto using emits_request_control, emits_release_control, emits_output,
                emits_encrypted_output, emits_output_history, emits_get_history]; fail).
      * apply Hcalm; [apply calm_same_commands, same_commands_with_session|].
        apply emits_with_session. intros s. apply emits_forward_input.
      * apply Hcalm; [apply calm_same_commands, same_commands_with_session|].
        apply emits_with_session. intros s. apply emits_forward_input.
      * pose proof (same_commands_with_session st socket (on_disconnect socket)) as Hs.
        pose proof (emits_with_session st socket (on_disconnect socket)
                      (emits_disconnect socket)) as Ho.
        pose proof (Inv_with_session st socket (on_disconnect socket) HI
                      (keeps_disconnect socket)) as HI1.
        destruct (with_session socket (on_disconnect socket) st) as [st1 out].
        simpl in *. apply Hcalm; [|exact Ho].
        eapply calm_trans; [apply calm_same_commands, Hs|].
        pose proof (calm_setTimeout_reap st1 (sessionId socket) 60000 now HI1)
          as (C1 & C2 & C3).
        split; [exact C1|]. split; assumption.
    + (* a message of a daemon *)
      destruct m as [| |ev|dat|dat|dat|dat| |c cmd ps|response|sid key enc|sid| |];
        unfold on_daemon_socket;
        try (apply Hcalm; [exact Hrefl|repeat constructor]; fail).
      * (* cli-response *)
        unfold on_cli_response.
        destruct (pendingCommands st !! cr_commandId response) as [p|] eqn:Hp;
          [|apply Hcalm; [exact Hrefl|repeat constructor]].
        set (st' := set_pendingCommands _ _).
        assert (Hout : forall body,
                   replies_to request [HttpReply (p_request p) body;
                                       Emit ToAll (cli_response response)]
                   = if bool_decide (p_request p = request) then 1%nat else 0%nat).
        { intros body. unfold replies_to. case_bool_decide as Hr.
          - rewrite filter_cons_True by (simpl; rewrite bool_decide_eq_true_2; auto).
            reflexivity.
          - rewrite filter_cons_False
              by (simpl; rewrite bool_decide_eq_false_2; auto; discriminate).
            reflexivity. }
        assert (Hres : (unanswerable request st ->
                        unanswerable request st' /\
                        (if bool_decide (p_request p = request) then 1%nat else 0%nat)
                        = 0%nat) /\
                       (forall cid tid,
                           Open request cid tid st ->
                           (Open request cid tid st' /\
                            (if bool_decide (p_request p = request) then 1%nat else 0%nat)
                            = 0%nat) \/
                           (unanswerable request st' /\
                            (if bool_decide (p_request p = request) then 1%nat else 0%nat)
                            = 1%nat))).
        { split.
          - intros HQ. split; [apply unanswerable_delete, HQ|].
            rewrite bool_decide_eq_false_2; [reflexivity|]. exact (proj1 HQ _ _ Hp).
          - intros cid tid HO. case_bool_decide as Hr.
            + right. destruct (open_entry _ _ _ _ HO _ _ Hp Hr) as [Hc Ht].
              split; [|reflexivity]. subst st'. rewrite Hc, Ht.
              apply Open_closed, HO.
            + left. split; [|reflexivity]. apply Open_delete; [exact HO|].
              intros Ht. apply Hr. exact (open_timeout _ _ _ _ HO _ _ Hp Ht). }
        clearbody st'.
        destruct (cr_success response); simpl; rewrite Hout; exact Hres.
      * apply Hcalm; [apply calm_same_commands, same_commands_on_session_attached|].
        repeat constructor.
      * unfold on_session_detached. apply Hcalm.
        -- apply calm_same_commands. eapply same_commands_trans;
             [apply same_commands_update_daemon | apply same_commands_detach_session].
        -- unfold detach_session. repeat case_match; simpl; repeat constructor.
      * apply Hcalm; [apply calm_same_commands, same_commands_on_daemon_disconnect|].
        unfold on_daemon_disconnect.
        pose proof (emits_detach_all id) as Hd.
        destruct (JS.map_get id (cliDaemons st)) as [d|].
        -- specialize (Hd (activeSessions d) st).
           destruct (detach_all id (activeSessions d) st) as [st1 out]. exact Hd.
        -- constructor.
  - (* a timer *)
    unfold fire_timer. destruct (timers st !! handle) as [t|] eqn:Ht;
      [|apply Hcalm; [exact Hrefl|constructor]].
    destruct (due t <=? now); [|apply Hcalm; [exact Hrefl|constructor]].
    destruct (action t) as [sid|c r] eqn:Ha; simpl.
    + (* reaping *)
      assert (Hx : forall st',
                 pendingCommands st' = pendingCommands st ->
                 timers st' = delete handle (timers st) ->
                 (unanswerable request st ->
                  unanswerable request st' /\ replies_to request [] = 0%nat) /\
                 (forall cid tid,
                     Open request cid tid st ->
                     (Open request cid tid st' /\ replies_to request [] = 0%nat) \/
                     (unanswerable request st' /\ replies_to request [] = 1%nat))).
      { intros st' Hp' Ht'. split.
        - intros [Q1 Q2]. split; [|reflexivity]. split.
          + rewrite Hp'. exact Q1.
          + rewrite Ht'. intros t' tm c Hl. apply lookup_delete_Some in Hl as [_ Hl]. eauto.
        - intros cid tid [[d O1] O2 O3 O4]. left. split; [|reflexivity].
          constructor; rewrite ?Hp', ?Ht'; auto.
          + exists d. rewrite lookup_delete_ne; [exact O1|].
            intros ->. rewrite Ht in O1. injection O1 as ->. discriminate.
          + intros t' tm c Hl. apply lookup_delete_Some in Hl as [_ Hl]. eauto. }
      repeat case_match; apply Hx; reflexivity.
    + (* the timeout of a command *)
      assert (Hout : replies_to request [HttpReply r (http_error "Command timeout")]
                     = if bool_decide (r = request) then 1%nat else 0%nat).
      { unfold replies_to. case_bool_decide as Hr.
        - rewrite filter_cons_True by (simpl; rewrite bool_decide_eq_true_2; auto).
          reflexivity.
        - rewrite filter_cons_False
            by (simpl; rewrite bool_decide_eq_false_2; auto; discriminate).
          reflexivity. }
      rewrite Hout. split.
      * intros HQ. split; [apply unanswerable_delete, HQ|].
        rewrite bool_decide_eq_false_2; [reflexivity|].
        intros ->. exact (proj2 HQ _ _ c Ht Ha).
      * intros cid tid HO. case_bool_decide as Hr.
        -- right. split; [|reflexivity]. subst r.
           pose proof (open_only_timer _ _ _ _ HO _ _ _ Ht Ha) as ->.
           destruct (open_timer _ _ _ _ HO) as [d Hd]. rewrite Hd in Ht.
           injection Ht as <-. simpl in Ha. injection Ha as <-.
           apply Open_closed, HO.
        -- left. split; [|reflexivity]. apply Open_delete; [exact HO|].
           intros ->. destruct (open_timer _ _ _ _ HO) as [d Hd]. rewrite Hd in Ht.
           injection Ht as <-. simpl in Ha. injection Ha as _ <-. apply Hr. reflexivity.
  - (* the command of another request *)
    assert (Herr : forall message,
               (unanswerable request st ->
                unanswerable request st /\
                replies_to request [HttpReply req (http_error message)] = 0%nat) /\
               (forall cid tid,
                   Open request cid tid st ->
                   (Open request cid tid st /\
                    replies_to request [HttpReply req (http_error message)] = 0%nat) \/
                   (unanswerable request st /\
                    replies_to request [HttpReply req (http_error message)] = 1%nat))).
    { intros message.
      assert (Hz : replies_to request [HttpReply req (http_error message)] = 0%nat).
      { unfold replies_to. rewrite filter_cons_False; [reflexivity|].
        simpl. rewrite bool_decide_eq_false_2 by assumption. discriminate. }
      rewrite Hz. split; [auto|]. intros cid tid HO. left. auto. }
    unfold post_daemon_command.
    destruct command as [command|]; [|apply Herr].
    destruct (negb _); [apply Herr|].
    destruct (JS.map_first (cliDaemons st)) as [[k d]|]; [|apply Herr].
    destruct (sockets st !! d_socketId d); [|apply Herr]. simpl.
    change (replies_to request
              [Emit (ToSocket (d_socketId d))
                    (cli_command (new_commandId now random) command params)])
      with 0%nat.
    split.
    + intros [Q1 Q2]. split; [|reflexivity]. split; simpl.
      * intros c' p Hl. apply lookup_insert_Some in Hl as [[_ <-]|[_ Hl]]; eauto.
      * intros t tm c' Hl. apply lookup_insert_Some in Hl as [[_ <-]|[_ Hl]]; [|eauto].
        simpl. congruence.
    + intros cid tid [[dl O1] O2 O3 O4]. left. split; [|reflexivity].
      pose proof (inv_timers st HI _ _ O1) as Hlt.
      constructor; simpl.
      * exists dl. rewrite lookup_insert_ne by lia. exact O1.
      * intros t tm c' Hl Hact. apply lookup_insert_Some in Hl as [[_ <-]|[_ Hl]];
          [simpl in Hact; congruence|eauto].
      * intros c' p Hl Hr. apply lookup_insert_Some in Hl as [[_ <-]|[_ Hl]];
          [simpl in Hr; congruence|eauto].
      * intros c' p Hl Hr. apply lookup_insert_Some in Hl as [[_ <-]|[_ Hl]];
          [simpl in Hr; lia|eauto].
Qed.

End AnsweredOnce.
Section AnsweredOnce2.
Variable sha256_hex : string -> string.

(** The request's own [POST]. *)
Lemma step_own_request request st now command params random :
  Inv st -> unanswerable request st ->
  (exists cid tid,
      Open request cid tid
           (fst (post_daemon_command now request command params random st)) /\
      replies_to request (snd (post_daemon_command now request command params random st))
      = 0%nat) \/
  (unanswerable request (fst (post_daemon_command now request command params random st)) /\
   replies_to request (snd (post_daemon_command now request command params random st))
   = 1%nat).
Proof.
  intros HI HQ.
  assert (Herr : forall message,
             unanswerable request st /\
             replies_to request [HttpReply request (http_error message)] = 1%nat).
  { intros message. split; [exact HQ|]. unfold replies_to.
    rewrite filter_cons_True by (simpl; rewrite bool_decide_eq_true_2; auto).
    reflexivity. }
  unfold post_daemon_command.
  destruct command as [command|]; [|right; apply Herr].
  destruct (negb _); [right; apply Herr|].
  destruct (JS.map_first (cliDaemons st)) as [[k d]|]; [|right; apply Herr].
  destruct (sockets st !! d_socketId d); [|right; apply Herr]. simpl.
  left. exists (new_commandId now random), (nextTimer st). split; [|reflexivity].
  destruct HQ as [Q1 Q2]. constructor; simpl.
  - eexists. apply lookup_insert_eq.
  - intros t tm c' Hl Ha. apply lookup_insert_Some in Hl as [[<- _]|[_ Hl]]; [reflexivity|].
    exfalso. exact (Q2 t tm c' Hl Ha).
  - intros c' p Hl Hr. apply lookup_insert_Some in Hl as [[<- <-]|[_ Hl]]; [auto|].
    exfalso. exact (Q1 c' p Hl Hr).
  - intros c' p Hl Ht. apply lookup_insert_Some in Hl as [[_ <-]|[_ Hl]]; [reflexivity|].
    pose proof (inv_pending st HI c' p Hl). lia.
Qed.

Lemma run_replies request events :
  forall st, Inv st ->
    (unanswerable request st -> request ∉ posted_requests events ->
     replies_to request (snd (run sha256_hex events st)) = 0%nat) /\
    (forall cid tid,
        Open request cid tid st -> request ∉ posted_requests events ->
        (replies_to request (snd (run sha256_hex events st)) <= 1)%nat) /\
    (unanswerable request st -> NoDup (posted_requests events) ->
     (replies_to request (snd (run sha256_hex events st)) <= 1)%nat).
Proof.
  induction events as [|[now e] rest IH]; intros st HI; simpl.
  { repeat split; intros; unfold replies_to; simpl; lia. }
  pose proof (Inv_step sha256_hex st now e HI) as HI1.
  assert (Hother : request ∉ posted_requests ((now, e) :: rest) ->
                   match e with
                   | PostDaemonCommand r _ _ _ => r <> request
                   | _ => True
                   end /\ request ∉ posted_requests rest).
  { unfold posted_requests. simpl. destruct e; simpl; auto.
    intros Hn. split; [|intros Hin; apply Hn; right; exact Hin].
    intros ->. apply Hn. left. }
  split; [|split].
  - intros HQ Hn. destruct (Hother Hn) as [He Hrest].
    destruct (step_other_request sha256_hex request st now e HI He) as [H1 _].
    destruct (H1 HQ) as [HQ1 Hz].
    destruct (step sha256_hex now e st) as [st1 out1]. simpl in *.
    destruct (IH st1 HI1) as (IH1 & _ & _). specialize (IH1 HQ1 Hrest).
    destruct (run sha256_hex rest st1) as [st2 out2]. simpl in *.
    rewrite replies_to_app. lia.
  - intros cid tid HO Hn. destruct (Hother Hn) as [He Hrest].
    destruct (step_other_request sha256_hex request st now e HI He) as [_ H2].
    specialize (H2 cid tid HO).
    destruct (step sha256_hex now e st) as [st1 out1]. simpl in *.
    destruct (IH st1 HI1) as (IH1 & IH2 & _).
    destruct H2 as [[HO1 Hz]|[HQ1 Hz]].
    + specialize (IH2 cid tid HO1 Hrest).
      destruct (run sha256_hex rest st1) as [st2 out2]. simpl in *.
      rewrite replies_to_app. lia.
    + specialize (IH1 HQ1 Hrest).
      destruct (run sha256_hex rest st1) as [st2 out2]. simpl in *.
      rewrite replies_to_app. lia.
  - intros HQ Hnd.
    assert (Hcase : match e with
                    | PostDaemonCommand r _ _ _ => r = request
                    | _ => False
                    end \/
                    match e with
                    | PostDaemonCommand r _ _ _ => r <> request
                    | _ => True
                    end).
    { destruct e as [| | |r command params random]; auto.
      destruct (decide (r = request)); auto. }
    destruct Hcase as [Hown|He].
    + destruct e as [| | |r command params random]; try contradiction. subst r.
      unfold posted_requests in Hnd. simpl in Hnd. apply NoDup_cons in Hnd as [Hn _].
      pose proof (step_own_request request st now command params random HI HQ) as Hs.
      simpl in *.
      destruct (post_daemon_command now request command params random st) as [st1 out1].
      simpl in *. destruct (IH st1 HI1) as (IH1 & IH2 & _).
      destruct Hs as [(cid & tid & HO1 & Hz)|[HQ1 Hz]].
      * specialize (IH2 cid tid HO1 Hn).
        destruct (run sha256_hex rest st1) as [st2 out2]. simpl in *.
        rewrite replies_to_app. lia.
      * specialize (IH1 HQ1 Hn).
        destruct (run sha256_hex rest st1) as [st2 out2]. simpl in *.
        rewrite replies_to_app. lia.
    + assert (Hnd' : NoDup (posted_requests rest)).
      { unfold posted_requests in *. simpl in Hnd. destruct e; simpl in Hnd; auto.
        apply NoDup_cons in Hnd as [_ Hnd]. exact Hnd. }
      destruct (step_other_request sha256_hex request st now e HI He) as [H1 _].
      destruct (H1 HQ) as [HQ1 Hz].
      destruct (step sha256_hex now e st) as [st1 out1]. simpl in *.
      destruct (IH st1 HI1) as (_ & _ & IH3). specialize (IH3 HQ1 Hnd').
      destruct (run sha256_hex rest st1) as [st2 out2]. simpl in *.
      rewrite replies_to_app. lia.
Qed.

End AnsweredOnce2.

(** X10.  Every [POST /api/daemon/command] is answered at most once.  In
    any run of the relay in which the HTTP requests are distinct, the
    replies given to one request -- the immediate error, the daemon's
    answer, or ["Command timeout"] -- number at most one, whatever the
    daemons send (late, repeated or unknown command ids included) and
    whenever the timers run. *)
Theorem daemon_command_answered_at_most_once (sha256_hex : string -> string)
    (events : list (Z * Event)) (request : nat) :
  NoDup (posted_requests events) ->
  (replies_to request (snd (run sha256_hex events init)) <= 1)%nat.
Proof.
  intros Hnd.
  destruct (run_replies sha256_hex request events init Inv_init) as (_ & _ & H).
  apply H; [|exact Hnd]. split; simpl; intros; simplify_map_eq.
Qed.

Lemma daemon_command_answered_at_most_once_witness :
  snd (run plain_hash answered_twice_events init)
  = [Emit (ToSocket "D") (cli_command (new_commandId 1000 "abc123") "list-sessions" None);
     HttpReply 7 (http_success None);
     Emit ToAll (cli_response
                   (mkCommandResponse (new_commandId 1000 "abc123") true None None));
     Emit ToAll (cli_response
                   (mkCommandResponse (new_commandId 1000 "abc123") true None None))] /\
  (replies_to 7 (snd (run plain_hash answered_twice_events init)) <= 1)%nat.
Proof.
  split; [vm_compute; reflexivity|].
  apply (daemon_command_answered_at_most_once plain_hash answered_twice_events 7).
  vm_compute. repeat constructor. intros H. inversion H.
Defined.

(** ** The capture loop: restarts *)

Lemma capture_call_seq call c :
  (snd (capture_call call c) = [] /\
   TmuxCapture.seq (fst (capture_call call c)) = TmuxCapture.seq c) \/
  (exists e, snd (capture_call call c) = [e] /\
             seq e = TmuxCapture.seq c + 1 /\
             TmuxCapture.seq (fst (capture_call call c)) = TmuxCapture.seq c + 1 /\
             TmuxCapture.running (fst (capture_call call c)) = true /\
             TmuxCapture.lastContent (fst (capture_call call c)) = content e).
Proof.
  destruct call as [pane now|pane now|]; simpl.
  - unfold TmuxCapture.start. destruct (TmuxCapture.running c); [left; auto|].
    simpl. case_bool_decide; simpl; [left; auto|].
    right. eexists. repeat split.
  - unfold TmuxCapture.poll. destruct (negb _ || negb _) eqn:Hr; [left; auto|].
    apply orb_false_elim in Hr as [Hr _]. apply negb_false_iff in Hr.
    case_bool_decide; simpl; [left; auto|].
    right. eexists. repeat split. exact Hr.
  - left. auto.
Qed.

Lemma capture_calls_seq calls :
  forall c,
    map seq (snd (capture_calls calls c))
    = seqZ (TmuxCapture.seq c + 1) (Z.of_nat (length (snd (capture_calls calls c)))) /\
    TmuxCapture.seq (fst (capture_calls calls c))
    = TmuxCapture.seq c + Z.of_nat (length (snd (capture_calls calls c))).
Proof.
  induction calls as [|call rest IH]; intros c; simpl.
  - split; [reflexivity|lia].
  - pose proof (capture_call_seq call c) as Hc.
    destruct (capture_call call c) as [c1 out1]. simpl in Hc.
    specialize (IH c1). destruct (capture_calls rest c1) as [c2 out2]. simpl in *.
    destruct IH as [IH1 IH2].
    destruct Hc as [[-> Hs]|(e & -> & He & Hs & _)]; simpl.
    + rewrite IH1, IH2, Hs. split; reflexivity.
    + rewrite IH1, IH2, Hs, He. split; [|lia].
      rewrite (seqZ_cons (TmuxCapture.seq c + 1)) by lia. do 2 f_equal. lia.
Qed.

Lemma capture_stopped_polls ticks :
  forall c,
    TmuxCapture.running c = false ->
    capture_calls (map (fun tick => CallPoll (fst tick) (snd tick)) ticks) c = (c, []).
Proof.
  induction ticks as [|[pane now] rest IH]; intros c Hr; simpl; [reflexivity|].
  unfold TmuxCapture.poll. rewrite Hr. simpl. rewrite (IH c Hr). reflexivity.
Qed.

(** X11.  The numbering of a capture survives stops and restarts.
    Whatever sequence of [start], timer tick and [stop] a new capture goes
    through, the events it hands out are numbered 1, 2, 3, ... in order,
    without gap or repeat, and [getSeq()] is their count.  Each call hands
    out at most one event, a frame of the pane content it read, stamped
    with its clock.  A stopped capture hands out nothing on a tick and
    keeps its state, and [start] on a running capture changes nothing. *)
Theorem capture_numbering_survives_restart (calls : list CaptureCall) :
  map seq (snd (capture_calls calls TmuxCapture.new))
  = seqZ 1 (Z.of_nat (length (snd (capture_calls calls TmuxCapture.new)))) /\
  TmuxCapture.seq (fst (capture_calls calls TmuxCapture.new))
  = Z.of_nat (length (snd (capture_calls calls TmuxCapture.new))) /\
  (forall call c, frame_of call (snd (capture_call call c))) /\
  (forall c ticks,
      TmuxCapture.running c = false ->
      capture_calls (map (fun tick => CallPoll (fst tick) (snd tick)) ticks) c = (c, [])) /\
  (forall c pane now,
      TmuxCapture.running c = true -> TmuxCapture.start pane now c = (c, [])).
Proof.
  destruct (capture_calls_seq calls TmuxCapture.new) as [H1 H2].
  split; [exact H1|]. split; [exact H2|]. split; [|split].
  - intros [pane now|pane now|] c; simpl.
    + unfold TmuxCapture.start. repeat case_match; simpl; eauto.
    + unfold TmuxCapture.poll. repeat case_match; simpl; eauto.
    + reflexivity.
  - intros c ticks Hr. apply capture_stopped_polls, Hr.
  - intros c pane now Hr. unfold TmuxCapture.start. rewrite Hr. reflexivity.
Qed.
(** ** The viewer's page: which frames are drawn *)

Lemma on_output_newer (event : OutputEvent) (c : WebClient.t) :
  WebClient.on_output event c
  = if WebClient.currentSeq c <? seq event
    then (WebClient.set_currentSeq (seq event) c, draws event)
    else (c, []).
Proof.
  unfold WebClient.on_output, WebClient.handleOutput.
  rewrite andb_true_r, Z.leb_antisym. destruct (_ <? _); reflexivity.
Qed.

Lemma on_outputs_app (l1 l2 : list OutputEvent) :
  forall c,
    on_outputs (l1 ++ l2) c
    = (fst (on_outputs l2 (fst (on_outputs l1 c))),
       snd (on_outputs l1 c) ++ snd (on_outputs l2 (fst (on_outputs l1 c)))).
Proof.
  induction l1 as [|e l1 IH]; intros c; simpl.
  - destruct (on_outputs l2 c). reflexivity.
  - destruct (WebClient.on_output e c) as [c1 out]. rewrite IH.
    destruct (on_outputs l1 c1) as [c2 outs]. reflexivity.
Qed.

Lemma on_outputs_length (l : list OutputEvent) :
  forall c, length (snd (on_outputs l c)) = length l.
Proof.
  induction l as [|e l IH]; intros c; simpl; [reflexivity|].
  destruct (WebClient.on_output e c) as [c1 out]. specialize (IH c1).
  destruct (on_outputs l c1) as [c2 outs]. simpl in *. lia.
Qed.

(** After the frames of [l] the page's sequence number is above those it
    has seen: a later frame is newer than it exactly when it is newer than
    the old number and than every frame of [l]. *)
Lemma on_outputs_newer (l : list OutputEvent) (event : OutputEvent) :
  forall c,
    (WebClient.currentSeq (fst (on_outputs l c)) <? seq event)
    = newer_than c l event.
Proof.
  unfold newer_than. induction l as [|e l IH]; intros c; simpl.
  - rewrite andb_true_r. reflexivity.
  - unfold WebClient.on_output, WebClient.handleOutput. rewrite andb_true_r.
    destruct (seq e <=? WebClient.currentSeq c) eqn:Hle.
    + specialize (IH c). destruct (on_outputs l c) as [c2 outs]. simpl in *.
      rewrite IH. apply Z.leb_le in Hle.
      destruct (WebClient.currentSeq c <? seq event) eqn:Hc; simpl; [|reflexivity].
      apply Z.ltb_lt in Hc.
      assert ((seq e <? seq event) = true) as -> by (apply Z.ltb_lt; lia). reflexivity.
    + specialize (IH (WebClient.set_currentSeq (seq e) c)).
      destruct (on_outputs l _) as [c2 outs]. simpl in *.
      rewrite IH. apply Z.leb_gt in Hle.
      destruct (seq e <? seq event) eqn:He; simpl.
      * apply Z.ltb_lt in He.
        assert ((WebClient.currentSeq c <? seq event) = true) as ->
          by (apply Z.ltb_lt; lia).
        reflexivity.
      * rewrite andb_false_r. reflexivity.
Qed.

Lemma on_history_all (events : list OutputEvent) :
  forall c,
    snd (WebClient.on_history events c) = flat_map draws events /\
    WebClient.currentSeq (fst (WebClient.on_history events c))
    = match last events with Some e => seq e | None => WebClient.currentSeq c end.
Proof.
  induction events as [|e rest IH]; intros c; simpl; [auto|].
  unfold WebClient.handleOutput. rewrite andb_false_r.
  specialize (IH (WebClient.set_currentSeq (seq e) c)).
  destruct (WebClient.on_history rest _) as [c2 out2]. simpl in *.
  destruct IH as [-> ->]. split; [reflexivity|].
  destruct rest as [|e' rest']; [reflexivity|].
  simpl. destruct (last (e' :: rest')) eqn:Hl; [reflexivity|].
  apply last_None in Hl. discriminate.
Qed.

(** X12.  Which frames the viewer's page draws.  Of the ['output'] events
    it receives one after another, the page draws -- clears the terminal
    and writes the content of -- exactly those whose [seq] is greater than
    the sequence number the page started from and than the [seq] of every
    event received before; any other event (a repeat, or one that arrives
    out of order) draws nothing and changes nothing.  A ['history'] replay
    draws every event of the batch, whatever its [seq], and leaves the
    page's sequence number at that of the last one. *)
Theorem viewer_draws_newer_frames (earlier later : list OutputEvent)
    (event : OutputEvent) (c : WebClient.t) :
  snd (on_outputs (earlier ++ event :: later) c) !! length earlier
  = Some (if newer_than c earlier event then draws event else []) /\
  (newer_than c earlier event = false ->
   fst (WebClient.on_output event (fst (on_outputs earlier c)))
   = fst (on_outputs earlier c)) /\
  snd (WebClient.on_history (earlier ++ event :: later) c)
  = flat_map draws (earlier ++ event :: later) /\
  WebClient.currentSeq (fst (WebClient.on_history (earlier ++ [event]) c)) = seq event.
Proof.
  pose proof (on_outputs_newer earlier event c) as Hn.
  split; [|split; [|split]].
  - rewrite on_outputs_app.
    change (on_outputs (event :: later) (fst (on_outputs earlier c)))
      with (let '(c1, out) := WebClient.on_output event (fst (on_outputs earlier c)) in
            let '(c2, outs) := on_outputs later c1 in (c2, out :: outs)).
    rewrite on_output_newer, Hn. cbn [snd].
    rewrite lookup_app_r by (rewrite on_outputs_length; lia).
    rewrite on_outputs_length, Nat.sub_diag.
    destruct (newer_than c earlier event).
    + destruct (on_outputs later _). reflexivity.
    + destruct (on_outputs later _). reflexivity.
  - intros Hf. rewrite on_output_newer, Hn, Hf. reflexivity.
  - apply on_history_all.
  - destruct (on_history_all (earlier ++ [event]) c) as [_ ->].
    rewrite last_snoc. reflexivity.
Qed.
(** ** End to end: what a viewer types *)

Section EndToEnd.
Context {H : Host} {HL : HostLaws H}.

Lemma sendInput_sealed (keys type : string) (rnd secret : bytes) (c : WebClient.t) :
  WebClient.connected c = true ->
  WebClient.isEncrypted c = true ->
  WebClient.sharedSecret c = Some secret ->
  length secret = nacl_secretbox_keyLength ->
  length rnd = nacl_secretbox_nonceLength ->
  exists e,
    WebClient.sendInput keys type rnd c = ([WebClient.encrypted_input e], Return tt) /\
    Crypto.decryptToString e secret
    = Return (Some (JSON_stringify (WebClient.inputData keys type))).
Proof.
  intros Hc He Hs Hk Hn. unfold WebClient.sendInput. rewrite Hc, Hs, He. simpl.
  destruct (encrypt_returns
              (Crypto.MString (JSON_stringify (WebClient.inputData keys type)))
              secret rnd Hk Hn) as (box & Hbox & Henc).
  rewrite Henc. eexists. split; [reflexivity|].
  apply decryptToString_sealed, Hbox.
Qed.

(** X13.  When the page sends what is typed in the clear.  A connected
    page that holds a shared secret in an encrypted session emits one
    ['encrypted-input'] whose envelope opens under the secret to the JSON
    text of [{keys, type}], and no ['input'].  A connected page that holds
    no shared secret emits the keys in the clear, as
    [input{keys, type}]; and every [cli-status{connected:false}] the page
    receives drops the shared secret, so that what is typed afterwards goes
    out in the clear although the page still counts the session as
    encrypted. *)
Theorem viewer_input_encrypted_iff_secret (keys type : string) (rnd : bytes)
    (c : WebClient.t) :
  WebClient.connected c = true ->
  length rnd = nacl_secretbox_nonceLength ->
  (forall secret,
      WebClient.isEncrypted c = true ->
      WebClient.sharedSecret c = Some secret ->
      length secret = nacl_secretbox_keyLength ->
      exists e,
        WebClient.sendInput keys type rnd c = ([WebClient.encrypted_input e], Return tt) /\
        Crypto.decryptToString e secret
        = Return (Some (JSON_stringify (WebClient.inputData keys type)))) /\
  (WebClient.sharedSecret c = None ->
   WebClient.sendInput keys type rnd c = ([WebClient.input keys type], Return tt)) /\
  (forall publicKey,
      WebClient.on_cli_status false publicKey c
      = Return (WebClient.set_sharedSecret None c, [WebClient.notice_cli_disconnected]) /\
      WebClient.isEncrypted (WebClient.set_sharedSecret None c) = WebClient.isEncrypted c /\
      WebClient.sendInput keys type rnd (WebClient.set_sharedSecret None c)
      = ([WebClient.input keys type], Return tt)).
Proof.
  intros Hc Hn. split; [|split].
  - intros secret He Hs Hk. apply sendInput_sealed; assumption.
  - intros Hs. unfold WebClient.sendInput. rewrite Hc, Hs. reflexivity.
  - intros publicKey. split; [|split].
    + unfold WebClient.on_cli_status.
      destruct publicKey as [key|]; destruct (WebClient.keyPair c); reflexivity.
    + reflexivity.
    + unfold WebClient.sendInput. simpl. rewrite Hc. reflexivity.
Qed.

(** X14.  What a viewer types reaches the producer.  Let a connected page
    in an encrypted session hold the secret that the producer's client
    keeps for that viewer, and let the relay's session have a bound
    producer and no control lock held by somebody else.  Then [sendInput]
    emits one ['encrypted-input']; the relay, receiving it from the
    viewer's connection, forwards the same envelope, tagged with the
    viewer's connection id, to the producer connection and to nobody else,
    without touching the envelope; and the producer's handler opens it and
    emits on its socket a ['_decrypted-input'] that carries [{keys, type}]
    as typed. *)
Theorem viewer_input_reaches_producer (keys type : string) (rnd secret : bytes)
    (page : WebClient.t) (producer : EncryptedWSClient.t) (connection : bool)
    (viewerSocket : Socket) (now : Z) (s : Session) (producerId : string) :
  WebClient.connected page = true ->
  WebClient.isEncrypted page = true ->
  WebClient.sharedSecret page = Some secret ->
  length secret = nacl_secretbox_keyLength ->
  length rnd = nacl_secretbox_nonceLength ->
  JS.map_get (socket_id viewerSocket) (EncryptedWSClient.sharedSecrets producer)
  = Some secret ->
  EncryptedWSClient.socket producer = Some connection ->
  JSON_stringify (WebClient.inputData keys type) <> ""%string ->
  JSON_parse (JSON_stringify (WebClient.inputData keys type))
  = Return (WebClient.inputData keys type) ->
  clientType viewerSocket <> cli ->
  cliSocketId s = Some producerId ->
  producerId <> ""%string ->
  (forall l, controlLock s = Some l -> holderId l = socket_id viewerSocket) ->
  exists e,
    WebClient.sendInput keys type rnd page = ([WebClient.encrypted_input e], Return tt) /\
    snd (on_encrypted_input viewerSocket now e s)
    = [Emit (ToRoom producerId) (encrypted_input (socket_id viewerSocket) e)] /\
    EncryptedWSClientInput.on_encrypted_input (socket_id viewerSocket) e producer
    = ([EncryptedWSClient.decrypted_input (WebClient.inputData keys type)], Return tt).
Proof.
  intros Hc He Hs Hk Hn Hp Hsock Hne Hrt Hv Hprod Hpid Hlock.
  destruct (sendInput_sealed keys type rnd secret page Hc He Hs Hk Hn) as (e & Hsend & Hd).
  exists e. split; [exact Hsend|]. split.
  - unfold on_encrypted_input, forward_input, input_gate.
    rewrite (bool_decide_eq_false_2 _ Hv).
    destruct (controlLock s) as [l|] eqn:Hl; simpl.
    + rewrite (bool_decide_eq_true_2 _ (Hlock l eq_refl)). simpl. rewrite Hl.
      rewrite (bool_decide_eq_true_2 _ (Hlock l eq_refl)). simpl. rewrite Hprod.
      simpl. rewrite (bool_decide_eq_false_2 _ Hpid). reflexivity.
    + rewrite Hl, Hprod. simpl. rewrite (bool_decide_eq_false_2 _ Hpid). reflexivity.
  - unfold EncryptedWSClientInput.on_encrypted_input. rewrite Hp, Hd. simpl.
    rewrite (bool_decide_eq_false_2 _ Hne). simpl. rewrite Hrt, Hsock. reflexivity.
Qed.

End EndToEnd.

Lemma viewer_input_encrypted_iff_secret_witness :
  (forall secret,
      WebClient.isEncrypted sample_page = true ->
      WebClient.sharedSecret sample_page = Some secret ->
      length secret = nacl_secretbox_keyLength ->
      exists e,
        @WebClient.sendInput RefHost.host "ls" "text" sample_nonce sample_page
        = ([WebClient.encrypted_input e], Return tt) /\
        @Crypto.decryptToString RefHost.host e secret
        = Return (Some (@JSON_stringify RefHost.host (WebClient.inputData "ls" "text")))) /\
  (WebClient.sharedSecret sample_page = None ->
   @WebClient.sendInput RefHost.host "ls" "text" sample_nonce sample_page
   = ([WebClient.input "ls" "text"], Return tt)) /\
  (forall publicKey,
      @WebClient.on_cli_status RefHost.host false publicKey sample_page
      = Return (WebClient.set_sharedSecret None sample_page,
                [WebClient.notice_cli_disconnected]) /\
      WebClient.isEncrypted (WebClient.set_sharedSecret None sample_page) = true /\
      @WebClient.sendInput RefHost.host "ls" "text" sample_nonce
        (WebClient.set_sharedSecret None sample_page)
      = ([WebClient.input "ls" "text"], Return tt)).
Proof.
  apply (@viewer_input_encrypted_iff_secret RefHost.host RefHost_laws "ls" "text"
           sample_nonce sample_page); reflexivity.
Defined.

Lemma viewer_input_reaches_producer_witness :
  exists e,
    @WebClient.sendInput RefHost.host "ls" "text" sample_nonce sample_page
    = ([WebClient.encrypted_input e], Return tt) /\
    snd (on_encrypted_input (mkSocket "V1" viewer "demo" 0) 5 e
           (set_controlLock None (demo_session (Some "P"%string))))
    = [Emit (ToRoom "P") (encrypted_input "V1" e)] /\
    @EncryptedWSClientInput.on_encrypted_input RefHost.host "V1" e sample_client
    = ([EncryptedWSClient.decrypted_input (WebClient.inputData "ls" "text")], Return tt).
Proof.
  apply (@viewer_input_reaches_producer RefHost.host RefHost_laws "ls" "text"
           sample_nonce (repeat Byte.x11 32) sample_page sample_client true
           (mkSocket "V1" viewer "demo" 0) 5
           (set_controlLock None (demo_session (Some "P"%string))) "P");
    try reflexivity; discriminate.
Defined.
(** ** End to end: what the producer shows *)

Lemma map_get_set_eq {V} (k : string) (v : V) (m : JS.Map V) :
  JS.map_get k (JS.map_set k v m) = Some v.
Proof.
  induction m as [|[k' v'] m IH]; simpl.
  - rewrite bool_decide_eq_true_2 by reflexivity. reflexivity.
  - case_bool_decide as Hk; simpl.
    + rewrite bool_decide_eq_true_2 by assumption. reflexivity.
    + rewrite bool_decide_eq_false_2 by assumption. exact IH.
Qed.

Lemma map_get_delete_eq {V} (k : string) (m : JS.Map V) :
  JS.map_get k (JS.map_delete k m) = None.
Proof.
  destruct (JS.map_get k (JS.map_delete k m)) as [v|] eqn:Hg; [|reflexivity].
  apply map_get_elem, map_delete_elem in Hg as [_ Hne]. simpl in Hne. congruence.
Qed.

Lemma map_get_is_Some {V} (k : string) (v : V) (m : JS.Map V) :
  (k, v) ∈ m -> is_Some (JS.map_get k m).
Proof.
  induction m as [|[k' v'] m IH]; simpl.
  - intros Hin. apply elem_of_nil in Hin. contradiction.
  - intros Hin. case_bool_decide as Hk; [eauto|].
    apply elem_of_cons in Hin as [[= -> ->]|Hin]; [congruence|auto].
Qed.

Section ProducerFrames.
Context {H : Host}.

(** Whatever happens during the call, [sendEncryptedOutput] has cached
    the event. *)
Lemma sendEncryptedOutput_caches (event : OutputEvent) (rnd : nat -> bytes)
    (c : EncryptedWSClient.t) :
  fst (fst (EncryptedWSClient.sendEncryptedOutput event rnd c))
  = EncryptedWSClient.set_lastOutputEvent (Some event) c.
Proof.
  unfold EncryptedWSClient.sendEncryptedOutput. repeat case_match; reflexivity.
Qed.

Lemma send_to_each_addressed (event : OutputEvent) (rnd : nat -> bytes)
    (entries : list (string * bytes)) :
  forall i d,
    d ∈ encrypted_outputs (fst (EncryptedWSClient.send_to_each event rnd i entries)) ->
    exists secret, (eo_viewerId d, secret) ∈ entries.
Proof.
  induction entries as [|[viewerId secret] rest IH]; intros i d; simpl.
  - intros Hin. apply elem_of_nil in Hin. contradiction.
  - destruct (Crypto.encrypt _ secret (rnd i)) as [e|]; simpl.
    + specialize (IH (S i) d).
      destruct (EncryptedWSClient.send_to_each event rnd (S i) rest) as [out r].
      simpl in *. intros Hin. apply elem_of_cons in Hin as [->|Hin].
      * exists secret. simpl. left.
      * destruct (IH Hin) as [k Hk]. exists k. right. exact Hk.
    + intros Hin. apply elem_of_nil in Hin. contradiction.
Qed.

Lemma encrypted_outputs_snoc_history (out : list EncryptedWSClient.Emit)
    (h : OutputHistoryEvent) :
  encrypted_outputs (out ++ [EncryptedWSClient.output_history h]) = encrypted_outputs out.
Proof.
  unfold encrypted_outputs. rewrite omap_app. simpl. apply app_nil_r.
Qed.

Lemma sendEncryptedOutput_addressed (event : OutputEvent) (rnd : nat -> bytes)
    (c : EncryptedWSClient.t) (d : EncryptedOutputEvent) :
  d ∈ encrypted_outputs (snd (fst (EncryptedWSClient.sendEncryptedOutput event rnd c))) ->
  EncryptedWSClient.socket_connected c = true /\
  exists secret, (eo_viewerId d, secret) ∈ EncryptedWSClient.sharedSecrets c.
Proof.
  unfold EncryptedWSClient.sendEncryptedOutput.
  change (EncryptedWSClient.socket_connected
            (EncryptedWSClient.set_lastOutputEvent (Some event) c))
    with (EncryptedWSClient.socket_connected c).
  change (EncryptedWSClient.sharedSecrets
            (EncryptedWSClient.set_lastOutputEvent (Some event) c))
    with (EncryptedWSClient.sharedSecrets c).
  destruct (EncryptedWSClient.socket_connected c); simpl.
  - pose proof (send_to_each_addressed event rnd (EncryptedWSClient.sharedSecrets c) 0 d)
      as Hx.
    destruct (EncryptedWSClient.send_to_each event rnd 0
                (EncryptedWSClient.sharedSecrets c)) as [out r].
    simpl in Hx. intros Hin. split; [reflexivity|]. apply Hx.
    revert Hin. repeat case_match; simpl; rewrite ?encrypted_outputs_snoc_history; auto.
  - intros Hin. apply elem_of_nil in Hin. contradiction.
Qed.

(** X15.  The producer's client addresses frames to paired viewers only.
    Every ['encrypted-output'] that [sendEncryptedOutput] emits -- also in
    a call that ends in an exception -- is addressed to a viewer that has
    an entry in [sharedSecrets], and is emitted while connected.  So
    after ['viewer-left'] for a viewer no frame is addressed to it and an
    ['encrypted-input'] in its name is dropped, and after [disconnect()]
    nothing is emitted at all and no viewer is paired. *)
Theorem frames_only_for_paired_viewers (event : OutputEvent) (rnd : nat -> bytes)
    (c : EncryptedWSClient.t) :
  (forall d,
      d ∈ encrypted_outputs
            (snd (fst (EncryptedWSClient.sendEncryptedOutput event rnd c))) ->
      EncryptedWSClient.socket_connected c = true /\
      is_Some (JS.map_get (eo_viewerId d) (EncryptedWSClient.sharedSecrets c))) /\
  (forall viewerId d,
      d ∈ encrypted_outputs
            (snd (fst (EncryptedWSClient.sendEncryptedOutput event rnd
                         (EncryptedWSClient.on_viewer_left viewerId c)))) ->
      eo_viewerId d <> viewerId) /\
  (forall viewerId encrypted,
      EncryptedWSClientInput.on_encrypted_input viewerId encrypted
        (EncryptedWSClient.on_viewer_left viewerId c)
      = ([], Return tt)) /\
  snd (fst (EncryptedWSClient.sendEncryptedOutput event rnd
              (EncryptedWSClientInput.disconnect c))) = [] /\
  EncryptedWSClientInput.hasPairedViewers (EncryptedWSClientInput.disconnect c) = false.
Proof.
  split; [|split; [|split; [|split]]].
  - intros d Hin. destruct (sendEncryptedOutput_addressed event rnd c d Hin)
      as [Hc [secret Hs]].
    split; [exact Hc|]. exact (map_get_is_Some _ _ _ Hs).
  - intros viewerId d Hin Heq.
    destruct (sendEncryptedOutput_addressed event rnd _ d Hin) as [_ [secret Hs]].
    simpl in Hs. apply map_delete_elem in Hs as [_ Hne]. simpl in Hne. congruence.
  - intros viewerId encrypted. unfold EncryptedWSClientInput.on_encrypted_input. simpl.
    rewrite map_get_delete_eq. reflexivity.
  - reflexivity.
  - reflexivity.
Qed.

End ProducerFrames.

Section ProducerFrames2.
Context {H : Host} {HL : HostLaws H}.

(** X16.  A viewer that joins late is shown the current frame.  Whatever
    became of the last [sendEncryptedOutput(event)] -- sent, skipped for
    want of a connection or of viewers, or ended by an exception -- the
    client has cached [event]; when ['viewer-joined'] then arrives with a
    public key that decodes and yields a 32-byte shared secret, the
    handler stores the secret under the viewer's id and at once emits one
    ['encrypted-output'] addressed to that viewer, with the event's [seq]
    and [timestamp] and an envelope that opens under the new secret to the
    JSON text of [event]. *)
Theorem late_joiner_gets_last_frame (event : OutputEvent) (rnd0 : nat -> bytes)
    (c : EncryptedWSClient.t) (connection : bool) (viewerId publicKey : string)
    (rnd key secret : bytes) :
  EncryptedWSClient.socket c = Some connection ->
  Crypto.publicKeyFromBase64 publicKey = Return key ->
  Crypto.computeSharedSecret (Crypto.secretKey (EncryptedWSClient.keyPair c)) key
  = Return secret ->
  length secret = nacl_secretbox_keyLength ->
  length rnd = nacl_secretbox_nonceLength ->
  EncryptedWSClient.lastOutputEvent
    (fst (fst (EncryptedWSClient.sendEncryptedOutput event rnd0 c))) = Some event /\
  exists d,
    EncryptedWSClient.on_viewer_joined viewerId publicKey rnd
      (fst (fst (EncryptedWSClient.sendEncryptedOutput event rnd0 c)))
    = (EncryptedWSClient.set_sharedSecrets
         (JS.map_set viewerId secret (EncryptedWSClient.sharedSecrets c))
         (EncryptedWSClient.set_lastOutputEvent (Some event) c),
       [EncryptedWSClient.encrypted_output d], Return tt) /\
    sealed_for event (viewerId, secret) d /\
    JS.map_get viewerId
      (EncryptedWSClient.sharedSecrets
         (fst (fst (EncryptedWSClient.on_viewer_joined viewerId publicKey rnd
                      (fst (fst (EncryptedWSClient.sendEncryptedOutput event rnd0 c)))))))
    = Some secret.
Proof.
  intros Hsock Hkey Hsec Hk Hn. rewrite sendEncryptedOutput_caches.
  split; [reflexivity|].
  unfold EncryptedWSClient.on_viewer_joined. rewrite Hkey. simpl. rewrite Hsec. simpl.
  destruct (encrypt_returns
              (Crypto.MString (JSON_stringify (OutputEvent_to_JS event)))
              secret rnd Hk Hn) as (box & Hbox & Henc).
  rewrite Henc, Hsock. eexists. split; [reflexivity|]. split.
  - repeat split. simpl. apply decryptToString_sealed, Hbox.
  - simpl. apply map_get_set_eq.
Qed.

End ProducerFrames2.

Lemma late_joiner_gets_last_frame_witness :
  EncryptedWSClient.lastOutputEvent
    (fst (fst (@EncryptedWSClient.sendEncryptedOutput RefHost.host sample_event
                 (fun _ => sample_nonce) sample_client))) = Some sample_event /\
  exists d,
    @EncryptedWSClient.on_viewer_joined RefHost.host "V3" (string_of_list_byte sample_key) sample_nonce
      (fst (fst (@EncryptedWSClient.sendEncryptedOutput RefHost.host sample_event
                   (fun _ => sample_nonce) sample_client)))
    = (EncryptedWSClient.set_sharedSecrets
         (JS.map_set "V3" sample_key (EncryptedWSClient.sharedSecrets sample_client))
         (EncryptedWSClient.set_lastOutputEvent (Some sample_event) sample_client),
       [EncryptedWSClient.encrypted_output d], Return tt) /\
    @sealed_for RefHost.host sample_event ("V3"%string, sample_key) d /\
    JS.map_get "V3"
      (EncryptedWSClient.sharedSecrets
         (fst (fst (@EncryptedWSClient.on_viewer_joined RefHost.host "V3" (string_of_list_byte sample_key)
                      sample_nonce
                      (fst (fst (@EncryptedWSClient.sendEncryptedOutput RefHost.host
                                   sample_event (fun _ => sample_nonce)
                                   sample_client)))))))
    = Some sample_key.
Proof.
  apply (@late_joiner_gets_last_frame RefHost.host RefHost_laws sample_event
           (fun _ => sample_nonce) sample_client true "V3" (string_of_list_byte sample_key) sample_nonce
           sample_key sample_key); try reflexivity.
Defined.
Section FrameToViewer.
Context {H : Host} {HL : HostLaws H}.

Lemma as_OutputEvent_to_JS (event : OutputEvent) :
  WebClient.as_OutputEvent (OutputEvent_to_JS event) = Some event.
Proof. destruct event. reflexivity. Qed.

Lemma sendEncryptedOutput_sealed (event : OutputEvent) (rnd : nat -> bytes)
    (c : EncryptedWSClient.t) :
  EncryptedWSClient.socket_connected c = true ->
  Forall (fun entry => length (snd entry) = nacl_secretbox_keyLength)
         (EncryptedWSClient.sharedSecrets c) ->
  (forall i, length (rnd i) = nacl_secretbox_nonceLength) ->
  exists out,
    EncryptedWSClient.sendEncryptedOutput event rnd c
    = (EncryptedWSClient.set_lastOutputEvent (Some event) c, out, Return tt) /\
    Forall2 (sealed_for event) (EncryptedWSClient.sharedSecrets c)
            (encrypted_outputs out).
Proof.
  intros Hconn Hk Hn. unfold EncryptedWSClient.sendEncryptedOutput.
  change (EncryptedWSClient.socket_connected
            (EncryptedWSClient.set_lastOutputEvent (Some event) c))
    with (EncryptedWSClient.socket_connected c).
  rewrite Hconn. simpl.
  destruct (send_to_each_sealed event rnd (EncryptedWSClient.sharedSecrets c) Hk Hn 0)
    as (ds & Hds & Hall).
  rewrite Hds.
  destruct (EncryptedWSClient.sharedSecrets c) as [|[v0 k0] rest] eqn:Hss; simpl.
  - exists []. apply Forall2_nil_inv_l in Hall. subst ds. split; [reflexivity|constructor].
  - apply Forall_cons in Hk as [Hk0 _]. simpl in Hk0.
    destruct (encrypt_returns
                (Crypto.MString (JSON_stringify (OutputEvent_to_JS event)))
                k0 (rnd (S (length rest))) Hk0 (Hn _)) as (c0 & Hc0 & He0).
    rewrite He0. eexists. split; [reflexivity|].
    rewrite encrypted_outputs_app. simpl. rewrite app_nil_r. exact Hall.
Qed.

(** X17.  A frame reaches the viewer's terminal.  Let the producer's
    client be connected and hold 32-byte secrets, one of them for a viewer
    whose page holds the same secret.  Then [sendEncryptedOutput(event)]
    emits an ['encrypted-output'] addressed to that viewer; the relay,
    receiving it from the producer connection, passes the envelope on to
    the room of the viewer's connection with the event's [seq] and
    [timestamp], leaving the session as it is; and the page's handler opens
    the envelope, reads the event back and hands it to [handleOutput]: if
    its [seq] is above the page's sequence number the terminal is cleared
    and shows the event's content. *)
Theorem producer_frame_reaches_viewer (event : OutputEvent) (rnd : nat -> bytes)
    (producer : EncryptedWSClient.t) (viewerId : string) (secret : bytes)
    (page : WebClient.t) (producerSocket : Socket) (s : Session) :
  EncryptedWSClient.socket_connected producer = true ->
  Forall (fun entry => length (snd entry) = nacl_secretbox_keyLength)
         (EncryptedWSClient.sharedSecrets producer) ->
  (forall i, length (rnd i) = nacl_secretbox_nonceLength) ->
  (viewerId, secret) ∈ EncryptedWSClient.sharedSecrets producer ->
  WebClient.sharedSecret page = Some secret ->
  JSON_stringify (OutputEvent_to_JS event) <> ""%string ->
  JSON_parse (JSON_stringify (OutputEvent_to_JS event)) = Return (OutputEvent_to_JS event) ->
  clientType producerSocket = cli ->
  exists out d,
    EncryptedWSClient.sendEncryptedOutput event rnd producer
    = (EncryptedWSClient.set_lastOutputEvent (Some event) producer, out, Return tt) /\
    d ∈ encrypted_outputs out /\
    eo_viewerId d = viewerId /\
    on_encrypted_output producerSocket d s
    = (s, [Emit (ToRoom viewerId)
                (encrypted_output (eo_encrypted d) (seq event) (timestamp event))]) /\
    WebClient.on_encrypted_output (eo_encrypted d) page
    = Return (Some (WebClient.handleOutput event false page)) /\
    (WebClient.currentSeq page < seq event ->
     WebClient.handleOutput event false page
     = (WebClient.set_currentSeq (seq event) page, draws event)).
Proof.
  intros Hconn Hk Hn Hin Hs Hne Hrt Hcli.
  destruct (sendEncryptedOutput_sealed event rnd producer Hconn Hk Hn)
    as (out & Hout & Hall).
  apply list_elem_of_lookup in Hin as [i Hi].
  destruct (Forall2_lookup_l _ _ _ _ _ Hall Hi) as (d & Hd & Hv & Hq & Ht & Hopen).
  simpl in Hv, Hopen.
  exists out, d. split; [exact Hout|].
  split; [apply list_elem_of_lookup; eauto|]. split; [exact Hv|]. split; [|split].
  - unfold on_encrypted_output. rewrite (bool_decide_eq_true_2 _ Hcli). simpl.
    rewrite Hv, Hq, Ht. reflexivity.
  - unfold WebClient.on_encrypted_output. rewrite Hs, Hopen. simpl.
    rewrite (bool_decide_eq_false_2 _ Hne). simpl. rewrite Hrt.
    unfold OutputEvent_to_JS at 1.
    change (WebClient.as_OutputEvent (JS.Obj _))
      with (WebClient.as_OutputEvent (OutputEvent_to_JS event)).
    rewrite as_OutputEvent_to_JS. reflexivity.
  - intros Hlt. unfold WebClient.handleOutput.
    assert ((seq event <=? WebClient.currentSeq page) = false) as ->
      by (apply Z.leb_gt; lia).
    reflexivity.
Qed.

End FrameToViewer.

Lemma producer_frame_reaches_viewer_witness :
  exists out d,
    @EncryptedWSClient.sendEncryptedOutput RefHost.host sample_event
      (fun _ => sample_nonce) sample_client
    = (EncryptedWSClient.set_lastOutputEvent (Some sample_event) sample_client, out,
       Return tt) /\
    d ∈ encrypted_outputs out /\
    eo_viewerId d = "V1"%string /\
    on_encrypted_output producerP1 d (demo_session (Some "P1"%string))
    = (demo_session (Some "P1"%string),
       [Emit (ToRoom "V1") (encrypted_output (eo_encrypted d) 1 1000)]) /\
    @WebClient.on_encrypted_output RefHost.host (eo_encrypted d) sample_page
    = Return (Some (WebClient.handleOutput sample_event false sample_page)) /\
    (WebClient.currentSeq sample_page < 1 ->
     WebClient.handleOutput sample_event false sample_page
     = (WebClient.set_currentSeq 1 sample_page, draws sample_event)).
Proof.
  apply (@producer_frame_reaches_viewer RefHost.host RefHost_laws sample_event
           (fun _ => sample_nonce) sample_client "V1" (repeat Byte.x11 32) sample_page
           producerP1 (demo_session (Some "P1"%string)));
    try reflexivity; try discriminate.
  - repeat constructor.
  - apply elem_of_cons. left. reflexivity.
Defined.

(** ** The daemon: commands *)

Section DaemonCommandsAnswered.
Context {H : Host}.

Lemma daemon_emit_connected (d : DaemonManager.t) (b : bool) (m : DaemonManager.Emit) :
  DaemonManager.socket d = Some b -> DaemonManager.emit d m = [m].
Proof. intros Hs. unfold DaemonManager.emit. rewrite Hs. reflexivity. Qed.

(** The callback of [capture.start] on a session that no viewer has
    joined: it records the frame and emits nothing. *)
Lemma on_capture_events_unpaired (name : string) (event : OutputEvent)
    (rnd : nat -> bytes) (d : DaemonManager.t) (session : DaemonManager.SessionCapture) :
  JS.map_get name (DaemonManager.activeSessions d) = Some session ->
  DaemonManager.sharedSecrets session = [] ->
  DaemonManager.on_capture_events name [event] rnd d
  = (DaemonManager.set_activeSessions
       (JS.map_set name (DaemonManager.set_lastOutput (Some event) session)
                   (DaemonManager.activeSessions d)) d, [], Return tt).
Proof.
  intros Hg Hs. simpl. rewrite Hg. unfold DaemonManager.broadcastOutput. simpl.
  rewrite map_get_set_eq. simpl. rewrite Hs.
  destruct (negb (DaemonManager.socket_connected _)); reflexivity.
Qed.

Lemma map_set_set {V} (k : string) (v w : V) (m : JS.Map V) :
  JS.map_set k w (JS.map_set k v m) = JS.map_set k w m.
Proof.
  induction m as [|[k' v'] m IH]; simpl.
  - rewrite bool_decide_eq_true_2 by reflexivity. reflexivity.
  - case_bool_decide; simpl.
    + rewrite bool_decide_eq_true_2 by assumption. reflexivity.
    + rewrite bool_decide_eq_false_2 by assumption. f_equal. exact IH.
Qed.

Lemma map_get_set_ne {V} (k k' : string) (v : V) (m : JS.Map V) :
  k' <> k -> JS.map_get k' (JS.map_set k v m) = JS.map_get k' m.
Proof.
  intros Hne. induction m as [|[k0 v0] m IH]; simpl.
  - rewrite bool_decide_eq_false_2 by congruence. reflexivity.
  - destruct (decide (k0 = k)) as [->|Hk].
    + rewrite (bool_decide_eq_true_2 (k = k)) by reflexivity. simpl.
      rewrite bool_decide_eq_false_2 by congruence. reflexivity.
    + rewrite (bool_decide_eq_false_2 (k0 = k)) by assumption. simpl.
      case_bool_decide; [reflexivity|exact IH].
Qed.

Lemma map_set_new {V} (k : string) (v : V) (m : JS.Map V) :
  JS.map_get k m = None -> JS.map_set k v m = m ++ [(k, v)].
Proof.
  induction m as [|[k' v'] m IH]; simpl; [reflexivity|].
  case_bool_decide; [discriminate|]. intros Hg. f_equal. auto.
Qed.

Lemma map_delete_absent {V} (k : string) (m : JS.Map V) :
  JS.map_get k m = None -> JS.map_delete k m = m.
Proof.
  unfold JS.map_delete. induction m as [|[k' v'] m IH]; intros Hg; [reflexivity|].
  simpl in Hg. case_bool_decide as Hk; [discriminate|].
  cbn. rewrite bool_decide_eq_false_2 by assumption. cbn. f_equal. exact (IH Hg).
Qed.

Lemma map_delete_set_new {V} (k : string) (v : V) (m : JS.Map V) :
  JS.map_get k m = None -> JS.map_delete k (JS.map_set k v m) = m.
Proof.
  intros Hg. rewrite (map_set_new k v m Hg).
  rewrite <- (map_delete_absent k m Hg) at 2.
  unfold JS.map_delete, JS.Map. rewrite filter_app.
  rewrite (filter_cons_False _ (k, v));
    [apply app_nil_r|]. simpl. rewrite bool_decide_eq_true_2 by reflexivity. simpl. auto.
Qed.

End DaemonCommandsAnswered.
Section DaemonCommandsAnswered2.
Context {H : Host}.

Lemma cmdAttachSession_attaches (tmux : DaemonManager.Tmux) (pair : Crypto.KeyPair)
    (now : Z) (pane : string) (started : Z) (rnd : nat -> bytes) (commandId name : string)
    (d : DaemonManager.t) (b : bool) :
  DaemonManager.socket d = Some b ->
  name <> ""%string ->
  DaemonManager.tmux_sessionExists tmux name = true ->
  JS.map_get name (DaemonManager.activeSessions d) = None ->
  DaemonManager.cmdAttachSession tmux pair now pane started rnd commandId (Some name) d
  = (DaemonManager.set_activeSessions
       (JS.map_set name (attached_session name pair now pane started)
                   (DaemonManager.activeSessions d)) d,
     [DaemonManager.session_attached
        name (Crypto.publicKeyToBase64 (Crypto.publicKey pair)) true],
     inl (DaemonManager.success commandId (attached_data name pair now))).
Proof.
  intros Hs Hn He Hg. unfold DaemonManager.cmdAttachSession.
  simpl. rewrite (bool_decide_eq_false_2 _ Hn), He, Hg. simpl.
  unfold attached_session, TmuxCapture.start. simpl.
  case_bool_decide as Hp; simpl.
  - unfold DaemonManager.emit. simpl. rewrite Hs, map_set_set. reflexivity.
  - unfold DaemonManager.broadcastOutput, DaemonManager.emit. simpl.
    repeat (rewrite ?Hs, ?map_get_set_eq; simpl).
    destruct (negb (DaemonManager.socket_connected _)); simpl;
      repeat (rewrite ?Hs, ?map_get_set_eq, ?map_set_set; simpl); reflexivity.
Qed.

(** X18.  The daemon answers every command, and only with an answer.
    With a socket at hand, [handleCommand] emits exactly one
    ['cli-response'], last, and it carries the command's id.  A failed
    command leaves the daemon as it was and emits nothing else; its answer
    has an error message and no data: the name is missing or empty, the
    tmux session exists already (create) or not (attach), the session is
    attached already (attach) or not attached (detach), [createSession]
    threw -- the answer then carries the message of the exception -- or the
    command is none of the four.  No exception leaves the handler. *)
Theorem daemon_answers_every_command (tmux : DaemonManager.Tmux) (pair : Crypto.KeyPair)
    (now : Z) (pane : string) (started : Z) (rnd : nat -> bytes)
    (msg : DaemonManager.CommandMessage) (d : DaemonManager.t) (b : bool) :
  DaemonManager.socket d = Some b ->
  exists out response,
    snd (DaemonManager.handleCommand tmux pair now pane started rnd msg d)
    = out ++ [DaemonManager.cli_response response] /\
    Forall (fun m => is_cli_response m = false) out /\
    cr_commandId response = DaemonManager.cm_commandId msg /\
    (cr_success response = false ->
     fst (DaemonManager.handleCommand tmux pair now pane started rnd msg d) = d /\
     out = [] /\ cr_data response = None /\ is_Some (cr_error response)) /\
    (cr_success response = true ->
     is_Some (cr_data response) /\ cr_error response = None /\
     DaemonManager.cm_command msg
       ∈ ["list-sessions"; "create-session"; "attach-session"; "detach-session"]%string) /\
    (forall name message,
        DaemonManager.cm_command msg = "create-session"%string ->
        DaemonManager.cm_name msg = Some name -> name <> ""%string ->
        DaemonManager.tmux_sessionExists tmux name = false ->
        DaemonManager.tmux_createSession tmux name = Some message ->
        response = DaemonManager.failure (DaemonManager.cm_commandId msg) message) /\
    (DaemonManager.cm_command msg
       ∉ ["list-sessions"; "create-session"; "attach-session"; "detach-session"]%string ->
     response = DaemonManager.failure (DaemonManager.cm_commandId msg)
                  ("Unknown command: " +:+ DaemonManager.cm_command msg)).
Proof.
  intros Hs. destruct msg as [cid command name]. unfold DaemonManager.handleCommand.
  simpl.
  assert (Hin : forall c, c ∈ ["list-sessions"; "create-session"; "attach-session";
                             "detach-session"]%string <->
                          c = "list-sessions"%string \/ c = "create-session"%string \/
                          c = "attach-session"%string \/ c = "detach-session"%string).
  { intros c. rewrite !elem_of_cons, elem_of_nil. tauto. }
  assert (Hemit : forall d' m, DaemonManager.socket d' = DaemonManager.socket d ->
                               DaemonManager.emit d' m = [m]).
  { intros d' m Hd. unfold DaemonManager.emit. rewrite Hd, Hs. reflexivity. }
  (* a failure that no [createSession] caused *)
  assert (Hfail : forall message,
             (forall n m, command = "create-session"%string -> name = Some n ->
                          n <> ""%string ->
                          DaemonManager.tmux_sessionExists tmux n = false ->
                          DaemonManager.tmux_createSession tmux n = Some m ->
                          m = message) ->
             (command ∉ ["list-sessions"; "create-session"; "attach-session";
                         "detach-session"]%string ->
              message = "Unknown command: " +:+ command) ->
             exists out response,
               [] ++ DaemonManager.emit d
                       (DaemonManager.cli_response (DaemonManager.failure cid message))
               = out ++ [DaemonManager.cli_response response] /\
               Forall (fun m => is_cli_response m = false) out /\
               cr_commandId response = cid /\
               (cr_success response = false ->
                d = d /\ out = [] /\ cr_data response = None /\
                is_Some (cr_error response)) /\
               (cr_success response = true ->
                is_Some (cr_data response) /\ cr_error response = None /\
                command ∈ ["list-sessions"; "create-session"; "attach-session";
                           "detach-session"]%string) /\
               (forall n m, command = "create-session"%string -> name = Some n ->
                            n <> ""%string ->
                            DaemonManager.tmux_sessionExists tmux n = false ->
                            DaemonManager.tmux_createSession tmux n = Some m ->
                            response = DaemonManager.failure cid m) /\
               (command ∉ ["list-sessions"; "create-session"; "attach-session";
                           "detach-session"]%string ->
                response = DaemonManager.failure cid ("Unknown command: " +:+ command))).
  { intros message Hc Hu. exists [], (DaemonManager.failure cid message).
    rewrite (Hemit d _ eq_refl). simpl.
    split; [reflexivity|]. split; [constructor|]. split; [reflexivity|].
    split; [intros _; repeat split; eauto|]. split; [discriminate|]. split.
    - intros n m H1 H2 H3 H4 H5. rewrite (Hc n m H1 H2 H3 H4 H5). reflexivity.
    - intros Hn. rewrite (Hu Hn). reflexivity. }
  (* a success *)
  assert (Hok : forall d' out data,
             DaemonManager.socket d' = DaemonManager.socket d ->
             Forall (fun m => is_cli_response m = false) out ->
             command ∈ ["list-sessions"; "create-session"; "attach-session";
                        "detach-session"]%string ->
             (forall n m, command = "create-session"%string -> name = Some n ->
                          n <> ""%string ->
                          DaemonManager.tmux_sessionExists tmux n = false ->
                          DaemonManager.tmux_createSession tmux n = Some m -> False) ->
             exists out0 response,
               out ++ DaemonManager.emit d'
                        (DaemonManager.cli_response (DaemonManager.success cid data))
               = out0 ++ [DaemonManager.cli_response response] /\
               Forall (fun m => is_cli_response m = false) out0 /\
               cr_commandId response = cid /\
               (cr_success response = false ->
                d' = d /\ out0 = [] /\ cr_data response = None /\
                is_Some (cr_error response)) /\
               (cr_success response = true ->
                is_Some (cr_data response) /\ cr_error response = None /\
                command ∈ ["list-sessions"; "create-session"; "attach-session";
                           "detach-session"]%string) /\
               (forall n m, command = "create-session"%string -> name = Some n ->
                            n <> ""%string ->
                            DaemonManager.tmux_sessionExists tmux n = false ->
                            DaemonManager.tmux_createSession tmux n = Some m ->
                            response = DaemonManager.failure cid m) /\
               (command ∉ ["list-sessions"; "create-session"; "attach-session";
                           "detach-session"]%string ->
                response = DaemonManager.failure cid ("Unknown command: " +:+ command))).
  { intros d' out data Hd Hout Hc Hcr. exists out, (DaemonManager.success cid data).
    rewrite (Hemit d' _ Hd). simpl.
    split; [reflexivity|]. split; [exact Hout|]. split; [reflexivity|].
    split; [discriminate|]. split; [intros _; repeat split; eauto|]. split.
    - intros n m H1 H2 H3 H4 H5. exfalso. exact (Hcr n m H1 H2 H3 H4 H5).
    - intros Hn. contradiction. }
  case_bool_decide as H1.
  { (* list-sessions *)
    subst command. simpl. apply (Hok d []); [reflexivity|constructor| |discriminate].
    apply Hin. auto. }
  case_bool_decide as H2.
  { (* create-session *)
    subst command. unfold DaemonManager.cmdCreateSession.
    assert (Hknown : "create-session"%string
                       ∉ ["list-sessions"; "create-session"; "attach-session";
                          "detach-session"]%string ->
                     forall x : string, x = "Unknown command: create-session"%string).
    { intros Hn. exfalso. apply Hn, Hin. auto. }
    destruct name as [name|]; [|apply Hfail; [discriminate|intros Hn; apply Hknown, Hn]].
    destruct (decide (name = ""%string)) as [->|Hname].
    { simpl. apply Hfail; [|intros Hn; apply Hknown, Hn].
      intros n m _ [= <-] Hne. contradiction. }
    simpl. rewrite (bool_decide_eq_false_2 _ Hname). simpl.
    destruct (DaemonManager.tmux_sessionExists tmux name) eqn:Hex.
    { apply Hfail; [|intros Hn; apply Hknown, Hn].
      intros n m _ [= <-] _ Hf. congruence. }
    destruct (DaemonManager.tmux_createSession tmux name) as [message|] eqn:Hcr.
    { apply Hfail; [|intros Hn; apply Hknown, Hn].
      intros n m _ [= <-] _ _ Hm. congruence. }
    apply (Hok d [DaemonManager.created_session name]);
      [reflexivity|repeat constructor|apply Hin; auto|].
    intros n m _ [= <-] _ _ Hm. congruence. }
  case_bool_decide as H3.
  { (* attach-session *)
    subst command.
    assert (Hknown : "attach-session"%string
                       ∉ ["list-sessions"; "create-session"; "attach-session";
                          "detach-session"]%string ->
                     forall x : string, x = "Unknown command: attach-session"%string).
    { intros Hn. exfalso. apply Hn, Hin. auto. }
    destruct name as [name|];
      [|simpl; apply Hfail; [discriminate|intros Hn; apply Hknown, Hn]].
    destruct (decide (name = ""%string)) as [->|Hname].
    { simpl. apply Hfail; [discriminate|intros Hn; apply Hknown, Hn]. }
    destruct (DaemonManager.tmux_sessionExists tmux name) eqn:Hex.
    2:{ unfold DaemonManager.cmdAttachSession. simpl.
        rewrite (bool_decide_eq_false_2 _ Hname), Hex. simpl.
        apply Hfail; [discriminate|intros Hn; apply Hknown, Hn]. }
    destruct (JS.map_get name (DaemonManager.activeSessions d)) as [old|] eqn:Hg.
    { unfold DaemonManager.cmdAttachSession. simpl.
      rewrite (bool_decide_eq_false_2 _ Hname), Hex, Hg. simpl.
      apply Hfail; [discriminate|intros Hn; apply Hknown, Hn]. }
    rewrite (cmdAttachSession_attaches tmux pair now pane started rnd cid name d b
               Hs Hname Hex Hg).
    apply (Hok _ [DaemonManager.session_attached name _ true]);
      [reflexivity|repeat constructor|apply Hin; auto|discriminate]. }
  case_bool_decide as H4.
  { (* detach-session *)
    subst command. unfold DaemonManager.cmdDetachSession.
    assert (Hknown : "detach-session"%string
                       ∉ ["list-sessions"; "create-session"; "attach-session";
                          "detach-session"]%string ->
                     forall x : string, x = "Unknown command: detach-session"%string).
    { intros Hn. exfalso. apply Hn, Hin. auto 6. }
    destruct name as [name|]; [|apply Hfail; [discriminate|intros Hn; apply Hknown, Hn]].
    destruct (negb (JS.truthy_str (Some name)));
      [apply Hfail; [discriminate|intros Hn; apply Hknown, Hn]|].
    destruct (JS.map_get name (DaemonManager.activeSessions d)) as [old|] eqn:Hg;
      [|apply Hfail; [discriminate|intros Hn; apply Hknown, Hn]].
    rewrite (Hemit (DaemonManager.set_activeSessions _ d) _ eq_refl).
    apply (Hok _ [DaemonManager.session_detached name]);
      [reflexivity|repeat constructor|apply Hin; auto 6|discriminate]. }
  (* none of the four *)
  simpl. apply Hfail; [intros; congruence|reflexivity].
Qed.

End DaemonCommandsAnswered2.
Section DaemonLifecycle.
Context {H : Host}.

(** X19.  Attaching and detaching a session.  For a daemon with a socket, an
    ['attach-session'] for a non-empty name that tmux knows and that is not
    attached registers the session -- with a fresh key pair, a pairing code
    for that name and key, a started capture whose first frame, if the
    pane is not empty, is kept as the last output, and no viewer -- emits
    [session-attached{sessionId: name, publicKey, encrypted: true}] and
    then answers with the name, the same public key and the encoded
    pairing code; the other sessions are untouched.  While it is attached,
    another ['attach-session'] for it is refused and changes nothing.  A
    ['detach-session'] for it emits ['session-detached'], answers with the
    name and gives back the daemon as it was before the attach. *)
Theorem daemon_attach_detach (tmux : DaemonManager.Tmux) (pair : Crypto.KeyPair)
    (now : Z) (pane : string) (started : Z) (rnd : nat -> bytes) (cid name : string)
    (d : DaemonManager.t) (b : bool) :
  DaemonManager.socket d = Some b ->
  name <> ""%string ->
  DaemonManager.tmux_sessionExists tmux name = true ->
  JS.map_get name (DaemonManager.activeSessions d) = None ->
  let attach c := DaemonManager.mkCommandMessage c "attach-session" (Some name) in
  let detach c := DaemonManager.mkCommandMessage c "detach-session" (Some name) in
  let d1 := DaemonManager.set_activeSessions
              (JS.map_set name (attached_session name pair now pane started)
                          (DaemonManager.activeSessions d)) d in
  DaemonManager.handleCommand tmux pair now pane started rnd (attach cid) d
  = (d1,
     [DaemonManager.session_attached
        name (Crypto.publicKeyToBase64 (Crypto.publicKey pair)) true;
      DaemonManager.cli_response
        (DaemonManager.success cid (attached_data name pair now))]) /\
  JS.map_get name (DaemonManager.activeSessions d1)
  = Some (attached_session name pair now pane started) /\
  (forall other, other <> name ->
                 JS.map_get other (DaemonManager.activeSessions d1)
                 = JS.map_get other (DaemonManager.activeSessions d)) /\
  Crypto.pc_sessionId (DaemonManager.pairingCode
                         (attached_session name pair now pane started)) = name /\
  Crypto.pc_publicKey (DaemonManager.pairingCode
                         (attached_session name pair now pane started))
  = Crypto.publicKeyToBase64 (Crypto.publicKey pair) /\
  (forall tmux' pair' now' pane' started' rnd' cid',
      DaemonManager.tmux_sessionExists tmux' name = true ->
      DaemonManager.handleCommand tmux' pair' now' pane' started' rnd' (attach cid') d1
      = (d1, [DaemonManager.cli_response
                (DaemonManager.failure
                   cid' (DaemonManager.about_session name "is already attached"))])) /\
  (forall tmux' pair' now' pane' started' rnd' cid',
      DaemonManager.handleCommand tmux' pair' now' pane' started' rnd' (detach cid') d1
      = (d, [DaemonManager.session_detached name;
             DaemonManager.cli_response
               (DaemonManager.success cid' (DaemonManager.named name))])).
Proof.
  intros Hs Hname Hex Hg attach detach d1.
  assert (Hg1 : JS.map_get name (DaemonManager.activeSessions d1)
                = Some (attached_session name pair now pane started))
    by apply map_get_set_eq.
  split; [|split; [exact Hg1|split; [|split; [reflexivity|split; [reflexivity|split]]]]].
  - unfold DaemonManager.handleCommand, attach.
    cbn [DaemonManager.cm_command DaemonManager.cm_commandId DaemonManager.cm_name].
    rewrite (bool_decide_eq_false_2 ("attach-session"%string = "list-sessions"%string))
      by discriminate.
    rewrite (bool_decide_eq_false_2 ("attach-session"%string = "create-session"%string))
      by discriminate.
    rewrite (bool_decide_eq_true_2 ("attach-session"%string = "attach-session"%string))
      by reflexivity.
    rewrite (cmdAttachSession_attaches tmux pair now pane started rnd cid name d b
               Hs Hname Hex Hg).
    unfold DaemonManager.emit. simpl. rewrite Hs. reflexivity.
  - intros other Hne. apply map_get_set_ne, Hne.
  - intros tmux' pair' now' pane' started' rnd' cid' Hex'.
    unfold DaemonManager.handleCommand, DaemonManager.cmdAttachSession. simpl.
    rewrite (bool_decide_eq_false_2 _ Hname), Hex'. simpl.
    rewrite map_get_set_eq. unfold DaemonManager.emit. simpl. rewrite Hs. reflexivity.
  - intros tmux' pair' now' pane' started' rnd' cid'.
    unfold DaemonManager.handleCommand, DaemonManager.cmdDetachSession. simpl.
    rewrite (bool_decide_eq_false_2 _ Hname). simpl.
    rewrite map_get_set_eq. unfold DaemonManager.emit. simpl. rewrite Hs. simpl.
    rewrite (map_delete_set_new name _ _ Hg). destruct d. reflexivity.
Qed.

End DaemonLifecycle.

Lemma daemon_attach_detach_witness :
  let attach c := DaemonManager.mkCommandMessage c "attach-session" (Some "work"%string) in
  let detach c := DaemonManager.mkCommandMessage c "detach-session" (Some "work"%string) in
  let d1 := DaemonManager.set_activeSessions
              (JS.map_set "work"
                 (@attached_session RefHost.host "work"
                    (Crypto.mkKeyPair sample_key sample_key) 5 "$ " 6)
                 (DaemonManager.activeSessions sample_daemon)) sample_daemon in
  @DaemonManager.handleCommand RefHost.host sample_tmux
    (Crypto.mkKeyPair sample_key sample_key) 5 "$ " 6 (fun _ => sample_nonce)
    (attach "c1"%string) sample_daemon
  = (d1,
     [DaemonManager.session_attached
        "work" (@Crypto.publicKeyToBase64 RefHost.host sample_key) true;
      DaemonManager.cli_response
        (DaemonManager.success "c1"
           (@attached_data RefHost.host "work"
              (Crypto.mkKeyPair sample_key sample_key) 5))]) /\
  JS.map_get "work" (DaemonManager.activeSessions d1)
  = Some (@attached_session RefHost.host "work"
            (Crypto.mkKeyPair sample_key sample_key) 5 "$ " 6) /\
  (forall other, other <> "work"%string ->
                 JS.map_get other (DaemonManager.activeSessions d1)
                 = JS.map_get other (DaemonManager.activeSessions sample_daemon)) /\
  Crypto.pc_sessionId
    (DaemonManager.pairingCode
       (@attached_session RefHost.host "work"
          (Crypto.mkKeyPair sample_key sample_key) 5 "$ " 6)) = "work"%string /\
  Crypto.pc_publicKey
    (DaemonManager.pairingCode
       (@attached_session RefHost.host "work"
          (Crypto.mkKeyPair sample_key sample_key) 5 "$ " 6))
  = @Crypto.publicKeyToBase64 RefHost.host sample_key /\
  (forall tmux' pair' now' pane' started' rnd' cid',
      DaemonManager.tmux_sessionExists tmux' "work" = true ->
      @DaemonManager.handleCommand RefHost.host tmux' pair' now' pane' started' rnd'
        (attach cid') d1
      = (d1, [DaemonManager.cli_response
                (DaemonManager.failure
                   cid' (DaemonManager.about_session "work" "is already attached"))])) /\
  (forall tmux' pair' now' pane' started' rnd' cid',
      @DaemonManager.handleCommand RefHost.host tmux' pair' now' pane' started' rnd'
        (detach cid') d1
      = (sample_daemon,
         [DaemonManager.session_detached "work";
          DaemonManager.cli_response
            (DaemonManager.success cid' (DaemonManager.named "work"))])).
Proof.
  apply (@daemon_attach_detach RefHost.host sample_tmux
           (Crypto.mkKeyPair sample_key sample_key) 5 "$ " 6 (fun _ => sample_nonce)
           "c1" "work" sample_daemon true); try reflexivity.
  discriminate.
Defined.

Lemma daemon_answers_every_command_witness :
  exists out response,
    snd (@DaemonManager.handleCommand RefHost.host sample_tmux
           (Crypto.mkKeyPair sample_key sample_key) 5 "$ " 6 (fun _ => sample_nonce)
           (DaemonManager.mkCommandMessage "c1" "restart" None) sample_daemon)
    = out ++ [DaemonManager.cli_response response] /\
    Forall (fun m => is_cli_response m = false) out /\
    cr_commandId response = "c1"%string /\
    (cr_success response = false ->
     fst (@DaemonManager.handleCommand RefHost.host sample_tmux
            (Crypto.mkKeyPair sample_key sample_key) 5 "$ " 6 (fun _ => sample_nonce)
            (DaemonManager.mkCommandMessage "c1" "restart" None) sample_daemon)
     = sample_daemon /\
     out = [] /\ cr_data response = None /\ is_Some (cr_error response)) /\
    (cr_success response = true ->
     is_Some (cr_data response) /\ cr_error response = None /\
     "restart"%string
       ∈ ["list-sessions"; "create-session"; "attach-session"; "detach-session"]%string) /\
    (forall name message,
        "restart"%string = "create-session"%string ->
        None = Some name -> name <> ""%string ->
        DaemonManager.tmux_sessionExists sample_tmux name = false ->
        DaemonManager.tmux_createSession sample_tmux name = Some message ->
        response = DaemonManager.failure "c1" message) /\
    ("restart"%string
       ∉ ["list-sessions"; "create-session"; "attach-session"; "detach-session"]%string ->
     response = DaemonManager.failure "c1" "Unknown command: restart").
Proof.
  apply (@daemon_answers_every_command RefHost.host sample_tmux
           (Crypto.mkKeyPair sample_key sample_key) 5 "$ " 6 (fun _ => sample_nonce)
           (DaemonManager.mkCommandMessage "c1" "restart" None) sample_daemon true).
  reflexivity.
Defined.
(** ** The daemon: sessions stay apart *)

Lemma map_get_set {V} (k k' : string) (v : V) (m : JS.Map V) :
  JS.map_get k' (JS.map_set k v m) = if decide (k' = k) then Some v else JS.map_get k' m.
Proof.
  destruct (decide (k' = k)) as [->|Hne];
    [apply map_get_set_eq | apply map_get_set_ne, Hne].
Qed.

Lemma map_get_delete_ne {V} (k k' : string) (m : JS.Map V) :
  k' <> k -> JS.map_get k' (JS.map_delete k m) = JS.map_get k' m.
Proof.
  intros Hne. unfold JS.map_delete, JS.Map. induction m as [|[k0 v0] m IH]; [reflexivity|].
  destruct (decide (k0 = k)) as [->|Hk].
  - rewrite filter_cons_False
      by (simpl; rewrite bool_decide_eq_true_2 by reflexivity; simpl; auto).
    simpl. rewrite bool_decide_eq_false_2 by congruence. exact IH.
  - rewrite filter_cons_True
      by (simpl; rewrite bool_decide_eq_false_2 by assumption; exact I).
    simpl. case_bool_decide; [reflexivity|exact IH].
Qed.

Lemma same_pairing_refl s : same_pairing s s.
Proof. repeat split. Qed.

Lemma same_sessions_refl d : same_sessions d d.
Proof.
  split; [reflexivity|]. intros name.
  destruct (JS.map_get name (DaemonManager.activeSessions d)); [apply same_pairing_refl|exact I].
Qed.

Lemma same_sessions_trans d1 d2 d3 :
  same_sessions d1 d2 -> same_sessions d2 d3 -> same_sessions d1 d3.
Proof.
  intros [S1 H1] [S2 H2]. split; [congruence|]. intros name.
  specialize (H1 name). specialize (H2 name).
  destruct (JS.map_get name (DaemonManager.activeSessions d1)) as [s1|],
           (JS.map_get name (DaemonManager.activeSessions d2)) as [s2|],
           (JS.map_get name (DaemonManager.activeSessions d3)) as [s3|];
    try contradiction; try exact I.
  destruct H1 as (A1 & A2 & A3 & A4 & A5), H2 as (B1 & B2 & B3 & B4 & B5).
  repeat split; congruence.
Qed.

(** Replacing an attached session by one with the same pairing. *)
Lemma same_sessions_set d name s s' :
  JS.map_get name (DaemonManager.activeSessions d) = Some s ->
  same_pairing s s' ->
  same_sessions d (DaemonManager.set_activeSessions
                     (JS.map_set name s' (DaemonManager.activeSessions d)) d).
Proof.
  intros Hg Hp. split; [reflexivity|]. intros k. simpl. rewrite map_get_set.
  destruct (decide (k = name)) as [->|Hne].
  - rewrite Hg. exact Hp.
  - destruct (JS.map_get k (DaemonManager.activeSessions d));
      [apply same_pairing_refl|exact I].
Qed.

Section DaemonSessions.
Context {H : Host}.

Lemma sessions_well_formed_same d d' :
  same_sessions d d' -> sessions_well_formed d -> sessions_well_formed d'.
Proof.
  intros [_ Hs] Hw name s' Hg. specialize (Hs name). rewrite Hg in Hs.
  destruct (JS.map_get name (DaemonManager.activeSessions d)) as [s|] eqn:Hd;
    [|contradiction].
  destruct Hs as (A1 & A2 & A3 & A4 & A5). destruct (Hw name s Hd) as (W1 & W2 & W3 & W4).
  repeat split; congruence.
Qed.

Lemma no_viewer_paired_same d d' :
  same_sessions d d' -> no_viewer_paired d -> no_viewer_paired d'.
Proof.
  intros [_ Hs] Hw name s' Hg. specialize (Hs name). rewrite Hg in Hs.
  destruct (JS.map_get name (DaemonManager.activeSessions d)) as [s|] eqn:Hd;
    [|contradiction].
  destruct Hs as (A1 & A2 & A3 & A4 & A5). rewrite A4. exact (Hw name s Hd).
Qed.

Lemma send_to_each_frames (name : string) (event : OutputEvent) (rnd : nat -> bytes)
    (entries : list (string * bytes)) :
  forall i m,
    m ∈ fst (DaemonManager.send_to_each name event rnd i entries) ->
    exists data secret,
      m = DaemonManager.encrypted_output name data /\
      (eo_viewerId data, secret) ∈ entries.
Proof.
  induction entries as [|[viewerId secret] rest IH]; intros i m; simpl.
  - intros Hin. apply elem_of_nil in Hin. contradiction.
  - destruct (Crypto.encrypt _ secret (rnd i)) as [e|]; simpl.
    + specialize (IH (S i) m).
      destruct (DaemonManager.send_to_each name event rnd (S i) rest) as [out r].
      simpl in *. intros Hin. apply elem_of_cons in Hin as [->|Hin].
      * eexists _, secret. split; [reflexivity|]. simpl. left.
      * destruct (IH Hin) as (data & k & Hm & Hk). exists data, k. split; [exact Hm|].
        right. exact Hk.
    + intros Hin. apply elem_of_nil in Hin. contradiction.
Qed.

(** A frame is addressed to a viewer paired with the session it shows. *)
Lemma broadcastOutput_frames (name : string) (event : OutputEvent) (rnd : nat -> bytes)
    (d : DaemonManager.t) (m : DaemonManager.Emit) :
  m ∈ fst (DaemonManager.broadcastOutput name event rnd d) ->
  exists data session secret,
    m = DaemonManager.encrypted_output name data /\
    JS.map_get name (DaemonManager.activeSessions d) = Some session /\
    (eo_viewerId data, secret) ∈ DaemonManager.sharedSecrets session.
Proof.
  unfold DaemonManager.broadcastOutput.
  destruct (JS.map_get name (DaemonManager.activeSessions d)) as [session|];
    [|intros Hin; apply elem_of_nil in Hin; contradiction].
  destruct (negb (DaemonManager.socket_connected d));
    [intros Hin; apply elem_of_nil in Hin; contradiction|].
  intros Hin. destruct (send_to_each_frames name event rnd _ 0 m Hin)
    as (data & secret & Hm & Hk).
  exists data, session, secret. auto.
Qed.

Lemma on_capture_events_same (name : string) (events : list OutputEvent)
    (rnd : nat -> bytes) :
  forall d,
    same_sessions d (fst (fst (DaemonManager.on_capture_events name events rnd d))) /\
    forall m,
      m ∈ snd (fst (DaemonManager.on_capture_events name events rnd d)) ->
      exists data session secret,
        m = DaemonManager.encrypted_output name data /\
        JS.map_get name (DaemonManager.activeSessions d) = Some session /\
        (eo_viewerId data, secret) ∈ DaemonManager.sharedSecrets session.
Proof.
  induction events as [|e rest IH]; intros d; simpl.
  - split; [apply same_sessions_refl|].
    intros m Hin. apply elem_of_nil in Hin. contradiction.
  - set (d1 := match JS.map_get name (DaemonManager.activeSessions d) with
               | Some session => _
               | None => d
               end).
    assert (H1 : same_sessions d d1).
    { subst d1. destruct (JS.map_get name (DaemonManager.activeSessions d)) as [s|] eqn:Hg;
        [|apply same_sessions_refl].
      apply (same_sessions_set d name s); [exact Hg|repeat split]. }
    assert (Hback : forall m data session secret,
               m = DaemonManager.encrypted_output name data ->
               JS.map_get name (DaemonManager.activeSessions d1) = Some session ->
               (eo_viewerId data, secret) ∈ DaemonManager.sharedSecrets session ->
               exists data session secret,
                 m = DaemonManager.encrypted_output name data /\
                 JS.map_get name (DaemonManager.activeSessions d) = Some session /\
                 (eo_viewerId data, secret) ∈ DaemonManager.sharedSecrets session).
    { intros m data s1 secret Hm Hg Hk. destruct H1 as [_ H1]. specialize (H1 name).
      rewrite Hg in H1.
      destruct (JS.map_get name (DaemonManager.activeSessions d)) as [s|];
        [|contradiction].
      destruct H1 as (_ & _ & _ & A4 & _). rewrite A4 in Hk. eauto 6. }
    clearbody d1.
    pose proof (broadcastOutput_frames name e rnd d1) as Hb.
    destruct (DaemonManager.broadcastOutput name e rnd d1) as [out1 [u|]]; simpl in *.
    + destruct (IH d1) as [H2 H3].
      destruct (DaemonManager.on_capture_events name rest rnd d1) as [[d2 out2] r].
      simpl in *. split; [eapply same_sessions_trans; eassumption|].
      intros m Hin. apply elem_of_app in Hin as [Hin|Hin].
      * destruct (Hb m Hin) as (data & s1 & secret & Hm & Hg & Hk). eauto.
      * destruct (H3 m Hin) as (data & s1 & secret & Hm & Hg & Hk). eauto.
    + split; [exact H1|]. intros m Hin.
      destruct (Hb m Hin) as (data & s1 & secret & Hm & Hg & Hk). eauto.
Qed.

End DaemonSessions.
Section DaemonSessions2.
Context {H : Host}.

Lemma cmdAttachSession_registers (tmux : DaemonManager.Tmux) (pair : Crypto.KeyPair)
    (now : Z) (pane : string) (started : Z) (rnd : nat -> bytes) (commandId name : string)
    (d : DaemonManager.t) :
  name <> ""%string ->
  DaemonManager.tmux_sessionExists tmux name = true ->
  JS.map_get name (DaemonManager.activeSessions d) = None ->
  DaemonManager.cmdAttachSession tmux pair now pane started rnd commandId (Some name) d
  = (DaemonManager.set_activeSessions
       (JS.map_set name (attached_session name pair now pane started)
                   (DaemonManager.activeSessions d)) d,
     DaemonManager.emit d
       (DaemonManager.session_attached
          name (Crypto.publicKeyToBase64 (Crypto.publicKey pair)) true),
     inl (DaemonManager.success commandId (attached_data name pair now))).
Proof.
  intros Hn He Hg. unfold DaemonManager.cmdAttachSession.
  simpl. rewrite (bool_decide_eq_false_2 _ Hn), He, Hg. simpl.
  unfold attached_session, TmuxCapture.start. simpl.
  case_bool_decide as Hp; simpl.
  - unfold DaemonManager.emit. simpl. rewrite map_set_set, app_nil_r. reflexivity.
  - unfold DaemonManager.broadcastOutput, DaemonManager.emit. simpl.
    repeat (rewrite ?map_get_set_eq; simpl).
    destruct (negb (DaemonManager.socket_connected _)); simpl;
      repeat (rewrite ?map_get_set_eq, ?map_set_set, ?app_nil_r; simpl); reflexivity.
Qed.

(** What a command does to the sessions: nothing, or it registers a new
    one, or it removes one; and it emits no frame. *)
Lemma handleCommand_sessions (tmux : DaemonManager.Tmux) (pair : Crypto.KeyPair)
    (now : Z) (pane : string) (started : Z) (rnd : nat -> bytes)
    (msg : DaemonManager.CommandMessage) (d : DaemonManager.t) :
  DaemonManager.socket (fst (DaemonManager.handleCommand tmux pair now pane started rnd
                               msg d)) = DaemonManager.socket d /\
  (DaemonManager.activeSessions
     (fst (DaemonManager.handleCommand tmux pair now pane started rnd msg d))
   = DaemonManager.activeSessions d \/
   (exists name,
       JS.map_get name (DaemonManager.activeSessions d) = None /\
       DaemonManager.activeSessions
         (fst (DaemonManager.handleCommand tmux pair now pane started rnd msg d))
       = JS.map_set name (attached_session name pair now pane started)
                    (DaemonManager.activeSessions d)) \/
   (exists name,
       DaemonManager.activeSessions
         (fst (DaemonManager.handleCommand tmux pair now pane started rnd msg d))
       = JS.map_delete name (DaemonManager.activeSessions d))) /\
  Forall (fun m => touches_session m = false)
         (snd (DaemonManager.handleCommand tmux pair now pane started rnd msg d)).
Proof.
  assert (Hemit : forall d' m, touches_session m = false ->
                               Forall (fun m => touches_session m = false)
                                      (DaemonManager.emit d' m)).
  { intros d' m Hm. unfold DaemonManager.emit. destruct (DaemonManager.socket d');
      repeat constructor. exact Hm. }
  destruct msg as [cid command name]. unfold DaemonManager.handleCommand. simpl.
  case_bool_decide as H1.
  { simpl. split; [reflexivity|]. split; [auto|]. apply Hemit. reflexivity. }
  case_bool_decide as H2.
  { unfold DaemonManager.cmdCreateSession.
    repeat case_match; simplify_eq; simpl; (split; [reflexivity|]); (split; [auto|]);
      repeat (apply Forall_cons; split; [reflexivity|]); apply Hemit; reflexivity. }
  case_bool_decide as H3.
  { destruct name as [name|];
      [|simpl; split; [reflexivity|]; split; [auto|]; apply Hemit; reflexivity].
    destruct (decide (name = ""%string)) as [->|Hname];
      [simpl; split; [reflexivity|]; split; [auto|]; apply Hemit; reflexivity|].
    destruct (DaemonManager.tmux_sessionExists tmux name) eqn:Hex.
    2:{ unfold DaemonManager.cmdAttachSession. simpl.
        rewrite (bool_decide_eq_false_2 _ Hname), Hex. simpl.
        split; [reflexivity|]. split; [auto|]. apply Hemit. reflexivity. }
    destruct (JS.map_get name (DaemonManager.activeSessions d)) as [old|] eqn:Hg.
    { unfold DaemonManager.cmdAttachSession. simpl.
      rewrite (bool_decide_eq_false_2 _ Hname), Hex, Hg. simpl.
      split; [reflexivity|]. split; [auto|]. apply Hemit. reflexivity. }
    rewrite (cmdAttachSession_registers tmux pair now pane started rnd cid name d
               Hname Hex Hg).
    simpl. split; [reflexivity|]. split; [right; left; eauto|].
    apply Forall_app. split; apply Hemit; reflexivity. }
  case_bool_decide as H4.
  { unfold DaemonManager.cmdDetachSession.
    repeat case_match; simplify_eq; simpl; (split; [reflexivity|]);
      (split; [eauto|]); try (apply Hemit; reflexivity).
    apply Forall_app. split; apply Hemit; reflexivity. }
  simpl. split; [reflexivity|]. split; [auto|]. apply Hemit. reflexivity.
Qed.

Lemma tick_same (name pane : string) (now : Z) (rnd : nat -> bytes) (d : DaemonManager.t) :
  same_sessions d (fst (fst (DaemonManager.tick name pane now rnd d))) /\
  forall m,
    m ∈ snd (fst (DaemonManager.tick name pane now rnd d)) ->
    exists data session secret,
      m = DaemonManager.encrypted_output name data /\
      JS.map_get name (DaemonManager.activeSessions d) = Some session /\
      (eo_viewerId data, secret) ∈ DaemonManager.sharedSecrets session.
Proof.
  unfold DaemonManager.tick.
  destruct (JS.map_get name (DaemonManager.activeSessions d)) as [session|] eqn:Hg.
  2:{ split; [apply same_sessions_refl|]. intros m Hin. apply elem_of_nil in Hin.
      contradiction. }
  assert (Hrun : TmuxCapture.running
                   (fst (TmuxCapture.poll pane now (DaemonManager.capture session)))
                 = TmuxCapture.running (DaemonManager.capture session)).
  { unfold TmuxCapture.poll. repeat case_match; reflexivity. }
  destruct (TmuxCapture.poll pane now (DaemonManager.capture session)) as [polled events].
  simpl in Hrun.
  destruct (on_capture_events_same name events rnd d) as [H1 H2].
  assert (Hstore : forall c d1,
             same_sessions d d1 ->
             TmuxCapture.running c = TmuxCapture.running (DaemonManager.capture session) ->
             same_sessions d (DaemonManager.store_capture name c d1)).
  { intros c d1 Hs Hc. unfold DaemonManager.store_capture.
    destruct (JS.map_get name (DaemonManager.activeSessions d1)) as [s1|] eqn:Hg1;
      [|exact Hs].
    eapply same_sessions_trans; [exact Hs|].
    apply (same_sessions_set d1 name s1); [exact Hg1|].
    repeat split. simpl. rewrite Hc. destruct Hs as [_ Hs]. specialize (Hs name).
    rewrite Hg, Hg1 in Hs. destruct Hs as (_ & _ & _ & _ & A5). congruence. }
  destruct (DaemonManager.on_capture_events name events rnd d) as [[d1 out] [u|]];
    simpl in *.
  - split; [apply Hstore; assumption|]. rewrite <- Hg. exact H2.
  - split; [apply Hstore; assumption|]. rewrite <- Hg. exact H2.
Qed.

End DaemonSessions2.
Section DaemonSessions3.
Context {H : Host}.

Lemma sessions_well_formed_ext d d' :
  DaemonManager.activeSessions d' = DaemonManager.activeSessions d ->
  sessions_well_formed d -> sessions_well_formed d'.
Proof. intros He Hw name s. rewrite He. apply Hw. Qed.

Lemma sessions_well_formed_set d name s :
  sessions_well_formed d ->
  DaemonManager.sessionName s = name ->
  Crypto.pc_sessionId (DaemonManager.pairingCode s) = name ->
  Crypto.pc_publicKey (DaemonManager.pairingCode s)
  = Crypto.publicKeyToBase64 (Crypto.publicKey (DaemonManager.keyPair s)) ->
  TmuxCapture.running (DaemonManager.capture s) = true ->
  sessions_well_formed
    (DaemonManager.set_activeSessions
       (JS.map_set name s (DaemonManager.activeSessions d)) d).
Proof.
  intros Hw A1 A2 A3 A4 k s'. simpl. rewrite map_get_set.
  destruct (decide (k = name)) as [->|Hne]; [intros [= <-]; auto|apply Hw].
Qed.

Lemma sessions_well_formed_call (call : DaemonCall) (d : DaemonManager.t) :
  sessions_well_formed d -> sessions_well_formed (fst (daemon_call call d)).
Proof.
  intros Hw. destruct call as [tmux pair now pane started rnd msg|sid vid pk rnd|sid vid
                              |sid vid enc|name pane now rnd| | | |]; simpl.
  - destruct (handleCommand_sessions tmux pair now pane started rnd msg d)
      as (_ & Hcases & _).
    destruct Hcases as [He|[(name & Hg & He)|(name & He)]].
    + exact (sessions_well_formed_ext d _ He Hw).
    + intros k s. rewrite He, map_get_set.
      destruct (decide (k = name)) as [->|Hne]; [|apply Hw].
      intros [= <-]. repeat split. simpl. unfold TmuxCapture.start. simpl.
      case_bool_decide; reflexivity.
    + intros k s. rewrite He. destruct (decide (k = name)) as [->|Hne].
      * rewrite map_get_delete_eq. discriminate.
      * rewrite map_get_delete_ne by assumption. apply Hw.
  - unfold DaemonManager.handleViewerJoined.
    destruct (JS.map_get sid (DaemonManager.activeSessions d)) as [s|] eqn:Hg; [|exact Hw].
    destruct (Hw sid s Hg) as (A1 & A2 & A3 & A4).
    destruct (Crypto.publicKeyFromBase64 pk) as [key|]; [|exact Hw]. simpl.
    destruct (Crypto.computeSharedSecret _ key) as [secret|]; [|exact Hw]. simpl.
    assert (Hw1 : sessions_well_formed
                    (DaemonManager.set_activeSessions
                       (JS.map_set sid
                          (DaemonManager.set_sharedSecrets
                             (JS.map_set vid secret (DaemonManager.sharedSecrets s)) s)
                          (DaemonManager.activeSessions d)) d))
      by (apply sessions_well_formed_set; assumption).
    repeat case_match; exact Hw1.
  - unfold DaemonManager.handleViewerLeft.
    destruct (JS.map_get sid (DaemonManager.activeSessions d)) as [s|] eqn:Hg; [|exact Hw].
    destruct (Hw sid s Hg) as (A1 & A2 & A3 & A4).
    apply sessions_well_formed_set; assumption.
  - exact Hw.
  - destruct (tick_same name pane now rnd d) as [Hs _].
    exact (sessions_well_formed_same d _ Hs Hw).
  - exact Hw.
  - destruct (DaemonManager.socket d); exact Hw.
  - destruct (DaemonManager.socket d); exact Hw.
  - intros k s Hg. discriminate.
Qed.

Lemma sessions_well_formed_calls (calls : list DaemonCall) :
  forall d, sessions_well_formed d -> sessions_well_formed (fst (daemon_calls calls d)).
Proof.
  induction calls as [|call rest IH]; intros d Hw; simpl; [exact Hw|].
  pose proof (sessions_well_formed_call call d Hw) as H1.
  destruct (daemon_call call d) as [d1 out1]. simpl in H1.
  specialize (IH d1 H1). destruct (daemon_calls rest d1) as [d2 out2]. exact IH.
Qed.

(** What a call on a daemon reached from a new one may emit: frames for
    viewers paired with the session they name, and keys only for an
    ['encrypted-input'] of a paired viewer. *)
Lemma daemon_sessions_apart (calls : list DaemonCall) (call : DaemonCall)
    (m : DaemonManager.Emit) :
  m ∈ snd (daemon_call call (fst (daemon_calls calls new_daemon))) ->
  sessions_well_formed (fst (daemon_calls calls new_daemon)) /\
  (forall sessionId data,
      m = DaemonManager.encrypted_output sessionId data ->
      paired_in (fst (daemon_call call (fst (daemon_calls calls new_daemon))))
                sessionId (eo_viewerId data)) /\
  (forall target keys,
      m = DaemonManager.sendKeys target keys \/
      m = DaemonManager.sendSpecialKey target keys ->
      exists viewerId encrypted,
        call = CallEncryptedInput target viewerId encrypted /\
        paired_in (fst (daemon_calls calls new_daemon)) target viewerId).
Proof.
  assert (Hw : sessions_well_formed (fst (daemon_calls calls new_daemon))).
  { apply sessions_well_formed_calls. intros k s Hg. discriminate. }
  set (d := fst (daemon_calls calls new_daemon)) in *. clearbody d.
  intros Hin. split; [exact Hw|].
  assert (Hnone : touches_session m = false ->
                  (forall sessionId data,
                      m = DaemonManager.encrypted_output sessionId data ->
                      paired_in (fst (daemon_call call d)) sessionId (eo_viewerId data)) /\
                  (forall target keys,
                      m = DaemonManager.sendKeys target keys \/
                      m = DaemonManager.sendSpecialKey target keys ->
                      exists viewerId encrypted,
                        call = CallEncryptedInput target viewerId encrypted /\
                        paired_in d target viewerId)).
  { intros Hm. split.
    - intros sessionId data ->. discriminate.
    - intros target keys [-> | ->]; discriminate. }
  destruct call as [tmux pair now pane started rnd msg|sid vid pk rnd|sid vid
                   |sid vid enc|name pane now rnd| | | |]; simpl in Hin.
  - destruct (handleCommand_sessions tmux pair now pane started rnd msg d) as (_ & _ & Hf).
    rewrite Forall_forall in Hf. apply Hnone, Hf, Hin.
  - (* viewer-joined *)
    revert Hin. simpl. unfold DaemonManager.handleViewerJoined.
    destruct (JS.map_get sid (DaemonManager.activeSessions d)) as [s|] eqn:Hg;
      [|intros Hin; apply elem_of_nil in Hin; contradiction].
    destruct (Crypto.publicKeyFromBase64 pk) as [key|];
      [|intros Hin; apply elem_of_nil in Hin; contradiction]. simpl.
    destruct (Crypto.computeSharedSecret _ key) as [secret|];
      [|intros Hin; apply elem_of_nil in Hin; contradiction]. simpl.
    destruct (DaemonManager.lastOutput s) as [lastEvent|];
      [|intros Hin; apply elem_of_nil in Hin; contradiction].
    destruct (Crypto.encrypt _ secret rnd) as [e|];
      [|intros Hin; apply elem_of_nil in Hin; contradiction].
    simpl. unfold DaemonManager.emit. simpl.
    destruct (DaemonManager.socket d);
      [|intros Hin; apply elem_of_nil in Hin; contradiction].
    intros Hin. apply list_elem_of_singleton in Hin. subst m. split.
    + intros sessionId data [= <- <-]. simpl.
      eexists. simpl. split; [apply map_get_set_eq|]. simpl.
      rewrite map_get_set_eq. eauto.
    + intros target keys [Hm|Hm]; discriminate.
  - apply elem_of_nil in Hin. contradiction.
  - (* encrypted-input *)
    revert Hin. unfold DaemonManager.handleEncryptedInput.
    destruct (JS.map_get sid (DaemonManager.activeSessions d)) as [s|] eqn:Hg;
      [|intros Hin; apply elem_of_nil in Hin; contradiction].
    destruct (Hw sid s Hg) as (A1 & _).
    destruct (JS.map_get vid (DaemonManager.sharedSecrets s)) as [secret|] eqn:Hv;
      [|intros Hin; apply elem_of_nil in Hin; contradiction].
    assert (Hp : paired_in d sid vid) by (exists s; rewrite Hv; eauto).
    intros Hin.
    assert (Hm : m = DaemonManager.sendKeys sid (JS.undefined) \/
                 exists keys, m = DaemonManager.sendKeys sid keys \/
                              m = DaemonManager.sendSpecialKey sid keys).
    { revert Hin. rewrite A1.
      repeat case_match; simpl; intros Hin;
        try (apply elem_of_nil in Hin; contradiction);
        apply list_elem_of_singleton in Hin; subst m; eauto. }
    split.
    + intros sessionId data ->. destruct Hm as [Hm|[keys [Hm|Hm]]]; discriminate.
    + intros target keys Ht. exists vid, enc.
      assert (target = sid) as ->.
      { destruct Hm as [Hm|[k [Hm|Hm]]]; destruct Ht as [Ht|Ht]; congruence. }
      auto.
  - (* a tick *)
    destruct (tick_same name pane now rnd d) as [Hs Hf].
    destruct (Hf m Hin) as (data & s & secret & -> & Hg & Hk). split.
    + intros sessionId data' [= <- <-]. simpl.
      destruct Hs as [_ Hs]. specialize (Hs name). rewrite Hg in Hs.
      destruct (JS.map_get name (DaemonManager.activeSessions _)) as [s'|] eqn:Hg';
        [|contradiction].
      exists s'. split; [exact Hg'|]. destruct Hs as (_ & _ & _ & A4 & _). rewrite A4.
      exact (map_get_is_Some _ _ _ Hk).
    + intros target keys [Hm|Hm]; discriminate.
  - apply elem_of_nil in Hin. contradiction.
  - destruct (DaemonManager.socket d); simpl in Hin;
      [|apply elem_of_nil in Hin; contradiction].
    apply list_elem_of_singleton in Hin. subst m. apply Hnone. reflexivity.
  - destruct (DaemonManager.socket d); simpl in Hin; apply elem_of_nil in Hin;
      contradiction.
  - apply elem_of_nil in Hin. contradiction.
Qed.

End DaemonSessions3.

Section DaemonSessions3b.
Context {H : Host}.

(** X20.  The daemon keeps its sessions apart.  After any sequence of
    calls on a new daemon, every attached session is registered under its
    own name, with a pairing code for that name and its own public key,
    and a running capture.  Whatever is called next: a frame the daemon
    emits names an attached session and is addressed to a viewer that is
    paired with that very session when the call ends; and keys are sent
    only by the handler of ['encrypted-input'], only to the tmux session
    that the message names, and only for a viewer paired with that
    session.  A command sends no frame and no keys. *)
Theorem daemon_sessions_stay_apart (calls : list DaemonCall) (call : DaemonCall)
    (m : DaemonManager.Emit) :
  m ∈ snd (daemon_call call (fst (daemon_calls calls new_daemon))) ->
  sessions_well_formed (fst (daemon_calls calls new_daemon)) /\
  (forall sessionId data,
      m = DaemonManager.encrypted_output sessionId data ->
      paired_in (fst (daemon_call call (fst (daemon_calls calls new_daemon))))
                sessionId (eo_viewerId data)) /\
  (forall target keys,
      m = DaemonManager.sendKeys target keys \/
      m = DaemonManager.sendSpecialKey target keys ->
      exists viewerId encrypted,
        call = CallEncryptedInput target viewerId encrypted /\
        paired_in (fst (daemon_calls calls new_daemon)) target viewerId) /\
  (forall tmux pair now pane started rnd msg,
      call = CallCommand tmux pair now pane started rnd msg ->
      (forall sessionId data, m <> DaemonManager.encrypted_output sessionId data) /\
      (forall target keys, m <> DaemonManager.sendKeys target keys /\
                           m <> DaemonManager.sendSpecialKey target keys)).
Proof.
  intros Hin.
  destruct (daemon_sessions_apart calls call m Hin) as (Hw & Hframe & Hkeys).
  split; [exact Hw|]. split; [exact Hframe|]. split; [exact Hkeys|].
  intros tmux pair now pane started rnd msg ->. simpl in Hin.
  destruct (handleCommand_sessions tmux pair now pane started rnd msg
              (fst (daemon_calls calls new_daemon))) as (_ & _ & Hf).
  rewrite Forall_forall in Hf. specialize (Hf m Hin).
  split; [|split]; intros; intros ->; discriminate.
Qed.

End DaemonSessions3b.

Lemma daemon_sessions_stay_apart_witness :
  paired_in
    (fst (daemon_call (H := RefHost.host)
            (CallTick "work" "$ ls" 9 (fun _ => sample_nonce))
            (fst (daemon_calls (H := RefHost.host) two_sessions_calls new_daemon))))
    "work" "V1" /\
  (forall sessionId data,
      hd (DaemonManager.active_sessions [])
         (snd (daemon_call (H := RefHost.host)
                 (CallCommand sample_tmux (Crypto.mkKeyPair sample_key sample_key) 9
                              "$ ls" 10 (fun _ => sample_nonce)
                              (DaemonManager.mkCommandMessage "c3" "list-sessions" None))
                 (fst (daemon_calls (H := RefHost.host) two_sessions_calls new_daemon))))
      <> DaemonManager.encrypted_output sessionId data).
Proof.
  set (d := fst (daemon_calls (H := RefHost.host) two_sessions_calls new_daemon)).
  split.
  - set (call := CallTick "work" "$ ls" 9 (fun _ => sample_nonce)).
    set (m := hd (DaemonManager.active_sessions [])
                 (snd (daemon_call (H := RefHost.host) call d))).
    assert (Hin : m ∈ snd (daemon_call (H := RefHost.host) call d))
      by (vm_compute; constructor).
    assert (Hm : exists data, m = DaemonManager.encrypted_output "work" data /\
                              eo_viewerId data = "V1"%string)
      by (vm_compute; eexists; split; reflexivity).
    destruct Hm as (data & Hm & Hv). rewrite <- Hv.
    exact (proj1 (proj2 (daemon_sessions_stay_apart (H := RefHost.host)
                           two_sessions_calls call m Hin)) "work"%string data Hm).
  - set (call := CallCommand sample_tmux (Crypto.mkKeyPair sample_key sample_key) 9
                             "$ ls" 10 (fun _ => sample_nonce)
                             (DaemonManager.mkCommandMessage "c3" "list-sessions" None)).
    set (m := hd (DaemonManager.active_sessions [])
                 (snd (daemon_call (H := RefHost.host) call d))).
    assert (Hin : m ∈ snd (daemon_call (H := RefHost.host) call d))
      by (vm_compute; constructor).
    exact (proj1 (proj2 (proj2 (proj2
             (daemon_sessions_stay_apart (H := RefHost.host)
                two_sessions_calls call m Hin)))
             sample_tmux (Crypto.mkKeyPair sample_key sample_key) 9 "$ ls"%string 10
             (fun _ => sample_nonce)
             (DaemonManager.mkCommandMessage "c3" "list-sessions" None) eq_refl)).
Defined.

Section DaemonSessions4.
Context {H : Host}.

Lemma no_viewer_paired_ext d d' :
  DaemonManager.activeSessions d' = DaemonManager.activeSessions d ->
  no_viewer_paired d -> no_viewer_paired d'.
Proof. intros He Hw name s. rewrite He. apply Hw. Qed.

Lemma no_viewer_paired_call (call : DaemonCall) (d : DaemonManager.t) :
  is_viewer_joined call = false ->
  no_viewer_paired d ->
  no_viewer_paired (fst (daemon_call call d)) /\
  Forall (fun m => is_daemon_frame m = false) (snd (daemon_call call d)).
Proof.
  intros Hc Hn. destruct call as [tmux pair now pane started rnd msg|sid vid pk rnd|sid vid
                                 |sid vid enc|name pane now rnd| | | |];
    try discriminate; simpl.
  - destruct (handleCommand_sessions tmux pair now pane started rnd msg d)
      as (_ & Hcases & Hf). split.
    + destruct Hcases as [He|[(name & Hg & He)|(name & He)]].
      * exact (no_viewer_paired_ext d _ He Hn).
      * intros k s. rewrite He, map_get_set.
        destruct (decide (k = name)) as [->|Hne]; [|apply Hn].
        intros [= <-]. reflexivity.
      * intros k s. rewrite He. destruct (decide (k = name)) as [->|Hne].
        -- rewrite map_get_delete_eq. discriminate.
        -- rewrite map_get_delete_ne by assumption. apply Hn.
    + eapply Forall_impl; [exact Hf|]. intros m Hm. destruct m; try reflexivity.
      discriminate.
  - split; [|constructor]. unfold DaemonManager.handleViewerLeft.
    destruct (JS.map_get sid (DaemonManager.activeSessions d)) as [s|] eqn:Hg; [|exact Hn].
    intros k s'. simpl. rewrite map_get_set.
    destruct (decide (k = sid)) as [->|Hne]; [|apply Hn].
    intros [= <-]. simpl. rewrite (Hn sid s Hg). reflexivity.
  - split; [exact Hn|]. unfold DaemonManager.handleEncryptedInput.
    destruct (JS.map_get sid (DaemonManager.activeSessions d)) as [s|] eqn:Hg;
      [|constructor].
    rewrite (Hn sid s Hg). constructor.
  - destruct (tick_same name pane now rnd d) as [Hs Hf]. split.
    + exact (no_viewer_paired_same d _ Hs Hn).
    + apply Forall_forall. intros m Hin.
      destruct (Hf m Hin) as (data & s & secret & -> & Hg & Hk).
      rewrite (Hn name s Hg) in Hk. apply elem_of_nil in Hk. contradiction.
  - split; [exact Hn|constructor].
  - destruct (DaemonManager.socket d); simpl; (split; [exact Hn|]);
      repeat constructor.
  - destruct (DaemonManager.socket d); simpl; (split; [exact Hn|constructor]).
  - split; [|constructor]. intros k s Hg. discriminate.
Qed.

Lemma no_viewer_paired_calls (calls : list DaemonCall) :
  forall d,
    forallb (fun call => negb (is_viewer_joined call)) calls = true ->
    no_viewer_paired d ->
    no_viewer_paired (fst (daemon_calls calls d)) /\
    Forall (fun m => is_daemon_frame m = false) (snd (daemon_calls calls d)).
Proof.
  induction calls as [|call rest IH]; intros d Hc Hn; simpl.
  - split; [exact Hn|constructor].
  - simpl in Hc. apply andb_prop in Hc as [Hc Hrest].
    apply negb_true_iff in Hc.
    destruct (no_viewer_paired_call call d Hc Hn) as [H1 H2].
    destruct (daemon_call call d) as [d1 out1]. simpl in H1, H2.
    destruct (IH d1 Hrest H1) as [H3 H4].
    destruct (daemon_calls rest d1) as [d2 out2]. simpl in *.
    split; [exact H3|]. apply Forall_app. split; assumption.
Qed.

(** X21.  A daemon streams to nobody until it is told of a viewer.  As long
    as the handler of ['viewer-joined'] has not been called -- whatever
    commands are handled, however often the captures of the attached
    sessions poll, whatever ['encrypted-input'] and ['viewer-left']
    messages arrive, however often the socket connects and disconnects --
    the daemon emits no ['encrypted-output'] at all, and no attached
    session has a shared secret. *)
Theorem daemon_silent_until_viewer_joined (calls : list DaemonCall) :
  forallb (fun call => negb (is_viewer_joined call)) calls = true ->
  Forall (fun m => is_daemon_frame m = false) (snd (daemon_calls calls new_daemon)) /\
  no_viewer_paired (fst (daemon_calls calls new_daemon)).
Proof.
  intros Hc.
  destruct (no_viewer_paired_calls calls new_daemon Hc) as [H1 H2].
  - intros k s Hg. discriminate.
  - split; assumption.
Qed.

End DaemonSessions4.

Lemma daemon_silent_until_viewer_joined_witness :
  Forall (fun m => is_daemon_frame m = false)
         (snd (daemon_calls (H := RefHost.host)
                 (take 4 two_sessions_calls
                  ++ [CallTick "work" "$ ls" 9 (fun _ => sample_nonce)]) new_daemon)).
Proof.
  exact (proj1 (daemon_silent_until_viewer_joined (H := RefHost.host)
                  (take 4 two_sessions_calls
                   ++ [CallTick "work" "$ ls" 9 (fun _ => sample_nonce)]) eq_refl)).
Defined.

Section PageAndRelayGates.
Context {H : Host}.

Lemma typing_call_typed (call : TypingCall) (c : WebClient.t) sent r :
  typing_call call c = WebControl.typed sent r -> WebControl.locked_out c = false.
Proof.
  destruct (WebControl.locked_out c) eqn:Hl; [|reflexivity].
  destruct call as [len lower e rnd|text rnd1 rnd2|[keys|] rnd]; simpl;
    unfold WebControl.onKey, WebControl.on_enter, WebControl.on_key_button;
    rewrite ?Hl; repeat case_match; discriminate.
Qed.

Lemma typing_call_refused (call : TypingCall) (c : WebClient.t) :
  typing_call call c = WebControl.refused -> WebControl.locked_out c = true.
Proof.
  destruct (WebControl.locked_out c) eqn:Hl; [reflexivity|].
  destruct call as [len lower e rnd|text rnd1 rnd2|[keys|] rnd]; simpl;
    unfold WebControl.onKey, WebControl.on_enter, WebControl.on_key_button;
    rewrite ?Hl; repeat case_match; discriminate.
Qed.

Lemma locked_out_after_status (page : WebClient.t) (viewerSocket : Socket) (s : Session) :
  WebClient.mySocketId page = Some (socket_id viewerSocket) ->
  WebControl.locked_out (WebControl.on_control_status (control_status_of s) page)
  = match controlLock s with
    | Some l => negb (bool_decide (holderId l = socket_id viewerSocket))
    | None => false
    end.
Proof.
  intros Hme. unfold control_status_of, WebControl.on_control_status,
    WebControl.updateControlStatus, WebControl.locked_out.
  destruct (controlLock s) as [l|]; simpl; [|reflexivity].
  rewrite Hme. case_bool_decide; reflexivity.
Qed.

Lemma relay_receives_forward (socket : Socket) (now : Z) (m : WebClient.Sent)
    (s : Session) :
  exists forwarded,
    relay_receives socket now m s = forward_input socket now forwarded s /\
    forall to, is_input_rejected (Emit to forwarded) = false.
Proof. destruct m; simpl; eexists; split; reflexivity. Qed.

(** X22.  The page's gate and the relay's gate agree.  Let the page of a
    viewer have handled the ['control-status'] that the relay broadcasts
    for the session as it is.  Then the page believes it has control
    exactly when the viewer's connection holds the lock.  Whatever one of
    its three handlers of typed input -- the terminal's key handler, the
    input field, a special-key button -- then sends, the relay does not
    reject, at whatever time it arrives.  When a handler refuses to send,
    another connection holds the lock; the relay would reject the input
    for 30 seconds after the holder's last input, and after that it would
    accept it and clear the lock: the page keeps refusing what the relay
    has come to accept. *)
Theorem page_gate_matches_relay_gate (page : WebClient.t) (viewerSocket : Socket)
    (s : Session) :
  WebClient.mySocketId page = Some (socket_id viewerSocket) ->
  clientType viewerSocket <> cli ->
  let page' := WebControl.on_control_status (control_status_of s) page in
  broadcastControlStatus (sessionId viewerSocket) s
  = [Emit (ToRoom (room_of (sessionId viewerSocket))) (control_status_of s)] /\
  WebClient.hasControl page' = holds_lock viewerSocket s /\
  (forall call sent r m now,
      typing_call call page' = WebControl.typed sent r ->
      m ∈ sent ->
      Forall (fun o => is_input_rejected o = false)
             (snd (relay_receives viewerSocket now m s))) /\
  (forall call,
      typing_call call page' = WebControl.refused ->
      exists l,
        controlLock s = Some l /\ holderId l <> socket_id viewerSocket /\
        forall m now,
          (now - lastInputAt l < CONTROL_LOCK_TIMEOUT ->
           relay_receives viewerSocket now m s
           = (s, [Emit (ToSocket (socket_id viewerSocket))
                       (input_rejected "not-controller")])) /\
          (CONTROL_LOCK_TIMEOUT <= now - lastInputAt l ->
           controlLock (fst (relay_receives viewerSocket now m s)) = None /\
           Forall (fun o => is_input_rejected o = false)
                  (snd (relay_receives viewerSocket now m s)))).
Proof.
  intros Hme Hv page'.
  pose proof (locked_out_after_status page viewerSocket s Hme) as Hgate.
  fold page' in Hgate.
  assert (Hfwd : forall now forwarded,
             (forall to, is_input_rejected (Emit to forwarded) = false) ->
             match controlLock s with
             | Some l => holderId l = socket_id viewerSocket \/
                         CONTROL_LOCK_TIMEOUT <= now - lastInputAt l
             | None => True
             end ->
             Forall (fun o => is_input_rejected o = false)
                    (snd (forward_input viewerSocket now forwarded s)) /\
             (forall l, controlLock s = Some l ->
                        holderId l <> socket_id viewerSocket ->
                        controlLock (fst (forward_input viewerSocket now forwarded s))
                        = None)).
  { intros now forwarded Hfw Hok. unfold forward_input, input_gate.
    rewrite (bool_decide_eq_false_2 _ Hv).
    destruct (controlLock s) as [l|] eqn:Hl.
    - destruct (decide (holderId l = socket_id viewerSocket)) as [Heq|Hne].
      + rewrite (bool_decide_eq_true_2 _ Heq). simpl. rewrite Hl.
        rewrite (bool_decide_eq_true_2 _ Heq). simpl.
        split; [|intros l' [= <-] Hne; contradiction].
        destruct (cliSocketId s) as [producer|]; simpl;
          [destruct (bool_decide (producer = ""%string))|]; simpl;
          repeat (constructor; [first [reflexivity|apply Hfw]|]); constructor.
      + rewrite (bool_decide_eq_false_2 _ Hne). simpl.
        destruct Hok as [Hok|Hok]; [contradiction|].
        assert ((now - lastInputAt l <? CONTROL_LOCK_TIMEOUT) = false) as ->
            by (apply Z.ltb_ge; exact Hok).
        simpl. split; [|intros l' _ _].
        * destruct (cliSocketId s) as [producer|]; simpl;
            [destruct (bool_decide (producer = ""%string))|]; simpl;
          repeat (constructor; [first [reflexivity|apply Hfw]|]); constructor.
        * destruct (cliSocketId s) as [producer|]; simpl;
            [destruct (bool_decide (producer = ""%string))|]; reflexivity.
    - rewrite Hl. split; [|intros l' Hl'; discriminate].
      destruct (cliSocketId s) as [producer|]; simpl;
        [destruct (bool_decide (producer = ""%string))|]; simpl;
          repeat (constructor; [first [reflexivity|apply Hfw]|]); constructor. }
  split; [reflexivity|]. split.
  { unfold page', control_status_of, WebControl.on_control_status,
      WebControl.updateControlStatus, holds_lock.
    destruct (controlLock s) as [l|]; simpl; [|reflexivity].
    rewrite Hme. case_bool_decide; reflexivity. }
  split.
  - intros call sent r m now Hcall _.
    apply typing_call_typed in Hcall. rewrite Hgate in Hcall.
    destruct (relay_receives_forward viewerSocket now m s) as (forwarded & -> & Hfw).
    apply Hfwd; [exact Hfw|]. destruct (controlLock s) as [l|]; [|exact I].
    left. apply negb_false_iff, bool_decide_eq_true in Hcall. exact Hcall.
  - intros call Hcall. apply typing_call_refused in Hcall. rewrite Hgate in Hcall.
    destruct (controlLock s) as [l|] eqn:Hl; [|discriminate].
    apply negb_true_iff, bool_decide_eq_false in Hcall.
    exists l. split; [reflexivity|]. split; [exact Hcall|].
    intros m now.
    destruct (relay_receives_forward viewerSocket now m s) as (forwarded & -> & Hfw).
    split.
    + intros Hlt. unfold forward_input, input_gate.
      rewrite (bool_decide_eq_false_2 _ Hv), Hl.
      rewrite (bool_decide_eq_false_2 _ Hcall). simpl.
      assert ((now - lastInputAt l <? CONTROL_LOCK_TIMEOUT) = true) as ->
          by (apply Z.ltb_lt; exact Hlt).
      reflexivity.
    + intros Hge.
      destruct (Hfwd now forwarded Hfw (or_intror Hge)) as [Hf Hc]. split; [|exact Hf].
      exact (Hc l eq_refl Hcall).
Qed.

End PageAndRelayGates.
Lemma page_gate_matches_relay_gate_witness :
  let page' := WebControl.on_control_status
                 (control_status_of (demo_session (Some "P"%string))) page_of_A in
  typing_call (H := RefHost.host) (EnterPressed "ls" [] []) page' = WebControl.refused /\
  relay_receives viewerA 29999 (WebClient.input "ls" "text")
                 (demo_session (Some "P"%string))
  = (demo_session (Some "P"%string),
     [Emit (ToSocket "A") (input_rejected "not-controller")]) /\
  controlLock (fst (relay_receives viewerA 30000 (WebClient.input "ls" "text")
                                   (demo_session (Some "P"%string)))) = None.
Proof.
  intros page'.
  assert (Hrefused : typing_call (H := RefHost.host) (EnterPressed "ls" [] []) page'
                     = WebControl.refused) by reflexivity.
  split; [exact Hrefused|].
  destruct (page_gate_matches_relay_gate (H := RefHost.host) page_of_A viewerA
              (demo_session (Some "P"%string)) eq_refl)
    as (_ & _ & _ & Href); [discriminate|].
  destruct (Href _ Hrefused) as (l & Hl & _ & Hboth).
  injection Hl as <-. split.
  - apply (Hboth (WebClient.input "ls" "text") 29999). reflexivity.
  - apply (Hboth (WebClient.input "ls" "text") 30000). discriminate.
Defined.
Lemma room_of_inj sid sid' : room_of sid = room_of sid' -> sid = sid'.
Proof. unfold room_of. intros Heq. injection Heq. intros Hs. exact Hs. Qed.

Lemma announces_quiet socket f :
  (forall s, id (fst (f s)) = id s /\ controlLock (fst (f s)) = controlLock s /\
             Forall (fun o => is_control_status o = false) (snd (f s))) ->
  announces socket f.
Proof.
  intros Hf s. destruct (Hf s) as (Hid & Hl & Hout). split; [exact Hid|]. split.
  - intros o Hin Ho. rewrite Forall_forall in Hout. rewrite (Hout o Hin) in Ho.
    discriminate.
  - right. unfold control_status_of. rewrite Hl. reflexivity.
Qed.

Lemma announces_request_control socket now :
  announces socket (on_request_control socket now).
Proof.
  intros s. unfold on_request_control. case_bool_decide as Hc.
  { simpl. split; [reflexivity|]. split; [|right; reflexivity].
    intros o Hin. apply elem_of_nil in Hin. contradiction. }
  destruct (viewers s !! socket_id socket) as [v|].
  2:{ simpl. split; [reflexivity|]. split; [|right; reflexivity].
      intros o Hin. apply elem_of_nil in Hin. contradiction. }
  assert (Hgrant : forall s1,
             id s1 = id s ->
             id (fst (s1, broadcastControlStatus (sessionId socket) s1)) = id s /\
             (forall o, o ∈ snd (s1, broadcastControlStatus (sessionId socket) s1) ->
                        is_control_status o = true ->
                        o = Emit (ToRoom (room_of (sessionId socket)))
                                 (control_status_of s1) /\
                        (clientType socket <> cli \/ holds_lock socket s = true)) /\
             (Emit (ToRoom (room_of (sessionId socket))) (control_status_of s1)
                ∈ snd (s1, broadcastControlStatus (sessionId socket) s1) \/
              control_status_of s1 = control_status_of s)).
  { intros s1 Hid. split; [exact Hid|]. split.
    - intros o Hin _. apply list_elem_of_singleton in Hin. split; [exact Hin|]. left.
      exact Hc.
    - left. apply list_elem_of_singleton. reflexivity. }
  destruct (controlLock s) as [l|] eqn:Hl.
  - destruct ((now - lastInputAt l <? CONTROL_LOCK_TIMEOUT)
              && negb (bool_decide (holderId l = socket_id socket))).
    + simpl. split; [reflexivity|]. split; [|right; reflexivity].
      intros o Hin Ho. apply list_elem_of_singleton in Hin. subst o. discriminate.
    + apply Hgrant. reflexivity.
  - apply Hgrant. reflexivity.
Qed.

Lemma announces_release_control socket : announces socket (on_release_control socket).
Proof.
  intros s. unfold on_release_control. case_bool_decide as Hc.
  { simpl. split; [reflexivity|]. split; [|right; reflexivity].
    intros o Hin. apply elem_of_nil in Hin. contradiction. }
  destruct (holds_lock socket s) eqn:Hh.
  - simpl. split; [reflexivity|]. split.
    + intros o Hin _. apply list_elem_of_singleton in Hin. split; [exact Hin|]. left.
      exact Hc.
    + left. apply list_elem_of_singleton. reflexivity.
  - simpl. split; [reflexivity|]. split; [|right; reflexivity].
    intros o Hin. apply elem_of_nil in Hin. contradiction.
Qed.

Lemma announces_output socket event : announces socket (on_output socket event).
Proof.
  apply announces_quiet. intros s. unfold on_output.
  destruct (negb _); simpl; repeat split; repeat constructor.
Qed.

Lemma announces_encrypted_output socket data :
  announces socket (on_encrypted_output socket data).
Proof.
  apply announces_quiet. intros s. unfold on_encrypted_output.
  destruct (negb _); simpl; repeat split; repeat constructor.
Qed.

Lemma announces_output_history socket data :
  announces socket (on_output_history socket data).
Proof.
  apply announces_quiet. intros s. unfold on_output_history.
  destruct (negb _); simpl; repeat split; repeat constructor.
Qed.

Lemma announces_get_history socket : announces socket (on_get_history socket).
Proof.
  apply announces_quiet. intros s. unfold on_get_history.
  destruct (encrypted s); simpl; repeat split; repeat constructor.
Qed.

Lemma input_gate_cases socket now s :
  input_gate socket now s = None \/
  exists s1 out,
    input_gate socket now s = Some (s1, out) /\ id s1 = id s /\
    cliSocketId s1 = cliSocketId s /\
    (out = [] /\ control_status_of s1 = control_status_of s \/
     out = [Emit (ToRoom (room_of (sessionId socket))) (control_status_of s1)]).
Proof.
  unfold input_gate. destruct (controlLock s) as [l|] eqn:Hl.
  - destruct (bool_decide (holderId l = socket_id socket)) eqn:Hh; simpl.
    + right. rewrite Hl, Hh. eexists _, _. split; [reflexivity|].
      split; [reflexivity|]. split; [reflexivity|]. left. split; [reflexivity|].
      unfold control_status_of. simpl. rewrite Hl. reflexivity.
    + destruct (now - lastInputAt l <? CONTROL_LOCK_TIMEOUT); simpl; [left; reflexivity|].
      right. eexists _, _. split; [reflexivity|].
      split; [reflexivity|]. split; [reflexivity|]. right. reflexivity.
  - right. rewrite Hl. eexists _, _. split; [reflexivity|].
    split; [reflexivity|]. split; [reflexivity|]. left. split; reflexivity.
Qed.

Lemma announces_forward_input socket now forwarded :
  (forall to, is_control_status (Emit to forwarded) = false) ->
  announces socket (forward_input socket now forwarded).
Proof.
  intros Hfw s. unfold forward_input. case_bool_decide as Hc.
  { simpl. split; [reflexivity|]. split; [|right; reflexivity].
    intros o Hin. apply elem_of_nil in Hin. contradiction. }
  destruct (input_gate_cases socket now s) as [->|(s1 & out & -> & Hid & Hp & Hout)].
  { simpl. split; [reflexivity|]. split; [|right; reflexivity].
    intros o Hin Ho. apply list_elem_of_singleton in Hin. subst o. discriminate. }
  assert (Hx : exists last,
             (match cliSocketId s1 with
              | Some producer =>
                  if JS.truthy_str (Some producer)
                  then (s1, out ++ [Emit (ToRoom producer) forwarded])
                  else (s1, out ++ [Emit (ToSocket (socket_id socket))
                                         (error "CLI not connected")])
              | None => (s1, out ++ [Emit (ToSocket (socket_id socket))
                                          (error "CLI not connected")])
              end) = (s1, out ++ [last]) /\ is_control_status last = false).
  { destruct (cliSocketId s1) as [producer|];
      [destruct (JS.truthy_str (Some producer))|]; eexists; split;
      first [reflexivity|apply Hfw]. }
  destruct Hx as (last & -> & Hlast). simpl. split; [exact Hid|]. split.
  - intros o Hin Ho. split; [|left; exact Hc].
    apply elem_of_app in Hin as [Hin|Hin].
    + destruct Hout as [[-> _]| ->]; [apply elem_of_nil in Hin; contradiction|].
      apply list_elem_of_singleton in Hin. exact Hin.
    + apply list_elem_of_singleton in Hin. subst o. rewrite Hlast in Ho. discriminate.
  - destruct Hout as [[_ Hst]| ->]; [right; exact Hst|].
    left. apply elem_of_app. left. apply list_elem_of_singleton. reflexivity.
Qed.

Lemma announces_disconnect socket : announces socket (on_disconnect socket).
Proof.
  intros s. unfold on_disconnect.
  destruct (bool_decide (clientType socket = cli)
            && bool_decide (cliSocketId s = Some (socket_id socket))).
  { simpl. split; [reflexivity|]. split; [|right; reflexivity].
    intros o Hin Ho. apply list_elem_of_singleton in Hin. subst o. discriminate. }
  destruct (holds_lock socket s) eqn:Hh.
  - simpl. split; [reflexivity|]. split.
    + intros o Hin Ho. split; [|right; reflexivity].
      apply elem_of_cons in Hin as [->|Hin]; [reflexivity|].
      destruct (cliSocketId s) as [producer|];
        [destruct (bool_decide (producer = ""%string))|]; simpl in Hin;
        try (apply elem_of_nil in Hin; contradiction).
      apply list_elem_of_singleton in Hin. subst o. discriminate.
    + left. apply elem_of_cons. left. reflexivity.
  - simpl. split; [reflexivity|]. split; [|right; reflexivity].
    intros o Hin Ho.
    destruct (cliSocketId s) as [producer|];
      [destruct (bool_decide (producer = ""%string))|]; simpl in Hin;
      try (apply elem_of_nil in Hin; contradiction).
    apply list_elem_of_singleton in Hin. subst o. discriminate.
Qed.

Lemma announces_bind_socket id' q sid s :
  id (fst (bind_socket id' q sid s)) = id s /\
  controlLock (fst (bind_socket id' q sid s)) = controlLock s /\
  (forall o, o ∈ snd (bind_socket id' q sid s) -> is_control_status o = true ->
             o = Emit (ToRoom (room_of sid))
                      (control_status_of (fst (bind_socket id' q sid s)))) /\
  (q_clientType q <> cli ->
   Emit (ToRoom (room_of sid)) (control_status_of (fst (bind_socket id' q sid s)))
     ∈ snd (bind_socket id' q sid s)).
Proof.
  unfold bind_socket. case_bool_decide as Hc.
  - simpl. split; [reflexivity|]. split; [reflexivity|]. split; [|contradiction].
    intros o Hin Ho. apply list_elem_of_singleton in Hin. subst o. discriminate.
  - cbn zeta. set (s1 := set_viewers _ s).
    set (out1 := match cliSocketId s1 with Some _ => _ | None => _ end).
    set (out2 := match lastOutput s1 with Some _ => _ | None => _ end).
    assert (H1 : Forall (fun o => is_control_status o = false) out1).
    { unfold out1. repeat case_match; repeat constructor. }
    assert (H2 : Forall (fun o => is_control_status o = false) out2).
    { unfold out2. repeat case_match; repeat constructor. }
    clearbody out1 out2. simpl.
    split; [reflexivity|]. split; [reflexivity|]. split.
    + intros o Hin Ho. rewrite Forall_forall in H1, H2.
      apply elem_of_app in Hin as [Hin|Hin]; [rewrite (H1 o Hin) in Ho; discriminate|].
      apply elem_of_app in Hin as [Hin|Hin]; [rewrite (H2 o Hin) in Ho; discriminate|].
      apply elem_of_cons in Hin as [->|Hin]; [discriminate|].
      apply list_elem_of_singleton in Hin. exact Hin.
    + intros _. apply elem_of_app. right. apply elem_of_app. right.
      apply elem_of_cons. right. apply list_elem_of_singleton. reflexivity.
Qed.
Lemma status_told_quiet st out idV V s s' :
  Forall (fun o => is_control_status o = false) out ->
  sockets st !! idV = Some (SessionSocket V) ->
  heap st !! session V = Some s ->
  control_status_of s = control_status_of s' ->
  status_told st out idV V s'.
Proof.
  intros Hout HV Hs Hst. split.
  - intros o Hin Ho. rewrite Forall_forall in Hout. rewrite (Hout o Hin) in Ho.
    discriminate.
  - right. eauto.
Qed.

Lemma Named_init : Named init.
Proof. intros sid r s Hd. simpl in Hd. rewrite lookup_empty in Hd. discriminate. Qed.

Lemma Named_ext st st' :
  heap st' = heap st -> sessions st' = sessions st -> Named st -> Named st'.
Proof. intros Hh Hd HN sid r s. rewrite Hh, Hd. apply HN. Qed.

Lemma Named_heap_insert st r s s' :
  Named st -> heap st !! r = Some s -> id s' = id s ->
  Named (set_heap (<[r := s']> (heap st)) st).
Proof.
  intros HN Hr Hid sid r0 s0 Hd Hh. simpl in *.
  apply lookup_insert_Some in Hh as [[<- <-]|[_ Hh]].
  - rewrite Hid. exact (HN sid r s Hd Hr).
  - exact (HN sid r0 s0 Hd Hh).
Qed.

Lemma Named_create st sid new :
  Listed st -> Named st -> id new = sid ->
  Named (set_sessions (<[sid := nextRef st]> (sessions st))
           (set_nextRef (S (nextRef st))
              (set_heap (<[nextRef st := new]> (heap st)) st))).
Proof.
  intros HL HN Hid sid' r s Hd Hh. simpl in *.
  apply lookup_insert_Some in Hd as [[<- <-]|[_ Hd]].
  - rewrite lookup_insert_eq in Hh. injection Hh as <-. exact Hid.
  - pose proof (lst_dir_ref st HL sid' r Hd) as Hlt.
    rewrite lookup_insert_ne in Hh by lia. exact (HN sid' r s Hd Hh).
Qed.

Lemma Named_with_session st socket f :
  Named st -> (forall s, id (fst (f s)) = id s) -> Named (fst (with_session socket f st)).
Proof.
  intros HN Hf. unfold with_session.
  destruct (heap st !! session socket) as [s|] eqn:Hs; [|exact HN].
  specialize (Hf s). destruct (f s) as [s' out]. simpl in *.
  exact (Named_heap_insert st _ s s' HN Hs Hf).
Qed.

Lemma same_locks_refl st : same_locks st st.
Proof. split; [lia|]. intros r s _ Hs. eauto. Qed.

Lemma same_locks_trans st1 st2 st3 :
  same_locks st1 st2 -> same_locks st2 st3 -> same_locks st1 st3.
Proof.
  intros [Hn1 H1] [Hn2 H2]. split; [lia|]. intros r s Hlt Hs.
  destruct (H1 r s Hlt Hs) as (s2 & Hs2 & Hl2).
  destruct (H2 r s2 ltac:(lia) Hs2) as (s3 & Hs3 & Hl3).
  exists s3. split; [exact Hs3|congruence].
Qed.

Lemma same_locks_ext st st' :
  heap st' = heap st -> nextRef st' = nextRef st -> same_locks st st'.
Proof. intros Hh Hn. split; [lia|]. intros r s _ Hs. rewrite Hh. eauto. Qed.

Lemma same_locks_heap_insert st r s s' :
  heap st !! r = Some s -> controlLock s' = controlLock s ->
  same_locks st (set_heap (<[r := s']> (heap st)) st).
Proof.
  intros Hr Hl. split; [simpl; lia|]. intros r0 s0 _ Hs0. simpl.
  destruct (decide (r = r0)) as [->|Hne].
  - rewrite lookup_insert_eq. exists s'. split; [reflexivity|]. congruence.
  - rewrite lookup_insert_ne by assumption. eauto.
Qed.

Lemma same_locks_create st sid new :
  same_locks st (set_sessions (<[sid := nextRef st]> (sessions st))
                   (set_nextRef (S (nextRef st))
                      (set_heap (<[nextRef st := new]> (heap st)) st))).
Proof.
  split; [simpl; lia|]. intros r s Hlt Hs. simpl.
  rewrite lookup_insert_ne by lia. eauto.
Qed.

Lemma detach_session_quiet st id sid :
  same_locks st (fst (detach_session id sid st)) /\
  sockets (fst (detach_session id sid st)) = sockets st /\
  Forall (fun o => is_control_status o = false) (snd (detach_session id sid st)).
Proof.
  unfold detach_session.
  destruct (sessions st !! sid) as [r|];
    [|split; [apply same_locks_refl|split; [reflexivity|constructor]]].
  destruct (heap st !! r) as [s|] eqn:Hr;
    [|split; [apply same_locks_refl|split; [reflexivity|constructor]]].
  case_bool_decide; [|split; [apply same_locks_refl|split; [reflexivity|constructor]]].
  simpl. split; [|split; [reflexivity|repeat constructor]].
  apply (same_locks_heap_insert st r s); [exact Hr|reflexivity].
Qed.

Lemma detach_all_quiet id sids :
  forall st,
    same_locks st (fst (detach_all id sids st)) /\
    sockets (fst (detach_all id sids st)) = sockets st /\
    Forall (fun o => is_control_status o = false) (snd (detach_all id sids st)).
Proof.
  induction sids as [|sid rest IH]; intros st; simpl.
  - split; [apply same_locks_refl|split; [reflexivity|constructor]].
  - destruct (detach_session_quiet st id sid) as (H1 & H2 & H3).
    destruct (detach_session id sid st) as [st1 out1]. simpl in *.
    destruct (IH st1) as (H4 & H5 & H6).
    destruct (detach_all id rest st1) as [st2 out2]. simpl in *.
    split; [exact (same_locks_trans _ _ _ H1 H4)|]. split; [congruence|].
    apply Forall_app. split; assumption.
Qed.

Lemma update_daemon_heap st id f :
  heap (update_daemon id f st) = heap st /\
  nextRef (update_daemon id f st) = nextRef st /\
  sockets (update_daemon id f st) = sockets st /\
  sessions (update_daemon id f st) = sessions st.
Proof. unfold update_daemon. destruct (JS.map_get id (cliDaemons st)); auto. Qed.

Lemma attach_session_alter st r s (f : Session -> Session) :
  heap st !! r = Some s -> alter f r (heap st) = <[r := f s]> (heap st).
Proof.
  intros Hr. apply map_eq. intros i. destruct (decide (r = i)) as [->|Hne].
  - rewrite lookup_alter_eq, lookup_insert_eq, Hr. reflexivity.
  - rewrite lookup_alter_ne, lookup_insert_ne by assumption. reflexivity.
Qed.

Lemma attach_session_quiet st now id u sid key enc :
  Inv st ->
  same_locks st (attach_session now id u sid key enc st) /\
  sockets (attach_session now id u sid key enc st) = sockets st.
Proof.
  intros HI. unfold attach_session. destruct (sessions st !! sid) as [r|] eqn:Hd.
  - destruct (inv_sessions st HI sid r Hd) as [s Hr].
    rewrite (attach_session_alter st r s _ Hr). split; [|reflexivity].
    apply (same_locks_heap_insert st r s); [exact Hr|reflexivity].
  - split; [|reflexivity]. set (new := mkSession _ _ _ _ _ _ _ _ _ _ _ _).
    exact (same_locks_create st sid new).
Qed.

Lemma on_daemon_socket_quiet st now id u m :
  Inv st ->
  same_locks st (fst (on_daemon_socket now id u m st)) /\
  (forall k c, sockets (fst (on_daemon_socket now id u m st)) !! k = Some c ->
               sockets st !! k = Some c) /\
  Forall (fun o => is_control_status o = false) (snd (on_daemon_socket now id u m st)).
Proof.
  intros HI.
  destruct m as [| |ev|dat|dat|dat|dat| |cid cmd ps|response|sid key enc|sid| |];
    unfold on_daemon_socket;
    try (split; [apply same_locks_refl|split; [auto|repeat constructor]]; fail).
  - (* cli-response *)
    unfold on_cli_response.
    destruct (pendingCommands st !! cr_commandId response) as [p|];
      [destruct (cr_success response)|]; simpl;
      (split; [apply same_locks_ext; reflexivity|split; [auto|repeat constructor]]).
  - (* session-attached *)
    unfold on_session_attached.
    destruct (update_daemon_heap st id
                (fun d => set_activeSessions (set_add sid (activeSessions d)) d))
      as (Hh & Hn & Hs & _).
    set (st1 := update_daemon id _ st) in *.
    assert (HI1 : Inv st1) by (apply Inv_update_daemon; [exact HI | reflexivity]).
    clearbody st1.
    destruct (attach_session_quiet st1 now id u sid key enc HI1) as [H1 H2].
    assert (H0 : same_locks st st1) by (apply same_locks_ext; assumption).
    pose proof (same_locks_trans _ _ _ H0 H1) as H3.
    destruct u as [user|]; [destruct (JS.truthy_str (Some user))|]; simpl.
    + split; [|split; [|repeat constructor]].
      * eapply same_locks_trans; [exact H3|]. apply same_locks_ext; reflexivity.
      * intros k c. unfold add_user_session. simpl. rewrite H2, Hs. auto.
    + split; [exact H3|]. split; [|repeat constructor]. intros k c. rewrite H2, Hs. auto.
    + split; [exact H3|]. split; [|repeat constructor]. intros k c. rewrite H2, Hs. auto.
  - (* session-detached *)
    unfold on_session_detached.
    destruct (update_daemon_heap st id
                (fun d => set_activeSessions (set_remove sid (activeSessions d)) d))
      as (Hh & Hn & Hs & _).
    set (st1 := update_daemon id _ st) in *. clearbody st1.
    destruct (detach_session_quiet st1 id sid) as (H1 & H2 & H3).
    split; [|split; [|exact H3]].
    + eapply same_locks_trans; [apply same_locks_ext; eassumption|exact H1].
    + intros k c. rewrite H2, Hs. auto.
  - (* disconnect *)
    unfold on_daemon_disconnect.
    assert (Hx : forall X : State * list Output,
               same_locks st (fst X) -> sockets (fst X) = sockets st ->
               Forall (fun o => is_control_status o = false) (snd X) ->
               same_locks st
                 (fst (let '(st0, out) := X in
                       (set_sockets (delete id (sockets (set_cliDaemons
                                                          (JS.map_delete id (cliDaemons st0))
                                                          st0)))
                                    (set_cliDaemons (JS.map_delete id (cliDaemons st0)) st0),
                        out))) /\
               (forall k c,
                   sockets (fst (let '(st0, out) := X in
                                 (set_sockets
                                    (delete id (sockets (set_cliDaemons
                                                           (JS.map_delete id (cliDaemons st0))
                                                           st0)))
                                    (set_cliDaemons (JS.map_delete id (cliDaemons st0)) st0),
                                  out))) !! k = Some c ->
                   sockets st !! k = Some c) /\
               Forall (fun o => is_control_status o = false)
                      (snd (let '(st0, out) := X in
                            (set_sockets
                               (delete id (sockets (set_cliDaemons
                                                      (JS.map_delete id (cliDaemons st0))
                                                      st0)))
                               (set_cliDaemons (JS.map_delete id (cliDaemons st0)) st0),
                             out)))).
    { intros [st0 out] H1 H2 H3. simpl in *. split; [|split; [|exact H3]].
      - eapply same_locks_trans; [exact H1|]. apply same_locks_ext; reflexivity.
      - intros k c Hk. apply lookup_delete_Some in Hk as [_ Hk]. rewrite <- H2. exact Hk. }
    apply Hx.
    + destruct (JS.map_get id (cliDaemons st)) as [d|]; [|apply same_locks_refl].
      apply detach_all_quiet.
    + destruct (JS.map_get id (cliDaemons st)) as [d|]; [|reflexivity].
      apply detach_all_quiet.
    + destruct (JS.map_get id (cliDaemons st)) as [d|]; [|constructor].
      apply detach_all_quiet.
Qed.
Lemma announces_id socket f : announces socket f -> forall s, id (fst (f s)) = id s.
Proof. intros Hf s. exact (proj1 (Hf s)). Qed.

Lemma announces_on_input socket now data : announces socket (on_input socket now data).
Proof. apply announces_forward_input. reflexivity. Qed.

Lemma announces_on_encrypted_input socket now data :
  announces socket (on_encrypted_input socket now data).
Proof. apply announces_forward_input. reflexivity. Qed.

Section RelayNamed.
Variable sha256_hex : string -> string.

Lemma session_for_old st now q sid :
  (forall r, (r < nextRef st)%nat ->
             heap (snd (session_for sha256_hex now q sid st)) !! r = heap st !! r) /\
  (forall r0, sessions st !! sid = Some r0 ->
              fst (session_for sha256_hex now q sid st) = r0).
Proof.
  unfold session_for. destruct (sessions st !! sid) as [r|] eqn:Hr; simpl.
  - split; [reflexivity|]. intros r0 [= <-]. reflexivity.
  - split; [|discriminate]. intros r Hlt.
    repeat case_match; simpl; rewrite lookup_insert_ne by lia; reflexivity.
Qed.

Lemma Named_session_for st now q sid :
  Listed st -> Named st -> Named (snd (session_for sha256_hex now q sid st)).
Proof.
  intros HL HN. unfold session_for. destruct (sessions st !! sid) as [r|] eqn:Hr; simpl.
  - exact HN.
  - set (new := mkSession _ _ _ _ _ _ _ _ _ _ _ _).
    pose proof (Named_create st sid new HL HN eq_refl) as HN1. clearbody new.
    repeat case_match;
      (eapply Named_ext; [| |exact HN1]; reflexivity).
Qed.

Lemma Named_on_connection st now id' q :
  Inv st -> Listed st -> Named st ->
  Named (fst (on_connection sha256_hex now id' q st)).
Proof.
  intros HI HL HN. unfold on_connection. case_bool_decide.
  - eapply Named_ext; [| |exact HN]; reflexivity.
  - destruct (q_sessionId q) as [sid|]; [|exact HN].
    destruct (negb (JS.truthy_str (Some sid))); [exact HN|].
    pose proof (Named_session_for st now q sid HL HN) as HN1.
    destruct (session_for sha256_hex now q sid st) as [ref st1]. simpl in *.
    apply Named_with_session.
    + eapply Named_ext; [| |exact HN1]; reflexivity.
    + intros s. apply announces_bind_socket.
Qed.

Lemma Named_on_session_socket st now socket m :
  Named st -> Named (fst (on_session_socket now socket m st)).
Proof.
  intros HN.
  destruct m; simpl; try exact HN;
    try (apply Named_with_session; [exact HN|]; apply (announces_id socket);
         auto using announces_request_control, announces_release_control,
           announces_output, announces_encrypted_output, announces_output_history,
           announces_get_history, announces_on_input, announces_on_encrypted_input; fail).
  pose proof (Named_with_session st socket (on_disconnect socket) HN
                (announces_id _ _ (announces_disconnect socket))) as HN1.
  destruct (with_session socket (on_disconnect socket) st) as [st1 out]. simpl in *.
  eapply Named_ext; [| |exact HN1]; reflexivity.
Qed.

Lemma Named_detach_session st id' sid :
  Named st -> Named (fst (detach_session id' sid st)).
Proof.
  intros HN. unfold detach_session.
  destruct (sessions st !! sid) as [r|]; [|exact HN].
  destruct (heap st !! r) as [s|] eqn:Hr; [|exact HN].
  case_bool_decide; [|exact HN]. simpl.
  apply (Named_heap_insert st r s); auto.
Qed.

Lemma Named_detach_all id' sids :
  forall st, Named st -> Named (fst (detach_all id' sids st)).
Proof.
  induction sids as [|sid rest IH]; intros st HN; simpl; [exact HN|].
  pose proof (Named_detach_session st id' sid HN) as H1.
  destruct (detach_session id' sid st) as [st1 out1]. simpl in *.
  specialize (IH st1 H1). destruct (detach_all id' rest st1) as [st2 out2]. exact IH.
Qed.

Lemma Named_update_daemon st id' f : Named st -> Named (update_daemon id' f st).
Proof.
  intros HN. destruct (update_daemon_heap st id' f) as (Hh & _ & _ & Hd).
  exact (Named_ext st _ Hh Hd HN).
Qed.

Lemma Named_attach_session st now id' u sid key enc :
  Inv st -> Listed st -> Named st -> Named (attach_session now id' u sid key enc st).
Proof.
  intros HI HL HN. unfold attach_session. destruct (sessions st !! sid) as [r|] eqn:Hd.
  - destruct (inv_sessions st HI sid r Hd) as [s Hr].
    rewrite (attach_session_alter st r s _ Hr).
    apply (Named_heap_insert st r s); auto.
  - set (new := mkSession _ _ _ _ _ _ _ _ _ _ _ _).
    exact (Named_create st sid new HL HN eq_refl).
Qed.

Lemma Named_on_daemon_socket st now id' u m :
  Inv st -> Listed st -> Named st -> Named (fst (on_daemon_socket now id' u m st)).
Proof.
  intros HI HL HN.
  destruct m as [| |ev|dat|dat|dat|dat| |cid cmd ps|response|sid key enc|sid| |];
    try exact HN; unfold on_daemon_socket.
  - unfold on_cli_response.
    destruct (pendingCommands st !! cr_commandId response) as [p|]; [|exact HN].
    destruct (cr_success response); (eapply Named_ext; [| |exact HN]; reflexivity).
  - unfold on_session_attached.
    set (st1 := update_daemon id' _ st).
    assert (HN1 : Named st1) by (apply Named_update_daemon, HN).
    assert (HL1 : Listed st1) by (apply Listed_update_daemon, HL).
    assert (HI1 : Inv st1) by (apply Inv_update_daemon; [exact HI | reflexivity]).
    clearbody st1.
    pose proof (Named_attach_session st1 now id' u sid key enc HI1 HL1 HN1) as HN2.
    destruct u as [user|]; [|exact HN2].
    destruct (JS.truthy_str (Some user)); [|exact HN2].
    eapply Named_ext; [| |exact HN2]; reflexivity.
  - unfold on_session_detached. apply Named_detach_session, Named_update_daemon, HN.
  - unfold on_daemon_disconnect.
    match goal with
    | |- context [let '(st0, out) := ?X in _] => assert (Hx : Named (fst X))
    end.
    { destruct (JS.map_get id' (cliDaemons st)) as [d|]; [|auto].
      apply Named_detach_all, HN. }
    match goal with
    | |- context [let '(st0, out) := ?X in _] => destruct X as [st1 out]
    end.
    simpl in *. eapply Named_ext; [| |exact Hx]; reflexivity.
Qed.

Lemma Named_fire_timer st now handle :
  Named st -> Named (fst (fire_timer now handle st)).
Proof.
  intros HN. unfold fire_timer.
  destruct (timers st !! handle) as [t|]; [|exact HN].
  destruct (due t <=? now); [|exact HN].
  assert (HN1 : Named (clearTimeout handle st))
    by (eapply Named_ext; [| |exact HN]; reflexivity).
  destruct (action t) as [sid|c r]; simpl.
  - destruct (sessions st !! sid) as [ref|] eqn:Hd; [|exact HN1].
    destruct (heap st !! ref) as [s|] eqn:Hr; [|exact HN1].
    destruct (negb (JS.truthy_str (cliSocketId s)) && _); [|exact HN1]. simpl.
    intros sid' r0 s0 Hk Hh. simpl in *.
    apply lookup_delete_Some in Hk as [_ Hk]. exact (HN sid' r0 s0 Hk Hh).
  - eapply Named_ext; [| |exact HN]; reflexivity.
Qed.

Lemma Named_post_daemon_command st now request command params random :
  Named st -> Named (fst (post_daemon_command now request command params random st)).
Proof.
  intros HN. unfold post_daemon_command.
  destruct command as [command|]; [|exact HN].
  destruct (negb _); [exact HN|].
  destruct (JS.map_first (cliDaemons st)) as [[k d]|]; [|exact HN].
  destruct (sockets st !! d_socketId d); [|exact HN]. simpl.
  eapply Named_ext; [| |exact HN]; reflexivity.
Qed.

Lemma Named_step st now e :
  Inv st -> Listed st -> Named st -> Named (fst (step sha256_hex now e st)).
Proof.
  intros HI HL HN. destruct e as [id' q|id' m|handle|request command params random]; simpl.
  - destruct (sockets st !! id') eqn:Hs; [exact HN|]. apply Named_on_connection; assumption.
  - destruct (sockets st !! id') as [[socket|u]|] eqn:Hs; [| |exact HN].
    + apply Named_on_session_socket, HN.
    + apply Named_on_daemon_socket; assumption.
  - apply Named_fire_timer, HN.
  - apply Named_post_daemon_command, HN.
Qed.

Lemma Named_run events :
  forall st, Inv st -> Listed st -> Named st -> Named (fst (run sha256_hex events st)).
Proof.
  induction events as [|[now e] rest IH]; intros st HI HL HN; simpl; [exact HN|].
  pose proof (Named_step st now e HI HL HN) as H1.
  pose proof (Listed_step sha256_hex st now e HI HL) as H2.
  pose proof (Inv_step sha256_hex st now e HI) as H3.
  destruct (step sha256_hex now e st) as [st1 out1]. simpl in *.
  specialize (IH st1 H3 H2 H1). destruct (run sha256_hex rest st1) as [st2 out2]. exact IH.
Qed.

End RelayNamed.
Lemma control_status_of_is to s : is_control_status (Emit to (control_status_of s)) = true.
Proof. unfold control_status_of. destruct (controlLock s); reflexivity. Qed.

Lemma told_by_handler st a ida f V idV s' :
  Inv st -> Attached st -> Listed st -> Named st ->
  sockets st !! ida = Some (SessionSocket a) ->
  announces a f ->
  sockets st !! idV = Some (SessionSocket V) ->
  clientType V <> cli ->
  heap (fst (with_session a f st)) !! session V = Some s' ->
  status_told st (snd (with_session a f st)) idV V s'.
Proof.
  intros HI HA HL HN Ha Hf HV Hv Hs'.
  destruct (inv_sockets st HI ida a Ha) as [Hida [sa Hsa]].
  unfold with_session in *. rewrite Hsa in *.
  destruct (Hf sa) as (Hid & Hout & Hch). destruct (f sa) as [s1 out]. simpl in *.
  assert (Hviewer : forall o, o ∈ out -> is_control_status o = true ->
                              clientType a <> cli).
  { intros o Hin Ho. destruct (Hout o Hin Ho) as [_ [Hc|Hh]]; [exact Hc|].
    unfold holds_lock in Hh. destruct (controlLock sa) as [l|] eqn:Hl; [|discriminate].
    apply bool_decide_eq_true in Hh.
    destruct (att_holder st HA _ _ Hsa l Hl) as [x Hx].
    destruct (att_viewer st HA _ _ _ _ Hsa Hx) as (socket & Hk & _ & Hty).
    rewrite Hh, Hida, Ha in Hk. injection Hk as <-.
    apply bool_decide_eq_false in Hty. exact Hty. }
  destruct (lst_viewer st HL idV V HV Hv) as [HdV _].
  destruct (decide (session V = session a)) as [Heq|Hne].
  - rewrite Heq, lookup_insert_eq in Hs'. injection Hs' as <-.
    assert (Hsame : forall o, o ∈ out -> is_control_status o = true ->
                              sessionId a = sessionId V).
    { intros o Hin Ho. pose proof (Hviewer o Hin Ho) as Hc.
      destruct (lst_viewer st HL ida a Ha Hc) as [Hda _].
      rewrite <- (HN _ _ _ Hda Hsa). rewrite Heq in HdV. exact (HN _ _ _ HdV Hsa). }
    split.
    + intros o Hin Ho. destruct (Hout o Hin Ho) as [-> _].
      eexists _, _. split; [reflexivity|]. auto.
    + destruct Hch as [Hin|Hst].
      * left. rewrite <- (Hsame _ Hin (control_status_of_is _ _)). exact Hin.
      * right. split; [exact HV|]. exists sa. rewrite Heq. split; [exact Hsa|].
        symmetry. exact Hst.
  - rewrite lookup_insert_ne in Hs' by congruence. split.
    + intros o Hin Ho. pose proof (Hviewer _ Hin Ho) as Hc.
      destruct (Hout o Hin Ho) as [-> _].
      eexists _, _. split; [reflexivity|]. intros Hsid. exfalso.
      destruct (lst_viewer st HL ida a Ha Hc) as [Hda _].
      rewrite Hsid, HdV in Hda. injection Hda as Hda. contradiction.
    + right. split; [exact HV|]. exists s'. split; [exact Hs'|reflexivity].
Qed.

Section RelayAnnounces.
Variable sha256_hex : string -> string.

Lemma told_on_session_socket st now a ida m V idV s' :
  Inv st -> Attached st -> Listed st -> Named st ->
  sockets st !! ida = Some (SessionSocket a) ->
  sockets (fst (on_session_socket now a m st)) !! idV = Some (SessionSocket V) ->
  clientType V <> cli ->
  heap (fst (on_session_socket now a m st)) !! session V = Some s' ->
  status_told st (snd (on_session_socket now a m st)) idV V s'.
Proof.
  intros HI HA HL HN Ha HV Hv Hs'.
  assert (Hsockets : forall f,
             sockets (fst (with_session a f st)) = sockets st).
  { intros f. unfold with_session. destruct (heap st !! session a); [|reflexivity].
    destruct (f s); reflexivity. }
  assert (Hnone : sockets st !! idV = Some (SessionSocket V) ->
                  heap st !! session V = Some s' ->
                  status_told st [] idV V s').
  { intros H1 H2. apply (status_told_quiet st [] idV V s' s'); auto. }
  destruct m; simpl in *; try (apply Hnone; assumption);
    try (rewrite Hsockets in HV;
         apply (told_by_handler st a ida _ V idV s'); try assumption;
         auto using announces_request_control, announces_release_control,
           announces_output, announces_encrypted_output, announces_output_history,
           announces_get_history, announces_on_input, announces_on_encrypted_input; fail).
  (* disconnect *)
  pose proof (told_by_handler st a ida (on_disconnect a) V idV s' HI HA HL HN Ha
                (announces_disconnect a)) as Ht.
  pose proof (Hsockets (on_disconnect a)) as Hso.
  destruct (with_session a (on_disconnect a) st) as [st1 out]. simpl in *.
  apply lookup_delete_Some in HV as [_ HV]. rewrite Hso in HV.
  apply Ht; assumption.
Qed.

Lemma told_on_connection st now id' q V idV s' :
  Inv st -> Listed st ->
  sockets st !! id' = None ->
  sockets (fst (on_connection sha256_hex now id' q st)) !! idV = Some (SessionSocket V) ->
  clientType V <> cli ->
  heap (fst (on_connection sha256_hex now id' q st)) !! session V = Some s' ->
  status_told st (snd (on_connection sha256_hex now id' q st)) idV V s'.
Proof.
  intros HI HL Hnew HV Hv Hs'. unfold on_connection in *.
  assert (Hnone : sockets st !! idV = Some (SessionSocket V) ->
                  heap st !! session V = Some s' ->
                  status_told st [] idV V s').
  { intros H1 H2. apply (status_told_quiet st [] idV V s' s'); auto. }
  case_bool_decide as Hd.
  { simpl in *. apply lookup_insert_Some in HV as [[_ [=]]|[_ HV]]. auto. }
  destruct (q_sessionId q) as [sid|]; [|auto].
  destruct (negb (JS.truthy_str (Some sid))); [auto|].
  pose proof (Inv_session_for sha256_hex st now q sid HI) as (_ & [s Hs] & Hsock & _).
  pose proof (session_for_old sha256_hex st now q sid) as [Hold Hdir].
  destruct (session_for sha256_hex now q sid st) as [ref st1]. simpl in *.
  unfold with_session in *. simpl in *. rewrite Hs in *.
  destruct (announces_bind_socket id' q sid s) as (_ & Hlock & Hout & Hsent).
  destruct (bind_socket id' q sid s) as [s1 out]. simpl in *.
  assert (Hst : control_status_of s1 = control_status_of s)
    by (unfold control_status_of; rewrite Hlock; reflexivity).
  rewrite Hsock in HV. apply lookup_insert_Some in HV as [[<- [= <-]]|[Hne HV]].
  - (* the new connection *)
    simpl in *. rewrite lookup_insert_eq in Hs'. injection Hs' as <-. split.
    + intros o Hin Ho. rewrite (Hout o Hin Ho). eexists _, _. split; [reflexivity|]. auto.
    + left. apply Hsent. exact Hv.
  - (* a connection that was there *)
    destruct (inv_sockets st HI idV V HV) as [_ [s0 Hs0]].
    pose proof (lst_socket_ref st HL idV V HV) as Hlt.
    destruct (lst_viewer st HL idV V HV Hv) as [HdV _].
    destruct (decide (session V = ref)) as [Heq|Hneq].
    + rewrite Heq, lookup_insert_eq in Hs'. injection Hs' as <-.
      rewrite <- Heq, (Hold _ Hlt), Hs0 in Hs. injection Hs as <-. split.
      * intros o Hin Ho. rewrite (Hout o Hin Ho). eexists _, _. split; [reflexivity|].
        auto.
      * right. split; [exact HV|]. exists s0. split; [exact Hs0|]. symmetry. exact Hst.
    + rewrite lookup_insert_ne in Hs' by congruence. rewrite (Hold _ Hlt) in Hs'. split.
      * intros o Hin Ho. rewrite (Hout o Hin Ho). eexists _, _. split; [reflexivity|].
        intros Hsid. exfalso. rewrite <- Hsid in HdV. apply Hneq. symmetry.
        exact (Hdir _ HdV).
      * right. split; [exact HV|]. exists s'. split; [exact Hs'|reflexivity].
Qed.

Lemma told_step st now e V idV s' :
  Inv st -> Attached st -> Listed st -> Named st ->
  sockets (fst (step sha256_hex now e st)) !! idV = Some (SessionSocket V) ->
  clientType V <> cli ->
  heap (fst (step sha256_hex now e st)) !! session V = Some s' ->
  status_told st (snd (step sha256_hex now e st)) idV V s'.
Proof.
  intros HI HA HL HN HV Hv Hs'.
  assert (Hnone : forall out,
             Forall (fun o => is_control_status o = false) out ->
             sockets st !! idV = Some (SessionSocket V) ->
             heap st !! session V = Some s' ->
             status_told st out idV V s').
  { intros out Hq H1 H2. apply (status_told_quiet st out idV V s' s'); auto. }
  destruct e as [id' q|id' m|handle|request command params random]; simpl in *.
  - destruct (sockets st !! id') eqn:Hs; [apply Hnone; [constructor|assumption..]|].
    apply told_on_connection; assumption.
  - destruct (sockets st !! id') as [[a|u]|] eqn:Hs;
      [| |apply Hnone; [constructor|assumption..]].
    + apply (told_on_session_socket st now a id'); assumption.
    + destruct (on_daemon_socket_quiet st now id' u m HI) as ([_ Hlocks] & Hso & Hq).
      specialize (Hso _ _ HV).
      destruct (inv_sockets st HI idV V Hso) as [_ [s0 Hs0]].
      destruct (Hlocks _ _ (lst_socket_ref st HL idV V Hso) Hs0) as (s1 & Hs1 & Hl).
      rewrite Hs1 in Hs'. injection Hs' as <-.
      apply (status_told_quiet st _ idV V s0 s1); try assumption.
      unfold control_status_of. rewrite Hl. reflexivity.
  - rewrite fire_timer_sockets in HV.
    assert (Hx : heap (fst (fire_timer now handle st)) = heap st /\
                 Forall (fun o => is_control_status o = false)
                        (snd (fire_timer now handle st))).
    { unfold fire_timer, run_timer. repeat case_match; simpl; split;
        first [reflexivity|repeat constructor]. }
    destruct Hx as [Hh Hq]. rewrite Hh in Hs'. apply Hnone; assumption.
  - assert (Hx : heap (fst (post_daemon_command now request command params random st))
                 = heap st /\
                 sockets (fst (post_daemon_command now request command params random st))
                 = sockets st /\
                 Forall (fun o => is_control_status o = false)
                        (snd (post_daemon_command now request command params random st))).
    { unfold post_daemon_command.
      destruct command as [command|]; [|simpl; repeat split; repeat constructor].
      destruct (negb _); [simpl; repeat split; repeat constructor|].
      destruct (JS.map_first (cliDaemons st)) as [[k d]|];
        [|simpl; repeat split; repeat constructor].
      destruct (sockets st !! d_socketId d); simpl; repeat split; repeat constructor. }
    destruct Hx as (Hh & Hso & Hq). rewrite Hh in Hs'. rewrite Hso in HV.
    apply Hnone; assumption.
Qed.

End RelayAnnounces.

(** X23.  The relay tells the viewers of every change of the control lock.
    In every reachable state, whatever event is handled next, and for
    every viewer connected after it: each ['control-status'] the step
    emits goes to the room of a session, and one that goes to the room of
    the viewer's session carries the status -- locked or not, the holder,
    its nickname, the time of acquisition -- of the lock of the session
    object the viewer's handlers close over, as the step leaves it; and
    the step emits that status to that room, unless the viewer was
    connected before the step and the status is what it was. *)
Theorem control_status_is_announced (sha256_hex : string -> string)
    (events : list (Z * Event)) (now : Z) (e : Event) (id : string)
    (viewerSocket : Socket) (s' : Session) :
  sockets (fst (step sha256_hex now e (fst (run sha256_hex events init)))) !! id
  = Some (SessionSocket viewerSocket) ->
  clientType viewerSocket <> cli ->
  heap (fst (step sha256_hex now e (fst (run sha256_hex events init))))
    !! session viewerSocket = Some s' ->
  status_told (fst (run sha256_hex events init))
              (snd (step sha256_hex now e (fst (run sha256_hex events init))))
              id viewerSocket s'.
Proof.
  intros HV Hv Hs'.
  pose proof (Inv_run sha256_hex events init Inv_init) as HI.
  pose proof (Attached_run sha256_hex events init Inv_init Attached_init) as HA.
  pose proof (Listed_run sha256_hex events init Inv_init Listed_init) as HL.
  pose proof (Named_run sha256_hex events init Inv_init Listed_init Named_init) as HN.
  apply told_step; assumption.
Qed.
Lemma control_status_is_announced_witness :
  exists viewerSocket s',
    sockets (fst (run plain_hash controlled_events init)) !! "V"
    = Some (SessionSocket viewerSocket) /\
    heap (fst (run plain_hash controlled_events init)) !! session viewerSocket = Some s' /\
    controlLock s' <> None /\
    status_told (fst (run plain_hash (take 2 controlled_events) init))
                (snd (step plain_hash 2000 (Received "V" request_control)
                           (fst (run plain_hash (take 2 controlled_events) init))))
                "V" viewerSocket s'.
Proof.
  eexists _, _. split; [vm_compute; reflexivity|]. split; [vm_compute; reflexivity|].
  split; [discriminate|].
  apply control_status_is_announced; [vm_compute; reflexivity|discriminate|
                                      vm_compute; reflexivity].
Defined.

(** ** The encrypted history *)

Section EncryptedHistory.
Context {H : Host}.

Lemma on_entry_opened (secret : bytes) (entry : EncryptedOutputEvent)
    (opened : option OutputEvent) (c : WebClient.t) :
  opens_to secret entry opened ->
  WebHistory.on_entry (eo_encrypted entry) secret c
  = match opened with
    | Some event =>
        (fst (WebClient.handleOutput event true c),
         snd (WebClient.handleOutput event true c), Return true)
    | None => (c, [], Return true)
    end.
Proof.
  unfold opens_to, WebHistory.on_entry. destruct opened as [event|].
  - intros (Hd & Hne & Hrt). rewrite Hd. simpl.
    rewrite (bool_decide_eq_false_2 _ Hne). simpl. rewrite Hrt.
    unfold OutputEvent_to_JS at 1.
    change (WebClient.as_OutputEvent (JS.Obj _))
      with (WebClient.as_OutputEvent (OutputEvent_to_JS event)).
    rewrite as_OutputEvent_to_JS.
    destruct (WebClient.handleOutput event true c). reflexivity.
  - intros ->. reflexivity.
Qed.

(** X24.  The page reads of an encrypted history what opens under its
    secret.  If each entry of the history either opens, under the page's
    shared secret, to the JSON text of an output event, or does not open
    at all, then the ['encrypted-history'] handler does what the
    ['history'] handler does on the events of the entries that open, in
    order: each is drawn, whatever its [seq], and becomes the page's
    sequence number.  The entries that do not open are passed over without
    a notice, and no exception leaves the handler. *)
Theorem encrypted_history_as_opened (entries : list EncryptedOutputEvent)
    (opened : list (option OutputEvent)) (secret : bytes) (page : WebClient.t) :
  WebClient.sharedSecret page = Some secret ->
  Forall2 (opens_to secret) entries opened ->
  WebHistory.on_encrypted_history entries page
  = (fst (WebClient.on_history (omap (fun o => o) opened) page),
     snd (WebClient.on_history (omap (fun o => o) opened) page), Return true).
Proof.
  intros Hs Hall. unfold WebHistory.on_encrypted_history. rewrite Hs. clear Hs.
  revert page. induction Hall as [|entry o entries opened Ho Hall IH]; intros page.
  - reflexivity.
  - cbn [WebHistory.on_entries]. rewrite (on_entry_opened secret entry o page Ho).
    destruct o as [event|].
    + change (omap (fun o => o) (Some event :: opened))
        with (event :: omap (fun o => o) opened).
      cbn [WebClient.on_history]. unfold WebClient.handleOutput.
      rewrite andb_false_r. cbn [fst snd]. rewrite IH.
      destruct (WebClient.on_history (omap (fun o => o) opened)
                  (WebClient.set_currentSeq (seq event) page)) as [c2 out2].
      reflexivity.
    + change (omap (fun o => o) (None :: opened)) with (omap (fun o => o) opened).
      rewrite IH.
      destruct (WebClient.on_history (omap (fun o => o) opened) page) as [c2 out2].
      reflexivity.
Qed.

End EncryptedHistory.
Lemma encrypted_history_as_opened_witness :
  WebHistory.on_encrypted_history (H := RefHost.host)
    [mkEncryptedOutputEvent ""
       (mkEncryptedMessage (string_of_list_byte sample_nonce)
          (string_of_list_byte
             (repeat Byte.x22 32 ++ sample_nonce
              ++ list_byte_of_string
                   (RefHost.stringify (OutputEvent_to_JS sample_event))))) 1 1000;
     mkEncryptedOutputEvent ""
       (mkEncryptedMessage (string_of_list_byte sample_nonce)
          (string_of_list_byte
             (repeat Byte.x11 32 ++ sample_nonce
              ++ list_byte_of_string
                   (RefHost.stringify (OutputEvent_to_JS sample_event))))) 1 1000]
    sample_page
  = (WebClient.set_currentSeq 1 sample_page, draws sample_event, Return true).
Proof.
  apply (encrypted_history_as_opened (H := RefHost.host) _ [None; Some sample_event]
           (repeat Byte.x11 32) sample_page); [reflexivity|].
  repeat constructor; vm_compute; congruence.
Defined.

Section HistoryEndToEnd.
Context {H : Host} {HL : HostLaws H}.

Lemma sendEncryptedOutput_history (event : OutputEvent) (rnd : nat -> bytes)
    (c : EncryptedWSClient.t) (firstViewer : string) (firstSecret : bytes)
    (rest : list (string * bytes)) :
  EncryptedWSClient.socket_connected c = true ->
  EncryptedWSClient.sharedSecrets c = (firstViewer, firstSecret) :: rest ->
  Forall (fun entry => length (snd entry) = nacl_secretbox_keyLength)
         (EncryptedWSClient.sharedSecrets c) ->
  (forall i, length (rnd i) = nacl_secretbox_nonceLength) ->
  exists ds box,
    EncryptedWSClient.sendEncryptedOutput event rnd c
    = (EncryptedWSClient.set_lastOutputEvent (Some event) c,
       map EncryptedWSClient.encrypted_output ds
       ++ [EncryptedWSClient.output_history
             {| oh_encrypted :=
                  {| nonce := util_encodeBase64 (rnd (S (length rest)));
                     ciphertext := util_encodeBase64 box |};
                oh_seq := seq event; oh_timestamp := timestamp event |}],
       Return tt) /\
    nacl_secretbox (util_decodeUTF8 (JSON_stringify (OutputEvent_to_JS event)))
                   (rnd (S (length rest))) firstSecret = Return box.
Proof.
  intros Hconn Hss Hk Hn. unfold EncryptedWSClient.sendEncryptedOutput.
  change (EncryptedWSClient.socket_connected
            (EncryptedWSClient.set_lastOutputEvent (Some event) c))
    with (EncryptedWSClient.socket_connected c).
  rewrite Hconn. simpl.
  destruct (send_to_each_sealed event rnd (EncryptedWSClient.sharedSecrets c) Hk Hn 0)
    as (ds & Hds & Hall).
  rewrite Hds. rewrite Hss in *. simpl.
  apply Forall_cons in Hk as [Hk0 _]. simpl in Hk0.
  destruct (encrypt_returns
              (Crypto.MString (JSON_stringify (OutputEvent_to_JS event)))
              firstSecret (rnd (S (length rest))) Hk0 (Hn _)) as (box & Hbox & He).
  rewrite He. exists ds, box. split; [reflexivity|]. exact Hbox.
Qed.

Lemma on_entries_opened (entries : list EncryptedOutputEvent)
    (opened : list (option OutputEvent)) (secret : bytes) :
  Forall2 (opens_to secret) entries opened ->
  forall page,
    WebHistory.on_entries entries secret page
    = (fst (WebClient.on_history (omap (fun o => o) opened) page),
       snd (WebClient.on_history (omap (fun o => o) opened) page), Return true).
Proof.
  intros Hall. induction Hall as [|entry o entries opened Ho Hall IH]; intros page.
  - reflexivity.
  - cbn [WebHistory.on_entries]. rewrite (on_entry_opened secret entry o page Ho).
    destruct o as [event|].
    + change (omap (fun o => o) (Some event :: opened))
        with (event :: omap (fun o => o) opened).
      cbn [WebClient.on_history]. unfold WebClient.handleOutput.
      rewrite andb_false_r. cbn [fst snd]. rewrite IH.
      destruct (WebClient.on_history (omap (fun o => o) opened)
                  (WebClient.set_currentSeq (seq event) page)) as [c2 out2].
      reflexivity.
    + change (omap (fun o => o) (None :: opened)) with (omap (fun o => o) opened).
      rewrite IH.
      destruct (WebClient.on_history (omap (fun o => o) opened) page) as [c2 out2].
      reflexivity.
Qed.

Lemma on_history_snoc (events : list OutputEvent) (event : OutputEvent) :
  forall c,
    WebClient.on_history (events ++ [event]) c
    = (WebClient.set_currentSeq (seq event) (fst (WebClient.on_history events c)),
       snd (WebClient.on_history events c) ++ draws event).
Proof.
  induction events as [|e rest IH]; intros c.
  - simpl. unfold WebClient.handleOutput. rewrite andb_false_r. reflexivity.
  - change ((e :: rest) ++ [event]) with (e :: (rest ++ [event])).
    cbn [WebClient.on_history]. unfold WebClient.handleOutput.
    rewrite andb_false_r. rewrite IH.
    destruct (WebClient.on_history rest (WebClient.set_currentSeq (seq e) c))
      as [c2 out2].
    simpl. reflexivity.
Qed.

Lemma push_capped_snoc {A} (x : A) (history : list A) :
  push_capped x history
  = (if (100 <=? length history)%nat then tail history else history) ++ [x].
Proof.
  unfold push_capped. cbv zeta. rewrite length_app.
  change (length [x]) with 1%nat. rewrite Nat.add_1_r.
  change (100 <? S (length history))%nat with (100 <=? length history)%nat.
  destruct (100 <=? length history)%nat eqn:Hlen; [|reflexivity].
  destruct history as [|y history]; [discriminate|reflexivity].
Qed.

(** X25.  The history of an encrypted session is sealed for one viewer.
    When the producer's client, connected, sends a frame, the
    ['output-history'] it emits after the frames for its viewers carries
    the frame's [seq] and [timestamp] and an envelope sealed with the
    shared secret of the viewer that comes first in its [sharedSecrets].
    The relay appends the entry to the encrypted history of the session,
    whatever that holds -- the oldest entry goes when 100 are stored
    already -- without sending anything, and answers a viewer's
    ['get-history'] with the stored history.  Of that history, each
    earlier entry opening to the JSON text of an event or not opening at
    all: the page that holds the first secret reads the earlier entries
    as the ['history'] handler reads the events they open to, and then
    draws the new frame, whose [seq] becomes its sequence number; a page
    that holds another secret, under which the new box does not open,
    reads the earlier entries likewise, draws nothing from the new entry
    and shows no notice.  [JSON.parse] is taken to read back the text
    that [JSON.stringify] wrote for the frame. *)
Theorem history_is_sealed_for_first_viewer (event : OutputEvent) (rnd : nat -> bytes)
    (producer : EncryptedWSClient.t) (firstViewer : string)
    (firstSecret otherSecret : bytes) (rest : list (string * bytes))
    (producerSocket viewerSocket : Socket) (s : Session) (page other : WebClient.t) :
  EncryptedWSClient.socket_connected producer = true ->
  EncryptedWSClient.sharedSecrets producer = (firstViewer, firstSecret) :: rest ->
  Forall (fun entry => length (snd entry) = nacl_secretbox_keyLength)
         (EncryptedWSClient.sharedSecrets producer) ->
  (forall i, length (rnd i) = nacl_secretbox_nonceLength) ->
  JSON_stringify (OutputEvent_to_JS event) <> ""%string ->
  JSON_parse (JSON_stringify (OutputEvent_to_JS event)) = Return (OutputEvent_to_JS event) ->
  clientType producerSocket = cli ->
  encrypted s = true ->
  WebClient.sharedSecret page = Some firstSecret ->
  WebClient.sharedSecret other = Some otherSecret ->
  (forall box,
      nacl_secretbox (util_decodeUTF8 (JSON_stringify (OutputEvent_to_JS event)))
                     (rnd (S (length rest))) firstSecret = Return box ->
      nacl_secretbox_open box (rnd (S (length rest))) otherSecret = Return None) ->
  exists frames h entry kept,
    EncryptedWSClient.sendEncryptedOutput event rnd producer
    = (EncryptedWSClient.set_lastOutputEvent (Some event) producer,
       map EncryptedWSClient.encrypted_output frames
       ++ [EncryptedWSClient.output_history h], Return tt) /\
    oh_seq h = seq event /\ oh_timestamp h = timestamp event /\
    eo_encrypted entry = oh_encrypted h /\
    kept = (if (100 <=? length (encryptedHistory s))%nat
            then tail (encryptedHistory s) else encryptedHistory s) /\
    on_output_history producerSocket h s
    = (set_encryptedHistory (kept ++ [entry]) s, []) /\
    on_get_history viewerSocket (set_encryptedHistory (kept ++ [entry]) s)
    = (set_encryptedHistory (kept ++ [entry]) s,
       [Emit (ToSocket (socket_id viewerSocket)) (encrypted_history (kept ++ [entry]))]) /\
    (forall opened,
        Forall2 (opens_to firstSecret) kept opened ->
        WebHistory.on_encrypted_history (kept ++ [entry]) page
        = (WebClient.set_currentSeq
             (seq event) (fst (WebClient.on_history (omap (fun o => o) opened) page)),
           snd (WebClient.on_history (omap (fun o => o) opened) page) ++ draws event,
           Return true)) /\
    (forall opened,
        Forall2 (opens_to otherSecret) kept opened ->
        WebHistory.on_encrypted_history (kept ++ [entry]) other
        = (fst (WebClient.on_history (omap (fun o => o) opened) other),
           snd (WebClient.on_history (omap (fun o => o) opened) other),
           Return true)).
Proof.
  intros Hconn Hss Hk Hn Hne Hrt Hcli Henc Hpage Hother Hfail.
  destruct (sendEncryptedOutput_history event rnd producer firstViewer firstSecret rest
              Hconn Hss Hk Hn) as (ds & box & Hsend & Hbox).
  set (sealed := {| nonce := util_encodeBase64 (rnd (S (length rest)));
                    ciphertext := util_encodeBase64 box |}) in *.
  set (entry := {| eo_viewerId := ""; eo_encrypted := sealed; eo_seq := seq event;
                   eo_timestamp := timestamp event |}).
  exists ds, {| oh_encrypted := sealed; oh_seq := seq event;
                oh_timestamp := timestamp event |}, entry,
    (if (100 <=? length (encryptedHistory s))%nat
     then tail (encryptedHistory s) else encryptedHistory s).
  split; [exact Hsend|]. split; [reflexivity|]. split; [reflexivity|].
  split; [reflexivity|]. split; [reflexivity|]. split; [|split; [|split]].
  - unfold on_output_history. rewrite (bool_decide_eq_true_2 _ Hcli). simpl.
    rewrite push_capped_snoc. reflexivity.
  - unfold on_get_history. simpl. rewrite Henc. reflexivity.
  - intros opened Hopened. unfold WebHistory.on_encrypted_history. rewrite Hpage.
    assert (Hnew : opens_to firstSecret entry (Some event)).
    { split; [|split; [exact Hne|exact Hrt]]. apply decryptToString_sealed, Hbox. }
    rewrite (on_entries_opened _ (opened ++ [Some event]) firstSecret)
      by (apply Forall2_app; [exact Hopened|constructor; [exact Hnew|constructor]]).
    rewrite omap_app. change (omap (fun o => o) [Some event]) with [event].
    rewrite on_history_snoc. reflexivity.
  - intros opened Hopened. unfold WebHistory.on_encrypted_history. rewrite Hother.
    assert (Hnew : opens_to otherSecret entry None).
    { simpl. unfold Crypto.decryptToString, Crypto.decrypt. simpl.
      rewrite !decodeBase64_encodeBase64. simpl. rewrite (Hfail box Hbox). reflexivity. }
    rewrite (on_entries_opened _ (opened ++ [None]) otherSecret)
      by (apply Forall2_app; [exact Hopened|constructor; [exact Hnew|constructor]]).
    rewrite omap_app. change (omap (fun o => o) [@None OutputEvent]) with (@nil OutputEvent).
    rewrite app_nil_r. reflexivity.
Qed.

End HistoryEndToEnd.

Lemma history_is_sealed_for_first_viewer_witness :
  exists frames h entry,
    EncryptedWSClient.sendEncryptedOutput (H := RefHost.host) later_event
      (fun _ => sample_nonce) sample_client
    = (EncryptedWSClient.set_lastOutputEvent (Some later_event) sample_client,
       map EncryptedWSClient.encrypted_output frames
       ++ [EncryptedWSClient.output_history h], Return tt) /\
    oh_seq h = 2 /\ oh_timestamp h = 2000 /\
    eo_encrypted entry = oh_encrypted h /\
    on_output_history producerP1 h encrypted_demo_session_1
    = (set_encryptedHistory (encryptedHistory encrypted_demo_session_1 ++ [entry])
                            encrypted_demo_session_1, []) /\
    on_get_history viewerA
      (set_encryptedHistory (encryptedHistory encrypted_demo_session_1 ++ [entry])
                            encrypted_demo_session_1)
    = (set_encryptedHistory (encryptedHistory encrypted_demo_session_1 ++ [entry])
                            encrypted_demo_session_1,
       [Emit (ToSocket "A")
             (encrypted_history (encryptedHistory encrypted_demo_session_1 ++ [entry]))]) /\
    WebHistory.on_encrypted_history (H := RefHost.host)
      (encryptedHistory encrypted_demo_session_1 ++ [entry]) sample_page
    = (WebClient.set_currentSeq 2 sample_page,
       draws sample_event ++ draws later_event, Return true) /\
    WebHistory.on_encrypted_history (H := RefHost.host)
      (encryptedHistory encrypted_demo_session_1 ++ [entry]) sample_page_V2
    = (sample_page_V2, [], Return true).
Proof.
  destruct (@history_is_sealed_for_first_viewer RefHost.host RefHost_laws later_event
              (fun _ => sample_nonce) sample_client "V1" (repeat Byte.x11 32)
              (repeat Byte.x22 32) [("V2"%string, repeat Byte.x22 32)]
              producerP1 viewerA encrypted_demo_session_1 sample_page sample_page_V2)
    as (frames & h & entry & kept & Hsend & Hseq & Hts & Henc & Hkept & Hstore & Hget
        & Hpage & Hother);
    try reflexivity; try discriminate.
  - repeat constructor.
  - intros box Hbox. vm_compute in Hbox. injection Hbox as <-. reflexivity.
  - change (kept = encryptedHistory encrypted_demo_session_1) in Hkept. subst kept.
    exists frames, h, entry.
    split; [exact Hsend|]. split; [exact Hseq|]. split; [exact Hts|].
    split; [exact Henc|]. split; [exact Hstore|]. split; [exact Hget|]. split.
    + apply (Hpage [Some sample_event]). repeat constructor; vm_compute; congruence.
    + apply (Hother [None]). repeat constructor.
Defined.

(** ** The session reports *)

Lemma viewers_are_connected st sid r s :
  Attached st -> Listed st -> Named st ->
  sessions st !! sid = Some r -> heap st !! r = Some s ->
  dom (viewers s) = dom (filter (fun kv => viewer_of sid (snd kv) = true) (sockets st)).
Proof.
  intros HA HL HN Hd Hr. apply set_eq. intros k.
  rewrite !elem_of_dom. split.
  - intros [x Hx].
    destruct (att_viewer st HA r s k x Hr Hx) as (socket & Hk & Hs & Hty).
    apply bool_decide_eq_false in Hty.
    destruct (lst_viewer st HL k socket Hk Hty) as [Hd' _].
    rewrite Hs in Hd'. exists (SessionSocket socket).
    apply map_lookup_filter_Some. split; [exact Hk|]. simpl.
    rewrite (bool_decide_eq_false_2 _ Hty). simpl. apply bool_decide_eq_true.
    rewrite <- (HN _ _ _ Hd' Hr). exact (HN _ _ _ Hd Hr).
  - intros [c Hc]. apply map_lookup_filter_Some in Hc as [Hk Hv]. simpl in Hv.
    destruct c as [socket|u]; [|discriminate]. simpl in Hv.
    apply andb_prop in Hv as [Hty Hsid].
    apply negb_true_iff, bool_decide_eq_false in Hty.
    apply bool_decide_eq_true in Hsid.
    destruct (lst_viewer st HL k socket Hk Hty) as [Hd' (s0 & Hs0 & Hin)].
    rewrite Hsid, Hd in Hd'. injection Hd' as Heq. rewrite <- Heq, Hr in Hs0.
    injection Hs0 as Hs0. rewrite Hs0. exact Hin.
Qed.

(** X26.  The relay's session reports match the live connections.  In
    every reachable state and for every session in the directory:
    [GET /api/sessions/:sessionId] finds it and reports the id that was
    asked for; the [viewerCount] of [GET /api/sessions] is the number of
    connected viewers that were opened for that session id; when the
    single-session report says [hasCliConnected], the bound producer is a
    connected ['cli'] connection opened for that session id; and when the
    list says [controlLocked], the holder that the single-session report
    names is one of those connected viewers. *)
Theorem session_reports_match_connections (sha256_hex : string -> string)
    (events : list (Z * Event)) (sid : string) (r : nat) (s : Session) :
  sessions (fst (run sha256_hex events init)) !! sid = Some r ->
  heap (fst (run sha256_hex events init)) !! r = Some s ->
  (exists detail,
      get_session sid (fst (run sha256_hex events init)) = Some detail /\
      sd_id detail = sid /\
      (sd_hasCliConnected detail = true ->
       exists p socket,
         cliSocketId s = Some p /\
         sockets (fst (run sha256_hex events init)) !! p = Some (SessionSocket socket) /\
         clientType socket = cli /\ sessionId socket = sid) /\
      (ss_controlLocked (session_summary sid s) = true ->
       exists holder nick acquired c,
         sd_controlLock detail = Some (holder, nick, acquired) /\
         ss_controlHolder (session_summary sid s) = nick /\
         sockets (fst (run sha256_hex events init)) !! holder = Some c /\
         viewer_of sid c = true)) /\
  ss_viewerCount (session_summary sid s)
  = size (filter (fun kv => viewer_of sid (snd kv) = true)
                 (sockets (fst (run sha256_hex events init)))).
Proof.
  intros Hd Hr.
  pose proof (Inv_run sha256_hex events init Inv_init) as HI.
  pose proof (Attached_run sha256_hex events init Inv_init Attached_init) as HA.
  pose proof (Listed_run sha256_hex events init Inv_init Listed_init) as HL.
  pose proof (Named_run sha256_hex events init Inv_init Listed_init Named_init) as HN.
  set (st := fst (run sha256_hex events init)) in *. clearbody st.
  pose proof (viewers_are_connected st sid r s HA HL HN Hd Hr) as Hdom.
  split.
  - unfold get_session. rewrite Hd, Hr. eexists. split; [reflexivity|]. simpl.
    split; [exact (HN _ _ _ Hd Hr)|]. split.
    + intros Hc. destruct (cliSocketId s) as [p|] eqn:Hp; [|discriminate].
      simpl in Hc. apply negb_true_iff, bool_decide_eq_false in Hc.
      destruct (att_producer st HA r s p Hr Hp) as (socket & Hk & Hs & Hty).
      apply bool_decide_eq_true in Hty.
      exists p, socket. split; [reflexivity|]. split; [exact Hk|]. split; [exact Hty|].
      assert (Hr' : heap st !! session socket = Some s) by (rewrite Hs; exact Hr).
      pose proof (lst_producer st HL p socket s Hk Hr' Hp Hc) as Hd'.
      rewrite <- (HN _ _ _ Hd' Hr'). exact (HN _ _ _ Hd Hr).
    + intros Hl. apply bool_decide_eq_true in Hl. destruct Hl as [l Hl].
      rewrite Hl. destruct (att_holder st HA r s Hr l Hl) as [x Hx].
      assert (Hin : holderId l ∈ dom (viewers s)) by (apply elem_of_dom; eauto).
      rewrite Hdom in Hin. apply elem_of_dom in Hin as [c Hc].
      apply map_lookup_filter_Some in Hc as [Hk Hv].
      exists (holderId l), (holderNickname l), (acquiredAt l), c.
      split; [reflexivity|]. split; [reflexivity|]. split; [exact Hk|exact Hv].
  - simpl. rewrite <- !size_dom. rewrite Hdom. reflexivity.
Qed.
Lemma session_reports_match_connections_witness :
  exists s,
    heap (fst (run plain_hash controlled_events init)) !! 0%nat = Some s /\
    ss_viewerCount (session_summary "demo" s) = 1%nat /\
    ss_viewerCount (session_summary "demo" s)
    = size (filter (fun kv => viewer_of "demo" (snd kv) = true)
                   (sockets (fst (run plain_hash controlled_events init)))).
Proof.
  eexists. split; [vm_compute; reflexivity|]. split; [vm_compute; reflexivity|].
  refine (proj2 (session_reports_match_connections plain_hash controlled_events
                   "demo" 0 _ _ _)); vm_compute; reflexivity.
Defined.

(** ** The pairing code, from the daemon to the page *)

Section PairingEndToEnd.
Context {H : Host}.

(** X27.  The pairing code that the daemon hands out verifies the key
    that the relay announces.  When a daemon with a socket attaches a
    session, the answer to the command carries the encoded pairing code
    and the relay is told the session's public key; the relay, handling
    that ['session-attached'], announces the key to the room of the
    session.  A page opened with that pairing code in its URL -- the
    session name and the key not empty, the time stamp not zero, the JSON
    text read back by the host -- loads it, with the session's name as its
    session id, and [verifyPairing] shows [verified] for the announced
    key, and [mismatch] for every other key. *)
Theorem daemon_pairing_code_verifies (tmux : DaemonManager.Tmux) (pair : Crypto.KeyPair)
    (now : Z) (pane : string) (started : Z) (rnd : nat -> bytes) (cid name : string)
    (d : DaemonManager.t) (b : bool) :
  DaemonManager.socket d = Some b ->
  name <> ""%string ->
  DaemonManager.tmux_sessionExists tmux name = true ->
  JS.map_get name (DaemonManager.activeSessions d) = None ->
  now <> 0 ->
  Crypto.publicKeyToBase64 (Crypto.publicKey pair) <> ""%string ->
  JSON_parse (Crypto.encodePairingCode
                (Crypto.generatePairingCode name (Crypto.publicKey pair) now))
  = Return (Crypto.PairingCode_to_JS
              (Crypto.generatePairingCode name (Crypto.publicKey pair) now)) ->
  Crypto.encodePairingCode (Crypto.generatePairingCode name (Crypto.publicKey pair) now)
  <> ""%string ->
  exists data pairing key code,
    snd (DaemonManager.handleCommand
           tmux pair now pane started rnd
           (DaemonManager.mkCommandMessage cid "attach-session" (Some name)) d)
    = [DaemonManager.session_attached name key true;
       DaemonManager.cli_response (DaemonManager.success cid data)] /\
    JS.get data "pairingCode" = Some (Some (JS.Str pairing)) /\
    (forall at_ id' u st,
        snd (on_session_attached at_ id' u name key true st)
        = [Emit (ToRoom (room_of name)) (cli_status true (Some key) true)]) /\
    WebPairing.load_pairing (Some pairing) = WebPairing.pairing_loaded code /\
    JS.get code "sessionId" = Some (Some (JS.Str name)) /\
    WebPairing.verifyPairing (Some code) key = Return (Some WebPairing.verified) /\
    (forall other, other <> key ->
                   WebPairing.verifyPairing (Some code) other
                   = Return (Some WebPairing.mismatch)).
Proof.
  intros Hs Hname Hex Hnew Hnow Hkey Hrt Hne.
  exists (attached_data name pair now),
    (Crypto.encodePairingCode
       (Crypto.generatePairingCode name (Crypto.publicKey pair) now)),
    (Crypto.publicKeyToBase64 (Crypto.publicKey pair)),
    (Crypto.PairingCode_to_JS
       (Crypto.generatePairingCode name (Crypto.publicKey pair) now)).
  split; [|split; [reflexivity|split; [|split; [|split; [reflexivity|split]]]]].
  - unfold DaemonManager.handleCommand.
    cbn [DaemonManager.cm_command DaemonManager.cm_commandId DaemonManager.cm_name].
    rewrite (bool_decide_eq_false_2 ("attach-session"%string = "list-sessions"%string))
      by discriminate.
    rewrite (bool_decide_eq_false_2 ("attach-session"%string = "create-session"%string))
      by discriminate.
    rewrite (bool_decide_eq_true_2 ("attach-session"%string = "attach-session"%string))
      by reflexivity.
    rewrite (cmdAttachSession_attaches tmux pair now pane started rnd cid name d b
               Hs Hname Hex Hnew).
    simpl. unfold DaemonManager.emit. simpl. rewrite Hs. reflexivity.
  - intros at_ id' u st. unfold on_session_attached.
    destruct u as [user|]; [destruct (JS.truthy_str (Some user))|]; reflexivity.
  - unfold WebPairing.load_pairing. simpl.
    rewrite (bool_decide_eq_false_2 _ Hne). simpl. rewrite Hrt. simpl.
    rewrite (bool_decide_eq_false_2 _ Hname).
    unfold Crypto.publicKeyToBase64 in Hkey.
    rewrite (bool_decide_eq_false_2 _ Hkey). simpl.
    assert ((now =? 0) = false) as -> by (apply Z.eqb_neq; exact Hnow).
    reflexivity.
  - unfold WebPairing.verifyPairing. simpl.
    unfold Crypto.publicKeyToBase64.
    rewrite bool_decide_eq_true_2 by reflexivity. reflexivity.
  - intros other Hother. unfold WebPairing.verifyPairing. simpl.
    unfold Crypto.publicKeyToBase64 in Hother.
    rewrite bool_decide_eq_false_2 by congruence. reflexivity.
Qed.

End PairingEndToEnd.

Lemma daemon_pairing_code_verifies_witness :
  exists data pairing key code,
    snd (DaemonManager.handleCommand (H := RefHost.host)
           sample_tmux (Crypto.mkKeyPair sample_key sample_key) 5 "$ " 6
           (fun _ => sample_nonce)
           (DaemonManager.mkCommandMessage "c1" "attach-session" (Some "work"%string))
           sample_daemon)
    = [DaemonManager.session_attached "work" key true;
       DaemonManager.cli_response (DaemonManager.success "c1" data)] /\
    JS.get data "pairingCode" = Some (Some (JS.Str pairing)) /\
    (forall at_ id' u st,
        snd (on_session_attached at_ id' u "work" key true st)
        = [Emit (ToRoom (room_of "work")) (cli_status true (Some key) true)]) /\
    WebPairing.load_pairing (H := RefHost.host) (Some pairing)
    = WebPairing.pairing_loaded code /\
    JS.get code "sessionId" = Some (Some (JS.Str "work")) /\
    WebPairing.verifyPairing (Some code) key = Return (Some WebPairing.verified) /\
    (forall other, other <> key ->
                   WebPairing.verifyPairing (Some code) other
                   = Return (Some WebPairing.mismatch)).
Proof.
  apply (daemon_pairing_code_verifies (H := RefHost.host) sample_tmux
           (Crypto.mkKeyPair sample_key sample_key) 5 "$ " 6 (fun _ => sample_nonce)
           "c1" "work" sample_daemon true);
    try reflexivity; try discriminate; vm_compute; congruence.
Defined.

(** ** The key exchange *)

Section KeyExchange.
Context {H : Host} {HL : HostLaws H}.

(** X28.  The relay carries the key exchange.  Let a producer connect to a
    session with its public key, and then a viewer with its own.  The
    relay sends the viewer's id and key to the producer's connection, as
    ['viewer-joined'], and tells the viewer's connection that the producer
    is connected, with the producer's key and [encrypted: true].  If the
    two key pairs agree on a secret -- [nacl.box.before] of either public
    key with the other secret key is the same -- then the producer's
    handler stores that secret under the viewer's id, and the page's
    ['cli-status'] handler takes the same secret as its shared secret and
    switches encryption on. *)
Theorem key_exchange_through_relay (producerId viewerId sid : string)
    (qP qV : Handshake) (s : Session) (producer : EncryptedWSClient.t)
    (page : WebClient.t) (pairV : Crypto.KeyPair) (secret rnd : bytes) :
  q_clientType qP = cli ->
  q_clientType qV <> cli ->
  producerId <> ""%string ->
  q_publicKey qP
  = Some (Crypto.publicKeyToBase64 (Crypto.publicKey (EncryptedWSClient.keyPair producer))) ->
  q_publicKey qV = Some (Crypto.publicKeyToBase64 (Crypto.publicKey pairV)) ->
  Crypto.publicKeyToBase64 (Crypto.publicKey (EncryptedWSClient.keyPair producer))
  <> ""%string ->
  Crypto.publicKeyToBase64 (Crypto.publicKey pairV) <> ""%string ->
  WebClient.keyPair page = Some pairV ->
  nacl_box_before (Crypto.publicKey pairV)
                  (Crypto.secretKey (EncryptedWSClient.keyPair producer)) = Return secret ->
  nacl_box_before (Crypto.publicKey (EncryptedWSClient.keyPair producer))
                  (Crypto.secretKey pairV) = Return secret ->
  let kP := Crypto.publicKeyToBase64
              (Crypto.publicKey (EncryptedWSClient.keyPair producer)) in
  let kV := Crypto.publicKeyToBase64 (Crypto.publicKey pairV) in
  let s1 := fst (bind_socket producerId qP sid s) in
  Emit (ToRoom producerId) (viewer_joined viewerId kV)
    ∈ snd (bind_socket viewerId qV sid s1) /\
  Emit (ToSocket viewerId) (cli_status true (Some kP) true)
    ∈ snd (bind_socket viewerId qV sid s1) /\
  JS.map_get viewerId
    (EncryptedWSClient.sharedSecrets
       (fst (fst (EncryptedWSClient.on_viewer_joined viewerId kV rnd producer))))
  = Some secret /\
  WebClient.on_cli_status true (Some kP) page
  = Return (WebClient.set_isEncrypted true (WebClient.set_sharedSecret (Some secret) page),
            [WebClient.notice_encryption_enabled]).
Proof.
  intros HcP HcV HP HkP HkV HneP HneV Hpage Hbp Hbv kP kV s1.
  assert (Hs1 : cliSocketId s1 = Some producerId /\ cliPublicKey s1 = Some kP /\
                encrypted s1 = true).
  { unfold s1, bind_socket. rewrite (bool_decide_eq_true_2 _ HcP). simpl.
    rewrite HkP. simpl. fold kP. rewrite (bool_decide_eq_false_2 _ HneP). auto. }
  destruct Hs1 as (Hc1 & Hk1 & He1).
  split; [|split; [|split]].
  - unfold bind_socket. rewrite (bool_decide_eq_false_2 _ HcV). simpl.
    rewrite Hc1, HkV, He1. simpl. fold kV.
    rewrite (bool_decide_eq_false_2 _ HP), (bool_decide_eq_false_2 _ HneV). simpl.
    apply elem_of_cons. left. reflexivity.
  - unfold bind_socket. rewrite (bool_decide_eq_false_2 _ HcV). simpl.
    rewrite Hc1, Hk1, He1. simpl. rewrite (bool_decide_eq_false_2 _ HP). simpl.
    apply elem_of_app. right. apply elem_of_app. right.
    apply elem_of_cons. left. reflexivity.
  - unfold EncryptedWSClient.on_viewer_joined, Crypto.publicKeyFromBase64, kV,
      Crypto.publicKeyToBase64, Crypto.computeSharedSecret.
    rewrite decodeBase64_encodeBase64, Hbp. simpl.
    repeat case_match; simpl; apply map_get_set_eq.
  - unfold WebClient.on_cli_status. rewrite Hpage. simpl.
    rewrite (bool_decide_eq_false_2 _ HneP). simpl.
    unfold Crypto.publicKeyFromBase64, kP, Crypto.publicKeyToBase64,
      Crypto.computeSharedSecret.
    rewrite decodeBase64_encodeBase64. simpl. rewrite Hbv. reflexivity.
Qed.

End KeyExchange.
Lemma key_exchange_through_relay_witness :
  let kP := string_of_list_byte sample_key in
  let kV := string_of_list_byte sample_key in
  let s1 := fst (bind_socket "P1" sample_producer_handshake "demo" (demo_session None)) in
  Emit (ToRoom "P1") (viewer_joined "V1" kV)
    ∈ snd (bind_socket "V1" sample_viewer_handshake "demo" s1) /\
  Emit (ToSocket "V1") (cli_status true (Some kP) true)
    ∈ snd (bind_socket "V1" sample_viewer_handshake "demo" s1) /\
  JS.map_get "V1"
    (EncryptedWSClient.sharedSecrets
       (fst (fst (EncryptedWSClient.on_viewer_joined (H := RefHost.host)
                    "V1" kV sample_nonce sample_client))))
  = Some sample_key /\
  WebClient.on_cli_status (H := RefHost.host) true (Some kP) sample_page
  = Return (WebClient.set_isEncrypted true
              (WebClient.set_sharedSecret (Some sample_key) sample_page),
            [WebClient.notice_encryption_enabled]).
Proof.
  apply (@key_exchange_through_relay RefHost.host RefHost_laws "P1" "V1" "demo"
           sample_producer_handshake sample_viewer_handshake (demo_session None)
           sample_client sample_page (Crypto.mkKeyPair sample_key sample_key)
           sample_key sample_nonce);
    try reflexivity; try discriminate.
Defined.

(** ** The daemon bindings *)

Lemma elem_of_set_add x y l : y ∈ set_add x l <-> y = x \/ y ∈ l.
Proof.
  unfold set_add. case_bool_decide as Hx.
  - split; [auto|]. intros [->|Hy]; assumption.
  - rewrite elem_of_app, list_elem_of_singleton. tauto.
Qed.

Lemma elem_of_set_remove x y l : y ∈ set_remove x l <-> y <> x /\ y ∈ l.
Proof.
  unfold set_remove. rewrite list_elem_of_filter. split.
  - intros [Hne Hy]. split; [|exact Hy]. intros ->.
    rewrite bool_decide_eq_true_2 in Hne by reflexivity. exact Hne.
  - intros [Hne Hy]. split; [|exact Hy].
    rewrite bool_decide_eq_false_2 by assumption. exact I.
Qed.

Lemma Managed_init : Managed init.
Proof.
  constructor.
  - intros id' u Hs. simpl in Hs. rewrite lookup_empty in Hs. discriminate.
  - intros sid r s d Hd. simpl in Hd. rewrite lookup_empty in Hd. discriminate.
Qed.

Lemma Managed_ext st st' :
  heap st' = heap st -> sessions st' = sessions st -> sockets st' = sockets st ->
  cliDaemons st' = cliDaemons st -> Managed st -> Managed st'.
Proof.
  intros Hh Hd Hs Hc [H1 H2]. constructor.
  - intros id' u. rewrite Hs, Hc. apply H1.
  - intros sid r s d. rewrite Hh, Hd. intros A B C.
    destruct (H2 sid r s d A B C) as (daemon & Hg & Hin). exists daemon. rewrite Hc. auto.
Qed.

Lemma Bound_impl (P Q : string -> string -> Prop) st :
  (forall sid d, P sid d -> Q sid d) -> Bound P st -> Bound Q st.
Proof. intros HPQ HB sid r s d A B C. apply HPQ. exact (HB sid r s d A B C). Qed.

(** Updating a session object without giving it a daemon binding it did
    not have. *)
Lemma Bound_heap_insert P st r s s' :
  Bound P st -> heap st !! r = Some s ->
  (forall d, daemonSocketId s' = Some d -> daemonSocketId s = Some d) ->
  Bound P (set_heap (<[r := s']> (heap st)) st).
Proof.
  intros HB Hr Hkeep sid r0 s0 d Hd Hh Hb. simpl in *.
  apply lookup_insert_Some in Hh as [[<- <-]|[_ Hh]].
  - exact (HB sid r s d Hd Hr (Hkeep d Hb)).
  - exact (HB sid r0 s0 d Hd Hh Hb).
Qed.

Lemma Managed_heap_insert st r s s' :
  Managed st -> heap st !! r = Some s ->
  (forall d, daemonSocketId s' = Some d -> daemonSocketId s = Some d) ->
  Managed (set_heap (<[r := s']> (heap st)) st).
Proof.
  intros [H1 H2] Hr Hkeep. constructor; [exact H1|].
  exact (Bound_heap_insert _ st r s s' H2 Hr Hkeep).
Qed.

Lemma Managed_with_session st socket f :
  Managed st -> (forall s, daemonSocketId (fst (f s)) = daemonSocketId s) ->
  Managed (fst (with_session socket f st)).
Proof.
  intros HM Hf. unfold with_session.
  destruct (heap st !! session socket) as [s|] eqn:Hs; [|exact HM].
  specialize (Hf s). destruct (f s) as [s' out]. simpl in *.
  apply (Managed_heap_insert st _ s s' HM Hs). intros d. rewrite Hf. auto.
Qed.

(** A new session object, listed under an id the directory did not have. *)
Lemma Managed_create st sid new :
  Listed st -> Managed st ->
  (forall d, daemonSocketId new = Some d -> managed_by st sid d) ->
  Managed (set_sessions (<[sid := nextRef st]> (sessions st))
             (set_nextRef (S (nextRef st))
                (set_heap (<[nextRef st := new]> (heap st)) st))).
Proof.
  intros HL [H1 H2] Hnew. constructor; [exact H1|].
  intros sid' r s d Hd Hh Hb. simpl in *.
  apply lookup_insert_Some in Hd as [[<- <-]|[_ Hd]].
  - rewrite lookup_insert_eq in Hh. injection Hh as <-. exact (Hnew d Hb).
  - pose proof (lst_dir_ref st HL sid' r Hd) as Hlt.
    rewrite lookup_insert_ne in Hh by lia. exact (H2 sid' r s d Hd Hh Hb).
Qed.

Lemma handlers_keep_daemon socket now m s :
  daemonSocketId
    (fst (match m with
          | request_control => on_request_control socket now s
          | release_control => on_release_control socket s
          | send_output event => on_output socket event s
          | send_encrypted_output data => on_encrypted_output socket data s
          | send_output_history data => on_output_history socket data s
          | send_input data => on_input socket now data s
          | send_encrypted_input data => on_encrypted_input socket now data s
          | get_history => on_get_history socket s
          | disconnect => on_disconnect socket s
          | _ => (s, [])
          end)) = daemonSocketId s.
Proof.
  destruct m; try reflexivity;
    unfold on_request_control, on_release_control, on_output, on_encrypted_output,
      on_output_history, on_input, on_encrypted_input, forward_input, input_gate,
      on_get_history, on_disconnect;
    repeat case_match; simplify_eq; reflexivity.
Qed.
Lemma bind_socket_keeps_daemon id' q sid s :
  daemonSocketId (fst (bind_socket id' q sid s)) = daemonSocketId s.
Proof. unfold bind_socket. case_bool_decide; reflexivity. Qed.

Lemma Managed_sockets_delete_session st id' socket :
  sockets st !! id' = Some (SessionSocket socket) ->
  Managed st -> Managed (set_sockets (delete id' (sockets st)) st).
Proof.
  intros Hs [H1 H2]. constructor; [|exact H2].
  intros k u Hk. simpl in Hk. apply lookup_delete_Some in Hk as [_ Hk]. exact (H1 k u Hk).
Qed.

Section RelayManaged.
Variable sha256_hex : string -> string.

Lemma Managed_session_for st now q sid :
  Listed st -> Managed st -> Managed (snd (session_for sha256_hex now q sid st)).
Proof.
  intros HL HM. unfold session_for. destruct (sessions st !! sid) as [r|] eqn:Hr; simpl.
  - exact HM.
  - set (new := mkSession _ _ _ _ _ _ _ _ _ _ _ _).
    assert (HM1 : Managed (set_sessions (<[sid := nextRef st]> (sessions st))
                             (set_nextRef (S (nextRef st))
                                (set_heap (<[nextRef st := new]> (heap st)) st))))
      by (apply Managed_create; [exact HL|exact HM|discriminate]).
    clearbody new.
    repeat case_match; (eapply Managed_ext; [| | | |exact HM1]; reflexivity).
Qed.

Lemma Managed_on_connection st now id' q :
  Inv st -> Listed st -> Managed st -> sockets st !! id' = None ->
  Managed (fst (on_connection sha256_hex now id' q st)).
Proof.
  intros HI HL HM Hnew. unfold on_connection. case_bool_decide as Hd.
  - (* a daemon *)
    assert (Hfresh : JS.map_get id' (cliDaemons st) = None).
    { destruct (JS.map_get id' (cliDaemons st)) as [d|] eqn:Hg; [|reflexivity].
      apply map_get_elem in Hg. destruct (inv_daemons st HI _ _ Hg) as [_ [u Hu]].
      congruence. }
    destruct HM as [H1 H2]. constructor; simpl.
    + intros k u Hk. rewrite map_get_set.
      destruct (decide (k = id')) as [->|Hne]; [eauto|].
      rewrite lookup_insert_ne in Hk by congruence. exact (H1 k u Hk).
    + intros sid r s d A B C. destruct (H2 sid r s d A B C) as (daemon & Hg & Hin).
      exists daemon. simpl. rewrite map_get_set.
      destruct (decide (d = id')) as [->|Hne]; [congruence|]. auto.
  - destruct (q_sessionId q) as [sid|]; [|exact HM].
    destruct (negb (JS.truthy_str (Some sid))); [exact HM|].
    pose proof (Managed_session_for st now q sid HL HM) as HM1.
    destruct (session_for sha256_hex now q sid st) as [ref st1]. simpl in *.
    apply Managed_with_session; [|intros s; apply bind_socket_keeps_daemon].
    destruct HM1 as [H1 H2]. constructor; [|exact H2].
    intros k u Hk. simpl in Hk.
    apply lookup_insert_Some in Hk as [[_ [=]]|[_ Hk]]. exact (H1 k u Hk).
Qed.

Lemma Managed_on_session_socket st now id' socket m :
  Inv st -> Managed st -> sockets st !! id' = Some (SessionSocket socket) ->
  Managed (fst (on_session_socket now socket m st)).
Proof.
  intros HI HM Hs. destruct (inv_sockets st HI id' socket Hs) as [Hid _].
  destruct m; simpl; try exact HM;
    try (apply Managed_with_session; [exact HM|]; intros s;
         first [ exact (handlers_keep_daemon socket now request_control s)
               | exact (handlers_keep_daemon socket now release_control s)
               | exact (handlers_keep_daemon socket now (send_output event) s)
               | exact (handlers_keep_daemon socket now (send_encrypted_output data) s)
               | exact (handlers_keep_daemon socket now (send_output_history data) s)
               | exact (handlers_keep_daemon socket now (send_input data) s)
               | exact (handlers_keep_daemon socket now (send_encrypted_input data) s)
               | exact (handlers_keep_daemon socket now get_history s) ]; fail).
  pose proof (Managed_with_session st socket (on_disconnect socket) HM
                (fun s => handlers_keep_daemon socket now disconnect s)) as HM1.
  assert (Hso : sockets (fst (with_session socket (on_disconnect socket) st)) = sockets st).
  { unfold with_session. destruct (heap st !! session socket); [|reflexivity].
    destruct (on_disconnect socket s); reflexivity. }
  destruct (with_session socket (on_disconnect socket) st) as [st1 out]. simpl in *.
  destruct HM1 as [H1 H2]. constructor; [|exact H2].
  intros k u Hk. simpl in Hk. apply lookup_delete_Some in Hk as [_ Hk]. exact (H1 k u Hk).
Qed.

Lemma Managed_fire_timer st now handle :
  Managed st -> Managed (fst (fire_timer now handle st)).
Proof.
  intros HM. unfold fire_timer.
  destruct (timers st !! handle) as [t|]; [|exact HM].
  destruct (due t <=? now); [|exact HM].
  assert (HM1 : Managed (clearTimeout handle st))
    by (eapply Managed_ext; [| | | |exact HM]; reflexivity).
  destruct (action t) as [sid|c r]; simpl.
  - destruct (sessions st !! sid) as [ref|] eqn:Hd; [|exact HM1].
    destruct (heap st !! ref) as [s|] eqn:Hr; [|exact HM1].
    destruct (negb (JS.truthy_str (cliSocketId s)) && _); [|exact HM1]. simpl.
    destruct HM as [H1 H2]. constructor; [exact H1|].
    intros sid' r0 s0 d Hk Hh Hb. simpl in *.
    apply lookup_delete_Some in Hk as [_ Hk]. exact (H2 sid' r0 s0 d Hk Hh Hb).
  - eapply Managed_ext; [| | | |exact HM]; reflexivity.
Qed.

Lemma Managed_post_daemon_command st now request command params random :
  Managed st -> Managed (fst (post_daemon_command now request command params random st)).
Proof.
  intros HM. unfold post_daemon_command.
  destruct command as [command|]; [|exact HM].
  destruct (negb _); [exact HM|].
  destruct (JS.map_first (cliDaemons st)) as [[k d]|]; [|exact HM].
  destruct (sockets st !! d_socketId d); [|exact HM]. simpl.
  eapply Managed_ext; [| | | |exact HM]; reflexivity.
Qed.

End RelayManaged.
Lemma detach_session_same st id' sid :
  sessions (fst (detach_session id' sid st)) = sessions st /\
  sockets (fst (detach_session id' sid st)) = sockets st /\
  cliDaemons (fst (detach_session id' sid st)) = cliDaemons st.
Proof. unfold detach_session. repeat case_match; auto. Qed.

Lemma detach_session_bound (P : string -> string -> Prop) st id' sid :
  Bound P st ->
  Bound (fun sid' d => P sid' d /\ ~ (sid' = sid /\ d = id'))
        (fst (detach_session id' sid st)).
Proof.
  intros HB. unfold detach_session.
  destruct (sessions st !! sid) as [ref|] eqn:Hd.
  2:{ intros sid' r s d A B C. split; [exact (HB _ _ _ _ A B C)|].
      intros [-> _]. simpl in A. congruence. }
  destruct (heap st !! ref) as [s0|] eqn:Hr.
  2:{ intros sid' r s d A B C. split; [exact (HB _ _ _ _ A B C)|].
      intros [-> _]. simpl in A, B. congruence. }
  case_bool_decide as Hb.
  - intros sid' r s d A B C. simpl in *.
    apply lookup_insert_Some in B as [[<- <-]|[Hne B]]; [discriminate|].
    split; [exact (HB _ _ _ _ A B C)|]. intros [-> _]. congruence.
  - intros sid' r s d A B C. split; [exact (HB _ _ _ _ A B C)|].
    intros [-> ->]. simpl in A, B. congruence.
Qed.

Lemma detach_all_same id' sids :
  forall st,
    sessions (fst (detach_all id' sids st)) = sessions st /\
    sockets (fst (detach_all id' sids st)) = sockets st /\
    cliDaemons (fst (detach_all id' sids st)) = cliDaemons st.
Proof.
  induction sids as [|sid rest IH]; intros st; simpl; [auto|].
  destruct (detach_session_same st id' sid) as (A1 & A2 & A3).
  destruct (detach_session id' sid st) as [st1 out1]. simpl in *.
  destruct (IH st1) as (B1 & B2 & B3).
  destruct (detach_all id' rest st1) as [st2 out2]. simpl in *.
  repeat split; congruence.
Qed.

Lemma detach_all_bound id' sids :
  forall (P : string -> string -> Prop) st,
    Bound P st ->
    Bound (fun sid' d => P sid' d /\ ~ (sid' ∈ sids /\ d = id'))
          (fst (detach_all id' sids st)).
Proof.
  induction sids as [|sid rest IH]; intros P st HB; simpl.
  - eapply Bound_impl; [|exact HB]. intros sid' d HP. split; [exact HP|].
    intros [Hin _]. apply elem_of_nil in Hin. exact Hin.
  - pose proof (detach_session_bound P st id' sid HB) as H1.
    destruct (detach_session id' sid st) as [st1 out1]. simpl in *.
    specialize (IH _ st1 H1). destruct (detach_all id' rest st1) as [st2 out2].
    simpl in *. eapply Bound_impl; [|exact IH].
    intros sid' d [[HP Hn1] Hn2]. split; [exact HP|].
    intros [Hin ->]. apply elem_of_cons in Hin as [->|Hin]; [apply Hn1|apply Hn2]; auto.
Qed.

Lemma Managed_on_daemon_socket st now id' u m :
  Inv st -> Listed st -> Named st -> Managed st ->
  sockets st !! id' = Some (DaemonSocket u) ->
  Managed (fst (on_daemon_socket now id' u m st)).
Proof.
  intros HI HL HN HM Hs.
  destruct (mg_registered st HM id' u Hs) as [daemon Hreg].
  destruct m as [| |ev|dat|dat|dat|dat| |cid cmd ps|response|sid key enc|sid| |];
    try exact HM; unfold on_daemon_socket.
  - (* cli-response *)
    unfold on_cli_response.
    destruct (pendingCommands st !! cr_commandId response) as [p|]; [|exact HM].
    destruct (cr_success response); (eapply Managed_ext; [| | | |exact HM]; reflexivity).
  - (* session-attached *)
    unfold on_session_attached.
    set (st1 := update_daemon id' _ st).
    assert (HL1 : Listed st1) by (apply Listed_update_daemon, HL).
    assert (HI1 : Inv st1) by (apply Inv_update_daemon; [exact HI | reflexivity]).
    assert (HN1 : Named st1) by (apply Named_update_daemon, HN).
    assert (Hc1 : cliDaemons st1
                  = JS.map_set id' (set_activeSessions
                                      (set_add sid (activeSessions daemon)) daemon)
                               (cliDaemons st))
      by (unfold st1, update_daemon; rewrite Hreg; reflexivity).
    destruct (update_daemon_heap st id'
                (fun d => set_activeSessions (set_add sid (activeSessions d)) d))
      as (Hh1 & _ & Hso1 & Hd1).
    fold st1 in Hh1, Hso1, Hd1.
    assert (Hme : managed_by st1 sid id').
    { eexists. rewrite Hc1, map_get_set_eq. split; [reflexivity|]. simpl.
      apply elem_of_set_add. left. reflexivity. }
    assert (HM1 : Managed st1).
    { destruct HM as [H1 H2]. constructor.
      - intros k u' Hk. rewrite Hso1 in Hk. rewrite Hc1, map_get_set.
        destruct (decide (k = id')); [eauto|exact (H1 k u' Hk)].
      - intros sid' r s d A B C. rewrite Hd1 in A. rewrite Hh1 in B.
        destruct (H2 sid' r s d A B C) as (dm & Hg & Hin).
        destruct (decide (d = id')) as [->|Hne].
        + rewrite Hreg in Hg. injection Hg as <-. eexists.
          rewrite Hc1, map_get_set_eq. split; [reflexivity|]. simpl.
          apply elem_of_set_add. right. exact Hin.
        + exists dm. rewrite Hc1, map_get_set_ne by assumption. auto. }
    clearbody st1.
    assert (HM2 : Managed (attach_session now id' u sid key enc st1)).
    { unfold attach_session. destruct (sessions st1 !! sid) as [r|] eqn:Hd.
      - destruct (inv_sessions st1 HI1 sid r Hd) as [s Hr].
        rewrite (attach_session_alter st1 r s _ Hr).
        destruct HM1 as [H1 H2]. constructor; [exact H1|].
        intros sid' r0 s0 d A B C. simpl in *.
        apply lookup_insert_Some in B as [[<- <-]|[_ B]].
        + simpl in C. injection C as <-.
          assert (sid' = sid) as ->
              by (rewrite <- (HN1 _ _ _ A Hr); exact (HN1 _ _ _ Hd Hr)).
          exact Hme.
        + exact (H2 sid' r0 s0 d A B C).
      - set (new := mkSession _ _ _ _ _ _ _ _ _ _ _ _).
        apply (Managed_create st1 sid new HL1 HM1).
        intros d [= <-]. exact Hme. }
    destruct u as [user|]; [|exact HM2].
    destruct (JS.truthy_str (Some user)); [|exact HM2].
    eapply Managed_ext; [| | | |exact HM2]; reflexivity.
  - (* session-detached *)
    unfold on_session_detached.
    set (st1 := update_daemon id' _ st).
    assert (Hc1 : cliDaemons st1
                  = JS.map_set id' (set_activeSessions
                                      (set_remove sid (activeSessions daemon)) daemon)
                               (cliDaemons st))
      by (unfold st1, update_daemon; rewrite Hreg; reflexivity).
    destruct (update_daemon_heap st id'
                (fun d => set_activeSessions (set_remove sid (activeSessions d)) d))
      as (Hh1 & _ & Hso1 & Hd1).
    fold st1 in Hh1, Hso1, Hd1.
    assert (HB1 : Bound (fun sid' d => managed_by st1 sid' d \/ (sid' = sid /\ d = id'))
                        st1).
    { intros sid' r s d A B C. rewrite Hd1 in A. rewrite Hh1 in B.
      destruct (mg_binding st HM sid' r s d A B C) as (dm & Hg & Hin).
      destruct (decide (d = id')) as [->|Hne].
      - destruct (decide (sid' = sid)) as [->|Hsid]; [right; auto|]. left.
        rewrite Hreg in Hg. injection Hg as <-. eexists.
        rewrite Hc1, map_get_set_eq. split; [reflexivity|]. simpl.
        apply elem_of_set_remove. auto.
      - left. exists dm. rewrite Hc1, map_get_set_ne by assumption. auto. }
    assert (Hr1 : forall k u', sockets st1 !! k = Some (DaemonSocket u') ->
                               is_Some (JS.map_get k (cliDaemons st1))).
    { intros k u' Hk. rewrite Hso1 in Hk. rewrite Hc1, map_get_set.
      destruct (decide (k = id')); [eauto|exact (mg_registered st HM k u' Hk)]. }
    clearbody st1.
    pose proof (detach_session_bound _ st1 id' sid HB1) as HB2.
    destruct (detach_session_same st1 id' sid) as (A1 & A2 & A3).
    destruct (detach_session id' sid st1) as [st2 out]. simpl in *.
    constructor.
    + intros k u'. rewrite A2, A3. apply Hr1.
    + intros sid' r s d A B C.
      destruct (HB2 sid' r s d A B C) as [[(dm & Hg & Hin)|Hex] Hno]; [|contradiction].
      exists dm. rewrite A3. auto.
  - (* disconnect *)
    unfold on_daemon_disconnect. rewrite Hreg.
    pose proof (detach_all_bound id' (activeSessions daemon) _ st (mg_binding st HM))
      as HB.
    destruct (detach_all_same id' (activeSessions daemon) st) as (A1 & A2 & A3).
    destruct (detach_all id' (activeSessions daemon) st) as [st1 out]. simpl in *.
    constructor; simpl.
    + intros k u' Hk. apply lookup_delete_Some in Hk as [Hne Hk].
      rewrite A2 in Hk. rewrite A3, map_get_delete_ne by congruence.
      exact (mg_registered st HM k u' Hk).
    + intros sid' r s d A B C. simpl in *.
      destruct (HB sid' r s d A B C) as [(dm & Hg & Hin) Hno].
      assert (Hne : d <> id').
      { intros ->. apply Hno. split; [|reflexivity].
        rewrite Hreg in Hg. injection Hg as <-. exact Hin. }
      exists dm. simpl. rewrite A3, map_get_delete_ne by assumption. auto.
Qed.

Section RelayManaged2.
Variable sha256_hex : string -> string.

Lemma Managed_step st now e :
  Inv st -> Listed st -> Named st -> Managed st ->
  Managed (fst (step sha256_hex now e st)).
Proof.
  intros HI HL HN HM.
  destruct e as [id' q|id' m|handle|request command params random]; simpl.
  - destruct (sockets st !! id') eqn:Hs; [exact HM|].
    apply Managed_on_connection; assumption.
  - destruct (sockets st !! id') as [[socket|u]|] eqn:Hs; [| |exact HM].
    + eapply Managed_on_session_socket; eassumption.
    + apply Managed_on_daemon_socket; assumption.
  - apply Managed_fire_timer, HM.
  - apply Managed_post_daemon_command, HM.
Qed.

Lemma Managed_run events :
  forall st, Inv st -> Listed st -> Named st -> Managed st ->
             Managed (fst (run sha256_hex events st)).
Proof.
  induction events as [|[now e] rest IH]; intros st HI HL HN HM; simpl; [exact HM|].
  pose proof (Managed_step st now e HI HL HN HM) as H0.
  pose proof (Named_step sha256_hex st now e HI HL HN) as H1.
  pose proof (Listed_step sha256_hex st now e HI HL) as H2.
  pose proof (Inv_step sha256_hex st now e HI) as H3.
  destruct (step sha256_hex now e st) as [st1 out1]. simpl in *.
  specialize (IH st1 H3 H2 H1 H0). destruct (run sha256_hex rest st1) as [st2 out2].
  exact IH.
Qed.

End RelayManaged2.

(** X29.  A daemon binding is live.  In every reachable state of the
    relay, a session in the directory that is bound to a daemon is bound
    to a connected daemon connection, which is registered and counts the
    session among its active sessions: [GET /api/sessions] reports
    [isDaemonManaged] only for such a session.  And whatever has happened
    before, once the relay has handled the ['disconnect'] of a daemon
    connection, no session in the directory is bound to it. *)
Theorem daemon_bindings_are_live (sha256_hex : string -> string)
    (events : list (Z * Event)) :
  (forall sid r s,
      sessions (fst (run sha256_hex events init)) !! sid = Some r ->
      heap (fst (run sha256_hex events init)) !! r = Some s ->
      ss_isDaemonManaged (session_summary sid s) = true ->
      exists d u daemon,
        daemonSocketId s = Some d /\
        sockets (fst (run sha256_hex events init)) !! d = Some (DaemonSocket u) /\
        JS.map_get d (cliDaemons (fst (run sha256_hex events init))) = Some daemon /\
        sid ∈ activeSessions daemon) /\
  (forall now d u sid r s,
      sockets (fst (run sha256_hex events init)) !! d = Some (DaemonSocket u) ->
      sessions (fst (step sha256_hex now (Received d disconnect)
                          (fst (run sha256_hex events init)))) !! sid = Some r ->
      heap (fst (step sha256_hex now (Received d disconnect)
                      (fst (run sha256_hex events init)))) !! r = Some s ->
      daemonSocketId s <> Some d).
Proof.
  pose proof (Inv_run sha256_hex events init Inv_init) as HI.
  pose proof (Listed_run sha256_hex events init Inv_init Listed_init) as HL.
  pose proof (Named_run sha256_hex events init Inv_init Listed_init Named_init) as HN.
  pose proof (Managed_run sha256_hex events init Inv_init Listed_init Named_init
                Managed_init) as HM.
  set (st := fst (run sha256_hex events init)) in *. clearbody st. split.
  - intros sid r s Hd Hr Hm. simpl in Hm.
    destruct (daemonSocketId s) as [d|] eqn:Hb; [|discriminate].
    destruct (mg_binding st HM sid r s d Hd Hr Hb) as (daemon & Hg & Hin).
    pose proof (map_get_elem _ _ _ Hg) as Hel.
    destruct (inv_daemons st HI _ _ Hel) as [_ [u Hu]].
    exists d, u, daemon. auto.
  - intros now d u sid r s Hs Hd Hr Hb.
    pose proof (Managed_step sha256_hex st now (Received d disconnect) HI HL HN HM) as HM'.
    destruct (mg_binding _ HM' sid r s d Hd Hr Hb) as (daemon & Hg & _).
    revert Hg. simpl. rewrite Hs. simpl. unfold on_daemon_disconnect.
    destruct (mg_registered st HM d u Hs) as [dm Hreg]. rewrite Hreg.
    destruct (detach_all_same d (activeSessions dm) st) as (_ & _ & A3).
    destruct (detach_all d (activeSessions dm) st) as [st1 out]. simpl in *.
    rewrite map_get_delete_eq. discriminate.
Qed.
